(* ===== verification/_CoqProject ===== *)
-Q . S2P
Prelude.v
GoInt.v
GoString.v
GoTime.v
GoParse.v
GoFloat.v
Utf8.v
Json.v
JsonProps.v
Types.v
Ranking.v
DynamicBids.v
JsonCodec.v
Breaker.v
Engine.v
DecisionLog.v
Redis.v
Store.v
BidStore.v
Cache.v
Auction.v
Metrics.v
MetricsRun.v
Config.v
Server.v
CacheRun.v
Loops.v
Samples.v
StoreProps.v
StoreRun.v
CacheProps.v
CacheFresh.v
LoopsProps.v
LoopsFresh.v
AuctionProps.v
EngineInv.v
EngineHistory.v
EngineProps.v
ServerProps.v
Wire.v
HttpBidder.v
LoadTest.v
LoadProps.v
Main.v
Handlers.v
HandlerSpec.v
System.v
SystemInv.v
SystemProps.v
Shutdown.v
SystemLive.v
SystemSeq.v
Background.v
Service.v
SystemSamples.v
