(* ===== verification/Prelude.v ===== *)
(** * adserver: a verification development (root file)

    The program under src/ is an advertisement server. Bids live in Redis
    (internal/ads/store.go); every server keeps a snapshot per placement (cache.go) and
    answers auctions from memory (auction.go, server.go), with bids of external DSPs
    that a background engine collects ahead of time (dynamic_bidding.go,
    http_bidder.go); it counts and logs what it does (metrics.go, decision_log.go) and
    is configured by environment variables (types.go, cmd/adserver/main.go). The
    development models all of this, function by function, and proves what each part
    promises, what the parts promise together while they run concurrently, and what a
    client can rely on from the environment the program starts in to the answer.

    ** Files, and the code they model

    Foundations. [Prelude]: notations, tactics, hint databases, lemmas on lists, options
    and sums over maps. [GoInt], [GoTime], [GoString], [GoParse], [GoFloat]: the parts
    of Go the source uses: 64-bit integers with their wrap-around, the saturating time
    arithmetic, string functions of package strings, strconv and time parsing with
    their ranges and errors, and float64 products.

    JSON. [Utf8]: runes and their encoding. [Json]: the grammar of encoding/json as a
    reader of values, and the writer; [JsonProps]: that values are read back.
    [JsonCodec]: the structs of types.go and dynamic_bidding.go, filled from JSON and
    written as it. [Wire]: the text of every response of server.go.

    Data and auctions. [Types] (types.go): bids, requests, policies, their validation.
    [Ranking] (auction.go, and [sortBids] of store.go): the order of bids, the
    accumulator's single pass, the price a winner pays. [Auction] and [AuctionProps]
    (auction.go): the auctioneer, a declarative specification and the refinement.

    The registry (store.go). [Redis]: the commands of Redis as a class with their
    documented laws, and the two Lua scripts over it, with Lua's numbers. [Store]: the
    store's methods over a network that repeats and loses deliveries, the registry
    they implement and the invariant [Consistent] of every reachable database.
    [BidStore]: the interface of store.go as a class with its laws; the Redis store is
    its instance, and the cache and the server are verified against the class.
    [StoreProps]: the properties. [StoreRun]: the writers of several servers,
    interleaved command by command over one Redis.

    The snapshot cache (cache.go). [Cache]: its operations in sequence. [CacheRun]: its
    goroutines (refreshes, reconciliations, invalidations) interleaved at their atomic
    steps, as executable [exec] and relation [step]. [CacheProps]. [CacheFresh]: what the
    snapshots hold, compared with the registry. [Loops], [LoopsProps]
    (cache.go, and [Subscribe] of store.go): the subscription loop with its forwarding
    goroutine, and the ticker's loop, over [CacheRun]. [LoopsFresh]: what these loops
    achieve over a Redis that answers.

    DSPs. [DynamicBids]: the sanitizer and the bounded cache with expiry. [Breaker]: the
    circuit breaker. [Engine]: construction, lookups, and refreshes with a worker per
    bidder call, with slots, semaphores and cancellation, interleaved at their
    synchronisation points. [EngineInv], [EngineHistory], [EngineProps]: the invariant,
    what an execution keeps and where its bids come from, and the properties.
    [HttpBidder] (http_bidder.go): the requests sent, with the redirects that the client
    of net/http follows, and what is made of each response.

    The server. [DecisionLog], [Metrics], [Config] (the configuration part of types.go).
    [MetricsRun]: a metrics page at the grain of its atomic loads.
    [Server], [ServerProps] (server.go): routing and every handler, run one at a time.
    [Main] (main.go): from the environment to the server that listens. [LoadTest],
    [LoadProps] (cmd/loadtest): the sizes asked for, the clients, the collector and the
    report.

    The running process. [Handlers]: each handler as a program of the atomic operations
    it performs on what the handlers share. [HandlerSpec]: a program logic for them
    that is stable under interference. [System]: the whole process as one step
    relation, handlers and all goroutines interleaved. [SystemInv]: every step is a
    sequence of steps of each component, and the accounting invariant. [SystemProps],
    [SystemLive], [SystemSeq], [Service]: the properties. [Background]: the loops of the
    cache as goroutines of the process. [Shutdown] (main.go): from the signal to the
    return of [main], over [System]. [Samples] and [SystemSamples]: concrete data and
    executions, and the theorems applied to them.

    ** What the theorems show

    - End to end ([Service.service_sound]): from any environment, consistent registry
      and network faults, whatever is interleaved, the registry stays consistent, and
      every filled auction sold an eligible bid of a snapshot that was fresh enough, or
      of a configured bidder, at a price within both floors and the bid's own price.
      A write is visible for good after the next refresh of its placement, or the next
      reconciliation ([writes_become_visible]), unless a refresh that read before it is
      still to store ([slow_refresh_rolls_back]).
    - The running process: its components behave as they do alone
      ([system_refines_components]); every answer is explained by states the execution
      passed through while the handler ran ([answers_sound]); counters, request IDs and
      the log account for exactly the exchanges there were ([counters_concurrent],
      [log_concurrent]); no handler waits for another, and auctions do no I/O
      ([handlers_wait_free]); the concurrent handlers agree with the sequential ones
      ([Handler_is_execution]). With the loops of the cache in it, the process is still
      the running server, and the loops are what they are alone ([node_refines]); and
      from any of its states the loops bring every placement that was announced, and
      with a tick every placement of the index, up to date with the registry in a
      bounded number of their own steps ([loops_keep_up]).
    - The registry: upserts and deletes refine an abstract registry of revisions under
      repeated and lost deliveries; reads return the active bids in order; a tombstone
      blocks older writes. Concurrent writers linearize at their scripts, although
      commands are lost, repeated and delayed past their call ([writes_linearize]); the
      newest write wins in any order ([newest_write_wins]); the store's methods are
      executions of these writers ([store_calls_are_executions]).
    - Auctions: the code's single pass computes the declarative winner and price, in
      any order of the candidates; the clearing price is within its bounds; deals outrank
      DSP bids, whatever a DSP sends.
    - JSON: bids and responses are read back exactly from their text
      ([bid_json_roundtrip], [answers_read_back]), and whatever text is decoded gives
      numbers in range and strings that can be written again ([decoded_bids_sound]).
    - The cache: snapshots are always valid, of their own placement, from the past, and
      refreshed by one goroutine at a time; warming serves the whole registry; a
      refresh ends. Its loops hand over every invalidation in order
      ([messages_in_order]), do not get stuck ([loops_progress]) and keep their pace
      when Redis is down or slow ([loops_paced]).
    - The end: an orderly shutdown loses no request and no log entry
      ([shutdown_loses_nothing]), and the process ends: the servers share one deadline
      of five seconds, after which main waits only for the writer of the log
      ([shutdown_ends]).
    - A metrics page shows values its counters had, and its lines disagree by at most
      the auctions recorded while it was written ([page_accounts]).
    - The load test starts exactly when its flags and the sizes it computes from them
      allow, and then reports exactly the answers there were, each percentile the
      latency of its rank, and ends ([load_test_report], [load_test_ends]).
    - The engine: the configured bounds on refreshes, calls and entries in every state
      ([engine_bounds]), single flight, the end of every refresh within a number of own
      steps with its slot, tokens and mark given back ([engine_refresh_terminates]), and
      lookups that give unexpired bids which a DSP answered to a request of the same
      cache key ([lookup_sound]).
    - The DSP client: at most ten requests a call, what they are and what they disclose,
      and which answers give bids ([http_Fetch_exact]).
    - The server: each endpoint's response and effect on every branch, the counters of
      a history of requests, authorisation, and startup with its exit codes.

    ** Conventions, bounds and fuel

    A 64-bit integer is a [Z] with its range as an invariant and Go's wrap-around written
    out ([int64], [uint64], the notations of [GoInt]). Time is a count of nanoseconds;
    readings of the clock are arguments, assumed to be before the year 2262 where a
    snapshot stores them as nanoseconds. What is not under src/ is a class or an
    argument: the commands of Redis are the class [Redis] with their documented laws
    and an instance in memory; the parser of URLs is the class [URLParser]; the
    iteration order of Go's maps, what the network does and what the client library
    delivers are arguments or events. Go's own encoding/json, utf8 and strconv are
    modelled. Loops recurse on their lists, retries on the constant number of attempts,
    executions on their events. Fuel is used where a loop consumes its input: the text
    of a duration and the white space of a string, where every round takes at least a
    byte and the fuel is the length; a JSON text, where every two calls take a byte
    ([parse_fuel], and any more fuel gives the same, [first_value_fuel]); and the
    draining of the log, where it is one more than the queue ([drain_spec]). The bounds
    on own steps are proved: a handler takes at most seventeen, a refresh of the engine
    at most [steps_left] of the number of bidders, [main] at most six after a signal,
    the loops of the cache at most eleven for a message that waits and four for each
    placement with a tick, and the load test at most [bench_cost] after its deadline.
    The client of net/http follows at most nine redirects ([maxRedirects]), which is its
    default policy. A channel or a slice of the load test is refused above 2^48 bytes
    ([maxAlloc]), the limit of Go's allocator on 64-bit machines; positions among fewer
    than 2^45 samples are then exact in float64.

    ** Not modelled

    - The client library of Redis: its connections and its subscription. What it
      delivers, that it hangs up and that a call fails are events of [Loops], and its
      [Close] is a step of [Shutdown].
    - HTTP below the values handlers exchange, the parsing of URLs, TLS. Of a request
      that follows a redirect, the headers other than the authorization (the client may
      add a Referer); the transport's own repetition of a request on a connection that
      turns out to be closed.
    - In [main]: the text of log lines, the handlers of the profiler (net/http/pprof),
      and how the signal arrives. In cmd/loadtest: the parsing of flags and the format
      of the printed line.
    - Memory: sizes up to [maxAlloc] are taken as available, and so is what append asks
      for.
    - The text of the errors of Redis is one constant, [redis_error].
    - Granularity: in [System] a call of the store, with its retries, is one step, a
      metrics page reads all counters at one moment, and the counters one decision
      moves are moved together. Each is a sequence of atomic operations in the code;
      [StoreRun] has the commands of the store's writers one by one, and [MetricsRun]
      the loads and adds of a page and of an auction. In [Engine] a worker counts its
      result, tells its breaker and hands the result over in one step, and returns its
      token as it leaves the wait group; of these the counter is read by the metrics
      page only, and the results and the wait group by the worker's own refresh, after
      all its workers.
    - Weak fairness: what is proved of termination bounds a goroutine's own steps or its
      work; that the scheduler of Go runs it, and the timeouts of contexts in the calls
      of the store, are not modelled (a call may fail at any moment).

    ** Plan

    The parts above are modelled. What could be added is a [System] whose steps are the
    commands of [StoreRun]. *)

From stdpp Require Export base tactics list list_numbers gmap strings sorting relations.
From Stdlib Require Export ZArith Lia.

#[global] Open Scope Z_scope.

(** ** Notations of the development *)

Declare Scope go_scope.
Delimit Scope go_scope with go.

(** ** Hint databases

    [ads] holds the resolution hints (side conditions that close by applying one
    lemma), [ads_simpl] the rewriting equations of the model's definitions. *)
Create HintDb ads discriminated.
Create Rewrite HintDb ads_simpl.

(** ** Boolean reasoning

    The model's guards are booleans, as in the code; the tactics below turn the
    boolean facts of the context into propositions and split on the comparison a
    goal is stuck on. *)

Lemma negb_Is_true (b : bool) : negb b = true <-> b = false.
Proof. destruct b; naive_solver. Qed.

Ltac bool_hyp H :=
  lazymatch type of H with
  | (_ && _)%bool = true => apply andb_true_iff in H; destruct H
  | (_ || _)%bool = false => apply orb_false_iff in H; destruct H
  | (_ || _)%bool = true => apply orb_true_iff in H
  | (_ && _)%bool = false => apply andb_false_iff in H
  | negb _ = true => apply negb_true_iff in H
  | negb _ = false => apply negb_false_iff in H
  | (_ <? _)%Z = true => apply Z.ltb_lt in H
  | (_ <? _)%Z = false => apply Z.ltb_ge in H
  | (_ <=? _)%Z = true => apply Z.leb_le in H
  | (_ <=? _)%Z = false => apply Z.leb_gt in H
  | (_ =? _)%Z = true => apply Z.eqb_eq in H
  | (_ =? _)%Z = false => apply Z.eqb_neq in H
  | String.eqb _ _ = true => apply String.eqb_eq in H
  | String.eqb _ _ = false => apply String.eqb_neq in H
  | bool_decide _ = true => apply bool_decide_eq_true in H
  | bool_decide _ = false => apply bool_decide_eq_false in H
  end.

Ltac bool_hyps :=
  repeat match goal with
  | H : @eq bool _ _ |- _ => bool_hyp H
  | H : @eq bool _ _ \/ _ |- _ => destruct H as [H|H]
  end.

(** Split on the boolean test that blocks the goal (or hypothesis). *)
Ltac case_test :=
  match goal with
  | |- context [if ?b then _ else _] =>
      lazymatch type of b with bool => let E := fresh "E" in destruct b eqn:E end
  | H : context [if ?b then _ else _] |- _ =>
      lazymatch type of b with bool => let E := fresh "E" in destruct b eqn:E end
  end.

Ltac split_tests := repeat (case_test; bool_hyps; simplify_eq/=).

(** ** Lists *)

Section list_facts.
Context {A : Type}.

(** The largest element of a list of integers, at least the start value. *)
Definition zmax_list (d : Z) (l : list Z) : Z := foldr Z.max d l.

Lemma zmax_list_ge d l : d <= zmax_list d l.
Proof. induction l; simpl; lia. Qed.

Lemma zmax_list_app d l1 l2 : zmax_list d (l1 ++ l2) = Z.max (zmax_list d l1) (zmax_list d l2).
Proof.
  induction l1 as [|x l1 IH]; simpl; [|rewrite IH; lia].
  pose proof (zmax_list_ge d l2). lia.
Qed.

Lemma zmax_list_elem d l x : x ∈ l -> x <= zmax_list d l.
Proof. induction 1; simpl; lia. Qed.

Lemma zmax_list_le d l u : d <= u -> Forall (fun x => x <= u) l -> zmax_list d l <= u.
Proof. intros Hd. induction 1; simpl; lia. Qed.

Lemma zmax_list_in d l : zmax_list d l = d \/ zmax_list d l ∈ l.
Proof.
  induction l as [|x l [IH|IH]]; simpl; [by left| |].
  - rewrite IH. destruct (Z.max_spec x d) as [[? ->]|[? ->]]; [by left|right; by left].
  - destruct (Z.max_spec x (zmax_list d l)) as [[? ->]|[? ->]]; right; [by right|by left].
Qed.

Lemma zmax_list_perm d l1 l2 : l1 ≡ₚ l2 -> zmax_list d l1 = zmax_list d l2.
Proof. induction 1; simpl; lia. Qed.

Lemma Forall_elem (P : A -> Prop) l x : Forall P l -> x ∈ l -> P x.
Proof. intros H. rewrite Forall_forall in H. auto. Qed.

Lemma filter_app_split (P : A -> Prop) `{!∀ x, Decision (P x)} l1 x l2 :
  P x -> filter P (l1 ++ x :: l2) = filter P l1 ++ x :: filter P l2.
Proof. intros Hx. rewrite filter_app, filter_cons_True by done. done. Qed.

Lemma length_omap_le {B C} (f : B -> option C) (l : list B) : (length (omap f l) <= length l)%nat.
Proof. induction l as [|x l IH]; [done|]. csimpl. destruct (f x); simpl; lia. Qed.

Lemma filter_none (P : A -> Prop) `{!∀ x, Decision (P x)} (l : list A) : (forall x, x ∈ l -> ~ P x) -> filter P l = [].
Proof.
  induction l as [|x l IH]; intros Hn; [done|]. rewrite filter_cons_False by (apply Hn; by left).
  apply IH. intros y Hy. apply Hn. by right.
Qed.
End list_facts.

Lemma filter_fmap_comm {A B} (f : A -> B) (P : A -> Prop) (Q : B -> Prop) `{!∀ x, Decision (P x)} `{!∀ y, Decision (Q y)}
    (l : list A) :
  (forall x, P x <-> Q (f x)) -> f <$> filter P l = filter Q (f <$> l).
Proof.
  intros HPQ. induction l as [|x l IH]; [done|]. rewrite fmap_cons, !filter_cons.
  repeat case_decide; rewrite ?fmap_cons, ?IH; naive_solver.
Qed.

#[export] Hint Resolve zmax_list_ge : ads.

(** ** Reachability

    State machines of the development are step relations; an invariant is proved
    once from its initial states and its preservation by one step. *)
Section reachability.
Context {S : Type} (step : S -> S -> Prop).

Lemma rtc_invariant (I : S -> Prop) :
  (forall s s', I s -> step s s' -> I s') ->
  forall s s', rtc step s s' -> I s -> I s'.
Proof. intros Hstep s s' Hrtc. induction Hrtc; eauto. Qed.
End reachability.

(** Success, as a boolean to evaluate. *)
Definition is_Someb {A} (o : option A) : bool := match o with Some _ => true | None => false end.
Lemma is_Someb_ok {A} (o : option A) : is_Someb o = true -> is_Some o.
Proof. destruct o; [eauto|done]. Qed.

(** ** Sums over the threads of a state *)

Section map_sums.
Context {A : Type}.
Implicit Types (f g : A -> Z) (m : gmap nat A).

Definition map_sum f m : Z := map_fold (fun _ a acc => f a + acc) 0 m.

Lemma map_sum_empty f : map_sum f ∅ = 0.
Proof. done. Qed.

Lemma map_sum_insert f m k x : m !! k = None -> map_sum f (<[k:=x]> m) = f x + map_sum f m.
Proof.
  intros Hk. unfold map_sum. rewrite (map_fold_insert_L _ _ k x m); [done| |done]. intros. lia.
Qed.

Lemma map_sum_alter f m k x o :
  m !! k = Some x -> map_sum f (partial_alter (fun _ => o) k m) = map_sum f m - f x + from_option f 0 o.
Proof.
  intros Hk. assert (Hm : map_sum f m = f x + map_sum f (delete k m)).
  { rewrite <- (insert_delete_id m k x Hk) at 1. apply map_sum_insert, lookup_delete_eq. }
  destruct o as [y|]; simpl.
  - assert (Hy : partial_alter (fun _ => Some y) k m = <[k:=y]> (delete k m)).
    { apply map_eq. intros j. destruct (decide (j = k)) as [->|Hj].
      - by rewrite lookup_partial_alter_eq, lookup_insert_eq.
      - by rewrite lookup_partial_alter_ne, lookup_insert_ne, lookup_delete_ne. }
    rewrite Hy, map_sum_insert by apply lookup_delete_eq. lia.
  - change (partial_alter (fun _ => None) k m) with (delete k m). lia.
Qed.

Lemma map_sum_update f m k x y : m !! k = Some x -> map_sum f (<[k:=y]> m) = map_sum f m - f x + f y.
Proof. apply (map_sum_alter f m k x (Some y)). Qed.

Lemma map_sum_le f g m : (forall k x, m !! k = Some x -> f x <= g x) -> map_sum f m <= map_sum g m.
Proof.
  induction m as [|k x m Hk IH] using map_ind; intros Hfg; [by rewrite !map_sum_empty|].
  rewrite !map_sum_insert by done. pose proof (Hfg k x (lookup_insert_eq _ _ _)).
  assert (map_sum f m <= map_sum g m); [|lia]. apply IH. intros j y Hj. apply (Hfg j).
  rewrite lookup_insert_ne; [done|congruence].
Qed.

Lemma map_sum_nonneg f m : (forall k x, m !! k = Some x -> 0 <= f x) -> 0 <= map_sum f m.
Proof.
  intros Hf. apply Z.le_trans with (map_sum (fun _ => 0) m); [|by apply map_sum_le].
  clear Hf. induction m as [|k x m Hk IH] using map_ind; [done|]. rewrite map_sum_insert by done. lia.
Qed.

Lemma map_sum_add f g m : map_sum (fun x => f x + g x) m = map_sum f m + map_sum g m.
Proof.
  induction m as [|k x m Hk IH] using map_ind; [done|]. rewrite !map_sum_insert by done. rewrite IH. lia.
Qed.

Lemma map_sum_size f m : (forall k x, m !! k = Some x -> 0 <= f x <= 1) -> 0 <= map_sum f m <= Z.of_nat (size m).
Proof.
  intros Hf. split; [apply map_sum_nonneg; intros k x Hk; by apply (Hf k)|].
  induction m as [|k x m Hk IH] using map_ind; [done|]. rewrite map_sum_insert, map_size_insert_None by done.
  pose proof (Hf k x (lookup_insert_eq _ _ _)). assert (map_sum f m <= Z.of_nat (size m)); [|lia].
  apply IH. intros j y Hj. apply (Hf j). rewrite lookup_insert_ne; [done|congruence].
Qed.

Lemma map_sum_scale f m c : map_sum (fun x => c * f x) m = c * map_sum f m.
Proof.
  induction m as [|k x m Hk IH] using map_ind; [rewrite !map_sum_empty; lia|].
  rewrite !map_sum_insert by done. rewrite IH. lia.
Qed.
End map_sums.

(** Sums over two maps with the same keys, value by value. *)
Lemma map_sum_match {A B} (f : A -> Z) (g : B -> Z) (m : gmap nat A) (m2 : gmap nat B) :
  (forall k, is_Some (m !! k) <-> is_Some (m2 !! k)) ->
  (forall k x y, m !! k = Some x -> m2 !! k = Some y -> f x = g y) -> map_sum f m = map_sum g m2.
Proof.
  revert m2. induction m as [|k x m Hk IH] using map_ind; intros m2 Hd Hfg.
  - assert (m2 = ∅) as ->; [|done]. apply map_eq. intros k. rewrite lookup_empty. apply eq_None_not_Some.
    rewrite <- (Hd k), lookup_empty. apply is_Some_None.
  - destruct (proj1 (Hd k)) as [y Hy]; [by rewrite lookup_insert_eq|].
    rewrite map_sum_insert by done. rewrite <- (insert_delete_id m2 k y Hy), map_sum_insert by apply lookup_delete_eq.
    rewrite (Hfg k x y) by (done || apply lookup_insert_eq). f_equal. apply IH.
    + intros j. destruct (decide (j = k)) as [->|Hj].
      * rewrite Hk, lookup_delete_eq. by split; intros [].
      * rewrite lookup_delete_ne by done. rewrite <- (Hd j). by rewrite lookup_insert_ne.
    + intros j a b Ha Hb. destruct (decide (j = k)) as [->|Hj]; [congruence|].
      rewrite lookup_delete_ne in Hb by done. apply (Hfg j); [|done]. by rewrite lookup_insert_ne.
Qed.

(** ** Marks held by threads

    A set of keys that threads mark and unmark, each key by at most one thread:
    the in-flight sets of the two caches. [owner] is the key a thread holds. *)
Section marks.
Context {A : Type} (owner : A -> option string).
Implicit Types (marks : gset string) (ts : gmap nat A).

Definition holds ts (tid : nat) (k : string) : Prop := ts !! tid ≫= owner = Some k.

Definition marks_ok marks ts : Prop :=
  (forall k, k ∈ marks <-> exists tid, holds ts tid k)
  /\ (forall k tid1 tid2, holds ts tid1 k -> holds ts tid2 k -> tid1 = tid2).

Definition set_thread (tid : nat) (t : option A) ts : gmap nat A := partial_alter (fun _ => t) tid ts.

Lemma set_thread_lookup tid tid' t ts :
  set_thread tid t ts !! tid' = if decide (tid' = tid) then t else ts !! tid'.
Proof. unfold set_thread. case_decide; subst; [apply lookup_partial_alter_eq|by apply lookup_partial_alter_ne]. Qed.

Lemma holds_set ts tid t tid' k :
  holds (set_thread tid t ts) tid' k <-> (if decide (tid' = tid) then t ≫= owner = Some k else holds ts tid' k).
Proof. unfold holds. rewrite set_thread_lookup. by case_decide. Qed.

(** A change of one thread that leaves the marks alone, releases or acquires one. *)
Lemma marks_keep marks ts tid t :
  marks_ok marks ts -> t ≫= owner = ts !! tid ≫= owner -> marks_ok marks (set_thread tid t ts).
Proof.
  intros [Hf Hs] Ht.
  assert (Hh : forall tid' k, holds (set_thread tid t ts) tid' k <-> holds ts tid' k).
  { intros tid' k. rewrite holds_set. case_decide; [|done]. subst. unfold holds. by rewrite Ht. }
  split.
  - intros k. rewrite Hf. by setoid_rewrite Hh.
  - intros k t1 t2. rewrite !Hh. apply Hs.
Qed.

Lemma marks_release marks ts tid t k :
  marks_ok marks ts -> holds ts tid k -> t ≫= owner = None -> marks_ok (marks ∖ {[k]}) (set_thread tid t ts).
Proof.
  intros [Hf Hs] Hk Ht. split.
  - intros q. rewrite elem_of_difference, Hf, not_elem_of_singleton. split.
    + intros [(tid' & Hq) Hne]. exists tid'. apply holds_set. case_decide; [|done].
      subst. unfold holds in *. congruence.
    + intros (tid' & Hq). apply holds_set in Hq. case_decide as Hd; [congruence|]. split; [eauto|].
      intros ->. by apply Hd, (Hs k).
  - intros q t1 t2 H1 H2. apply holds_set in H1, H2.
    destruct (decide (t1 = tid)) as [->|], (decide (t2 = tid)) as [->|]; try congruence. by apply (Hs q).
Qed.

Lemma marks_acquire marks ts tid t k :
  marks_ok marks ts -> k ∉ marks -> ts !! tid ≫= owner = None -> t ≫= owner = Some k ->
  marks_ok ({[k]} ∪ marks) (set_thread tid t ts).
Proof.
  intros [Hf Hs] Hk Hn Ht.
  assert (Hno : forall tid', ~ holds ts tid' k) by (intros tid' Hh; apply Hk, Hf; eauto).
  split.
  - intros q. rewrite elem_of_union, elem_of_singleton, Hf. split.
    + intros [->|(tid' & Hq)].
      * exists tid. apply holds_set. by rewrite decide_True.
      * exists tid'. apply holds_set. rewrite decide_False; [done|]. intros ->. unfold holds in Hq. congruence.
    + intros (tid' & Hq). apply holds_set in Hq. case_decide; [|eauto]. left. congruence.
  - intros q t1 t2 H1 H2. apply holds_set in H1, H2.
    destruct (decide (t1 = tid)) as [->|], (decide (t2 = tid)) as [->|]; [done|..].
    + rewrite Ht in H1. injection H1 as <-. by destruct (Hno t2).
    + rewrite Ht in H2. injection H2 as <-. by destruct (Hno t1).
    + by apply (Hs q).
Qed.
End marks.
