(* ===== verification/GoInt.v ===== *)
(** * Go's 64-bit integers

    [int], [int64] and [time.Duration] are signed 64-bit integers, [uint64] and the
    [atomic.Uint64] counters unsigned ones (the program targets 64-bit platforms).
    A value is a [Z] in range; every arithmetic operation wraps around the way the
    Go specification says. *)

From S2P Require Import Prelude.

Definition MaxInt64 : Z := 9223372036854775807.
Definition MinInt64 : Z := -9223372036854775808.
Definition MaxUint64 : Z := 18446744073709551615.

(** Conversion to the type: the value modulo 2^64, in the type's range. *)
Definition int64 (z : Z) : Z := (z + 9223372036854775808) mod 18446744073709551616 - 9223372036854775808.
Definition uint64 (z : Z) : Z := z mod 18446744073709551616.

Definition is_int64 (z : Z) : Prop := MinInt64 <= z <= MaxInt64.
Definition is_uint64 (z : Z) : Prop := 0 <= z <= MaxUint64.

#[export] Instance is_int64_dec z : Decision (is_int64 z).
Proof. unfold is_int64. apply _. Defined.
#[export] Instance is_uint64_dec z : Decision (is_uint64 z).
Proof. unfold is_uint64. apply _. Defined.

(** [+], [-], [*], [/] and [%] of Go on [int64]: [/] truncates towards zero and
    [%] has the sign of the dividend. *)
Notation "x +i y" := (int64 (x + y)) (at level 50, left associativity) : go_scope.
Notation "x -i y" := (int64 (x - y)) (at level 50, left associativity) : go_scope.
Notation "x *i y" := (int64 (x * y)) (at level 40, left associativity) : go_scope.
Notation "x /i y" := (int64 (Z.quot x y)) (at level 40, left associativity) : go_scope.
Notation "x %i y" := (Z.rem x y) (at level 40, left associativity) : go_scope.

Ltac unfold_int := unfold is_int64, is_uint64, MaxInt64, MinInt64, MaxUint64 in *.

Lemma int64_id z : is_int64 z -> int64 z = z.
Proof. unfold_int. intros. unfold int64. rewrite Z.mod_small; lia. Qed.

Lemma uint64_id z : is_uint64 z -> uint64 z = z.
Proof. unfold_int. intros. unfold uint64. rewrite Z.mod_small; lia. Qed.

Lemma int64_range z : is_int64 (int64 z).
Proof. unfold_int. unfold int64. pose proof (Z.mod_pos_bound (z + 9223372036854775808) 18446744073709551616). lia. Qed.

Lemma uint64_range z : is_uint64 (uint64 z).
Proof. unfold_int. unfold uint64. pose proof (Z.mod_pos_bound z 18446744073709551616). lia. Qed.

(** Intermediate wrap-arounds of a sum do not matter. *)
Lemma int64_add_mul z k : int64 (z + k * 18446744073709551616) = int64 z.
Proof.
  unfold int64. replace (z + k * 18446744073709551616 + 9223372036854775808)
    with ((z + 9223372036854775808) + k * 18446744073709551616) by lia.
  by rewrite Z.mod_add.
Qed.

Lemma int64_add_l a b : int64 (int64 a + b) = int64 (a + b).
Proof.
  rewrite <- (int64_add_mul (int64 a + b) ((a + 9223372036854775808) / 18446744073709551616)).
  f_equal. unfold int64. pose proof (Z.div_mod (a + 9223372036854775808) 18446744073709551616). lia.
Qed.

Lemma uint64_add_l a b : uint64 (uint64 a + b) = uint64 (a + b).
Proof. unfold uint64. by rewrite Zplus_mod_idemp_l. Qed.

(** One wrap-around of an overflowing addition of two non-negative values: the
    result is the exact sum less 2^64, which is negative. *)
Lemma int64_overflow z :
  MaxInt64 < z <= 2 * MaxInt64 -> int64 z = z - 18446744073709551616.
Proof.
  unfold_int. intros. unfold int64.
  replace (z + 9223372036854775808) with ((z - 9223372036854775808) + 1 * 18446744073709551616) by lia.
  rewrite Z.mod_add, Z.mod_small by lia. lia.
Qed.

#[export] Hint Resolve int64_range uint64_range : ads.
#[export] Hint Rewrite int64_id uint64_id using (unfold_int; lia) : ads_simpl.

(** An [atomic.Uint64] counter's [Add]. *)
Definition counter_add (c n : Z) : Z := uint64 (c + n).

(** [max] and [min] of Go's builtins on integers are [Z.max] and [Z.min]. *)
