(* ===== verification/GoString.v ===== *)
(** * Go strings and the parts of [strings] and [strconv] the program uses

    A Go string is a byte string; here it is the Standard Library's [string], whose
    characters are the 256 bytes. [len] counts bytes, [<] is the bytewise
    lexicographic order. *)

From S2P Require Import Prelude GoInt.
From Stdlib Require Import Ascii String.
Export Ascii.AsciiSyntax.

#[global] Open Scope string_scope.
#[global] Open Scope Z_scope.

#[global] Arguments String.append : simpl nomatch.

Definition len (s : string) : Z := Z.of_nat (String.length s).

(** [a < b] on strings. *)
Definition string_lt (a b : string) : bool := String.ltb a b.

Fixpoint string_forall (P : ascii -> bool) (s : string) : bool :=
  match s with
  | EmptyString => true
  | String c s' => P c && string_forall P s'
  end.

Definition string_exists (P : ascii -> bool) (s : string) : bool :=
  negb (string_forall (fun c => negb (P c)) s).

(** [strings.ContainsAny] with an ASCII set of characters. *)
Definition ContainsAny (s chars : string) : bool :=
  string_exists (fun c => string_exists (Ascii.eqb c) chars) s.

Definition lacks (c : ascii) (s : string) : Prop :=
  string_forall (fun c' => negb (Ascii.eqb c c')) s = true.

#[global] Arguments lacks c%_char s%_string.

(** [strings.Join(parts, ":")]. *)
Fixpoint join_colon (parts : list string) : string :=
  match parts with
  | [] => ""
  | [p] => p
  | p :: ps => p +:+ ":" +:+ join_colon ps
  end.

(** ** strconv *)

Definition byte_of_Z (z : Z) : ascii := Ascii.ascii_of_N (Z.to_N z).
Definition byte_val (c : ascii) : Z := Z.of_N (Ascii.N_of_ascii c).

(** The digit alphabet of [strconv.FormatUint]: 0-9 then a-z. *)
Definition digit_char (d : Z) : ascii :=
  if d <? 10 then byte_of_Z (48 + d) else byte_of_Z (87 + d).

Definition digit_val (c : ascii) : option Z :=
  let v := byte_val c in
  if (48 <=? v) && (v <=? 57) then Some (v - 48)
  else if (97 <=? v) && (v <=? 122) then Some (v - 87)
  else if (65 <=? v) && (v <=? 90) then Some (v - 55)
  else None.

(** The digits of [n], least significant first, put before [acc]. *)
Fixpoint format_digits (fuel : nat) (base n : Z) (acc : string) : string :=
  match fuel with
  | O => acc
  | S fuel' =>
      let acc' := String (digit_char (n mod base)) acc in
      if n <? base then acc' else format_digits fuel' base (n / base) acc'
  end.

(** [strconv.FormatUint(n, base)]. A 64-bit value has at most 64 digits, which is
    also the size of the buffer strconv formats into. *)
Definition FormatUint (n base : Z) : string := format_digits 64 base n "".

(** [strconv.FormatInt(n, base)]. *)
Definition FormatInt (n base : Z) : string :=
  if n <? 0 then "-" +:+ FormatUint (- n) base else FormatUint n base.

Fixpoint parse_digits (base acc : Z) (s : string) : option Z :=
  match s with
  | EmptyString => Some acc
  | String c s' =>
      match digit_val c with
      | Some d => if d <? base then parse_digits base (acc * base + d) s' else None
      | None => None
      end
  end.

(** [strconv.ParseUint(s, 10, 64)]; [None] is any error (syntax or range). *)
Definition ParseUint (s : string) : option Z :=
  if String.eqb s "" then None
  else match parse_digits 10 0 s with
       | Some n => if n <=? MaxUint64 then Some n else None
       | None => None
       end.

(** [strconv.ParseInt(s, 10, 64)], which [strconv.Atoi] agrees with. *)
Definition ParseInt (s : string) : option Z :=
  match s with
  | EmptyString => None
  | String c s' =>
      let neg := Ascii.eqb c "-" in
      let signed := neg || Ascii.eqb c "+" in
      match ParseUint (if signed then s' else s) with
      | Some un =>
          if negb neg && (MaxInt64 <? un) then None
          else if neg && (MaxInt64 + 1 <? un) then None
          else Some (if neg then - un else un)
      | None => None
      end
  end.

(** ** Order *)

Lemma string_lt_irrefl s : string_lt s s = false.
Proof.
  unfold string_lt, String.ltb. assert (H : String.compare s s = Eq).
  { induction s as [|c s IH]; simpl; [done|]. unfold Ascii.compare. by rewrite N.compare_refl. }
  by rewrite H.
Qed.

Lemma string_lt_le a b : string_lt a b = true <-> String.le a b /\ a <> b.
Proof.
  unfold string_lt, String.ltb, String.le, String.leb. split.
  - intros H. split; [by destruct (String.compare a b)|].
    intros ->. pose proof (string_lt_irrefl b) as Hi.
    unfold string_lt, String.ltb in Hi. congruence.
  - intros [Hle Hne]. destruct (String.compare a b) eqn:E; try done.
    by apply String.compare_eq_iff in E.
Qed.

Lemma string_lt_trans a b c : string_lt a b = true -> string_lt b c = true -> string_lt a c = true.
Proof.
  rewrite !string_lt_le. intros [H1 N1] [H2 N2]. split; [by etrans|].
  intros ->. apply N1. by apply (anti_symm String.le).
Qed.

Lemma string_lt_asym a b : string_lt a b = true -> string_lt b a = false.
Proof.
  intros H. destruct (string_lt b a) eqn:E; [|done].
  pose proof (string_lt_trans _ _ _ H E) as Ht. by rewrite string_lt_irrefl in Ht.
Qed.

Lemma string_lt_total a b : string_lt a b = false -> string_lt b a = false -> a = b.
Proof.
  intros H1 H2. destruct (decide (a = b)) as [|Hne]; [done|].
  destruct (total String.le a b) as [H|H].
  - by rewrite (proj2 (string_lt_le a b) (conj H Hne)) in H1.
  - assert (b <> a) by done. by rewrite (proj2 (string_lt_le b a)) in H2.
Qed.

(** ** Concatenation and separators *)

Lemma string_app_assoc (a b c : string) : (a +:+ b) +:+ c = a +:+ (b +:+ c).
Proof. induction a as [|x a IH]; simpl; [done|by rewrite IH]. Qed.

Lemma string_app_inj (a b c : string) : a +:+ b = a +:+ c -> b = c.
Proof. induction a as [|x a IH]; simpl; [done|]. by intros [= ?%IH]. Qed.

Lemma string_app_empty_r (a : string) : a +:+ "" = a.
Proof. induction a as [|x a IH]; simpl; [done|by rewrite IH]. Qed.

Lemma string_forall_app P a b : string_forall P (a +:+ b) = string_forall P a && string_forall P b.
Proof. induction a as [|x a IH]; simpl; [done|by rewrite IH, andb_assoc]. Qed.

Lemma string_forall_impl (P Q : ascii -> bool) s :
  (forall c, P c = true -> Q c = true) -> string_forall P s = true -> string_forall Q s = true.
Proof.
  intros HPQ. induction s as [|c s IH]; simpl; [done|].
  rewrite !andb_true_iff. intros [? ?]. auto.
Qed.

Lemma string_length_app (a b : string) : String.length (a +:+ b) = (String.length a + String.length b)%nat.
Proof. induction a as [|x a IH]; simpl; [done|by rewrite IH]. Qed.

Lemma len_app (a b : string) : len (a +:+ b) = len a + len b.
Proof. unfold len. rewrite string_length_app. lia. Qed.

Lemma len_nonneg s : 0 <= len s.
Proof. unfold len. lia. Qed.

#[export] Hint Resolve len_nonneg : ads.

(** A separator that does not occur in the two left parts splits uniquely. *)
Lemma separator_inj (c : ascii) (a a' b b' : string) :
  lacks c a -> lacks c a' ->
  a +:+ String c b = a' +:+ String c b' -> a = a' /\ b = b'.
Proof.
  unfold lacks. revert a'. induction a as [|x a IH]; intros [|x' a']; simpl; rewrite ?andb_true_iff.
  - intros _ _ [= ->]. done.
  - intros _ [Hx _] [= -> _]. by rewrite Ascii.eqb_refl in Hx.
  - intros [Hx _] _ [= -> _]. by rewrite Ascii.eqb_refl in Hx.
  - intros [_ Ha] [_ Ha'] [= -> He]. by destruct (IH a' Ha Ha' He) as [-> ->].
Qed.

(** The same from the right: the last separator. *)
Lemma separator_inj_r (c : ascii) (a a' b b' : string) :
  lacks c b -> lacks c b' ->
  a +:+ String c b = a' +:+ String c b' -> a = a' /\ b = b'.
Proof.
  unfold lacks. revert a'. induction a as [|x a IH]; intros [|x' a'] Hb Hb'; simpl.
  - intros [= ->]. done.
  - intros [= -> He]. subst b. rewrite string_forall_app in Hb. simpl in Hb.
    rewrite Ascii.eqb_refl in Hb. by rewrite andb_false_r in Hb.
  - intros [= -> He]. subst b'. rewrite string_forall_app in Hb'. simpl in Hb'.
    rewrite Ascii.eqb_refl in Hb'. by rewrite andb_false_r in Hb'.
  - intros [= -> He]. by destruct (IH a' Hb Hb' He) as [-> ->].
Qed.

Lemma lacks_app c a b : lacks c (a +:+ b) <-> lacks c a /\ lacks c b.
Proof. unfold lacks. rewrite string_forall_app, andb_true_iff. done. Qed.

Lemma ContainsAny_two s x y : ContainsAny s (String x (String y "")) = false <-> lacks x s /\ lacks y s.
Proof.
  unfold ContainsAny, string_exists, lacks. rewrite negb_false_iff.
  induction s as [|c s IH]; [done|]. cbn [string_forall].
  rewrite !andb_true_iff, IH, (Ascii.eqb_sym x c), (Ascii.eqb_sym y c).
  destruct (Ascii.eqb c x), (Ascii.eqb c y); simpl; intuition congruence.
Qed.

(** ** Decimal text *)

Lemma parse_digits_nonneg t acc r : 0 <= acc -> parse_digits 10 acc t = Some r -> 0 <= r.
Proof.
  revert acc. induction t as [|c t IH]; intros acc Ha; simpl; [by intros [= <-]|].
  destruct (digit_val c) as [v|] eqn:Ev; [|done]. case_test; [|done]. apply IH.
  assert (0 <= v); [|lia]. unfold digit_val in Ev. repeat (case_test; [bool_hyps; simplify_eq; lia|]). done.
Qed.

Lemma ParseUint_range s n : ParseUint s = Some n -> is_uint64 n.
Proof.
  unfold ParseUint. case_test; [done|]. destruct (parse_digits 10 0 s) as [m|] eqn:Ep; [|done].
  case_test; [|done]. intros [= <-]. apply (parse_digits_nonneg s 0) in Ep; [|done]. bool_hyps. unfold_int. lia.
Qed.

Lemma digit_char_val d : 0 <= d < 36 -> digit_val (digit_char d) = Some d.
Proof.
  intros Hd.
  assert (Hall : forallb (fun n => bool_decide (digit_val (digit_char (Z.of_nat n)) = Some (Z.of_nat n))) (seq 0 36) = true)
    by (vm_compute; reflexivity).
  rewrite forallb_forall in Hall. specialize (Hall (Z.to_nat d)).
  rewrite bool_decide_eq_true, Z2Nat.id in Hall by lia. apply Hall. apply in_seq. lia.
Qed.

Lemma parse_format_digits fuel base n acc :
  2 <= base <= 36 -> 0 <= n < base ^ Z.of_nat fuel -> fuel <> O ->
  parse_digits base 0 (format_digits fuel base n acc) = parse_digits base n acc.
Proof.
  intros Hb. revert n acc. induction fuel as [|fuel IH]; intros n acc Hn Hf; [done|].
  simpl format_digits. pose proof (Z.mod_pos_bound n base ltac:(lia)) as Hm.
  destruct (Z.ltb_spec n base) as [Hlt|Hge].
  - simpl. rewrite digit_char_val, (proj2 (Z.ltb_lt _ _)) by lia.
    by rewrite Z.mod_small by lia.
  - assert (Hfuel : fuel <> O).
    { intros ->. rewrite Z.pow_1_r in Hn. lia. }
    assert (Hq : 0 <= n / base < base ^ Z.of_nat fuel).
    { split; [apply Z.div_pos; lia|]. apply Z.div_lt_upper_bound; [lia|].
      rewrite Nat2Z.inj_succ, Z.pow_succ_r in Hn by lia. lia. }
    rewrite IH by done. simpl.
    rewrite digit_char_val, (proj2 (Z.ltb_lt _ _)) by lia.
    f_equal. pose proof (Z.div_mod n base). lia.
Qed.

Lemma format_digits_nonempty fuel base n acc : fuel <> O -> format_digits fuel base n acc <> "".
Proof.
  revert n acc. induction fuel as [|fuel IH]; intros n acc Hf; [done|]. simpl.
  destruct (n <? base); [done|]. destruct fuel; [done|]. by apply IH.
Qed.

Lemma uint64_lt_pow64 base n : 2 <= base -> is_uint64 n -> 0 <= n < base ^ Z.of_nat 64.
Proof.
  unfold_int. intros Hb Hn. split; [lia|].
  apply Z.lt_le_trans with (2 ^ 64); [lia|]. apply Z.pow_le_mono_l. lia.
Qed.

Lemma parse_FormatUint base n :
  2 <= base <= 36 -> is_uint64 n -> parse_digits base 0 (FormatUint n base) = Some n.
Proof. intros Hb Hn. unfold FormatUint. by rewrite parse_format_digits by (done || apply uint64_lt_pow64; (done || lia)). Qed.

Lemma FormatUint_nonempty n base : FormatUint n base <> "".
Proof. by apply format_digits_nonempty. Qed.

Lemma ParseUint_FormatUint n : is_uint64 n -> ParseUint (FormatUint n 10) = Some n.
Proof.
  intros Hn. unfold ParseUint. pose proof (FormatUint_nonempty n 10) as Hne.
  apply String.eqb_neq in Hne. rewrite Hne, parse_FormatUint by (done || lia).
  rewrite (proj2 (Z.leb_le _ _)); [done|]. unfold_int; lia.
Qed.

Lemma FormatUint_inj base n m :
  2 <= base <= 36 -> is_uint64 n -> is_uint64 m -> FormatUint n base = FormatUint m base -> n = m.
Proof.
  intros Hb Hn Hm He. apply (parse_FormatUint base) in Hn; [|done].
  apply (parse_FormatUint base) in Hm; [|done]. congruence.
Qed.

(** The digits of a number are alphanumeric characters. *)
Definition is_digit_char (c : ascii) : bool :=
  match digit_val c with Some _ => true | None => false end.

Lemma format_digits_chars fuel base n acc :
  2 <= base <= 36 -> string_forall is_digit_char acc = true ->
  string_forall is_digit_char (format_digits fuel base n acc) = true.
Proof.
  intros Hb. revert n acc. induction fuel as [|fuel IH]; intros n acc Hacc; simpl; [done|].
  assert (Hc : is_digit_char (digit_char (n mod base)) = true).
  { unfold is_digit_char. pose proof (Z.mod_pos_bound n base). by rewrite digit_char_val by lia. }
  destruct (n <? base); simpl; [by rewrite Hc|]. apply IH. simpl. by rewrite Hc.
Qed.

Lemma FormatUint_lacks c base n :
  2 <= base <= 36 -> is_digit_char c = false -> lacks c (FormatUint n base).
Proof.
  intros Hb Hc. unfold lacks, FormatUint.
  apply (string_forall_impl is_digit_char); [|by apply format_digits_chars].
  intros c' Hc'. destruct (Ascii.eqb_spec c c'); [congruence|done].
Qed.

Lemma FormatInt_lacks c base n :
  2 <= base <= 36 -> is_digit_char c = false -> Ascii.eqb c "-" = false -> lacks c (FormatInt n base).
Proof.
  intros Hb Hc Hm. unfold FormatInt. destruct (n <? 0); [|by apply FormatUint_lacks].
  unfold lacks. simpl. rewrite Hm. simpl. by apply FormatUint_lacks.
Qed.

Lemma FormatInt_inj n m :
  is_int64 n -> is_int64 m -> FormatInt n 10 = FormatInt m 10 -> n = m.
Proof.
  intros Hn Hm. unfold FormatInt.
  assert (Hno : forall k k', "-" +:+ k' <> FormatUint k 10).
  { intros k k' He. pose proof (FormatUint_lacks "-" 10 k ltac:(lia) eq_refl) as Hl.
    rewrite <- He in Hl. by unfold lacks in Hl. }
  assert (Hu : forall k, is_int64 k -> is_uint64 (Z.abs k)) by (unfold_int; lia).
  destruct (Z.ltb_spec n 0), (Z.ltb_spec m 0); intros He.
  - injection He as He. apply FormatUint_inj in He; [lia|lia|..].
    + specialize (Hu n Hn). by rewrite Z.abs_neq in Hu by lia.
    + specialize (Hu m Hm). by rewrite Z.abs_neq in Hu by lia.
  - by apply Hno in He.
  - symmetry in He. by apply Hno in He.
  - apply FormatUint_inj in He; [done|lia|..].
    + specialize (Hu n Hn). by rewrite Z.abs_eq in Hu by lia.
    + specialize (Hu m Hm). by rewrite Z.abs_eq in Hu by lia.
Qed.
