(* ===== verification/GoTime.v ===== *)
(** * Go's [time] package, as far as the program uses it

    A [time.Time] is a number of nanoseconds since the Unix epoch, a [Z] that is not
    limited to 64 bits (Go keeps seconds and nanoseconds apart); a [time.Duration] is
    an int64 number of nanoseconds. The clock itself ([time.Now]) is an argument of
    the operations that read it. *)

From S2P Require Import Prelude GoInt.

Abbreviation Time := Z (only parsing).
Abbreviation Duration := Z (only parsing).

Definition Nanosecond : Duration := 1.
Definition Microsecond : Duration := 1000.
Definition Millisecond : Duration := 1000000.
Definition Second : Duration := 1000000000.
Definition Minute : Duration := 60 * Second.
Definition Hour : Duration := 60 * Minute.

(** The zero [time.Time] is the first of January of year 1. *)
Definition zero_time : Time := -62135596800 * Second.

Definition IsZero (t : Time) : bool := t =? zero_time.
Definition Before (t u : Time) : bool := t <? u.
Definition time_Add (t : Time) (d : Duration) : Time := t + d.

(** [Sub] saturates at the largest and smallest durations. *)
Definition time_Sub (t u : Time) : Duration := Z.max MinInt64 (Z.min MaxInt64 (t - u)).

(** [time.Unix(0, ns)]. *)
Definition Unix_ns (ns : Z) : Time := ns.

(** [t.UnixNano()] wraps around outside the years 1678 to 2262. *)
Definition UnixNano (t : Time) : Z := int64 t.

(** [t.Unix()]: whole seconds, rounded down. *)
Definition time_Unix (t : Time) : Z := t / Second.

(** [d.Milliseconds()] and [d.Microseconds()] truncate towards zero. *)
Definition Milliseconds (d : Duration) : Z := Z.quot d Millisecond.
Definition Microseconds (d : Duration) : Z := Z.quot d Microsecond.

Lemma time_Sub_range t u : is_int64 (time_Sub t u).
Proof. unfold time_Sub. unfold_int. lia. Qed.

Lemma time_Sub_gt t u d : is_int64 d -> (d <? time_Sub t u) = (d <? Z.min MaxInt64 (t - u)).
Proof.
  intros Hd. unfold time_Sub.
  destruct (Z.ltb_spec d (Z.max MinInt64 (Z.min MaxInt64 (t - u)))),
    (Z.ltb_spec d (Z.min MaxInt64 (t - u))); try done; unfold_int; lia.
Qed.
