(* ===== verification/GoParse.v ===== *)
(** * Text functions of [strings] and [time] the configuration uses

    [strings.TrimSpace], [strings.Split] and [SplitN] with a one-byte separator, and
    [time.ParseDuration], whose fractions are computed in float64 as Go does. *)

From S2P Require Import Prelude GoInt GoTime GoString.
From Stdlib Require Import Ascii SpecFloat.
Open Scope string_scope.
Open Scope list_scope.
Open Scope Z_scope.

(** ** strings *)

(** The UTF-8 encodings of the characters [unicode.IsSpace] accepts. *)
Definition space_encodings : list (list Z) :=
  [[9]; [10]; [11]; [12]; [13]; [32]; [194; 133]; [194; 160]; [225; 154; 128];
   [226; 128; 128]; [226; 128; 129]; [226; 128; 130]; [226; 128; 131]; [226; 128; 132]; [226; 128; 133];
   [226; 128; 134]; [226; 128; 135]; [226; 128; 136]; [226; 128; 137]; [226; 128; 138];
   [226; 128; 168]; [226; 128; 169]; [226; 128; 175]; [226; 129; 159]; [227; 128; 128]].

Fixpoint bytes_of (s : string) : list Z :=
  match s with
  | EmptyString => []
  | String c s => byte_val c :: bytes_of s
  end.

Fixpoint string_of (l : list Z) : string :=
  match l with
  | [] => ""
  | b :: l => String (byte_of_Z b) (string_of l)
  end.

(** Remove [p] from the front of [l]. *)
Fixpoint strip_prefix (p l : list Z) : option (list Z) :=
  match p, l with
  | [], _ => Some l
  | x :: p, y :: l => if x =? y then strip_prefix p l else None
  | _, [] => None
  end.

Definition strip_one (ps : list (list Z)) (l : list Z) : option (list Z) :=
  fold_right (fun p found => match strip_prefix p l with Some rest => Some rest | None => found end) None ps.

(** Each round removes at least one byte, so the length of the text is enough fuel. *)
Fixpoint strip_all (fuel : nat) (ps : list (list Z)) (l : list Z) : list Z :=
  match fuel with
  | O => l
  | S fuel => match strip_one ps l with Some rest => strip_all fuel ps rest | None => l end
  end.

(** Spaces at the end are the reversed encodings at the front of the reversed text. *)
Definition TrimSpace (s : string) : string :=
  let l := strip_all (String.length s) space_encodings (bytes_of s) in
  let r := strip_all (length l) (reverse <$> space_encodings) (reverse l) in
  string_of (reverse r).

(** [strings.Split(s, sep)]; [cur] is the field being read, reversed. *)
Fixpoint split_from (sep : ascii) (cur : string) (s : string) : list string :=
  match s with
  | EmptyString => [cur]
  | String c s => if Ascii.eqb c sep then cur :: split_from sep "" s else split_from sep (cur +:+ String c "") s
  end.

Definition Split (s : string) (sep : ascii) : list string := split_from sep "" s.

(** [strings.SplitN(s, sep, 2)]. *)
Fixpoint SplitN2 (s : string) (sep : ascii) : list string :=
  match s with
  | EmptyString => [""]
  | String c s' =>
      if Ascii.eqb c sep then [""; s']
      else match SplitN2 s' sep with
           | [] => [s]
           | first :: rest => String c first :: rest
           end
  end.

(** [strings.TrimPrefix(s, prefix)]. *)
Definition TrimPrefix (s prefix : string) : string :=
  if String.prefix prefix s then String.substring (String.length prefix) (String.length s - String.length prefix) s else s.

Lemma substring_app (p s : string) : String.substring (String.length p) (String.length s) (p +:+ s) = s.
Proof.
  induction p as [|c p IH]; simpl; [|done]. induction s as [|c s IH]; simpl; [done|by rewrite IH].
Qed.

Lemma prefix_app (p s : string) : String.prefix p (p +:+ s) = true.
Proof. induction p as [|c p IH]; simpl; [by destruct s|]. by destruct (Ascii.ascii_dec c c). Qed.

Lemma prefix_split (p s : string) : String.prefix p s = true -> exists rest, s = p +:+ rest.
Proof.
  revert s. induction p as [|c p IH]; intros s; [by exists s|]. destruct s as [|x s]; simpl; [done|].
  destruct (Ascii.ascii_dec c x) as [->|]; [|done]. intros (rest & ->)%IH. by exists rest.
Qed.

(** The prefix is removed once, or it is not there. *)
Lemma TrimPrefix_cases s prefix :
  (exists rest, s = prefix +:+ rest /\ TrimPrefix s prefix = rest)
  \/ ((forall rest, s <> prefix +:+ rest) /\ TrimPrefix s prefix = s).
Proof.
  unfold TrimPrefix. destruct (String.prefix prefix s) eqn:E.
  - left. destruct (prefix_split _ _ E) as (rest & ->). exists rest. split; [done|].
    rewrite string_length_app. replace (_ + _ - _)%nat with (String.length rest) by lia. apply substring_app.
  - right. split; [|done]. intros rest ->. by rewrite prefix_app in E.
Qed.

(** ** time.ParseDuration *)

Definition two63 : Z := 9223372036854775808.

Definition is_digit (c : ascii) : bool := (48 <=? byte_val c) && (byte_val c <=? 57).

(** [leadingInt]: the value and the rest; [None] on overflow. *)
Fixpoint leadingInt (x : Z) (s : string) : option (Z * string) :=
  match s with
  | String c s' =>
      if is_digit c then
        if two63 / 10 <? x then None
        else
          let x := x * 10 + (byte_val c - 48) in
          if two63 <? x then None else leadingInt x s'
      else Some (x, s)
  | EmptyString => Some (x, s)
  end.

(** float64: SpecFloat's binary64. *)
Definition float64 := spec_float.
Definition float64_of (n : Z) : float64 := binary_normalize 53 1024 n 0 false.
Definition float64_mul : float64 -> float64 -> float64 := SFmul 53 1024.
Definition float64_div : float64 -> float64 -> float64 := SFdiv 53 1024.

(** The conversion to uint64 of a finite value that is not negative. *)
Definition uint64_of_float (x : float64) : Z :=
  match x with
  | S754_finite false m e => if 0 <=? e then Zpos m * 2 ^ e else Zpos m / 2 ^ (- e)
  | _ => 0
  end.

(** [leadingFraction]: digits after the point, their scale, and the rest. *)
Fixpoint leadingFraction (x : Z) (scale : float64) (overflow : bool) (s : string) : Z * float64 * string :=
  match s with
  | String c s' =>
      if is_digit c then
        if overflow then leadingFraction x scale true s'
        else if (two63 - 1) / 10 <? x then leadingFraction x scale true s'
        else
          let y := x * 10 + (byte_val c - 48) in
          if two63 <? y then leadingFraction x scale true s'
          else leadingFraction y (float64_mul scale (float64_of 10)) false s'
      else (x, scale, s)
  | EmptyString => (x, scale, s)
  end.

(** The unit is what comes before the next digit or point. *)
Fixpoint leadingUnit (s : string) : string * string :=
  match s with
  | EmptyString => ("", "")
  | String c s' =>
      if Ascii.eqb c "." || is_digit c then ("", s)
      else let '(u, rest) := leadingUnit s' in (String c u, rest)
  end.

Definition micro_sign : string := string_of [194; 181; 115].
Definition greek_mu : string := string_of [206; 188; 115].

Definition unitMap (u : string) : option Z :=
  if String.eqb u "ns" then Some Nanosecond
  else if String.eqb u "us" || String.eqb u micro_sign || String.eqb u greek_mu then Some Microsecond
  else if String.eqb u "ms" then Some Millisecond
  else if String.eqb u "s" then Some Second
  else if String.eqb u "m" then Some Minute
  else if String.eqb u "h" then Some Hour
  else None.

(** One number with its unit; [None] is an error. *)
Definition parse_component (s : string) : option (Z * string) :=
  match s with
  | EmptyString => None
  | String c _ =>
      if negb (Ascii.eqb c "." || is_digit c) then None
      else
        match leadingInt 0 s with
        | None => None
        | Some (v, s1) =>
            let pre := negb (Nat.eqb (String.length s) (String.length s1)) in
            let '(f, scale, s2, post) :=
              match s1 with
              | String c1 s1' =>
                  if Ascii.eqb c1 "." then
                    let '(f, scale, s2) := leadingFraction 0 (float64_of 1) false s1' in
                    (f, scale, s2, negb (Nat.eqb (String.length s1') (String.length s2)))
                  else (0, float64_of 1, s1, false)
              | EmptyString => (0, float64_of 1, s1, false)
              end in
            if negb pre && negb post then None
            else
              let '(u, s3) := leadingUnit s2 in
              if String.eqb u "" then None
              else
                match unitMap u with
                | None => None
                | Some unit =>
                    if two63 / unit <? v then None
                    else
                      let v := v * unit in
                      let v := if 0 <? f
                               then v + uint64_of_float (float64_mul (float64_of f) (float64_div (float64_of unit) scale))
                               else v in
                      if (0 <? f) && (two63 <? v) then None else Some (v, s3)
                end
        end
  end.

(** The loop over the components; each one takes at least one byte. *)
Fixpoint parse_components (fuel : nat) (d : Z) (s : string) : option Z :=
  if String.eqb s "" then Some d
  else
    match fuel with
    | O => None
    | S fuel =>
        match parse_component s with
        | None => None
        | Some (v, s) => let d := d + v in if two63 <? d then None else parse_components fuel d s
        end
    end.

(** [None] is an error. *)
Definition ParseDuration (s : string) : option Duration :=
  let '(neg, s) :=
    match s with
    | String c s' => if Ascii.eqb c "-" then (true, s') else if Ascii.eqb c "+" then (false, s') else (false, s)
    | EmptyString => (false, s)
    end in
  if String.eqb s "0" then Some 0
  else if String.eqb s "" then None
  else
    match parse_components (String.length s) 0 s with
    | None => None
    | Some d => if neg then Some (- d) else if two63 - 1 <? d then None else Some d
    end.

(** ** Facts *)

(** Components are not negative. *)
Lemma uint64_of_float_nonneg x : 0 <= uint64_of_float x.
Proof.
  unfold uint64_of_float. destruct x as [s|s| |s m e]; try lia. destruct s; [lia|]. destruct (Z.leb_spec 0 e).
  - pose proof (Z.pow_nonneg 2 e). nia.
  - apply Z.div_pos; [lia|]. apply Z.pow_pos_nonneg; lia.
Qed.

Lemma is_digit_range c : is_digit c = true -> 0 <= byte_val c - 48 <= 9.
Proof. unfold is_digit. intros H. bool_hyps. lia. Qed.

Lemma leadingInt_nonneg s x v rest : 0 <= x -> leadingInt x s = Some (v, rest) -> 0 <= v.
Proof.
  revert x. induction s as [|c s IH]; intros x Hx; simpl; [by intros [= <- _]|].
  destruct (is_digit c) eqn:Ed; [|by intros [= <- _]]. apply is_digit_range in Ed.
  destruct (_ <? x); [done|]. destruct (two63 <? _); [done|]. apply IH. lia.
Qed.

Lemma leadingFraction_nonneg s x sc o f sc2 rest :
  0 <= x -> leadingFraction x sc o s = (f, sc2, rest) -> 0 <= f.
Proof.
  revert x sc o. induction s as [|c s IH]; intros x sc o Hx; simpl; [by intros [= <- _ _]|].
  destruct (is_digit c) eqn:Ed; [|by intros [= <- _ _]]. apply is_digit_range in Ed.
  destruct o; [by apply IH|]. destruct (_ <? x); [by apply IH|]. destruct (two63 <? _); [by apply IH|]. apply IH. lia.
Qed.

Lemma unitMap_pos u unit : unitMap u = Some unit -> 0 < unit.
Proof. unfold unitMap. intros H. repeat (case_test; [injection H as <-; by vm_compute|]). done. Qed.

Lemma parse_component_nonneg s v rest : parse_component s = Some (v, rest) -> 0 <= v.
Proof.
  unfold parse_component. destruct s as [|c s0]; [done|]. set (s := String c s0). case_test; [done|].
  destruct (leadingInt 0 s) as [[v0 s1]|] eqn:El; [|done]. apply leadingInt_nonneg in El; [|lia].
  destruct (match s1 with String _ _ => _ | EmptyString => _ end) as [[[f sc] s2] post] eqn:Ef.
  case_test; [done|]. destruct (leadingUnit s2) as [u s3]. case_test; [done|].
  destruct (unitMap u) as [unit|] eqn:Eu; [|done]. apply unitMap_pos in Eu. case_test; [done|].
  pose proof (uint64_of_float_nonneg (float64_mul (float64_of f) (float64_div (float64_of unit) sc))).
  destruct (0 <? f); simpl; [case_test; [done|]|]; intros [= <- _]; nia.
Qed.

Lemma parse_components_range fuel d s r :
  0 <= d <= two63 -> parse_components fuel d s = Some r -> 0 <= r <= two63.
Proof.
  revert d s. induction fuel as [|fuel IH]; intros d s Hd; simpl; (case_test; [by intros [= <-]|]); [done|].
  destruct (parse_component s) as [[v rest]|] eqn:Ep; [|done]. apply parse_component_nonneg in Ep.
  case_test; [done|]. bool_hyps. apply IH. lia.
Qed.

(** A parsed duration is an int64. *)
Lemma ParseDuration_range s d : ParseDuration s = Some d -> is_int64 d.
Proof.
  unfold ParseDuration. destruct (match s with String _ _ => _ | EmptyString => _ end) as [neg s'].
  case_test; [intros [= <-]; by vm_compute|]. case_test; [done|].
  destruct (parse_components _ 0 s') as [r|] eqn:Ep; [|done]. apply parse_components_range in Ep; [|unfold two63; lia].
  unfold two63 in *. destruct neg; [intros [= <-]; unfold_int; lia|].
  case_test; [done|]. intros [= <-]. bool_hyps. unfold_int. lia.
Qed.

Example parse_examples :
  ParseDuration "1h15m30.918273645s" = Some 4530918273645 /\ ParseDuration "60ms" = Some 60000000
  /\ ParseDuration "-.5s" = Some (-500000000) /\ ParseDuration "1" = None /\ ParseDuration "9223372036854775808ns" = None
  /\ TrimSpace "  a b" = "a b" /\ Split "a,,b" "," = ["a"; ""; "b"] /\ SplitN2 "id=u=v" "=" = ["id"; "u=v"].
Proof. by vm_compute. Qed.
