(* ===== verification/GoFloat.v ===== *)
(** * Rounding in float64

    How far SpecFloat's binary64 product is from the real one, for the products the
    program truncates to an index. *)

From S2P Require Import Prelude GoInt GoParse.
From Stdlib Require Import SpecFloat.
Open Scope Z_scope.

(** ** Digits *)

Lemma digits2_pos_bounds p : 2 ^ (Zpos (digits2_pos p) - 1) <= Zpos p < 2 ^ Zpos (digits2_pos p).
Proof.
  induction p as [p IH|p IH|]; cbn [digits2_pos]; [| |done];
    rewrite Pos2Z.inj_succ; replace (Z.succ (Zpos (digits2_pos p)) - 1) with (Z.succ (Zpos (digits2_pos p) - 1)) by lia;
    rewrite !Z.pow_succ_r by lia; lia.
Qed.

Lemma digits2_pos_unique p d : 0 < d -> 2 ^ (d - 1) <= Zpos p < 2 ^ d -> Zpos (digits2_pos p) = d.
Proof.
  intros Hd Hp. pose proof (digits2_pos_bounds p) as Hb.
  destruct (Z.lt_trichotomy (Zpos (digits2_pos p)) d) as [Hlt|[?|Hgt]]; [|done|].
  - pose proof (Z.pow_le_mono_r 2 (Zpos (digits2_pos p)) (d - 1)). lia.
  - pose proof (Z.pow_le_mono_r 2 d (Zpos (digits2_pos p) - 1)). lia.
Qed.

(** ** Shifting right, and what is lost *)

Lemma iter_pos_nat {A} (f : A -> A) p x : iter_pos f p x = Nat.iter (Pos.to_nat p) f x.
Proof.
  revert x. induction p as [p IH|p IH|]; intros x; cbn [iter_pos]; [| |done]; rewrite !IH, <- Nat.iter_add.
  - rewrite Pos2Nat.inj_xI, Nat.iter_succ_r. f_equal. lia.
  - rewrite Pos2Nat.inj_xO. f_equal. lia.
Qed.

(** [r] and [s] tell how the rest [rem] compares with half of [2 ^ k]. *)
Definition rest_of (k rem : Z) (r s : bool) : Prop :=
  match r, s with
  | false, false => rem = 0
  | false, true => 0 < rem /\ 2 * rem < 2 ^ k
  | true, false => 2 * rem = 2 ^ k
  | true, true => 2 ^ k < 2 * rem
  end.

Definition shifted (M k : Z) (mrs : shr_record) : Prop :=
  0 <= shr_m mrs /\ exists rem, M = shr_m mrs * 2 ^ k + rem /\ 0 <= rem < 2 ^ k /\ rest_of k rem (shr_r mrs) (shr_s mrs).

Lemma shr_1_shifted M k mrs : 0 <= k -> shifted M k mrs -> shifted M (k + 1) (shr_1 mrs).
Proof.
  intros Hk (Hm & rem & HM & Hr & Hrs). destruct mrs as [m r s]. simpl in *.
  pose proof (Z.pow_pos_nonneg 2 k ltac:(lia) Hk) as Hpos. assert (Hp : 2 ^ (k + 1) = 2 * 2 ^ k) by (rewrite Z.pow_add_r by lia; lia).
  assert (Hgen : forall b m', m = 2 * m' + Z.b2z b -> 0 <= m' -> shifted M (k + 1) (Build_shr_record m' b (r || s))).
  { intros b m' -> Hm'. split; [done|]. exists (Z.b2z b * 2 ^ k + rem). simpl. rewrite Hp.
    unfold rest_of in *. rewrite Hp. destruct b, r, s; simpl Z.b2z in *; simpl; repeat split; try lia. }
  unfold shr_1. destruct m as [|[p|p|]|p]; [| | | |lia].
  - by apply (Hgen false 0).
  - apply (Hgen true (Zpos p)); simpl; lia.
  - apply (Hgen false (Zpos p)); simpl; lia.
  - by apply (Hgen true 0).
Qed.

Lemma shr_shifted M e k : 0 <= M -> 0 <= k -> exists mrs, shr (shr_record_of_loc M loc_Exact) e k = (mrs, e + k) /\ shifted M k mrs.
Proof.
  intros HM Hk. assert (H0 : shifted M 0 (Build_shr_record M false false)).
  { split; [done|]. exists 0. simpl. split_and!; lia. }
  assert (Hn : forall n, shifted M (Z.of_nat n) (Nat.iter n shr_1 (Build_shr_record M false false))).
  { induction n as [|n IH]; [done|]. rewrite Nat2Z.inj_succ. by apply shr_1_shifted; [lia|]. }
  destruct k as [|p|p]; [| |lia]; simpl.
  - eexists. split; [by rewrite Z.add_0_r|done].
  - eexists. split; [done|]. rewrite iter_pos_nat. specialize (Hn (Pos.to_nat p)). by rewrite positive_nat_Z in Hn.
Qed.

(** ** Rounding *)

Lemma round_near M k mrs : 0 < k -> shifted M k mrs ->
  2 * Z.abs (round_nearest_even (shr_m mrs) (loc_of_shr_record mrs) * 2 ^ k - M) <= 2 ^ k
  /\ shr_m mrs <= round_nearest_even (shr_m mrs) (loc_of_shr_record mrs) <= shr_m mrs + 1.
Proof.
  intros Hk (Hm & rem & -> & Hr & Hrs). destruct mrs as [m [] []]; simpl in *; [| destruct (Z.even m)| |]; split; nia.
Qed.

Abbreviation round64 := (binary_round_aux 53 1024 false).

Lemma shr_fexp_exact p e l k :
  Z.max (Zpos (digits2_pos p) + e - 53) (-1074) - e = k -> l = loc_Exact ->
  shr_fexp 53 1024 (Zpos p) e l = shr (shr_record_of_loc (Zpos p) loc_Exact) e k.
Proof. intros <- ->. reflexivity. Qed.

(** A mantissa of 53 digits is kept. *)
Lemma round64_id p e : 2 ^ 52 <= Zpos p < 2 ^ 53 -> -1074 <= e <= 971 -> round64 (Zpos p) e loc_Exact = S754_finite false p e.
Proof.
  intros Hp He. pose proof (digits2_pos_unique p 53 ltac:(lia) Hp) as Hd.
  assert (Hs : shr_fexp 53 1024 (Zpos p) e loc_Exact = (Build_shr_record (Zpos p) false false, e)).
  { rewrite (shr_fexp_exact p e _ 0) by (done || lia). done. }
  unfold binary_round_aux. rewrite Hs. cbn [shr_m loc_of_shr_record round_nearest_even]. rewrite Hs. cbn [shr_m].
  change (1024 - 53) with 971. by rewrite (proj2 (Z.leb_le _ _)) by lia.
Qed.

(** A longer one is rounded to a multiple of the last digit kept that is nearest, so by
    a relative error of at most 2^-53. *)
Lemma round64_near p e : let d := Zpos (digits2_pos p) in
  53 < d -> -1074 <= d - 53 + e <= 970 ->
  exists m e2, round64 (Zpos p) e loc_Exact = S754_finite false m e2 /\ e <= e2 /\ Z.abs (Zpos m * 2 ^ (e2 - e) - Zpos p) * 2 ^ 53 <= Zpos p
    /\ 2 * Z.abs (Zpos m * 2 ^ (e2 - e) - Zpos p) <= 2 ^ (d - 53) /\ (2 ^ (d - 53) | Zpos m * 2 ^ (e2 - e)).
Proof.
  intros d Hd He. set (k := d - 53). assert (Hk : 0 < k) by lia. pose proof (digits2_pos_bounds p) as Hp. fold d in Hp.
  destruct (shr_shifted (Zpos p) e k ltac:(lia) ltac:(lia)) as (mrs & Hshr & Hsh).
  pose proof (round_near _ _ _ Hk Hsh) as [Hnear Hrange]. destruct Hsh as (Hm & rem & HM & Hrem & _).
  set (q := round_nearest_even (shr_m mrs) (loc_of_shr_record mrs)) in *.
  pose proof (Z.pow_pos_nonneg 2 k ltac:(lia) ltac:(lia)) as Hpos.
  assert (Hsplit : 2 ^ (d - 1) = 2 ^ 52 * 2 ^ k /\ 2 ^ d = 2 ^ 53 * 2 ^ k).
  { rewrite <- !Z.pow_add_r by lia. split; f_equal; lia. }
  destruct Hsplit as [H1 H2]. rewrite H1, H2 in Hp.
  assert (Hq : 2 ^ 52 <= q <= 2 ^ 53) by (split; nia).
  assert (Herr : Z.abs (q * 2 ^ k - Zpos p) * 2 ^ 53 <= Zpos p) by nia.
  unfold binary_round_aux. rewrite (shr_fexp_exact p e _ k), Hshr by (fold d; done || lia). fold q.
  destruct q as [|q'|q'] eqn:Eq; [lia| |lia]. destruct (Z.eq_dec (Zpos q') (2 ^ 53)) as [Hmax|Hmax].
  - assert (q' = 9007199254740992%positive) as -> by lia.
    rewrite (shr_fexp_exact _ (e + k) _ 1) by (done || (change (Zpos (digits2_pos 9007199254740992)) with 54; lia)).
    cbn -[Z.add Z.pow Z.mul]. rewrite (proj2 (Z.leb_le _ _)) by lia. eexists _, _. split; [reflexivity|]. split; [lia|].
    replace (e + k + 1 - e) with (k + 1) by lia. fold k. rewrite Z.pow_add_r by lia. split_and!; [lia|lia|].
    exists (2 ^ 52 * 2). ring.
  - pose proof (digits2_pos_unique q' 53 ltac:(lia) ltac:(lia)) as Hd'.
    rewrite (shr_fexp_exact _ (e + k) _ 0) by (done || lia). cbn [shr shr_m shr_record_of_loc].
    change (1024 - 53) with 971. rewrite (proj2 (Z.leb_le _ _)) by lia. eexists _, _. split; [reflexivity|]. split; [lia|].
    replace (e + k - e) with k by lia. fold k. split_and!; [done|done|]. by exists (Zpos q').
Qed.

(** ** Products with a fraction *)

(** A number below 2^53 is exact, scaled to 53 digits. *)
Definition scale (n : Z) : Z := 2 ^ (53 - Zdigits2 n).

Lemma Zdigits2_small n : 0 < n < 2 ^ 53 -> 1 <= Zdigits2 n <= 53 /\ 2 ^ (Zdigits2 n - 1) <= n < 2 ^ Zdigits2 n.
Proof.
  intros Hn. destruct n as [|p|p]; try lia. pose proof (digits2_pos_bounds p) as Hb. cbn [Zdigits2]. split; [|done]. split; [lia|].
  destruct (Z.le_gt_cases (Zpos (digits2_pos p)) 53) as [|Hgt]; [done|].
  pose proof (Z.pow_le_mono_r 2 53 (Zpos (digits2_pos p) - 1)). lia.
Qed.

Lemma float64_of_small n : 0 < n < 2 ^ 53 -> exists m, float64_of n = S754_finite false m (Zdigits2 n - 53) /\ Zpos m = n * scale n
  /\ 2 ^ 52 <= Zpos m < 2 ^ 53.
Proof.
  intros Hn. pose proof (Zdigits2_small n Hn) as [Hd Hb]. destruct n as [|p|p]; try lia. unfold scale. cbn [Zdigits2] in *.
  set (d := Zpos (digits2_pos p)) in *.
  assert (Hsc : 2 ^ 52 <= Zpos p * 2 ^ (53 - d) < 2 ^ 53).
  { replace (2 ^ 52) with (2 ^ (d - 1) * 2 ^ (53 - d)) by (rewrite <- Z.pow_add_r by lia; f_equal; lia).
    replace (2 ^ 53) with (2 ^ d * 2 ^ (53 - d)) by (rewrite <- Z.pow_add_r by lia; f_equal; lia).
    pose proof (Z.pow_pos_nonneg 2 (53 - d)). nia. }
  assert (Hal : exists m, shl_align p 0 (fexp 53 1024 (d + 0)) = (m, d - 53) /\ Zpos m = Zpos p * 2 ^ (53 - d)).
  { unfold shl_align, fexp, emin. replace (Z.max _ _ - 0) with (d - 53) by lia. replace (Z.max _ _) with (d - 53) by lia.
    destruct (d - 53) as [|k|k] eqn:Ek; [|lia|].
    - exists p. split; [done|]. replace (53 - d) with 0 by lia. lia.
    - eexists. split; [done|]. replace (53 - d) with (Zpos k) by lia. rewrite <- Z.pow_pos_fold. rewrite Z.mul_comm.
      apply (Zpower.shift_pos_correct k p). }
  destruct Hal as (m & Hal & Hm). exists m. unfold float64_of, binary_normalize, binary_round. fold d. rewrite Hal.
  rewrite round64_id by (rewrite ?Hm; lia). by rewrite Hm.
Qed.

Lemma float64_mul_near n mp : 0 < n < 2 ^ 53 -> 2 ^ 52 <= Zpos mp < 2 ^ 53 ->
  exists V, uint64_of_float (float64_mul (float64_of n) (S754_finite false mp (-53))) = V / (scale n * 2 ^ 53)
    /\ Z.abs (V - n * scale n * Zpos mp) * 2 ^ 53 <= n * scale n * Zpos mp
    /\ exists unit, (unit = 2 ^ 52 /\ n * scale n * Zpos mp < 2 ^ 105 \/ unit = 2 ^ 53)
         /\ 2 * Z.abs (V - n * scale n * Zpos mp) <= unit /\ (unit | V).
Proof.
  intros Hn Hmp. destruct (float64_of_small n Hn) as (m & -> & Hm & Hmb). pose proof (Zdigits2_small n Hn) as [Hd _].
  set (d := Zdigits2 n) in *. pose proof (digits2_pos_bounds (m * mp)) as Hb.
  assert (HD : 104 < Zpos (digits2_pos (m * mp)) < 107).
  { rewrite Pos2Z.inj_mul in Hb. assert (2 ^ 104 <= Zpos m * Zpos mp < 2 ^ 106) as [Hlo Hhi].
    { change (2 ^ 104) with (2 ^ 52 * 2 ^ 52). change (2 ^ 106) with (2 ^ 53 * 2 ^ 53). nia. }
    split.
    - destruct (Z.le_gt_cases (Zpos (digits2_pos (m * mp))) 104) as [Hle|]; [|done].
      pose proof (Z.pow_le_mono_r 2 (Zpos (digits2_pos (m * mp))) 104). lia.
    - destruct (Z.le_gt_cases 107 (Zpos (digits2_pos (m * mp)))) as [Hge|]; [|done].
      pose proof (Z.pow_le_mono_r 2 106 (Zpos (digits2_pos (m * mp)) - 1)). lia. }
  destruct (round64_near (m * mp) (d - 53 + -53)) as (q & e2 & Hr & He & Herr & Hhalf & Hdiv); [lia..|].
  exists (Zpos q * 2 ^ (e2 - (d - 53 + -53))). rewrite Pos2Z.inj_mul, Hm in Herr, Hhalf. split; [|split; [done|]].
  2:{ exists (2 ^ (Zpos (digits2_pos (m * mp)) - 53)). split_and!; [|done|done].
      destruct (Z.eq_dec (Zpos (digits2_pos (m * mp))) 105) as [E|E]; [left|right].
      - rewrite E in *. split; [done|]. rewrite <- Hm, <- Pos2Z.inj_mul. lia.
      - f_equal. lia. }
  change (float64_mul (S754_finite false m (d - 53)) (S754_finite false mp (-53))) with (round64 (Zpos (m * mp)) (d - 53 + -53) loc_Exact).
  rewrite Hr. cbn [uint64_of_float]. unfold scale. fold d. rewrite <- Z.pow_add_r by lia. set (E := d - 53 + -53) in *.
  replace (53 - d + 53) with (- E) by lia. destruct (Z.leb_spec 0 e2) as [H0|H0].
  - replace (e2 - E) with (e2 + - E) by lia. rewrite Z.pow_add_r, Z.mul_assoc by lia. symmetry. apply Z.div_mul.
    apply Z.pow_nonzero; lia.
  - replace (- E) with (- e2 + (e2 - E)) by lia. rewrite Z.pow_add_r by lia. symmetry. apply Z.div_mul_cancel_r; apply Z.pow_nonzero; lia.
Qed.

(** The product with a fraction from one half to below one, truncated, stays below,
    and grows with the fraction. *)
Lemma float64_mul_below n mp : 0 < n < 2 ^ 53 -> 2 ^ 52 <= Zpos mp < 2 ^ 53 ->
  0 <= uint64_of_float (float64_mul (float64_of n) (S754_finite false mp (-53))) < n.
Proof.
  intros Hn Hmp. destruct (float64_mul_near n mp Hn Hmp) as (V & -> & Herr & _).
  assert (Hs : 0 < scale n) by (pose proof (Zdigits2_small n Hn); apply Z.pow_pos_nonneg; lia).
  set (A := n * scale n) in *. assert (HA : 0 < A) by (unfold A; nia). split; [apply Z.div_pos; nia|].
  apply Z.div_lt_upper_bound; [nia|]. replace (scale n * 2 ^ 53 * n) with (A * 2 ^ 53) by (unfold A; ring). nia.
Qed.

Lemma float64_mul_grows n mp mq : 0 < n < 2 ^ 53 -> 2 ^ 52 <= Zpos mp -> Zpos mp + 4 <= Zpos mq -> Zpos mq < 2 ^ 53 ->
  uint64_of_float (float64_mul (float64_of n) (S754_finite false mp (-53)))
  <= uint64_of_float (float64_mul (float64_of n) (S754_finite false mq (-53))).
Proof.
  intros Hn Hp Hpq Hq. destruct (float64_mul_near n mp Hn ltac:(lia)) as (V & -> & HV & _).
  destruct (float64_mul_near n mq Hn ltac:(lia)) as (V2 & -> & HV2 & _).
  assert (Hs : 0 < scale n) by (pose proof (Zdigits2_small n Hn); apply Z.pow_pos_nonneg; lia).
  apply Z.div_le_mono; [nia|]. set (A := n * scale n) in *. assert (HA : 0 < A) by (unfold A; nia). nia.
Qed.

(** The product with the double nearest to [p] hundredths, truncated, is the integer
    quotient: rounding never carries it over an integer, nor keeps it from one. *)
Lemma float64_mul_percent n mp p err :
  0 < n < 2 ^ 45 -> 50 <= p < 100 -> 100 * Zpos mp = p * 2 ^ 53 - err -> 0 <= err <= 40 -> 2 * err < p ->
  uint64_of_float (float64_mul (float64_of n) (S754_finite false mp (-53))) = n * p / 100.
Proof.
  intros Hn Hp Hmp Herr Hsmall. assert (Hmb : 2 ^ 52 <= Zpos mp < 2 ^ 53) by lia.
  destruct (float64_mul_near n mp ltac:(lia) Hmb) as (V & -> & Hrel & unit & Hunit & Hhalf & Hdiv).
  pose proof (Zdigits2_small n ltac:(lia)) as [Hd Hnd]. assert (Hs : 0 < scale n) by (apply Z.pow_pos_nonneg; lia).
  assert (HA : 2 ^ 52 <= n * scale n < 2 ^ 53).
  { unfold scale. replace (2 ^ 52) with (2 ^ (Zdigits2 n - 1) * 2 ^ (53 - Zdigits2 n)) by (rewrite <- Z.pow_add_r by lia; f_equal; lia).
    replace (2 ^ 53) with (2 ^ Zdigits2 n * 2 ^ (53 - Zdigits2 n)) by (rewrite <- Z.pow_add_r by lia; f_equal; lia).
    pose proof (Z.pow_pos_nonneg 2 (53 - Zdigits2 n)). nia. }
  set (A := n * scale n) in *. set (D := scale n * 2 ^ 53).
  assert (HAD : A * 2 ^ 53 = n * D) by (unfold A, D; ring).
  assert (HAmp : 100 * (A * Zpos mp) = n * p * D - A * err) by (replace (100 * (A * Zpos mp)) with (A * (100 * Zpos mp)) by ring; rewrite Hmp; lia).
  assert (Hsum : A * 140 < D) by (unfold A, D; nia).
  assert (HDe : D = scale n * 2 ^ 53) by done. assert (HD : 0 < D) by (rewrite HDe; lia). clearbody A D.
  assert (HAerr : 0 <= A * err <= A * 40) by (split; [apply Z.mul_nonneg_nonneg|apply Z.mul_le_mono_nonneg_l]; lia).
  pose proof (Z.div_mod (n * p) 100 ltac:(lia)) as Hqr. pose proof (Z.mod_pos_bound (n * p) 100 ltac:(lia)) as Hr.
  set (t := n * p / 100) in *. set (r := (n * p) mod 100) in *.
  destruct (Z.eq_dec r 0) as [Hr0|Hr0].
  - assert (HX : V = t * D); [|rewrite HX; apply Z.div_mul; lia].
    assert (Hmul : (unit | t * D - V)).
    { apply Z.divide_sub_r; [|done]. destruct Hunit as [[-> _]| ->]; rewrite HDe;
        [exists (t * scale n * 2)|exists (t * scale n)]; ring. }
    assert (Hgap : 100 * (t * D - A * Zpos mp) = A * err).
    { assert (n * p * D = 100 * (t * D)) by (rewrite Hqr, Hr0; ring). lia. }
    assert (Hclose : A * err < 50 * unit).
    { destruct Hunit as [[-> Hlow]| ->]; [|lia]. destruct (Z.eq_dec err 0) as [->|]; [lia|].
      assert (Hp2 : A * (2 * err + 1) <= A * p) by (apply Z.mul_le_mono_nonneg_l; lia).
      assert (Hup : A * p * 2 ^ 53 - A * err < 2 ^ 105 * 100).
      { replace (A * p * 2 ^ 53 - A * err) with (A * Zpos mp * 100); [lia|]. rewrite <- Z.mul_assoc, (Z.mul_comm _ 100), Hmp. ring. }
      lia. }
    destruct Hmul as [q Hq]. assert (Hlt : Z.abs (q * unit) < unit) by lia. assert (q = 0); [|lia].
    rewrite Z.abs_mul in Hlt. assert (Z.abs q < 1); [|lia]. apply (Z.mul_lt_mono_pos_r (Z.abs unit)); lia.
  - assert (HnpD : n * p * D = 100 * (D * t) + r * D) by (rewrite Hqr; ring).
    assert (Hr1 : 1 * D <= r * D) by (apply Z.mul_le_mono_nonneg_r; lia).
    assert (Hr99 : r * D <= 99 * D) by (apply Z.mul_le_mono_nonneg_r; lia).
    assert (Hnear : Z.abs (V - A * Zpos mp) < A).
    { apply (Z.mul_lt_mono_pos_r (2 ^ 53)); [done|]. eapply Z.le_lt_trans; [exact Hrel|]. apply Z.mul_lt_mono_pos_l; lia. }
    symmetry. apply (Z.div_unique_pos V D t (V - D * t)); lia.
Qed.
