(* ===== verification/Utf8.v ===== *)
(** * UTF-8 as Go reads and writes it

    [unicode/utf8]: the runes of a byte string and the encoding of a rune. A byte that
    starts no valid encoding is read alone, as the replacement character; here it is
    [None], because encoding/json writes it differently from the character itself. *)

From S2P Require Import Prelude GoInt GoString.
From Stdlib Require Import Ascii String.
Open Scope string_scope.
Open Scope list_scope.
Open Scope Z_scope.

Definition RuneError : Z := 65533.

(** A rune that has an encoding: not a surrogate and not above U+10FFFF. *)
Definition is_scalar (r : Z) : bool := (0 <=? r) && (r <? 55296) || (57344 <=? r) && (r <=? 1114111).

(** [utf8.EncodeRune] and [utf8.AppendRune]. *)
Definition encode_rune (r : Z) : string :=
  let r := if is_scalar r then r else RuneError in
  if r <? 128 then String (byte_of_Z r) ""
  else if r <? 2048 then String (byte_of_Z (192 + r / 64)) (String (byte_of_Z (128 + r mod 64)) "")
  else if r <? 65536 then
    String (byte_of_Z (224 + r / 4096)) (String (byte_of_Z (128 + r / 64 mod 64)) (String (byte_of_Z (128 + r mod 64)) ""))
  else
    String (byte_of_Z (240 + r / 262144)) (String (byte_of_Z (128 + r / 4096 mod 64))
      (String (byte_of_Z (128 + r / 64 mod 64)) (String (byte_of_Z (128 + r mod 64)) ""))).

Definition encode_runes (l : list Z) : string := foldr (fun r s => encode_rune r +:+ s) "" l.

Definition in_range (lo hi b : Z) : bool := (lo <=? b) && (b <=? hi).
Definition continuation : Z -> bool := in_range 128 191.

(** The ranges of the second byte of an encoding, by its first. *)
Definition second_of_three (b0 b1 : Z) : bool :=
  if b0 =? 224 then in_range 160 191 b1 else if b0 =? 237 then in_range 128 159 b1 else continuation b1.
Definition second_of_four (b0 b1 : Z) : bool :=
  if b0 =? 240 then in_range 144 191 b1 else if b0 =? 244 then in_range 128 143 b1 else continuation b1.

(** The runes of a string, one after the other as [utf8.DecodeRuneInString] gives
    them. *)
Fixpoint decode_runes (s : string) : list (option Z) :=
  match s with
  | "" => []
  | String c0 s1 =>
      let b0 := byte_val c0 in
      if b0 <? 128 then Some b0 :: decode_runes s1
      else
        match s1 with
        | "" => [None]
        | String c1 s2 =>
            let b1 := byte_val c1 in
            if in_range 194 223 b0 && continuation b1
            then Some (b0 mod 32 * 64 + b1 mod 64) :: decode_runes s2
            else
              match s2 with
              | "" => None :: decode_runes s1
              | String c2 s3 =>
                  let b2 := byte_val c2 in
                  if in_range 224 239 b0 && second_of_three b0 b1 && continuation b2
                  then Some (b0 mod 16 * 4096 + b1 mod 64 * 64 + b2 mod 64) :: decode_runes s3
                  else
                    match s3 with
                    | "" => None :: decode_runes s1
                    | String c3 s4 =>
                        let b3 := byte_val c3 in
                        if in_range 240 244 b0 && second_of_four b0 b1 && continuation b2 && continuation b3
                        then Some (b0 mod 8 * 262144 + b1 mod 64 * 4096 + b2 mod 64 * 64 + b3 mod 64) :: decode_runes s4
                        else None :: decode_runes s1
                    end
              end
        end
  end.

(** [utf8.ValidString]. *)
Definition valid_utf8 (s : string) : bool := forallb (fun o => match o with Some _ => true | None => false end) (decode_runes s).

(** ** Bytes *)

Lemma byte_val_range c : 0 <= byte_val c < 256.
Proof.
  unfold byte_val. pose proof (N_ascii_bounded c). lia.
Qed.

Lemma byte_of_val c : byte_of_Z (byte_val c) = c.
Proof. unfold byte_of_Z, byte_val. by rewrite N2Z.id, ascii_N_embedding. Qed.

Lemma byte_val_of z : 0 <= z < 256 -> byte_val (byte_of_Z z) = z.
Proof. intros Hz. unfold byte_of_Z, byte_val. rewrite N_ascii_embedding by lia. lia. Qed.

Lemma byte_val_inj c c' : byte_val c = byte_val c' -> c = c'.
Proof. intros He. by rewrite <- (byte_of_val c), He, byte_of_val. Qed.

Lemma byte_of_Z_eq c z : byte_val c = z -> byte_of_Z z = c.
Proof. intros <-. apply byte_of_val. Qed.

(** ** One rune *)

Ltac range_hyps := unfold second_of_three, second_of_four, continuation, is_scalar, in_range in *; bool_hyps.

Lemma continuation_mod b : 128 <= b <= 191 -> b mod 64 = b - 128.
Proof. intros. symmetry. apply Z.mod_unique with 2; lia. Qed.

Lemma digits_2 a b : 0 <= b < 64 -> (a * 64 + b) / 64 = a /\ (a * 64 + b) mod 64 = b.
Proof. intros. split; [symmetry; by apply Z.div_unique with b; lia|symmetry; apply Z.mod_unique with a; lia]. Qed.

(** The encodings of two, three and four bytes, by their digits in base 64. *)
Lemma encode_two a b : 2 <= a < 32 -> 0 <= b < 64 ->
  is_scalar (a * 64 + b) = true
  /\ encode_rune (a * 64 + b) = String (byte_of_Z (192 + a)) (String (byte_of_Z (128 + b)) "").
Proof.
  intros Ha Hb. assert (Hs : is_scalar (a * 64 + b) = true) by (unfold is_scalar; lia). split; [done|].
  unfold encode_rune. rewrite Hs. destruct (digits_2 a b Hb) as [-> ->].
  rewrite (proj2 (Z.ltb_ge _ _)) by lia. by rewrite (proj2 (Z.ltb_lt _ _)) by lia.
Qed.

Lemma encode_three a b c : 0 <= a < 16 -> 0 <= b < 64 -> 0 <= c < 64 -> 32 <= a * 64 + b -> ~ 864 <= a * 64 + b < 896 ->
  is_scalar ((a * 64 + b) * 64 + c) = true
  /\ encode_rune ((a * 64 + b) * 64 + c)
     = String (byte_of_Z (224 + a)) (String (byte_of_Z (128 + b)) (String (byte_of_Z (128 + c)) "")).
Proof.
  intros Ha Hb Hc Hlo Hsur. assert (Hs : is_scalar ((a * 64 + b) * 64 + c) = true) by (unfold is_scalar; lia). split; [done|].
  unfold encode_rune. rewrite Hs. replace 4096 with (64 * 64) by done. rewrite <- Z.div_div by lia.
  destruct (digits_2 (a * 64 + b) c Hc) as [-> ->]. destruct (digits_2 a b Hb) as [-> ->].
  rewrite !(proj2 (Z.ltb_ge _ _)) by lia. by rewrite (proj2 (Z.ltb_lt _ _)) by lia.
Qed.

Lemma encode_four a b c d : 0 <= a < 5 -> 0 <= b < 64 -> 0 <= c < 64 -> 0 <= d < 64 -> 16 <= a * 64 + b < 272 ->
  is_scalar (((a * 64 + b) * 64 + c) * 64 + d) = true
  /\ encode_rune (((a * 64 + b) * 64 + c) * 64 + d)
     = String (byte_of_Z (240 + a)) (String (byte_of_Z (128 + b)) (String (byte_of_Z (128 + c)) (String (byte_of_Z (128 + d)) ""))).
Proof.
  intros Ha Hb Hc Hd Hlo. set (r := ((a * 64 + b) * 64 + c) * 64 + d).
  assert (Hr : 65536 <= r <= 1114111) by (unfold r; lia).
  assert (Hs : is_scalar r = true) by (unfold is_scalar; lia). split; [done|]. unfold encode_rune. rewrite Hs.
  replace 262144 with (64 * 64 * 64) by done. replace 4096 with (64 * 64) by done. rewrite <- !Z.div_div by lia. unfold r.
  destruct (digits_2 ((a * 64 + b) * 64 + c) d Hd) as [-> ->]. destruct (digits_2 (a * 64 + b) c Hc) as [-> ->].
  destruct (digits_2 a b Hb) as [-> ->]. fold r. by rewrite !(proj2 (Z.ltb_ge _ _)) by lia.
Qed.

(** What [decode_runes] does with the front of a string: an encoded rune, or a byte
    that is none. *)
Lemma decode_step c s :
  exists o raw rest, String c s = raw +:+ rest /\ decode_runes (String c s) = o :: decode_runes rest
  /\ match o with
     | Some r => is_scalar r = true /\ raw = encode_rune r
     | None => raw = String c "" /\ 128 <= byte_val c
     end.
Proof.
  pose proof (byte_val_range c) as Hc.
  assert (Hbad : 128 <= byte_val c -> exists o raw rest, String c s = raw +:+ rest
    /\ None :: decode_runes s = o :: decode_runes rest
    /\ match o with Some r => is_scalar r = true /\ raw = encode_rune r | None => raw = String c "" /\ 128 <= byte_val c end).
  { intros. by exists None, (String c ""), s. }
  cbn [decode_runes]. destruct (Z.ltb_spec (byte_val c) 128) as [Hlt|Hge].
  { exists (Some (byte_val c)), (String c ""), s. split_and!; [done|done|unfold is_scalar; lia|].
    unfold encode_rune. replace (is_scalar (byte_val c)) with true by (unfold is_scalar; lia).
    rewrite (proj2 (Z.ltb_lt _ _)) by lia. by rewrite byte_of_val. }
  specialize (Hbad Hge). destruct s as [|c1 s2]; [exact Hbad|]. pose proof (byte_val_range c1) as Hc1.
  destruct (in_range 194 223 (byte_val c) && continuation (byte_val c1)) eqn:E2.
  { range_hyps. destruct (encode_two (byte_val c - 192) (byte_val c1 - 128)) as [Hs He]; [lia..|].
    replace (byte_val c mod 32) with (byte_val c - 192) by (apply Z.mod_unique with 6; lia).
    rewrite (continuation_mod (byte_val c1)) by lia. eexists (Some _), (String c (String c1 "")), s2. split_and!; [done|reflexivity|done|]. rewrite He, (byte_of_Z_eq c), (byte_of_Z_eq c1) by lia. done. }
  clear E2. destruct s2 as [|c2 s3]; [exact Hbad|]. pose proof (byte_val_range c2) as Hc2.
  destruct (in_range 224 239 (byte_val c) && second_of_three (byte_val c) (byte_val c1) && continuation (byte_val c2)) eqn:E3.
  { assert (Hr : 224 <= byte_val c <= 239 /\ 128 <= byte_val c1 <= 191 /\ 128 <= byte_val c2 <= 191
      /\ (byte_val c = 224 -> 160 <= byte_val c1) /\ (byte_val c = 237 -> byte_val c1 <= 159)).
    { unfold second_of_three in E3. destruct (Z.eqb_spec (byte_val c) 224), (Z.eqb_spec (byte_val c) 237); range_hyps; lia. }
    destruct (encode_three (byte_val c - 224) (byte_val c1 - 128) (byte_val c2 - 128)) as [Hs He]; [lia..|].
    replace (byte_val c mod 16) with (byte_val c - 224) by (apply Z.mod_unique with 14; lia).
    rewrite (continuation_mod (byte_val c1)), (continuation_mod (byte_val c2)) by lia.
    replace ((byte_val c - 224) * 4096 + (byte_val c1 - 128) * 64 + (byte_val c2 - 128))
      with (((byte_val c - 224) * 64 + (byte_val c1 - 128)) * 64 + (byte_val c2 - 128)) by lia.
    eexists (Some _), (String c (String c1 (String c2 ""))), s3. split_and!; [done|reflexivity|done|]. rewrite He, (byte_of_Z_eq c), (byte_of_Z_eq c1), (byte_of_Z_eq c2) by lia. done. }
  clear E3. destruct s3 as [|c3 s4]; [exact Hbad|]. pose proof (byte_val_range c3) as Hc3.
  destruct (in_range 240 244 (byte_val c) && second_of_four (byte_val c) (byte_val c1) && continuation (byte_val c2)
    && continuation (byte_val c3)) eqn:E4; [|exact Hbad].
  assert (Hr : 240 <= byte_val c <= 244 /\ 128 <= byte_val c1 <= 191 /\ 128 <= byte_val c2 <= 191 /\ 128 <= byte_val c3 <= 191
    /\ (byte_val c = 240 -> 144 <= byte_val c1) /\ (byte_val c = 244 -> byte_val c1 <= 143)).
  { unfold second_of_four in E4. destruct (Z.eqb_spec (byte_val c) 240), (Z.eqb_spec (byte_val c) 244); range_hyps; lia. }
  destruct (encode_four (byte_val c - 240) (byte_val c1 - 128) (byte_val c2 - 128) (byte_val c3 - 128)) as [Hs He]; [lia..|].
  replace (byte_val c mod 8) with (byte_val c - 240) by (apply Z.mod_unique with 30; lia).
  rewrite (continuation_mod (byte_val c1)), (continuation_mod (byte_val c2)), (continuation_mod (byte_val c3)) by lia.
  replace ((byte_val c - 240) * 262144 + (byte_val c1 - 128) * 4096 + (byte_val c2 - 128) * 64 + (byte_val c3 - 128))
    with ((((byte_val c - 240) * 64 + (byte_val c1 - 128)) * 64 + (byte_val c2 - 128)) * 64 + (byte_val c3 - 128)) by lia.
  eexists (Some _), (String c (String c1 (String c2 (String c3 "")))), s4. split_and!; [done|reflexivity|done|]. rewrite He, (byte_of_Z_eq c), (byte_of_Z_eq c1), (byte_of_Z_eq c2), (byte_of_Z_eq c3) by lia. done.
Qed.

(** ** Strings *)

Lemma string_len_ind (P : string -> Prop) :
  (forall s, (forall t, (String.length t < String.length s)%nat -> P t) -> P s) -> forall s, P s.
Proof.
  intros HP s. assert (Hgen : forall n s, (String.length s < n)%nat -> P s); [|apply (Hgen (S (String.length s))); lia].
  clear s. induction n as [|n IH]; intros s Hs; [lia|]. apply HP. intros t Ht. apply IH. lia.
Qed.

(** A case for each rune at the front: an encoded one, or a byte that is none. *)
Lemma runes_ind (P : string -> Prop) :
  P "" ->
  (forall r s, is_scalar r = true -> decode_runes (encode_rune r +:+ s) = Some r :: decode_runes s -> P s -> P (encode_rune r +:+ s)) ->
  (forall c s, 128 <= byte_val c -> decode_runes (String c s) = None :: decode_runes s -> P s -> P (String c s)) ->
  forall s, P s.
Proof.
  intros H0 H1 H2 s.
  induction s as [[|c s] IH] using string_len_ind; [done|].
  destruct (decode_step c s) as (o & raw & rest & He & Hd & Ho). destruct o as [r|].
  - destruct Ho as [Hs ->]. rewrite He in Hd |- *. apply H1; [done|done|]. apply IH.
    assert (Hlen : (String.length (encode_rune r) > 0)%nat) by (unfold encode_rune; repeat case_test; simpl; lia).
    apply (f_equal String.length) in He. rewrite string_length_app in He. simpl in *. lia.
  - destruct Ho as [-> Hb]. simpl in He. injection He as <-. apply H2; [done|done|]. apply IH. simpl. lia.
Qed.

Lemma is_scalar_range r : is_scalar r = true -> 0 <= r < 55296 \/ 57344 <= r <= 1114111.
Proof. unfold is_scalar. intros H. range_hyps; lia. Qed.

(** An encoded rune is read back, whatever follows. *)
Lemma decode_encode r s : is_scalar r = true -> decode_runes (encode_rune r +:+ s) = Some r :: decode_runes s.
Proof.
  intros Hs. pose proof (is_scalar_range r Hs) as Hr. unfold encode_rune. rewrite Hs.
  assert (Hcont : forall z, 0 <= z < 64 -> continuation (128 + z) = true) by (intros; unfold continuation, in_range; lia).
  pose proof (Z.div_mod r 64 ltac:(lia)) as Hq1. pose proof (Z.mod_pos_bound r 64 ltac:(lia)) as Hd.
  destruct (Z.ltb_spec r 128).
  { cbn [append decode_runes]. rewrite byte_val_of, (proj2 (Z.ltb_lt _ _)) by lia. done. }
  set (d := r mod 64) in *. destruct (Z.ltb_spec r 2048).
  { set (a := r / 64) in *. assert (2 <= a < 32) by lia. cbn [append decode_runes]. rewrite !byte_val_of by lia.
    rewrite (proj2 (Z.ltb_ge _ _)) by lia. rewrite Hcont by lia.
    replace (in_range 194 223 (192 + a)) with true by (unfold in_range; lia). cbn [andb]. rewrite continuation_mod by lia.
    replace ((192 + a) mod 32) with a by (apply Z.mod_unique with 6; lia). do 2 f_equal. lia. }
  pose proof (Z.div_mod (r / 64) 64 ltac:(lia)) as Hq2. pose proof (Z.mod_pos_bound (r / 64) 64 ltac:(lia)) as Hc.
  assert (H12 : r / 4096 = r / 64 / 64) by (rewrite Z.div_div by lia; done). rewrite H12.
  set (c := r / 64 mod 64) in *. destruct (Z.ltb_spec r 65536).
  { set (a := r / 64 / 64) in *. assert (0 <= a < 16) by lia. cbn [append decode_runes]. rewrite !byte_val_of by lia.
    rewrite (proj2 (Z.ltb_ge _ _)) by lia. replace (in_range 194 223 (224 + a)) with false by (unfold in_range; lia).
    cbn [andb]. replace (in_range 224 239 (224 + a)) with true by (unfold in_range; lia). rewrite Hcont by lia.
    replace (second_of_three (224 + a) (128 + c)) with true.
    - cbn [andb]. rewrite !continuation_mod by lia. replace ((224 + a) mod 16) with a by (apply Z.mod_unique with 14; lia).
      do 2 f_equal. lia.
    - unfold second_of_three, continuation, in_range. destruct (Z.eqb_spec (224 + a) 224), (Z.eqb_spec (224 + a) 237); lia. }
  pose proof (Z.div_mod (r / 64 / 64) 64 ltac:(lia)) as Hq3. pose proof (Z.mod_pos_bound (r / 64 / 64) 64 ltac:(lia)) as Hb.
  assert (H18 : r / 262144 = r / 64 / 64 / 64) by (rewrite !Z.div_div by lia; done). rewrite H18.
  set (b := r / 64 / 64 mod 64) in *. set (a := r / 64 / 64 / 64) in *. assert (0 <= a < 5) by lia.
  cbn [append decode_runes]. rewrite !byte_val_of by lia.
  rewrite (proj2 (Z.ltb_ge _ _)) by lia. replace (in_range 194 223 (240 + a)) with false by (unfold in_range; lia).
  replace (in_range 224 239 (240 + a)) with false by (unfold in_range; lia). cbn [andb].
  replace (in_range 240 244 (240 + a)) with true by (unfold in_range; lia). rewrite !Hcont by lia.
  replace (second_of_four (240 + a) (128 + b)) with true.
  - cbn [andb]. rewrite !continuation_mod by lia. replace ((240 + a) mod 8) with a by (apply Z.mod_unique with 30; lia).
    do 2 f_equal. lia.
  - unfold second_of_four, continuation, in_range. destruct (Z.eqb_spec (240 + a) 240), (Z.eqb_spec (240 + a) 244); lia.
Qed.

Lemma decode_encode_runes l s :
  forallb is_scalar l = true -> decode_runes (encode_runes l +:+ s) = (Some <$> l) ++ decode_runes s.
Proof.
  induction l as [|r l IH]; cbn [encode_runes foldr forallb]; [done|]. rewrite andb_true_iff. intros [Hr Hl].
  rewrite string_app_assoc, decode_encode by done. fold (encode_runes l). by rewrite IH.
Qed.

(** A valid string is the encoding of its runes. *)
Lemma valid_runes s : valid_utf8 s = true ->
  exists l, decode_runes s = Some <$> l /\ forallb is_scalar l = true /\ encode_runes l = s.
Proof.
  induction s as [|r s Hr Hd IH|c s Hc Hd IH] using runes_ind.
  - intros _. by exists [].
  - unfold valid_utf8. rewrite Hd. cbn [forallb andb]. intros (l & Hl & Hs & He)%IH. exists (r :: l).
    rewrite Hl. simpl. fold (encode_runes l). by rewrite Hr, Hs, He.
  - unfold valid_utf8. rewrite Hd. done.
Qed.

Lemma encode_runes_valid l : forallb is_scalar l = true -> valid_utf8 (encode_runes l) = true.
Proof.
  intros Hl. pose proof (decode_encode_runes l "" Hl) as Hd. rewrite string_app_empty_r in Hd. unfold valid_utf8. rewrite Hd.
  clear. simpl. rewrite app_nil_r. by induction l.
Qed.

(** Every rune read is one that can be written. *)
Lemma decode_runes_scalar s : forallb is_scalar (default RuneError <$> decode_runes s) = true.
Proof.
  induction s as [|r s Hr Hd IH|c s Hc Hd IH] using runes_ind; [done|rewrite Hd; cbn [fmap list_fmap from_option id forallb]..].
  - by rewrite Hr.
  - done.
Qed.
