(* ===== verification/Json.v ===== *)
(** * JSON as encoding/json reads and writes it

    The values, the scanner with its limit on nesting, the literals of strings with
    their escapes, and the compact printer of [json.Marshal], which escapes what is
    special in HTML. *)

From S2P Require Import Prelude GoInt GoString Utf8.
From Stdlib Require Import Ascii String.
Open Scope string_scope.
Open Scope list_scope.
Open Scope Z_scope.

#[local] Unset Elimination Schemes.

(** A number is its literal; a string is its value. *)
Inductive json :=
  | JNull
  | JBool (b : bool)
  | JNumber (literal : string)
  | JString (s : string)
  | JArray (l : list json)
  | JObject (members : list (string * json)).

#[local] Set Elimination Schemes.

(** Induction through the nested lists. *)
Fixpoint json_nested (P : json -> Prop) (HN : P JNull) (HB : forall b, P (JBool b)) (HM : forall l, P (JNumber l))
    (HS : forall s, P (JString s)) (HA : forall l, Forall P l -> P (JArray l))
    (HO : forall l, Forall (fun m => P m.2) l -> P (JObject l)) (v : json) : P v :=
  let rec := json_nested P HN HB HM HS HA HO in
  match v with
  | JNull => HN
  | JBool b => HB b
  | JNumber l => HM l
  | JString s => HS s
  | JArray l => HA l ((fix go l : Forall P l := match l with [] => Forall_nil_2 _ | v :: l => Forall_cons_2 _ _ _ (rec v) (go l) end) l)
  | JObject l =>
      HO l ((fix go (l : list (string * json)) : Forall (fun m => P m.2) l :=
               match l with [] => Forall_nil_2 _ | m :: l => Forall_cons_2 _ m l (rec m.2) (go l) end) l)
  end.

(** ** Characters *)

Definition dquote : ascii := "034"%char.
Definition backslash : ascii := "092"%char.

(** The white space of JSON. *)
Definition is_ws (c : ascii) : bool :=
  let b := byte_val c in (b =? 32) || (b =? 9) || (b =? 10) || (b =? 13).

Fixpoint skip_ws (s : string) : string :=
  match s with
  | String c s' => if is_ws c then skip_ws s' else s
  | "" => ""
  end.

Definition is_hex (r : Z) : bool := in_range 48 57 r || in_range 97 102 r || in_range 65 70 r.
Definition is_hex4 (h1 h2 h3 h4 : Z) : bool := is_hex h1 && is_hex h2 && is_hex h3 && is_hex h4.
Definition hex_val (r : Z) : Z := if r <? 58 then r - 48 else if r <? 71 then r - 55 else r - 87.

(** ** String literals *)

(** The text of a literal after its opening quote, up to the closing one: the raw
    content and what follows. Control characters and unknown escapes are errors. *)
Fixpoint scan_string (s : string) : option (string * string) :=
  match s with
  | "" => None
  | String c s =>
      if Ascii.eqb c dquote then Some ("", s)
      else if byte_val c <? 32 then None
      else if Ascii.eqb c backslash then
        match s with
        | "" => None
        | String e s1 =>
            if string_exists (Ascii.eqb e) (String dquote (String backslash "/bfnrt")) then
              '(raw, rest) ← scan_string s1; Some (String c (String e raw), rest)
            else if Ascii.eqb e "u" then
              match s1 with
              | String h1 (String h2 (String h3 (String h4 s2))) =>
                  if is_hex4 (byte_val h1) (byte_val h2) (byte_val h3) (byte_val h4) then
                    '(raw, rest) ← scan_string s2;
                    Some (String c (String e (String h1 (String h2 (String h3 (String h4 raw))))), rest)
                  else None
              | _ => None
              end
            else None
        end
      else '(raw, rest) ← scan_string s; Some (String c raw, rest)
  end.

Definition hex4 (h1 h2 h3 h4 : Z) : Z := hex_val h1 * 4096 + hex_val h2 * 256 + hex_val h3 * 16 + hex_val h4.
Definition is_surrogate (r : Z) : bool := in_range 55296 57343 r.

(** [utf16.DecodeRune]. *)
Definition decode_pair (r1 r2 : Z) : option Z :=
  if in_range 55296 56319 r1 && in_range 56320 57343 r2 then Some ((r1 - 55296) * 1024 + (r2 - 56320) + 65536) else None.

(** The rune of a one-letter escape. *)
Definition escape_val (e : Z) : option Z :=
  if (e =? 34) || (e =? 92) || (e =? 47) then Some e
  else if e =? 98 then Some 8 else if e =? 102 then Some 12 else if e =? 110 then Some 10
  else if e =? 114 then Some 13 else if e =? 116 then Some 9 else None.

(** The value of the raw content, as runes. A surrogate that is not the first of a
    pair is replaced. *)
Fixpoint unquote (l : list Z) : option (list Z) :=
  match l with
  | [] => Some []
  | r :: l =>
      if negb (r =? 92) then cons r <$> unquote l
      else
        match l with
        | [] => None
        | e :: l =>
            if negb (e =? 117) then r ← escape_val e; cons r <$> unquote l
            else
              match l with
              | h1 :: h2 :: h3 :: h4 :: l =>
                  let r1 := hex4 h1 h2 h3 h4 in
                  if negb (is_hex4 h1 h2 h3 h4) then None
                  else if negb (is_surrogate r1) then cons r1 <$> unquote l
                  else
                    match l with
                    | b :: u :: k1 :: k2 :: k3 :: k4 :: l' =>
                        if (b =? 92) && (u =? 117) && is_hex4 k1 k2 k3 k4 then
                          match decode_pair r1 (hex4 k1 k2 k3 k4) with
                          | Some r => cons r <$> unquote l'
                          | None => cons RuneError <$> unquote l
                          end
                        else cons RuneError <$> unquote l
                    | _ => cons RuneError <$> unquote l
                    end
              | _ => None
              end
        end
  end.

(** A literal after its opening quote: its value and what follows. *)
Definition parse_string (s : string) : option (string * string) :=
  '(raw, rest) ← scan_string s;
  value ← unquote (default RuneError <$> decode_runes raw);
  Some (encode_runes value, rest).

(** What [json.Marshal] writes for a rune, or for a byte that is none. *)
Definition escape_rune (o : option Z) : list Z :=
  match o with
  | None => [92; 117; 102; 102; 102; 100]
  | Some r =>
      if (r =? 34) || (r =? 92) then [92; r]
      else if r =? 8 then [92; 98]
      else if r =? 12 then [92; 102]
      else if r =? 10 then [92; 110]
      else if r =? 13 then [92; 114]
      else if r =? 9 then [92; 116]
      else if (r <? 32) || (r =? 60) || (r =? 62) || (r =? 38) || (r =? 8232) || (r =? 8233)
      then [92; 117] ++ (byte_val ∘ digit_char <$> [r / 4096; r / 256 mod 16; r / 16 mod 16; r mod 16])
      else [r]
  end.

Definition quote (s : string) : string :=
  String dquote (encode_runes (decode_runes s ≫= escape_rune) +:+ String dquote "").

(** ** Number literals *)

Definition is_digit (c : ascii) : bool := in_range 48 57 (byte_val c).

(** The longest prefix of digits, and the rest. *)
Fixpoint span_digits (s : string) : string * string :=
  match s with
  | String c s' => if is_digit c then let '(ds, rest) := span_digits s' in (String c ds, rest) else ("", s)
  | "" => ("", "")
  end.

(** One digit or more. *)
Definition some_digits (s : string) : option (string * string) :=
  let '(ds, rest) := span_digits s in if String.eqb ds "" then None else Some (ds, rest).

(** The parts of a number: the integer, without superfluous zeros, the fraction and
    the exponent. *)
Definition scan_integer (s : string) : option (string * string) :=
  match s with
  | String c rest => if Ascii.eqb c "0" then Some ("0", rest) else some_digits s
  | "" => None
  end.

Definition scan_fraction (s : string) : option (string * string) :=
  match s with
  | String c rest =>
      if Ascii.eqb c "." then '(ds, rest) ← some_digits rest; Some (String c ds, rest) else Some ("", s)
  | "" => Some ("", "")
  end.

Definition scan_exponent (s : string) : option (string * string) :=
  match s with
  | String c rest =>
      if Ascii.eqb c "e" || Ascii.eqb c "E" then
        let '(sign, rest) := match rest with
                             | String d rest' => if Ascii.eqb d "+" || Ascii.eqb d "-" then (String d "", rest') else ("", rest)
                             | "" => ("", "")
                             end in
        '(ds, rest) ← some_digits rest; Some (String c (sign +:+ ds), rest)
      else Some ("", s)
  | "" => Some ("", "")
  end.

Definition scan_number (s : string) : option (string * string) :=
  let '(sign, s) := match s with
                    | String c rest => if Ascii.eqb c "-" then ("-", rest) else ("", s)
                    | "" => ("", "")
                    end in
  '(int, s) ← scan_integer s;
  '(frac, s) ← scan_fraction s;
  '(exp, s) ← scan_exponent s;
  Some (sign +:+ int +:+ frac +:+ exp, s).

(** ** Values *)

(** [w] at the front of [s]. *)
Fixpoint strip_word (w s : string) : option string :=
  match w, s with
  | "", _ => Some s
  | String x w, String y s => if Ascii.eqb x y then strip_word w s else None
  | _, _ => None
  end.

(** The limit of the scanner on nested arrays and objects. *)
Definition maxNestingDepth : Z := 10000.

(** A value at the front of [s], and what follows. [depth] counts the arrays and
    objects around it. Fuel: see [parse_fuel]. *)
Fixpoint parse_value (fuel : nat) (depth : Z) (s : string) : option (json * string) :=
  match fuel with
  | O => None
  | S fuel =>
      match skip_ws s with
      | "" => None
      | String c rest =>
          if Ascii.eqb c "{" then
            if maxNestingDepth <? depth + 1 then None
            else
              match strip_word "}" (skip_ws rest) with
              | Some rest => Some (JObject [], rest)
              | None => '(members, rest) ← parse_members fuel (depth + 1) rest; Some (JObject members, rest)
              end
          else if Ascii.eqb c "[" then
            if maxNestingDepth <? depth + 1 then None
            else
              match strip_word "]" (skip_ws rest) with
              | Some rest => Some (JArray [], rest)
              | None => '(l, rest) ← parse_elements fuel (depth + 1) rest; Some (JArray l, rest)
              end
          else if Ascii.eqb c dquote then '(value, rest) ← parse_string rest; Some (JString value, rest)
          else if Ascii.eqb c "t" then rest ← strip_word "rue" rest; Some (JBool true, rest)
          else if Ascii.eqb c "f" then rest ← strip_word "alse" rest; Some (JBool false, rest)
          else if Ascii.eqb c "n" then rest ← strip_word "ull" rest; Some (JNull, rest)
          else '(literal, rest) ← scan_number (String c rest); Some (JNumber literal, rest)
      end
  end
with parse_elements (fuel : nat) (depth : Z) (s : string) : option (list json * string) :=
  match fuel with
  | O => None
  | S fuel =>
      '(v, rest) ← parse_value fuel depth s;
      match skip_ws rest with
      | String c rest =>
          if Ascii.eqb c "," then '(l, rest) ← parse_elements fuel depth rest; Some (v :: l, rest)
          else if Ascii.eqb c "]" then Some ([v], rest) else None
      | "" => None
      end
  end
with parse_members (fuel : nat) (depth : Z) (s : string) : option (list (string * json) * string) :=
  match fuel with
  | O => None
  | S fuel =>
      rest ← strip_word (String dquote "") (skip_ws s);
      '(key, rest) ← parse_string rest;
      rest ← strip_word ":" (skip_ws rest);
      '(v, rest) ← parse_value fuel depth rest;
      match skip_ws rest with
      | String c rest =>
          if Ascii.eqb c "," then '(l, rest) ← parse_members fuel depth rest; Some ((key, v) :: l, rest)
          else if Ascii.eqb c "}" then Some ([(key, v)], rest) else None
      | "" => None
      end
  end.

(** Every two calls take a byte. *)
Definition parse_fuel (s : string) : nat := 2 * String.length s + 2.

(** [json.Decoder.Decode] up to the value: the first one of the input and the unread
    rest. *)
Definition first_value (s : string) : option (json * string) := parse_value (parse_fuel s) 0 s.

(** The whole input is one value, as [json.Unmarshal] asks. *)
Definition whole_value (s : string) : option json :=
  '(v, rest) ← first_value s;
  if string_forall is_ws rest then Some v else None.

(** ** The printer *)

Fixpoint join_comma (l : list string) : string :=
  match l with
  | [] => ""
  | [s] => s
  | s :: l => s +:+ "," +:+ join_comma l
  end.

Fixpoint print (v : json) : string :=
  match v with
  | JNull => "null"
  | JBool true => "true"
  | JBool false => "false"
  | JNumber literal => literal
  | JString s => quote s
  | JArray l => "[" +:+ join_comma (map print l) +:+ "]"
  | JObject members => "{" +:+ join_comma (map (fun m => quote m.1 +:+ ":" +:+ print m.2) members) +:+ "}"
  end.

(** ** Every reader takes bytes *)

(** Opens the reads a successful one is made of. *)
Ltac binds :=
  repeat match goal with
  | H : mbind _ _ = Some _ |- _ =>
      let E := fresh "Er" in let x := fresh "x" in
      apply bind_Some in H as (x & E & H); try match type of x with (_ * _)%type => destruct x as [? ?] end
  end.

Lemma skip_ws_length s : (String.length (skip_ws s) <= String.length s)%nat.
Proof. induction s as [|c s IH]; simpl; [lia|]. destruct (is_ws c); simpl; lia. Qed.

Lemma strip_word_spec w s rest : strip_word w s = Some rest <-> s = w +:+ rest.
Proof.
  revert s. induction w as [|x w IH]; intros s; simpl; [destruct s; split; by intros [= ->]|].
  destruct s as [|y s]; simpl; [by split|]. destruct (Ascii.eqb_spec x y) as [->|Hne].
  - rewrite IH. split; [by intros ->|by intros [= ->]].
  - split; [done|]. by intros [= -> _].
Qed.

Lemma strip_word_length w s rest : strip_word w s = Some rest -> String.length s = (String.length w + String.length rest)%nat.
Proof. intros ->%strip_word_spec. apply string_length_app. Qed.

(** A literal is its raw content, a quote and what follows. *)
Lemma scan_string_split s raw rest : scan_string s = Some (raw, rest) -> s = raw +:+ String dquote rest.
Proof.
  revert raw rest. induction s as [[|c s] IH] using string_len_ind; intros raw rest; cbn [scan_string]; [done|].
  destruct (Ascii.eqb_spec c dquote) as [->|_]; [by intros [= <- <-]|]. case_test; [done|].
  assert (Hone : forall raw' t, (String.length t <= String.length s)%nat -> scan_string t = Some (raw', rest) -> t = raw' +:+ String dquote rest).
  { intros raw' t Ht. apply IH. simpl. lia. }
  destruct (Ascii.eqb_spec c backslash) as [->|_].
  - destruct s as [|e s1]; [done|]. case_test.
    + intros H. binds. injection H as <- <-. simpl. rewrite <- (Hone _ s1) by (done || (simpl; lia)). done.
    + case_test; [|done]. do 4 (destruct s1 as [|? s1]; [done|]). case_test; [|done].
      intros H. binds. injection H as <- <-. simpl. rewrite <- (Hone _ s1) by (done || (simpl; lia)). done.
  - intros H. binds. injection H as <- <-. simpl. by rewrite <- (Hone _ s).
Qed.

Lemma scan_string_length s raw rest : scan_string s = Some (raw, rest) -> (String.length rest < String.length s)%nat.
Proof. intros ->%scan_string_split. rewrite string_length_app. simpl. lia. Qed.

Lemma parse_string_length s v rest : parse_string s = Some (v, rest) -> (String.length rest < String.length s)%nat.
Proof. unfold parse_string. intros H. binds. injection H as <- <-. by eapply scan_string_length. Qed.

Lemma span_digits_length s : (String.length (span_digits s).1 + String.length (span_digits s).2 = String.length s)%nat.
Proof. induction s as [|c s IH]; simpl; [done|]. destruct (is_digit c); [|done]. destruct (span_digits s). simpl in *. lia. Qed.

Lemma some_digits_length s ds rest : some_digits s = Some (ds, rest) -> (String.length rest < String.length s)%nat.
Proof.
  unfold some_digits. pose proof (span_digits_length s) as Hl. destruct (span_digits s) as [d r]. simpl in Hl.
  destruct (String.eqb_spec d ""); [done|]. intros [= <- <-]. destruct d; [done|]. simpl in Hl. lia.
Qed.

Lemma scan_number_length s l rest : scan_number s = Some (l, rest) -> (String.length rest < String.length s)%nat.
Proof.
  assert (Hint : forall s l rest, scan_integer s = Some (l, rest) -> (String.length rest < String.length s)%nat).
  { intros [|c t] l' r; [done|]. cbn [scan_integer]. destruct (Ascii.eqb c "0"); [intros [= <- <-]; simpl; lia|apply some_digits_length]. }
  assert (Hfrac : forall s l rest, scan_fraction s = Some (l, rest) -> (String.length rest <= String.length s)%nat).
  { intros [|c t] l' r; cbn [scan_fraction]; [by intros [= <- <-]|]. destruct (Ascii.eqb c "."); [|by intros [= <- <-]].
    intros H. binds. injection H as <- <-. apply some_digits_length in Er. simpl. lia. }
  assert (Hexp : forall s l rest, scan_exponent s = Some (l, rest) -> (String.length rest <= String.length s)%nat).
  { intros [|c t] l' r; cbn [scan_exponent]; [by intros [= <- <-]|]. case_test; [|by intros [= <- <-]].
    destruct t as [|d t]; [done|]. destruct (Ascii.eqb d "+" || Ascii.eqb d "-");
      intros H; binds; injection H as <- <-; apply some_digits_length in Er; simpl in *; lia. }
  unfold scan_number. destruct s as [|c t]; [done|]. destruct (Ascii.eqb c "-"); intros H; binds; injection H as _ <-;
    repeat match goal with
    | E : scan_integer _ = Some _ |- _ => apply Hint in E
    | E : scan_fraction _ = Some _ |- _ => apply Hfrac in E
    | E : scan_exponent _ = Some _ |- _ => apply Hexp in E
    end; simpl in *; lia.
Qed.

(** ** Values take bytes, and the fuel is enough *)

Ltac shrinks :=
  repeat match goal with
  | E : strip_word _ _ = Some _ |- _ => apply strip_word_length in E
  | E : parse_string _ = Some _ |- _ => apply parse_string_length in E
  | E : scan_number _ = Some _ |- _ => apply scan_number_length in E
  | E : skip_ws ?s = String _ _ |- _ =>
      let H := fresh "Hw" in pose proof (skip_ws_length s) as H; rewrite E in H; clear E
  | _ : context [skip_ws ?s] |- _ =>
      lazymatch goal with
      | _ : (String.length (skip_ws s) <= String.length s)%nat |- _ => fail
      | _ => pose proof (skip_ws_length s)
      end
  end; simpl String.length in *.

Lemma parse_length fuel :
  (forall depth s v rest, parse_value fuel depth s = Some (v, rest) -> (String.length rest < String.length s)%nat)
  /\ (forall depth s l rest, parse_elements fuel depth s = Some (l, rest) -> (String.length rest < String.length s)%nat)
  /\ (forall depth s l rest, parse_members fuel depth s = Some (l, rest) -> (String.length rest < String.length s)%nat).
Proof.
  induction fuel as [|fuel (IHv & IHe & IHm)]; [done|]. split_and!; intros depth s v rest H.
  - cbn [parse_value] in H. destruct (skip_ws s) as [|c t] eqn:Es; [done|].
    repeat case_test; try done;
      try (destruct (strip_word _ (skip_ws t)) eqn:Ew; [injection H as <- <-; shrinks; lia|]);
      binds; injection H as <- <-;
      try (apply IHm in Er); try (apply IHe in Er); shrinks; lia.
  - cbn [parse_elements] in H. binds. apply IHv in Er. destruct (skip_ws _) as [|c t] eqn:Es in H; [done|].
    repeat case_test; try done; binds; injection H as <- <-; try (apply IHe in Er0); shrinks; lia.
  - cbn [parse_members] in H. binds. apply IHv in Er2. destruct (skip_ws _) as [|c t] eqn:Es in H; [done|].
    repeat case_test; try done; binds; injection H as <- <-; try (apply IHm in Er3); shrinks; lia.
Qed.

(** Enough fuel is as good as any more. *)
Lemma parse_fuel_irrelevant n :
  (forall m depth s, (2 * String.length s + 1 <= n)%nat -> (2 * String.length s + 1 <= m)%nat ->
     parse_value n depth s = parse_value m depth s)
  /\ (forall m depth s, (2 * String.length s + 2 <= n)%nat -> (2 * String.length s + 2 <= m)%nat ->
     parse_elements n depth s = parse_elements m depth s)
  /\ (forall m depth s, (2 * String.length s + 2 <= n)%nat -> (2 * String.length s + 2 <= m)%nat ->
     parse_members n depth s = parse_members m depth s).
Proof.
  induction n as [|n (IHv & IHe & IHm)]; [split_and!; intros; lia|]. split_and!; intros [|m] depth s Hn Hm; try lia.
  - cbn [parse_value]. destruct (skip_ws s) as [|c t] eqn:Es; [done|].
    pose proof (skip_ws_length s) as Hs. rewrite Es in Hs. simpl in Hs.
    by rewrite (IHe m), (IHm m) by lia.
  - cbn [parse_elements]. rewrite (IHv m) by lia. destruct (parse_value m depth s) as [[v rest]|] eqn:Ev; [|done]. simpl.
    apply (proj1 (parse_length m)) in Ev. destruct (skip_ws rest) as [|c t] eqn:Es; [done|].
    pose proof (skip_ws_length rest) as Hs. rewrite Es in Hs. simpl in Hs. by rewrite (IHe m) by lia.
  - cbn [parse_members]. destruct (strip_word _ (skip_ws s)) as [r|] eqn:E1; [|done]. cbn [mbind option_bind].
    destruct (parse_string r) as [[key r1]|] eqn:E2; [|done]. cbn [mbind option_bind].
    destruct (strip_word _ (skip_ws r1)) as [r2|] eqn:E3; [|done]. cbn [mbind option_bind].
    assert (Hr : (String.length r2 < String.length s)%nat) by (shrinks; lia).
    rewrite (IHv m) by lia. destruct (parse_value m depth r2) as [[v rest]|] eqn:Ev; [|done]. cbn [mbind option_bind].
    apply (proj1 (parse_length m)) in Ev. destruct (skip_ws rest) as [|c t] eqn:Es; [done|].
    pose proof (skip_ws_length rest) as Hs. rewrite Es in Hs. simpl in Hs. by rewrite (IHm m) by lia.
Qed.

Lemma first_value_fuel fuel s : (2 * String.length s + 1 <= fuel)%nat -> parse_value fuel 0 s = first_value s.
Proof. intros Hf. unfold first_value, parse_fuel. apply parse_fuel_irrelevant; lia. Qed.
