(* ===== verification/JsonProps.v ===== *)
(** * What is printed is read back

    The round trip of [Json]'s printer and reader, for every value with integers in
    its numbers, and the validity of every string that is read. *)

From S2P Require Import Prelude GoInt GoString Utf8 Json.
From Stdlib Require Import Ascii String.
Open Scope string_scope.
Open Scope list_scope.
Open Scope Z_scope.

(** ** String literals, written and read *)

(** [strings.ToValidUTF8] with the replacement character for each byte. *)
Definition to_valid (s : string) : string := encode_runes (default RuneError <$> decode_runes s).

Lemma to_valid_id s : valid_utf8 s = true -> to_valid s = s.
Proof.
  intros (l & Hd & _ & He)%valid_runes. unfold to_valid. rewrite Hd, <- list_fmap_compose.
  etrans; [|exact He]. f_equal. apply list_fmap_id.
Qed.

Lemma to_valid_valid s : valid_utf8 (to_valid s) = true.
Proof. apply encode_runes_valid, decode_runes_scalar. Qed.

(** A rune that came from a string. *)
Definition read_rune (o : option Z) : Prop := match o with Some r => is_scalar r = true | None => True end.

Lemma decode_runes_read s : Forall read_rune (decode_runes s).
Proof. induction s as [|r s Hr Hd IH|c s Hc Hd IH] using runes_ind; [constructor|rewrite Hd; by constructor..]. Qed.

Lemma hex_digit d : 0 <= d < 16 ->
  let b := byte_val (digit_char d) in is_hex b = true /\ hex_val b = d /\ 0 <= b < 128 /\ encode_rune b = String (digit_char d) "".
Proof.
  intros Hd. assert (Hall : forallb (fun n => let d := Z.of_nat n in let b := byte_val (digit_char d) in
    is_hex b && (hex_val b =? d) && (b <? 128) && String.eqb (encode_rune b) (String (digit_char d) "")) (seq 0 16) = true)
    by (vm_compute; reflexivity).
  rewrite forallb_forall in Hall. specialize (Hall (Z.to_nat d)). rewrite Z2Nat.id in Hall by lia.
  cbv zeta in Hall |- *. rewrite !andb_true_iff, Z.eqb_eq, Z.ltb_lt, String.eqb_eq in Hall.
  destruct Hall as [[[? ?] ?] ?]; [apply in_seq; lia|]. pose proof (byte_val_range (digit_char d)). split_and!; done || lia.
Qed.

Lemma hex_digits r : 0 <= r < 65536 ->
  exists d1 d2 d3 d4, [r / 4096; r / 256 mod 16; r / 16 mod 16; r mod 16] = [d1; d2; d3; d4]
    /\ 0 <= d1 < 16 /\ 0 <= d2 < 16 /\ 0 <= d3 < 16 /\ 0 <= d4 < 16 /\ r = d1 * 4096 + d2 * 256 + d3 * 16 + d4.
Proof.
  intros Hr. eexists _, _, _, _. split; [reflexivity|].
  pose proof (Z.mod_pos_bound r 16). pose proof (Z.mod_pos_bound (r / 16) 16). pose proof (Z.mod_pos_bound (r / 256) 16).
  pose proof (Z.div_mod r 16). pose proof (Z.div_mod (r / 16) 16). pose proof (Z.div_mod (r / 256) 16).
  replace (r / 256) with (r / 16 / 16) in * by (by rewrite Z.div_div by lia).
  replace (r / 4096) with (r / 16 / 16 / 16) by (by rewrite !Z.div_div by lia). lia.
Qed.

Lemma encode_rune_high r : is_scalar r = true -> 128 <= r -> string_forall (fun c => 128 <=? byte_val c) (encode_rune r) = true.
Proof.
  intros Hs Hr. pose proof (is_scalar_range r Hs). unfold encode_rune. rewrite Hs, (proj2 (Z.ltb_ge _ _)) by lia.
  assert (Hc : forall z, (128 <=? byte_val (byte_of_Z (128 + z mod 64))) = true).
  { intros z. pose proof (Z.mod_pos_bound z 64). rewrite byte_val_of by lia. lia. }
  assert (Hlead : forall z k, 0 <= z < k -> 192 <= 256 - k -> (128 <=? byte_val (byte_of_Z (256 - k + z))) = true).
  { intros z k Hz Hk. rewrite byte_val_of by lia. lia. }
  destruct (Z.ltb_spec r 2048); [|destruct (Z.ltb_spec r 65536)]; cbn [string_forall]; rewrite !Hc, !andb_true_r.
  - apply (Hlead (r / 64) 64); [|lia]. split; [by apply Z.div_pos; lia|apply Z.div_lt_upper_bound; lia].
  - apply (Hlead (r / 4096) 32); [|lia]. split; [by apply Z.div_pos; lia|apply Z.div_lt_upper_bound; lia].
  - apply (Hlead (r / 262144) 16); [|lia]. split; [by apply Z.div_pos; lia|apply Z.div_lt_upper_bound; lia].
Qed.

(** Characters that stand for themselves in a literal. *)
Lemma scan_plain_byte c t raw rest :
  32 <= byte_val c -> byte_val c <> 34 -> byte_val c <> 92 -> scan_string t = Some (raw, rest) ->
  scan_string (String c t) = Some (String c raw, rest).
Proof.
  intros H1 H2 H3 Ht. cbn [scan_string]. destruct (Ascii.eqb_spec c dquote) as [->|_]; [done|].
  rewrite (proj2 (Z.ltb_ge _ _)) by done. destruct (Ascii.eqb_spec c backslash) as [->|_]; [done|]. by rewrite Ht.
Qed.

Lemma scan_high raw0 t raw rest :
  string_forall (fun c => 128 <=? byte_val c) raw0 = true -> scan_string t = Some (raw, rest) ->
  scan_string (raw0 +:+ t) = Some (raw0 +:+ raw, rest).
Proof.
  intros Hh Ht. induction raw0 as [|c raw0 IH]; [done|]. cbn [string_forall] in Hh. apply andb_true_iff in Hh as [Hc Hh].
  apply Z.leb_le in Hc. cbn [append]. apply scan_plain_byte; [lia..|by apply IH].
Qed.

Lemma encode_ascii r : 0 <= r < 128 -> encode_rune r = String (byte_of_Z r) "".
Proof. intros Hr. unfold encode_rune, is_scalar. replace (_ || _) with true by lia. by rewrite (proj2 (Z.ltb_lt _ _)) by lia. Qed.

Lemma scan_plain r t raw rest :
  is_scalar r = true -> 32 <= r -> r <> 34 -> r <> 92 -> scan_string t = Some (raw, rest) ->
  scan_string (encode_rune r +:+ t) = Some (encode_rune r +:+ raw, rest).
Proof.
  intros Hs H1 H2 H3 Ht. destruct (Z.lt_ge_cases r 128) as [Hlt|Hge].
  - rewrite encode_ascii by lia. apply scan_plain_byte; rewrite ?byte_val_of by lia; done.
  - by apply scan_high; [apply encode_rune_high|].
Qed.

Lemma scan_escape r o t raw rest :
  read_rune o -> escape_rune o = r -> scan_string t = Some (raw, rest) ->
  scan_string (encode_runes r +:+ t) = Some (encode_runes r +:+ raw, rest).
Proof.
  intros Ho <- Ht.
  assert (Hletter : forall e, string_exists (Ascii.eqb (byte_of_Z e)) (String dquote (String backslash "/bfnrt")) = true -> 0 <= e < 128 ->
    scan_string (encode_runes [92; e] +:+ t) = Some (encode_runes [92; e] +:+ raw, rest)).
  { intros e He Hr. cbn [encode_runes foldr]. rewrite (encode_ascii 92), (encode_ascii e) by lia. cbn [append scan_string].
    change (byte_of_Z 92) with backslash. change (Ascii.eqb backslash dquote) with false. change (byte_val backslash <? 32) with false.
    change (Ascii.eqb backslash backslash) with true. cbv iota. by rewrite He, Ht. }
  destruct o as [r|]; [|cbn -[scan_string]; cbn [scan_string]; by rewrite Ht]. unfold escape_rune.
  destruct (Z.eqb_spec r 34) as [->|]; [by apply Hletter|]. destruct (Z.eqb_spec r 92) as [->|]; [by apply Hletter|]. cbn [orb].
  repeat match goal with |- context [r =? ?k] => lazymatch k with
    | 8 => destruct (Z.eqb_spec r k); [by apply Hletter|] | 12 => destruct (Z.eqb_spec r k); [by apply Hletter|]
    | 10 => destruct (Z.eqb_spec r k); [by apply Hletter|] | 13 => destruct (Z.eqb_spec r k); [by apply Hletter|]
    | 9 => destruct (Z.eqb_spec r k); [by apply Hletter|] end end.
  simpl in Ho. pose proof (is_scalar_range r Ho).
  destruct (_ || (r =? 8233)) eqn:E.
  - assert (Hr : 0 <= r < 65536) by (bool_hyps; lia).
    destruct (hex_digits r Hr) as (d1 & d2 & d3 & d4 & -> & H1 & H2 & H3 & H4 & _).
    destruct (hex_digit d1 H1) as (X1 & _ & _ & E1), (hex_digit d2 H2) as (X2 & _ & _ & E2).
    destruct (hex_digit d3 H3) as (X3 & _ & _ & E3), (hex_digit d4 H4) as (X4 & _ & _ & E4).
    cbn [fmap list_fmap app encode_runes foldr compose]. unfold compose. rewrite E1, E2, E3, E4.
    cbn -[scan_string digit_char]. cbn [scan_string]. change (byte_of_Z 92) with backslash.
    change (Ascii.eqb backslash dquote) with false. change (byte_val backslash <? 32) with false.
    change (Ascii.eqb backslash backslash) with true. cbv iota.
    change (byte_of_Z 117) with "u"%char.
    match goal with |- context [string_exists ?f ?t] => change (string_exists f t) with false end.
    change (Ascii.eqb "u" "u") with true. cbv iota. unfold is_hex4. rewrite X1, X2, X3, X4. cbn [andb]. by rewrite Ht.
  - assert (32 <= r) by (bool_hyps; lia). cbn [encode_runes foldr]. rewrite string_app_empty_r.
    by apply scan_plain.
Qed.

Lemma unquote_escape o l : read_rune o -> unquote (escape_rune o ++ l) = cons (default RuneError o) <$> unquote l.
Proof.
  intros Ho. destruct o as [r|]; [|done]. simpl in Ho. pose proof (is_scalar_range r Ho). unfold escape_rune.
  destruct (Z.eqb_spec r 34) as [->|]; [done|]. destruct (Z.eqb_spec r 92) as [->|]; [done|]. cbn [orb].
  destruct (Z.eqb_spec r 8) as [->|]; [done|]. destruct (Z.eqb_spec r 12) as [->|]; [done|].
  destruct (Z.eqb_spec r 10) as [->|]; [done|]. destruct (Z.eqb_spec r 13) as [->|]; [done|].
  destruct (Z.eqb_spec r 9) as [->|]; [done|].
  destruct (_ || (r =? 8233)) eqn:E.
  - assert (Hr : 0 <= r < 65536) by (bool_hyps; lia).
    destruct (hex_digits r Hr) as (d1 & d2 & d3 & d4 & -> & H1 & H2 & H3 & H4 & Hsum).
    destruct (hex_digit d1 H1) as (X1 & V1 & _), (hex_digit d2 H2) as (X2 & V2 & _).
    destruct (hex_digit d3 H3) as (X3 & V3 & _), (hex_digit d4 H4) as (X4 & V4 & _).
    cbn [fmap list_fmap app compose]. unfold compose. cbn [unquote]. unfold hex4, is_hex4.
    rewrite V1, V2, V3, V4, X1, X2, X3, X4, <- Hsum. cbn [andb].
    change (negb (92 =? 92)) with false. change (negb (117 =? 117)) with false. cbv iota zeta.
    replace (is_surrogate r) with false by (unfold is_surrogate, in_range; lia). done.
  - cbn [app unquote]. rewrite (proj2 (Z.eqb_neq r 92)) by done. done.
Qed.

Lemma escape_runes_scalar os : Forall read_rune os -> forallb is_scalar (os ≫= escape_rune) = true.
Proof.
  induction 1 as [|o os Ho _ IH]; [done|]. cbn [mbind list_bind]. rewrite forallb_app, IH, andb_true_r.
  destruct o as [r|]; [|done]. simpl in Ho. unfold escape_rune.
  destruct (Z.eqb_spec r 34) as [->|]; [done|]. destruct (Z.eqb_spec r 92) as [->|]; [done|]. cbn [orb].
  repeat (destruct (Z.eqb _ _); [done|]). destruct (_ || _) eqn:E; [|simpl; by rewrite Ho].
  destruct (hex_digits r) as (d1 & d2 & d3 & d4 & -> & H1 & H2 & H3 & H4 & _).
  { pose proof (is_scalar_range r Ho). bool_hyps; lia. }
  destruct (hex_digit d1 H1) as (_ & _ & R1 & _), (hex_digit d2 H2) as (_ & _ & R2 & _).
  destruct (hex_digit d3 H3) as (_ & _ & R3 & _), (hex_digit d4 H4) as (_ & _ & R4 & _).
  assert (Hs : forall b, 0 <= b < 128 -> is_scalar b = true) by (intros; unfold is_scalar; lia).
  cbn [fmap list_fmap app forallb]. unfold compose. by rewrite !Hs by done.
Qed.

Lemma scan_quoted os rest : Forall read_rune os ->
  scan_string (encode_runes (os ≫= escape_rune) +:+ String dquote rest) = Some (encode_runes (os ≫= escape_rune), rest).
Proof.
  induction 1 as [|o os Ho _ IH]; [done|]. cbn [mbind list_bind].
  assert (Happ : forall l l2, encode_runes (l ++ l2) = encode_runes l +:+ encode_runes l2).
  { intros l l2. induction l as [|r l IHl]; [done|]. simpl. fold (encode_runes (l ++ l2)). fold (encode_runes l).
    by rewrite IHl, string_app_assoc. }
  rewrite Happ, string_app_assoc. by apply (scan_escape _ o).
Qed.

Lemma unquote_quoted os : Forall read_rune os -> unquote (os ≫= escape_rune) = Some (default RuneError <$> os).
Proof.
  induction 1 as [|o os Ho _ IH]; [done|]. cbn [mbind list_bind]. rewrite unquote_escape by done.
  by rewrite IH.
Qed.

(** What is written is read back, up to the bytes that are no UTF-8. *)
Lemma parse_quote s rest : exists t, quote s +:+ rest = String dquote t /\ parse_string t = Some (to_valid s, rest).
Proof.
  eexists. split; [unfold quote; reflexivity|]. rewrite string_app_assoc.
  change (String dquote "" +:+ rest) with (String dquote rest). unfold parse_string.
  pose proof (decode_runes_read s) as Hr. rewrite scan_quoted by done. cbn [mbind option_bind].
  pose proof (decode_encode_runes _ "" (escape_runes_scalar _ Hr)) as Hd. rewrite string_app_empty_r in Hd. rewrite Hd.
  cbn [decode_runes]. rewrite app_nil_r, <- list_fmap_compose.
  replace (default RuneError ∘ Some <$> (decode_runes s ≫= escape_rune)) with (decode_runes s ≫= escape_rune)
    by (symmetry; apply list_fmap_id). rewrite unquote_quoted by done. done.
Qed.

(** ** Numbers, written and read *)

(** What follows does not continue a number. *)
Definition ends_number (s : string) : Prop :=
  match s with
  | "" => True
  | String c _ => is_digit c = false /\ Ascii.eqb c "." = false /\ Ascii.eqb c "e" = false /\ Ascii.eqb c "E" = false
  end.

Lemma span_digits_app ds rest :
  string_forall is_digit ds = true -> ends_number rest -> span_digits (ds +:+ rest) = (ds, rest).
Proof.
  intros Hd Hr. induction ds as [|c ds IH]; simpl.
  - destruct rest as [|c rest]; [done|]. simpl. destruct Hr as [-> _]. done.
  - simpl in Hd. apply andb_true_iff in Hd as [-> Hd]. by rewrite IH.
Qed.

Lemma digit_char_is_digit d : 0 <= d < 10 -> is_digit (digit_char d) = true /\ (Ascii.eqb (digit_char d) "0" = true -> d = 0).
Proof.
  intros Hd. unfold digit_char. rewrite (proj2 (Z.ltb_lt _ _)) by lia. split.
  - unfold is_digit, in_range. rewrite byte_val_of by lia. lia.
  - intros He%Ascii.eqb_eq. apply (f_equal byte_val) in He. rewrite byte_val_of in He by lia. change (byte_val "0") with 48 in He. lia.
Qed.

Lemma format_digits_digits fuel n acc :
  0 <= n -> string_forall is_digit acc = true -> string_forall is_digit (format_digits fuel 10 n acc) = true.
Proof.
  revert n acc. induction fuel as [|fuel IH]; intros n acc Hn Ha; simpl; [done|].
  pose proof (Z.mod_pos_bound n 10 ltac:(lia)) as Hm. destruct (digit_char_is_digit _ Hm) as [Hc _].
  destruct (n <? 10); simpl; [by rewrite Hc|]. apply IH; [apply Z.div_pos; lia|]. simpl. by rewrite Hc.
Qed.

(** No superfluous zero. *)
Lemma format_digits_lead fuel n acc :
  0 < n < 10 ^ Z.of_nat fuel -> exists c t, format_digits fuel 10 n acc = String c t /\ Ascii.eqb c "0" = false.
Proof.
  revert n acc. induction fuel as [|fuel IH]; intros n acc Hn; [simpl in Hn; lia|]. simpl.
  destruct (Z.ltb_spec n 10) as [Hlt|Hge].
  - rewrite Z.mod_small by lia. eexists _, _. split; [reflexivity|].
    destruct (Ascii.eqb _ _) eqn:E; [|done]. apply digit_char_is_digit in E; lia.
  - apply IH. split; [apply Z.div_str_pos; lia|]. apply Z.div_lt_upper_bound; [lia|].
    rewrite Nat2Z.inj_succ, Z.pow_succ_r in Hn by lia. lia.
Qed.

Lemma scan_FormatUint n rest : is_uint64 n -> ends_number rest ->
  exists t, FormatUint n 10 = t /\ t <> "" /\ string_forall is_digit t = true
    /\ scan_integer (t +:+ rest) = Some (t, rest).
Proof.
  intros Hn Hr. eexists. split; [reflexivity|]. pose proof (uint64_lt_pow64 10 n ltac:(lia) Hn) as Hlt.
  assert (Hd : string_forall is_digit (FormatUint n 10) = true) by (apply format_digits_digits; [lia|done]).
  pose proof (FormatUint_nonempty n 10) as Hne. split_and!; [done|done|].
  destruct (decide (n = 0)) as [->|Hnz]; [done|].
  destruct (format_digits_lead 64 n "" ltac:(lia)) as (c & t & Ht & Hc). fold (FormatUint n 10) in Ht. rewrite Ht in Hd |- *.
  change (String c t +:+ rest) with (String c (t +:+ rest)). cbn [scan_integer]. rewrite Hc.
  change (String c (t +:+ rest)) with (String c t +:+ rest). unfold some_digits. rewrite span_digits_app by done. done.
Qed.

(** A number that is an integer of 64 bits. *)
Definition integer_literal (l : string) : Prop :=
  (exists z, is_int64 z /\ l = FormatInt z 10) \/ exists n, is_uint64 n /\ l = FormatUint n 10.

Lemma scan_unsigned n rest : is_uint64 n -> ends_number rest ->
  scan_number (FormatUint n 10 +:+ rest) = Some (FormatUint n 10, rest)
  /\ scan_number ("-" +:+ FormatUint n 10 +:+ rest) = Some ("-" +:+ FormatUint n 10, rest).
Proof.
  intros Hn Hr. destruct (scan_FormatUint n rest Hn Hr) as (t & -> & Hne & Hd & Hs).
  assert (Hfrac : scan_fraction rest = Some ("", rest)).
  { destruct rest as [|c r]; [done|]. destruct Hr as (_ & Hdot & _). simpl. by rewrite Hdot. }
  assert (Hexp : scan_exponent rest = Some ("", rest)).
  { destruct rest as [|c r]; [done|]. destruct Hr as (_ & _ & He & HE). simpl. by rewrite He, HE. }
  split.
  - destruct t as [|c t]; [done|]. simpl in Hd. apply andb_true_iff in Hd as [Hc _].
    change (String c t +:+ rest) with (String c (t +:+ rest)) in *. unfold scan_number.
    replace (Ascii.eqb c "-") with false by (destruct (Ascii.eqb_spec c "-") as [->|]; done).
    rewrite Hs. cbn [mbind option_bind]. rewrite Hfrac. cbn [mbind option_bind]. rewrite Hexp. cbn [mbind option_bind append].
    by rewrite string_app_empty_r.
  - cbn [append]. unfold scan_number. change (Ascii.eqb "-" "-") with true. cbv iota.
    rewrite Hs. cbn [mbind option_bind]. rewrite Hfrac. cbn [mbind option_bind]. rewrite Hexp. cbn [mbind option_bind append].
    by rewrite string_app_empty_r.
Qed.

Lemma scan_integer_literal l rest : integer_literal l -> ends_number rest -> scan_number (l +:+ rest) = Some (l, rest).
Proof.
  intros [(z & Hz & ->)|(n & Hn & ->)] Hr; [|by apply scan_unsigned]. unfold FormatInt.
  destruct (Z.ltb_spec z 0); [rewrite string_app_assoc|]; apply scan_unsigned; try done; unfold_int; lia.
Qed.

(** A literal starts with a digit or a sign. *)
Lemma integer_literal_start l : integer_literal l -> exists c t, l = String c t /\ (is_digit c = true \/ c = "-"%char).
Proof.
  assert (Hu : forall n, is_uint64 n -> exists c t, FormatUint n 10 = String c t /\ is_digit c = true).
  { intros n Hn. destruct (scan_FormatUint n "" Hn I) as (t & -> & Hne & Hd & _). destruct t as [|c t]; [done|].
    simpl in Hd. apply andb_true_iff in Hd as [Hc _]. by exists c, t. }
  intros [(z & Hz & ->)|(n & Hn & ->)].
  - unfold FormatInt. destruct (Z.ltb_spec z 0); [by eexists _, _; split; [reflexivity|right]|].
    destruct (Hu z) as (c & t & -> & Hc); [unfold_int; lia|]. exists c, t. split; [done|by left].
  - destruct (Hu n Hn) as (c & t & -> & Hc). exists c, t. split; [done|by left].
Qed.

(** ** Values, written and read *)

(** What [print] is used for: integers, and no deeper than the scanner reads. *)
Fixpoint printable (depth : Z) (v : json) : Prop :=
  match v with
  | JNumber l => integer_literal l
  | JArray l => depth + 1 <= maxNestingDepth /\ foldr (fun v P => printable (depth + 1) v /\ P) True l
  | JObject l => depth + 1 <= maxNestingDepth /\ foldr (fun m P => printable (depth + 1) m.2 /\ P) True l
  | _ => True
  end.

(** The value with its strings as they come back. *)
Fixpoint clean (v : json) : json :=
  match v with
  | JString s => JString (to_valid s)
  | JArray l => JArray (map clean l)
  | JObject l => JObject (map (fun m => (to_valid m.1, clean m.2)) l)
  | v => v
  end.

Lemma print_start depth v : printable depth v ->
  exists c t, print v = String c t /\ is_ws c = false /\ Ascii.eqb "]" c = false.
Proof.
  destruct v as [|[]|l|s|l|l]; intros Hp; try by (eexists _, _; split; [reflexivity|]).
  destruct (integer_literal_start l Hp) as (c & t & -> & Hc). exists c, t. split; [done|].
  destruct Hc as [Hc| ->]; [|done]. unfold is_digit, in_range in Hc. unfold is_ws. split; [bool_hyps; lia|].
  destruct (Ascii.eqb_spec "]" c) as [<-|]; done.
Qed.

Lemma skip_nonws c t : is_ws c = false -> skip_ws (String c t) = String c t.
Proof. intros Hc. simpl. by rewrite Hc. Qed.

Lemma length_String c t : String.length (String c t) = S (String.length t).
Proof. done. Qed.

Definition reads (v : json) : Prop := forall fuel depth rest,
  printable depth v -> ends_number rest -> (2 * String.length (print v +:+ rest) + 1 <= fuel)%nat ->
  parse_value fuel depth (print v +:+ rest) = Some (clean v, rest).

Lemma read_elements l : Forall reads l -> l <> [] -> forall fuel depth rest,
  foldr (fun v P => printable depth v /\ P) True l ->
  (2 * String.length (join_comma (map print l) +:+ String "]" rest) + 2 <= fuel)%nat ->
  parse_elements fuel depth (join_comma (map print l) +:+ String "]" rest) = Some (map clean l, rest).
Proof.
  induction 1 as [|v l Hv _ IH]; intros Hne; [done|]. intros fuel depth rest [Hp Hl] Hf. destruct fuel as [|fuel]; [lia|].
  destruct l as [|v2 l].
  - cbn [map join_comma] in *. cbn [parse_elements]. rewrite Hv by (done || lia). done.
  - assert (Hsplit : join_comma (map print (v :: v2 :: l)) +:+ String "]" rest
      = print v +:+ String "," (join_comma (map print (v2 :: l)) +:+ String "]" rest)).
    { cbn [map join_comma]. by rewrite string_app_assoc. }
    rewrite Hsplit in Hf |- *. rewrite string_length_app, length_String in Hf.
    cbn [parse_elements]. rewrite Hv; [|done|done|rewrite string_length_app, length_String; lia].
    cbn [mbind option_bind]. rewrite skip_nonws by done. change (Ascii.eqb "," ",") with true. cbv iota.
    rewrite IH by (done || lia). done.
Qed.

Lemma read_key s rest t : quote s +:+ rest = t ->
  exists t1, strip_word (String dquote "") (skip_ws t) = Some t1 /\ parse_string t1 = Some (to_valid s, rest).
Proof.
  intros <-. destruct (parse_quote s rest) as (t1 & -> & Hp). exists t1. split; [|done].
  rewrite skip_nonws by done. by apply strip_word_spec.
Qed.

Definition print_member (m : string * json) : string := quote m.1 +:+ ":" +:+ print m.2.

Lemma read_members l : Forall (fun m => reads m.2) l -> l <> [] -> forall fuel depth rest,
  foldr (fun m P => printable depth m.2 /\ P) True l ->
  (2 * String.length (join_comma (map print_member l) +:+ String "}" rest) + 2 <= fuel)%nat ->
  parse_members fuel depth (join_comma (map print_member l) +:+ String "}" rest)
  = Some (map (fun m => (to_valid m.1, clean m.2)) l, rest).
Proof.
  induction 1 as [|[k v] l Hv _ IH]; intros Hne; [done|]. intros fuel depth rest [Hp Hl] Hf. destruct fuel as [|fuel]; [lia|].
  simpl in Hv, Hp.
  assert (Hone : forall tail, (2 * String.length (print_member (k, v) +:+ tail) + 2 <= S fuel)%nat -> ends_number tail ->
    exists t1 t2, strip_word (String dquote "") (skip_ws (print_member (k, v) +:+ tail)) = Some t1
      /\ parse_string t1 = Some (to_valid k, String ":" t2) /\ strip_word ":" (skip_ws (String ":" t2)) = Some t2
      /\ parse_value fuel depth t2 = Some (clean v, tail)).
  { intros tail Ht He. destruct (read_key k (":" +:+ print v +:+ tail) (print_member (k, v) +:+ tail)) as (t1 & H1 & H2).
    { unfold print_member. simpl. by rewrite !string_app_assoc. }
    exists t1, (print v +:+ tail). split_and!; [done|done|done|]. apply Hv; [done|done|].
    unfold print_member in Ht. cbn [fst snd] in Ht. rewrite !string_length_app in Ht. rewrite string_length_app. lia. }
  destruct l as [|m2 l].
  - cbn [map join_comma] in *. destruct (Hone (String "}" rest) Hf ltac:(done)) as (t1 & t2 & H1 & H2 & H3 & H4).
    cbn [parse_members]. rewrite H1. cbn [mbind option_bind]. rewrite H2. cbn [mbind option_bind]. rewrite H3.
    cbn [mbind option_bind]. rewrite H4. done.
  - assert (Hsplit : join_comma (map print_member ((k, v) :: m2 :: l)) +:+ String "}" rest
      = print_member (k, v) +:+ String "," (join_comma (map print_member (m2 :: l)) +:+ String "}" rest)).
    { cbn [map join_comma]. by rewrite string_app_assoc. }
    rewrite Hsplit in Hf |- *. destruct (Hone _ Hf ltac:(done)) as (t1 & t2 & H1 & H2 & H3 & H4).
    cbn [parse_members]. rewrite H1. cbn [mbind option_bind]. rewrite H2. cbn [mbind option_bind]. rewrite H3.
    cbn [mbind option_bind]. rewrite H4. cbn [mbind option_bind]. rewrite skip_nonws by done.
    change (Ascii.eqb "," ",") with true. cbv iota.
    rewrite string_length_app, length_String in Hf.
    rewrite IH by (done || lia). done.
Qed.

(** Whatever is printed is read back, up to the bytes that are no UTF-8. *)
Lemma parse_print v : reads v.
Proof.
  induction v as [|b|l|s|l IH|l IH] using json_nested; intros fuel depth rest Hp Hr Hf; (destruct fuel as [|fuel]; [lia|]).
  - done.
  - by destruct b.
  - destruct (integer_literal_start l Hp) as (c & t & -> & Hc).
    assert (Hc2 : is_ws c = false /\ Ascii.eqb c "{" = false /\ Ascii.eqb c "[" = false /\ Ascii.eqb c dquote = false
      /\ Ascii.eqb c "t" = false /\ Ascii.eqb c "f" = false /\ Ascii.eqb c "n" = false).
    { destruct Hc as [Hc| ->]; [|done]. unfold is_digit, in_range in Hc. unfold is_ws. split; [bool_hyps; lia|].
      split_and!; match goal with |- Ascii.eqb c ?d = false => destruct (Ascii.eqb_spec c d) as [->|]; [discriminate Hc|done] end. }
    destruct Hc2 as (Hws & H1 & H2 & H3 & H4 & H5 & H6). cbn [print append parse_value clean].
    rewrite skip_nonws by done. cbv iota beta. rewrite H1, H2, H3, H4, H5, H6.
    pose proof (scan_integer_literal _ rest Hp Hr) as Hs. cbn [append] in Hs. by rewrite Hs.
  - destruct (parse_quote s rest) as (t & Ht & Hs). cbn [print clean]. rewrite Ht. cbn [parse_value].
    rewrite skip_nonws by done. change (Ascii.eqb dquote "{") with false. change (Ascii.eqb dquote "[") with false.
    change (Ascii.eqb dquote dquote) with true. cbv iota. by rewrite Hs.
  - destruct Hp as [Hd Hl]. cbn [print clean] in *. rewrite !string_app_assoc in *. cbn [append] in *. cbn [parse_value].
    rewrite skip_nonws by done. change (Ascii.eqb "[" "{") with false. change (Ascii.eqb "[" "[") with true. cbv iota.
    rewrite (proj2 (Z.ltb_ge _ _)) by lia. rewrite length_String in Hf.
    destruct l as [|v l]; [done|]. rewrite (read_elements (v :: l)) by (done || lia). cbn [mbind option_bind].
    assert (Hno : strip_word "]" (skip_ws (join_comma (map print (v :: l)) +:+ String "]" rest)) = None); [|by rewrite Hno].
    destruct (print_start (depth + 1) v) as (c & t & Hv & Hws & Hc); [apply Hl|].
    assert (Hj : exists t', join_comma (map print (v :: l)) +:+ String "]" rest = String c t').
    { cbn [map]. rewrite Hv. destruct (map print l); cbn [join_comma append]; eauto. }
    destruct Hj as [t' ->]. rewrite skip_nonws by done. cbn [strip_word]. by rewrite Hc.
  - destruct Hp as [Hd Hl]. cbn [print clean] in *. change (map _ l) with (map print_member l) in Hf.
    change (map (fun m => quote m.1 +:+ ":" +:+ print m.2) l) with (map print_member l).
    rewrite !string_app_assoc in *. cbn [append] in *. cbn [parse_value].
    rewrite skip_nonws by done. change (Ascii.eqb "{" "{") with true. cbv iota.
    rewrite (proj2 (Z.ltb_ge _ _)) by lia. rewrite length_String in Hf.
    destruct l as [|m l]; [done|]. rewrite (read_members (m :: l)) by (done || lia). cbn [mbind option_bind].
    assert (Hno : strip_word "}" (skip_ws (join_comma (map print_member (m :: l)) +:+ String "}" rest)) = None); [|by rewrite Hno].
    assert (Hj : exists t', join_comma (map print_member (m :: l)) +:+ String "}" rest = String dquote t').
    { cbn [map]. unfold print_member at 1, quote. destruct (map print_member l); cbn [join_comma append]; eauto. }
    destruct Hj as [t' ->]. done.
Qed.

(** ** Every string read is valid UTF-8 *)

Lemma hex4_range h1 h2 h3 h4 : is_hex4 h1 h2 h3 h4 = true -> 0 <= hex4 h1 h2 h3 h4 < 65536.
Proof.
  assert (Hone : forall h, is_hex h = true -> 0 <= hex_val h < 16).
  { intros h. unfold is_hex, hex_val, in_range. intros H.
    destruct (Z.ltb_spec h 58); [|destruct (Z.ltb_spec h 71)]; bool_hyps; lia. }
  unfold is_hex4, hex4. rewrite !andb_true_iff. intros [[[H1 H2] H3] H4].
  pose proof (Hone _ H1). pose proof (Hone _ H2). pose proof (Hone _ H3). pose proof (Hone _ H4). lia.
Qed.

Lemma unquote_scalar l l2 : forallb is_scalar l = true -> unquote l = Some l2 -> forallb is_scalar l2 = true.
Proof.
  assert (Hgen : forall n l l2, (List.length l <= n)%nat -> forallb is_scalar l = true -> unquote l = Some l2 -> forallb is_scalar l2 = true);
    [|by apply (Hgen (List.length l))].
  clear l l2. induction n as [|n IH]; intros [|r l] l2 Hn Hs Hu; simpl in Hn; try lia; try (by injection Hu as <-).
  cbn [forallb] in Hs. apply andb_true_iff in Hs as [Hr Hs].
  assert (Hcons : forall r0 t, is_scalar r0 = true -> (List.length t <= n)%nat -> forallb is_scalar t = true -> cons r0 <$> unquote t = Some l2 -> forallb is_scalar l2 = true).
  { intros r0 t H0 Ht Hts (t2 & Hu2 & ->)%fmap_Some. cbn [forallb]. rewrite H0. by apply (IH t). }
  cbn [unquote] in Hu. destruct (negb (r =? 92)); [by apply (Hcons r l); try lia|].
  destruct l as [|e l]; [done|]. simpl in Hn. cbn [forallb] in Hs. apply andb_true_iff in Hs as [He Hs].
  destruct (negb (e =? 117)).
  { binds. apply (Hcons x l); [|lia|done|done]. unfold escape_val in Er.
    repeat (case_test; [bool_hyps; by simplify_eq|]). done. }
  do 4 (destruct l as [|? l]; [done|]). simpl in Hn. cbn [forallb] in Hs. rewrite !andb_true_iff in Hs. destruct Hs as (_ & _ & _ & _ & Hs).
  destruct (is_hex4 _ _ _ _) eqn:Ehex in Hu; [|done]. cbn [negb] in Hu. pose proof (hex4_range _ _ _ _ Ehex) as Hrange.
  destruct (is_surrogate _) eqn:Esur; cbn [negb] in Hu.
  2: { apply (Hcons _ l) in Hu; [done| |lia|done]. unfold is_scalar. unfold is_surrogate, in_range in Esur. bool_hyps; lia. }
  assert (Hbad : cons RuneError <$> unquote l = Some l2 -> forallb is_scalar l2 = true) by (intros; by apply (Hcons RuneError l); try lia).
  do 6 (destruct l as [|? l]; [by apply Hbad|]). simpl in Hn. destruct (_ && _ && _); [|by apply Hbad].
  destruct (decode_pair _ _) as [p|] eqn:Ep; [|by apply Hbad]. cbn [forallb] in Hs. rewrite !andb_true_iff in Hs.
  apply (Hcons p l); [|lia|apply Hs|done]. unfold decode_pair, in_range in Ep. case_test; [|done]. injection Ep as <-.
  unfold is_scalar. bool_hyps; lia.
Qed.

Lemma parse_string_valid s v rest : parse_string s = Some (v, rest) -> valid_utf8 v = true.
Proof.
  unfold parse_string. intros H. binds. injection H as <- <-. apply encode_runes_valid.
  eapply unquote_scalar; [|exact Er0]. apply decode_runes_scalar.
Qed.

(** The strings of a value, its keys included. *)
Fixpoint strings_ok (v : json) : Prop :=
  match v with
  | JString s => valid_utf8 s = true
  | JArray l => foldr (fun v P => strings_ok v /\ P) True l
  | JObject l => foldr (fun m P => (valid_utf8 m.1 = true /\ strings_ok m.2) /\ P) True l
  | _ => True
  end.

Lemma parse_strings fuel :
  (forall depth s v rest, parse_value fuel depth s = Some (v, rest) -> strings_ok v)
  /\ (forall depth s l rest, parse_elements fuel depth s = Some (l, rest) -> strings_ok (JArray l))
  /\ (forall depth s l rest, parse_members fuel depth s = Some (l, rest) -> strings_ok (JObject l)).
Proof.
  induction fuel as [|fuel (IHv & IHe & IHm)]; [done|]. split_and!; intros depth s v rest H.
  - cbn [parse_value] in H. destruct (skip_ws s) as [|c t] eqn:Es; [done|].
    repeat case_test; try done;
      try (destruct (strip_word _ (skip_ws t)) eqn:Ew; [by injection H as <- <-|]);
      binds; injection H as <- <-; first [exact I|by eapply IHm|by eapply IHe|by eapply parse_string_valid].
  - cbn [parse_elements] in H. binds. apply IHv in Er. destruct (skip_ws _) as [|c t] eqn:Es in H; [done|].
    repeat case_test; try done; binds; injection H as <- <-; [apply IHe in Er0|]; by split.
  - cbn [parse_members] in H. binds. apply IHv in Er2. apply parse_string_valid in Er0.
    destruct (skip_ws _) as [|c t] eqn:Es in H; [done|].
    repeat case_test; try done; binds; injection H as <- <-; [apply IHm in Er3|]; by split_and!.
Qed.

Lemma first_value_strings s v rest : first_value s = Some (v, rest) -> strings_ok v.
Proof. apply parse_strings. Qed.

Lemma strings_ok_array l : strings_ok (JArray l) <-> Forall strings_ok l.
Proof. simpl. induction l as [|v l IH]; simpl; [by split|]. rewrite IH, Forall_cons. done. Qed.

Lemma strings_ok_object l : strings_ok (JObject l) <-> Forall (fun m => valid_utf8 m.1 = true /\ strings_ok m.2) l.
Proof. simpl. induction l as [|v l IH]; simpl; [by split|]. rewrite IH, Forall_cons. done. Qed.

Lemma clean_id v : strings_ok v -> clean v = v.
Proof.
  induction v as [|b|l|s|l IH|l IH] using json_nested; intros Hv; cbn [clean]; try done.
  - f_equal. by apply to_valid_id.
  - apply strings_ok_array in Hv. f_equal. induction IH as [|v l H _ IH]; [done|]. apply Forall_cons in Hv as [? ?]. simpl. by rewrite H, IH.
  - apply strings_ok_object in Hv. f_equal. induction IH as [|[k v] l H _ IH]; [done|]. apply Forall_cons in Hv as [[? ?] ?].
    simpl in *. by rewrite to_valid_id, H, IH.
Qed.
