(* ===== verification/Types.v ===== *)
(** * Bids, auction requests and auction policies (internal/ads/types.go)

    The data of the service and its validation. An error is its message; [None] is
    Go's nil error. *)

From S2P Require Import Prelude GoInt GoString.
Open Scope string_scope.
Open Scope list_scope.
Open Scope Z_scope.

(** ** Bid *)

Record Bid := mkBid {
  bid_ID : string;
  bid_Revision : Z;
  bid_PlacementID : string;
  bid_CampaignID : string;
  bid_CreativeID : string;
  bid_Markup : string;
  bid_ClickURL : string;
  bid_PriceMicros : Z;
  bid_FloorMicros : Z;
  bid_DealID : string;
  bid_Priority : Z;
  bid_PacingBPS : Z;
  bid_Countries : list string;
  bid_Devices : list string;
  bid_ActiveFromUnix : Z;
  bid_ActiveToUnix : Z
}.

#[export] Instance Bid_eq_dec : EqDecision Bid.
Proof. solve_decision. Defined.

(** The zero value Go gives a declared [Bid]. *)
Definition zero_Bid : Bid := mkBid "" 0 "" "" "" "" "" 0 0 "" 0 0 [] [] 0 0.

(** The fields are in the range of their Go types. *)
Record Bid_typed (b : Bid) : Prop := {
  typed_Revision : is_uint64 (bid_Revision b);
  typed_PriceMicros : is_int64 (bid_PriceMicros b);
  typed_FloorMicros : is_int64 (bid_FloorMicros b);
  typed_Priority : is_int64 (bid_Priority b);
  typed_PacingBPS : is_int64 (bid_PacingBPS b);
  typed_ActiveFromUnix : is_int64 (bid_ActiveFromUnix b);
  typed_ActiveToUnix : is_int64 (bid_ActiveToUnix b)
}.

Definition Bid_validate (requireRevision : bool) (b : Bid) : option string :=
  if String.eqb (bid_ID b) "" || (requireRevision && (bid_Revision b =? 0))
     || String.eqb (bid_PlacementID b) "" || String.eqb (bid_CampaignID b) ""
     || String.eqb (bid_CreativeID b) ""
  then Some "id, revision, placement_id, campaign_id, and creative_id are required"
  else if (requireRevision && (MaxInt64 <? bid_Revision b)) || (128 <? len (bid_ID b))
     || (128 <? len (bid_PlacementID b)) || ContainsAny (bid_PlacementID b) "{}"
     || (Z.shiftl 64 10 <? len (bid_Markup b)) || (4096 <? len (bid_ClickURL b))
     || (128 <? len (bid_DealID b))
  then Some "bid field exceeds maximum length"
  else if (bid_PriceMicros b <=? 0) || (bid_FloorMicros b <? 0)
     || (bid_PriceMicros b <? bid_FloorMicros b)
  then Some "price_micros must be positive and meet floor_micros"
  else if negb (bid_ActiveToUnix b =? 0) && (bid_ActiveToUnix b <? bid_ActiveFromUnix b)
  then Some "active_from_unix is after active_to_unix"
  else if (bid_Priority b <? 0) || (1000 <? bid_Priority b)
     || ((0 <? bid_Priority b) && String.eqb (bid_DealID b) "")
  then Some "priority must be 0..1000 and requires deal_id when non-zero"
  else if (bid_PacingBPS b <? 1) || (10000 <? bid_PacingBPS b)
  then Some "pacing_bps must be 1..10000"
  else None.

Definition Bid_Validate (b : Bid) : option string := Bid_validate true b.
Definition Bid_ValidateDynamic (b : Bid) : option string := Bid_validate false b.

(** [Normalize] assigns through its pointer receiver; here the new value is returned. *)
Definition Bid_Normalize (b : Bid) : Bid :=
  if bid_PacingBPS b =? 0 then {| b with bid_PacingBPS := 10000 |} else b.

(** ** AuctionRequest *)

Record AuctionRequest := mkAuctionRequest {
  req_PlacementID : string;
  req_UserID : string;
  req_Country : string;
  req_Device : string;
  req_FloorMicros : Z
}.

Definition zero_AuctionRequest : AuctionRequest := mkAuctionRequest "" "" "" "" 0.

Definition AuctionRequest_Validate (r : AuctionRequest) : option string :=
  if String.eqb (req_PlacementID r) "" || (128 <? len (req_PlacementID r))
     || (256 <? len (req_UserID r)) || (16 <? len (req_Country r))
     || (64 <? len (req_Device r)) || (req_FloorMicros r <? 0)
  then Some "invalid auction request field"
  else None.

(** ** AuctionPolicy *)

(** [PricingModel] is a string type with two named constants. *)
Abbreviation PricingModel := string (only parsing).
Definition FirstPrice : PricingModel := "first_price".
Definition SecondPrice : PricingModel := "second_price".

Record AuctionPolicy := mkAuctionPolicy {
  pol_PricingModel : PricingModel;
  pol_SecondPriceIncrementMicros : Z
}.

Definition DefaultAuctionPolicy : AuctionPolicy := mkAuctionPolicy FirstPrice 1.

Definition AuctionPolicy_Validate (p : AuctionPolicy) : option string :=
  if negb (String.eqb (pol_PricingModel p) FirstPrice)
     && negb (String.eqb (pol_PricingModel p) SecondPrice)
  then Some "pricing model must be first_price or second_price"
  else if pol_SecondPriceIncrementMicros p <? 0
  then Some "second price increment must be non-negative"
  else None.

(** ** What validation guarantees *)

(** The facts the rest of the program relies on, in the order of the checks. *)
Record Bid_wf (requireRevision : bool) (b : Bid) : Prop := {
  wf_ID : bid_ID b <> "";
  wf_Placement : bid_PlacementID b <> "";
  wf_Campaign : bid_CampaignID b <> "";
  wf_Creative : bid_CreativeID b <> "";
  wf_Revision : requireRevision = true -> bid_Revision b <> 0 /\ bid_Revision b <= MaxInt64;
  wf_ID_len : len (bid_ID b) <= 128;
  wf_Placement_len : len (bid_PlacementID b) <= 128;
  wf_Placement_open : lacks "{" (bid_PlacementID b);
  wf_Placement_close : lacks "}" (bid_PlacementID b);
  wf_Markup_len : len (bid_Markup b) <= 65536;
  wf_ClickURL_len : len (bid_ClickURL b) <= 4096;
  wf_Deal_len : len (bid_DealID b) <= 128;
  wf_Price : 0 < bid_PriceMicros b;
  wf_Floor : 0 <= bid_FloorMicros b <= bid_PriceMicros b;
  wf_Window : bid_ActiveToUnix b <> 0 -> bid_ActiveFromUnix b <= bid_ActiveToUnix b;
  wf_Priority : 0 <= bid_Priority b <= 1000;
  wf_Deal : 0 < bid_Priority b -> bid_DealID b <> "";
  wf_Pacing : 1 <= bid_PacingBPS b <= 10000
}.

(** Validation accepts exactly the well-formed bids. *)
Lemma Bid_validate_wf rr b : Bid_validate rr b = None <-> Bid_wf rr b.
Proof.
  unfold Bid_validate. split.
  - change (Z.shiftl 64 10) with 65536. intros H. repeat case_test; try done.
    bool_hyps; subst;
    repeat match goal with H : ContainsAny _ _ = false |- _ => apply ContainsAny_two in H as [? ?] end;
    constructor; (done || (unfold_int; intros; split; lia) || (unfold_int; intros; lia) || done).
  - intros []. assert (HB : ContainsAny (bid_PlacementID b) "{}" = false) by (by apply ContainsAny_two).
    change (Z.shiftl 64 10) with 65536. unfold_int.
    repeat case_test; try done; exfalso; bool_hyps; subst;
      first [done | lia | congruence | destruct wf_Revision0; done || lia
            | specialize (wf_Window0 ltac:(done)); lia | by apply wf_Deal0].
Qed.

Lemma Bid_Normalize_pacing b : bid_PacingBPS b <> 0 -> Bid_Normalize b = b.
Proof. intros H. unfold Bid_Normalize. by rewrite (proj2 (Z.eqb_neq _ _)). Qed.

Lemma Bid_Normalize_idemp b : Bid_Normalize (Bid_Normalize b) = Bid_Normalize b.
Proof.
  unfold Bid_Normalize at 2 3. destruct (bid_PacingBPS b =? 0) eqn:E; [done|].
  apply Bid_Normalize_pacing. by apply Z.eqb_neq.
Qed.

Lemma Bid_Normalize_fields b :
  bid_ID (Bid_Normalize b) = bid_ID b /\ bid_PlacementID (Bid_Normalize b) = bid_PlacementID b
  /\ bid_Revision (Bid_Normalize b) = bid_Revision b /\ bid_Priority (Bid_Normalize b) = bid_Priority b
  /\ bid_PriceMicros (Bid_Normalize b) = bid_PriceMicros b /\ bid_DealID (Bid_Normalize b) = bid_DealID b.
Proof. unfold Bid_Normalize. by destruct (bid_PacingBPS b =? 0). Qed.

Lemma Bid_wf_normalized rr b : Bid_wf rr b -> Bid_Normalize b = b.
Proof. intros []. apply Bid_Normalize_pacing. lia. Qed.

Lemma Bid_Normalize_typed b : Bid_typed b -> Bid_typed (Bid_Normalize b).
Proof.
  intros []. unfold Bid_Normalize. destruct (bid_PacingBPS b =? 0); constructor; simpl; try done.
Qed.

Lemma AuctionPolicy_Validate_spec p :
  AuctionPolicy_Validate p = None <->
  (pol_PricingModel p = FirstPrice \/ pol_PricingModel p = SecondPrice)
  /\ 0 <= pol_SecondPriceIncrementMicros p.
Proof.
  unfold AuctionPolicy_Validate. split.
  - intros H. split_tests; (split; [tauto|lia]).
  - intros [[H|H] Hi]; rewrite H; simpl; by rewrite (proj2 (Z.ltb_ge _ _)) by lia.
Qed.

Lemma AuctionRequest_Validate_spec r :
  AuctionRequest_Validate r = None <->
  req_PlacementID r <> "" /\ len (req_PlacementID r) <= 128 /\ len (req_UserID r) <= 256
  /\ len (req_Country r) <= 16 /\ len (req_Device r) <= 64 /\ 0 <= req_FloorMicros r.
Proof.
  unfold AuctionRequest_Validate. split.
  - intros H. split_tests. repeat split; done || lia.
  - intros (? & ? & ? & ? & ? & ?). case_test; [|done]. exfalso; bool_hyps; done || lia.
Qed.

#[export] Hint Resolve Bid_Normalize_typed : ads.

(** ** Properties *)

(** Validation accepts exactly the well-formed bids: [Validate] (and
    [ValidateDynamic], without the revision) returns nil if and only if every
    documented constraint on identifiers, lengths, the hash-tag characters of the
    placement, prices, window, priority, deal and pacing holds; and validation
    implies that normalisation has nothing left to do. *)
Theorem Validate_accepts_exactly requireRevision b :
  (Bid_validate requireRevision b = None <-> Bid_wf requireRevision b)
  /\ (Bid_validate requireRevision b = None -> Bid_Normalize b = b).
Proof.
  split; [apply Bid_validate_wf|]. intros H. apply Bid_validate_wf in H. by eapply Bid_wf_normalized.
Qed.
