(* ===== verification/Ranking.v ===== *)
(** * Ranking and pricing of bids (internal/ads/auction.go, and sortBids of store.go)

    The arithmetic and the order the auction uses, the accumulator that finds the
    winner and the runner-up in one pass, and the clearing price. The second half
    characterises the order (a strict weak order on priority, effective price and
    bid ID) and the accumulator (the best candidate and the best rival of its
    priority), for the components and the auction theorems built on them. *)

From S2P Require Import Prelude GoInt GoString Types.
Open Scope string_scope.
Open Scope list_scope.
Open Scope Z_scope.
Open Scope go_scope.

(** ** The code *)

(** [bid.PriceMicros/10_000*bid.PacingBPS + bid.PriceMicros%10_000*bid.PacingBPS/10_000]. *)
Definition effectivePrice (b : Bid) : Z :=
  (bid_PriceMicros b /i 10000 *i bid_PacingBPS b)
  +i (bid_PriceMicros b %i 10000 *i bid_PacingBPS b /i 10000).

Definition matches (allowed : list string) (value : string) : bool :=
  match allowed with
  | [] => true
  | _ => existsb (String.eqb value) allowed
  end.

Definition eligible (b : Bid) (request : AuctionRequest) (nowUnix price : Z) : bool :=
  if price <? Z.max (req_FloorMicros request) (bid_FloorMicros b) then false
  else if negb (bid_ActiveFromUnix b =? 0) && (nowUnix <? bid_ActiveFromUnix b) then false
  else if negb (bid_ActiveToUnix b =? 0) && (bid_ActiveToUnix b <=? nowUnix) then false
  else matches (bid_Countries b) (req_Country request)
       && matches (bid_Devices b) (req_Device request).

Definition ranksAhead (candidate : Bid) (candidatePrice : Z) (winner : Bid) (winnerPrice : Z) : bool :=
  if negb (bid_Priority candidate =? bid_Priority winner)
  then bid_Priority winner <? bid_Priority candidate
  else if negb (candidatePrice =? winnerPrice)
  then winnerPrice <? candidatePrice
  else string_lt (bid_ID candidate) (bid_ID winner).

Record auctionAccumulator := mkAccumulator {
  acc_request : AuctionRequest;
  acc_nowUnix : Z;
  acc_winner : option Bid;
  acc_winnerPrice : Z;
  acc_runnerUpPrice : Z;
  acc_candidates : Z;
  acc_winnerBidderID : string
}.

(** [auctionAccumulator{request: request, nowUnix: nowUnix}]. *)
Definition new_accumulator (request : AuctionRequest) (nowUnix : Z) : auctionAccumulator :=
  mkAccumulator request nowUnix None 0 0 0 "".

Definition consider (a : auctionAccumulator) (b : Bid) (bidderID : string) : auctionAccumulator :=
  let price := effectivePrice b in
  if negb (eligible b (acc_request a) (acc_nowUnix a) price) then a
  else
    let a := {| a with acc_candidates := acc_candidates a +i 1 |} in
    let replace runnerUp :=
      {| a with acc_winner := Some b; acc_winnerPrice := price;
         acc_runnerUpPrice := runnerUp; acc_winnerBidderID := bidderID |} in
    match acc_winner a with
    | None => replace 0
    | Some w =>
        if ranksAhead b price w (acc_winnerPrice a)
        then replace (if bid_Priority b =? bid_Priority w then acc_winnerPrice a else 0)
        else if (bid_Priority b =? bid_Priority w) && (acc_runnerUpPrice a <? price)
        then {| a with acc_runnerUpPrice := price |}
        else a
    end.

(** The loops of [run]: a candidate is a bid with its bidder's ID. *)
Abbreviation candidate := (Bid * string)%type.

Definition consider_all (l : list candidate) (a : auctionAccumulator) : auctionAccumulator :=
  fold_left (fun a c => consider a (fst c) (snd c)) l a.

Definition clearingPrice (p : AuctionPolicy) (winner : Bid) (winnerPrice runnerUpPrice requestFloor : Z) : Z :=
  let floor := Z.max requestFloor (bid_FloorMicros winner) in
  if String.eqb (pol_PricingModel p) FirstPrice then winnerPrice
  else if runnerUpPrice =? 0 then floor
  else
    let secondPrice := runnerUpPrice +i pol_SecondPriceIncrementMicros p in
    let secondPrice :=
      if (secondPrice <? runnerUpPrice) || (winnerPrice <? secondPrice)
      then winnerPrice else secondPrice in
    Z.max floor secondPrice.

(** The [less] closure of [sortBids], on the two elements it compares. *)
Definition bid_less (x y : Bid) : bool :=
  if negb (bid_Priority x =? bid_Priority y) then bid_Priority y <? bid_Priority x
  else
    let left := effectivePrice x in
    let right := effectivePrice y in
    if negb (left =? right) then right <? left
    else string_lt (bid_ID x) (bid_ID y).

(** "Not after": the order [sort.Slice] establishes between neighbours. *)
Definition bid_le (x y : Bid) : Prop := bid_less y x = false.

#[export] Instance bid_le_dec : RelDecision bid_le.
Proof. intros x y. unfold bid_le. apply _. Defined.

(** [sort.Slice] promises a permutation sorted with respect to [less], with no
    order among elements that [less] does not separate; a merge sort is one such
    procedure ([sortBids_canonical] below shows when the choice does not matter). *)
Definition sortBids (bids : list Bid) : list Bid :=
  merge_sort bid_le bids.

(** ** Effective prices *)

Lemma quot_split p c d :
  0 <= c -> 0 < d -> Z.quot p d * c + Z.quot (Z.rem p d * c) d = Z.quot (p * c) d.
Proof.
  intros Hc Hd. destruct (Z.le_ge_cases 0 p) as [Hp|Hp].
  - rewrite !Z.quot_div_nonneg, Z.rem_mod_nonneg by (try apply Z.mul_nonneg_nonneg; try apply Z.rem_nonneg; lia).
    pose proof (Z.div_mod p d ltac:(lia)) as Hdm.
    replace (p * c) with ((p mod d * c) + (p / d * c) * d) by nia.
    rewrite Z.div_add by lia. lia.
  - assert (Hq : forall x, 0 <= x -> Z.quot (- x) d * c + Z.quot (Z.rem (- x) d * c) d = Z.quot (- x * c) d).
    { intros x Hx. rewrite Z.quot_opp_l, Z.rem_opp_l, !Z.mul_opp_l, !Z.quot_opp_l by lia.
      rewrite !Z.quot_div_nonneg, Z.rem_mod_nonneg by (try apply Z.mul_nonneg_nonneg; try apply Z.rem_nonneg; lia).
      pose proof (Z.div_mod x d ltac:(lia)) as Hdm.
      replace (x * c) with ((x mod d * c) + (x / d * c) * d) by nia.
      rewrite Z.div_add by lia. lia. }
    specialize (Hq (- p) ltac:(lia)). by rewrite Z.opp_involutive in Hq.
Qed.

(** No intermediate result of the code overflows, whatever the price. *)
Lemma effectivePrice_quot b :
  is_int64 (bid_PriceMicros b) -> 0 <= bid_PacingBPS b <= 10000 ->
  effectivePrice b = Z.quot (bid_PriceMicros b * bid_PacingBPS b) 10000.
Proof.
  intros Hp Hc. unfold effectivePrice. set (p := bid_PriceMicros b) in *. set (c := bid_PacingBPS b) in *.
  assert (Hq : MinInt64 <= Z.quot p 10000 * 10000 + Z.rem p 10000 <= MaxInt64).
  { rewrite (Z.mul_comm _ 10000), <- Z.quot_rem' . unfold_int; lia. }
  pose proof (Z.rem_bound_abs p 10000 ltac:(lia)) as Hr.
  assert (Hqc : MinInt64 <= Z.quot p 10000 * c <= MaxInt64).
  { unfold_int. pose proof (Z.quot_rem' p 10000). destruct (Z.le_ge_cases 0 p) as [Hs|Hs].
    - pose proof (Z.rem_nonneg p 10000 ltac:(lia) Hs). pose proof (Z.quot_pos p 10000 Hs ltac:(lia)). nia.
    - pose proof (Z.rem_nonpos p 10000 ltac:(lia) Hs).
      assert (Z.quot p 10000 <= 0) by (apply Z.quot_le_upper_bound; lia). nia. }
  assert (Hrc : -100000000 <= Z.rem p 10000 * c <= 100000000) by nia.
  assert (Hrq : -10000 <= Z.quot (Z.rem p 10000 * c) 10000 <= 10000).
  { split; [apply Z.quot_le_lower_bound|apply Z.quot_le_upper_bound]; lia. }
  assert (Hall : Z.abs (Z.quot (p * c) 10000) <= Z.abs p).
  { rewrite <- Z.quot_abs, Z.abs_mul, (Z.abs_eq c), (Z.abs_eq 10000) by lia.
    apply Z.quot_le_upper_bound; [lia|]. pose proof (Z.abs_nonneg p). nia. }
  assert (Hs : p < 0 -> Z.quot (p * c) 10000 <= 0).
  { intros. apply Z.quot_le_upper_bound; nia. }
  assert (HsumI : is_int64 (Z.quot p 10000 * c + Z.quot (Z.rem p 10000 * c) 10000)).
  { rewrite quot_split by lia. unfold_int. lia. }
  rewrite (int64_id (Z.quot p 10000)) by (unfold_int; lia).
  rewrite (int64_id (Z.quot p 10000 * c)) by done.
  rewrite (int64_id (Z.rem p 10000 * c)) by (unfold_int; lia).
  rewrite (int64_id (Z.quot (Z.rem p 10000 * c) 10000)) by (unfold_int; lia).
  rewrite int64_id by done. apply quot_split; lia.
Qed.

Lemma effectivePrice_div b :
  0 <= bid_PriceMicros b <= MaxInt64 -> 0 <= bid_PacingBPS b <= 10000 ->
  effectivePrice b = bid_PriceMicros b * bid_PacingBPS b / 10000.
Proof.
  intros Hp Hc. rewrite effectivePrice_quot by (unfold_int; lia).
  apply Z.quot_div_nonneg; nia.
Qed.

(** ** The ranking order

    [ahead x y]: [x] wins over [y]. It is what [ranksAhead] computes on the bids'
    own effective prices, and what [sortBids] sorts by. *)

Definition ahead (x y : Bid) : bool := ranksAhead x (effectivePrice x) y (effectivePrice y).

(** The three components of a bid that decide its rank. *)
Definition rank_key (b : Bid) : Z * Z * string := (bid_Priority b, effectivePrice b, bid_ID b).

Lemma ahead_spec x y :
  ahead x y = true <->
  bid_Priority y < bid_Priority x
  \/ (bid_Priority x = bid_Priority y /\
      (effectivePrice y < effectivePrice x
       \/ (effectivePrice x = effectivePrice y /\ string_lt (bid_ID x) (bid_ID y) = true))).
Proof.
  unfold ahead, ranksAhead.
  destruct (Z.eqb_spec (bid_Priority x) (bid_Priority y)) as [Hp|Hp]; simpl; rewrite ?Z.ltb_lt; [|lia].
  destruct (Z.eqb_spec (effectivePrice x) (effectivePrice y)) as [He|He]; simpl; rewrite ?Z.ltb_lt; [|lia].
  split; [auto|]. intros [?|[_ [?|[_ ?]]]]; [lia..|done].
Qed.

Lemma bid_less_ahead x y : bid_less x y = ahead x y.
Proof. done. Qed.

Lemma ahead_irrefl x : ahead x x = false.
Proof.
  destruct (ahead x x) eqn:E; [|done]. apply ahead_spec in E.
  rewrite string_lt_irrefl in E. destruct E as [?|[_ [?|[_ ?]]]]; lia || done.
Qed.

Lemma ahead_trans x y z : ahead x y = true -> ahead y z = true -> ahead x z = true.
Proof.
  rewrite !ahead_spec. intros [?|[? [?|[? ?]]]] [?|[? [?|[? ?]]]];
    try (left; lia); right; (split; [lia|]); try (left; lia).
  right. split; [lia|]. by eapply string_lt_trans.
Qed.

Lemma ahead_asym x y : ahead x y = true -> ahead y x = false.
Proof.
  intros H. destruct (ahead y x) eqn:E; [|done].
  pose proof (ahead_trans _ _ _ H E) as Ht. by rewrite ahead_irrefl in Ht.
Qed.

(** Two bids neither of which is ahead have the same key. *)
Lemma ahead_total x y : ahead x y = false -> ahead y x = false -> rank_key x = rank_key y.
Proof.
  intros Hxy Hyx. unfold rank_key.
  assert (Hp : bid_Priority x = bid_Priority y).
  { destruct (Z.lt_trichotomy (bid_Priority x) (bid_Priority y)) as [H|[H|H]]; [|done|];
      [rewrite (proj2 (ahead_spec y x)) in Hyx by auto | rewrite (proj2 (ahead_spec x y)) in Hxy by auto]; done. }
  assert (He : effectivePrice x = effectivePrice y).
  { destruct (Z.lt_trichotomy (effectivePrice x) (effectivePrice y)) as [H|[H|H]]; [|done|];
      [rewrite (proj2 (ahead_spec y x)) in Hyx by auto | rewrite (proj2 (ahead_spec x y)) in Hxy by auto]; done. }
  assert (Hi : bid_ID x = bid_ID y); [|congruence].
  apply string_lt_total.
  - destruct (string_lt (bid_ID x) (bid_ID y)) eqn:E; [|done].
    rewrite (proj2 (ahead_spec x y)) in Hxy by auto. done.
  - destruct (string_lt (bid_ID y) (bid_ID x)) eqn:E; [|done].
    rewrite (proj2 (ahead_spec y x)) in Hyx by auto. done.
Qed.

(** A bid ahead of [w] is ahead of everything that is not ahead of [w]. *)
Lemma ahead_weak x w y : ahead x w = true -> ahead y w = false -> ahead x y = true.
Proof.
  intros Hxw Hyw. destruct (ahead w y) eqn:E; [by eapply ahead_trans|].
  pose proof (ahead_total _ _ Hyw E) as Hk. unfold rank_key in Hk. injection Hk as Hp He Hi.
  apply ahead_spec. apply ahead_spec in Hxw. by rewrite Hp, He, Hi.
Qed.

Lemma ahead_weak_l x w y : ahead x w = false -> ahead y w = true -> ahead x y = false.
Proof.
  intros Hxw Hyw. destruct (ahead x y) eqn:E; [|done].
  by rewrite (ahead_trans _ _ _ E Hyw) in Hxw.
Qed.

Lemma ahead_priority x y : ahead x y = false -> bid_Priority x <= bid_Priority y.
Proof.
  intros H. destruct (Z.le_gt_cases (bid_Priority x) (bid_Priority y)) as [?|Hp]; [done|].
  rewrite (proj2 (ahead_spec x y)) in H by auto. done.
Qed.

Lemma ahead_price x y :
  ahead x y = false -> bid_Priority x = bid_Priority y -> effectivePrice x <= effectivePrice y.
Proof.
  intros H Hp. destruct (Z.le_gt_cases (effectivePrice x) (effectivePrice y)) as [?|He]; [done|].
  rewrite (proj2 (ahead_spec x y)) in H by auto. done.
Qed.

#[export] Hint Resolve ahead_irrefl ahead_asym ahead_priority ahead_price : ads.

(** ** The accumulator *)

(** The candidates of [l] the auction considers. *)
Definition eligible_for (request : AuctionRequest) (nowUnix : Z) (c : candidate) : Prop :=
  eligible (fst c) request nowUnix (effectivePrice (fst c)) = true.

#[export] Instance eligible_for_dec request nowUnix c : Decision (eligible_for request nowUnix c).
Proof. unfold eligible_for. apply _. Defined.

Definition eligible_candidates (request : AuctionRequest) (nowUnix : Z) (l : list candidate) : list candidate :=
  filter (eligible_for request nowUnix) l.

(** Effective prices of the candidates of priority [p]. *)
Definition prices_at (p : Z) (l : list candidate) : list Z :=
  (fun c => effectivePrice (fst c)) <$> filter (fun c => bid_Priority (fst c) = p) l.

(** [w] is the winner among [E]: strictly ahead of what comes before it in the list
    and not behind what comes after it; [rest] is everything else. *)
Definition wins (E : list candidate) (w : candidate) (rest : list candidate) : Prop :=
  exists l1 l2, E = l1 ++ w :: l2 /\ rest = l1 ++ l2
  /\ Forall (fun c => ahead (fst w) (fst c) = true) l1
  /\ Forall (fun c => ahead (fst c) (fst w) = false) l2.

(** The abstract result of an auction pass over the eligible candidates [E]. *)
Definition pass_result (E : list candidate) (a : auctionAccumulator) : Prop :=
  acc_candidates a = int64 (Z.of_nat (length E)) /\
  match acc_winner a with
  | None => E = [] /\ acc_winnerPrice a = 0 /\ acc_runnerUpPrice a = 0 /\ acc_winnerBidderID a = ""
  | Some w =>
      exists rest, wins E (w, acc_winnerBidderID a) rest
      /\ acc_winnerPrice a = effectivePrice w
      /\ acc_runnerUpPrice a = zmax_list 0 (prices_at (bid_Priority w) rest)
  end.

Lemma wins_rest E w rest c : wins E w rest -> c ∈ rest -> ahead (fst c) (fst w) = false.
Proof.
  intros (l1 & l2 & -> & -> & H1 & H2) [Hc|Hc]%elem_of_app.
  - apply ahead_asym. by eapply (Forall_elem _ _ _ H1).
  - by eapply (Forall_elem _ _ _ H2).
Qed.

Lemma wins_perm E w rest : wins E w rest -> E ≡ₚ w :: rest.
Proof. intros (l1 & l2 & -> & -> & _). by rewrite Permutation_middle. Qed.

Lemma prices_at_app p l1 l2 : prices_at p (l1 ++ l2) = prices_at p l1 ++ prices_at p l2.
Proof. unfold prices_at. by rewrite filter_app, fmap_app. Qed.

Lemma prices_at_single p c :
  prices_at p [c] = if decide (bid_Priority (fst c) = p) then [effectivePrice (fst c)] else [].
Proof. unfold prices_at. rewrite filter_cons. by case_decide. Qed.

Lemma prices_at_elem p l x :
  x ∈ prices_at p l <-> exists c, c ∈ l /\ bid_Priority (fst c) = p /\ x = effectivePrice (fst c).
Proof.
  unfold prices_at. rewrite list_elem_of_fmap. split.
  - intros (c & -> & Hc). apply list_elem_of_filter in Hc as [? ?]. eauto.
  - intros (c & ? & ? & ->). exists c. split; [done|]. by apply list_elem_of_filter.
Qed.

Lemma prices_at_perm p l1 l2 : l1 ≡ₚ l2 -> prices_at p l1 ≡ₚ prices_at p l2.
Proof. intros H. unfold prices_at. by rewrite H. Qed.

(** Rivals of the winner's priority never price above it. *)
Lemma wins_rivals_le E w rest :
  wins E w rest -> Forall (fun x => x <= effectivePrice (fst w)) (prices_at (bid_Priority (fst w)) rest).
Proof.
  intros Hw. apply Forall_forall. intros x (c & Hc & Hp & ->)%prices_at_elem.
  eauto using wins_rest with ads.
Qed.

Lemma wins_nobody_higher E w rest p :
  wins E w rest -> bid_Priority (fst w) < p -> prices_at p (w :: rest) = [].
Proof.
  intros Hw Hp. destruct (prices_at p (w :: rest)) as [|x l] eqn:Ex; [done|].
  assert (Hin : x ∈ prices_at p (w :: rest)) by (rewrite Ex; by left).
  apply prices_at_elem in Hin as (c & [->|Hc]%elem_of_cons & Hpc & _); [lia|].
  pose proof (ahead_priority _ _ (wins_rest _ _ _ _ Hw Hc)). lia.
Qed.

(** A candidate that displaces the winner wins over the extended list, with the old
    winner among its rivals; one that does not joins the rivals. *)
Lemma wins_displace E w rest c :
  wins E w rest -> ahead (fst c) (fst w) = true -> wins (E ++ [c]) c E.
Proof.
  intros Hw Hc. exists E, []. rewrite app_nil_r. repeat split; [|done].
  apply Forall_forall. intros d Hd. rewrite (wins_perm _ _ _ Hw) in Hd.
  apply elem_of_cons in Hd as [->|Hd]; [done|]. eapply ahead_weak; [done|]. by eapply wins_rest.
Qed.

Lemma wins_keep E w rest c :
  wins E w rest -> ahead (fst c) (fst w) = false -> wins (E ++ [c]) w (rest ++ [c]).
Proof.
  intros (l1 & l2 & -> & -> & H1 & H2) Hc. exists l1, (l2 ++ [c]).
  rewrite <- !app_assoc. repeat split; [done|]. apply Forall_app. auto.
Qed.

Lemma wins_single c : wins [c] c [].
Proof. by exists [], []. Qed.

(** The winner's split of the list is unique. *)
Lemma wins_split_unique (l1 l2 l1' l2' : list candidate) w w' :
  l1 ++ w :: l2 = l1' ++ w' :: l2' ->
  Forall (fun c => ahead (fst w) (fst c) = true) l1 -> Forall (fun c => ahead (fst c) (fst w) = false) l2 ->
  Forall (fun c => ahead (fst w') (fst c) = true) l1' -> Forall (fun c => ahead (fst c) (fst w') = false) l2' ->
  l1 = l1' /\ w = w' /\ l2 = l2'.
Proof.
  revert l1'. induction l1 as [|x l1 IH]; intros [|x' l1'] Heq H1 H2 H1' H2'; injection Heq; intros Ht ->.
  - by rewrite Ht.
  - apply Forall_cons in H1' as [Hx _]. subst l2. apply Forall_app in H2 as [_ [Hw' _]%Forall_cons]. congruence.
  - apply Forall_cons in H1 as [Hx _]. subst l2'. apply Forall_app in H2' as [_ [Hw _]%Forall_cons]. congruence.
  - apply Forall_cons in H1 as [_ H1]. apply Forall_cons in H1' as [_ H1'].
    by destruct (IH l1' Ht H1 H2 H1' H2') as (-> & -> & ->).
Qed.

Lemma wins_unique E w w' rest rest' : wins E w rest -> wins E w' rest' -> w = w' /\ rest = rest'.
Proof.
  intros (l1 & l2 & HE & -> & H1 & H2) (l1' & l2' & HE' & -> & H1' & H2').
  rewrite HE in HE'. by destruct (wins_split_unique _ _ _ _ _ _ HE' H1 H2 H1' H2') as (-> & -> & ->).
Qed.

(** A non-empty list has a winner. *)
Lemma wins_exists E : E <> [] -> exists w rest, wins E w rest.
Proof.
  induction E as [|c E IH] using rev_ind; [done|]. intros _.
  destruct (decide (E = [])) as [->|Hne]; [eauto using wins_single|].
  destruct (IH Hne) as (w & rest & Hw).
  destruct (ahead (fst c) (fst w)) eqn:Ha; eauto using wins_displace, wins_keep.
Qed.

(** The winner does not depend on the order of the list when no two candidates have
    the same rank. *)
Definition distinct_ranks (l : list candidate) : Prop := NoDup ((fun c => rank_key (fst c)) <$> l).

Lemma distinct_ranks_perm l l' : l ≡ₚ l' -> distinct_ranks l -> distinct_ranks l'.
Proof. unfold distinct_ranks. intros H. by rewrite H. Qed.

Lemma wins_perm_eq E E' w w' rest rest' :
  E ≡ₚ E' -> distinct_ranks E -> wins E w rest -> wins E' w' rest' -> w = w' /\ rest ≡ₚ rest'.
Proof.
  intros HE Hd Hw Hw'. pose proof (wins_perm _ _ _ Hw) as Hp. pose proof (wins_perm _ _ _ Hw') as Hp'.
  assert (Heq : w = w').
  { assert (Hin : w ∈ w' :: rest') by (rewrite <- Hp', <- HE, Hp; by left).
    apply elem_of_cons in Hin as [->|Hin]; [done|]. exfalso.
    assert (Hin' : w' ∈ w :: rest) by (rewrite <- Hp, HE, Hp'; by left).
    pose proof (wins_rest _ _ _ _ Hw' Hin) as Ha.
    apply elem_of_cons in Hin' as [->|Hin'].
    - pose proof (distinct_ranks_perm _ _ HE Hd) as Hd'. apply (distinct_ranks_perm _ _ Hp') in Hd'.
      unfold distinct_ranks in Hd'. rewrite fmap_cons in Hd'. apply NoDup_cons in Hd' as [Hn _].
      apply Hn. by apply (list_elem_of_fmap_2 (fun c : candidate => rank_key (fst c))).
    - pose proof (wins_rest _ _ _ _ Hw Hin') as Hb. pose proof (ahead_total _ _ Ha Hb) as Hk.
      apply (distinct_ranks_perm _ _ Hp) in Hd. unfold distinct_ranks in Hd.
      rewrite fmap_cons in Hd. apply NoDup_cons in Hd as [Hn _]. apply Hn.
      rewrite Hk. by apply (list_elem_of_fmap_2 (fun c : candidate => rank_key (fst c))). }
  subst w'. split; [done|]. apply (Permutation_cons_inv (a := w)). by rewrite <- Hp, <- Hp'.
Qed.

(** Prices are non-negative when the request's floor is. *)
Lemma eligible_price_nonneg request nowUnix (c : candidate) :
  0 <= req_FloorMicros request -> eligible_for request nowUnix c -> 0 <= effectivePrice (fst c).
Proof.
  intros Hfl Hd. unfold eligible_for, eligible in Hd.
  destruct (Z.ltb_spec (effectivePrice (fst c)) (Z.max (req_FloorMicros request) (bid_FloorMicros (fst c)))); [done|lia].
Qed.

Lemma consider_ineligible a c :
  ~ eligible_for (acc_request a) (acc_nowUnix a) c -> consider a (fst c) (snd c) = a.
Proof.
  unfold eligible_for, consider. intros H. by destruct (eligible (fst c) _ _ _).
Qed.

(** The runner-up price after [c] displaces the winner [w]. *)
Lemma runner_up_displaced E w rest (c : candidate) :
  wins E w rest -> ahead (fst c) (fst w) = true -> 0 <= effectivePrice (fst w) ->
  zmax_list 0 (prices_at (bid_Priority (fst c)) E)
  = if bid_Priority (fst c) =? bid_Priority (fst w) then effectivePrice (fst w) else 0.
Proof.
  intros Hw Hc Hpos. rewrite (zmax_list_perm _ _ _ (prices_at_perm _ _ _ (wins_perm _ _ _ Hw))).
  destruct (Z.eqb_spec (bid_Priority (fst c)) (bid_Priority (fst w))) as [Hp|Hp].
  - rewrite Hp. change (w :: rest) with ([w] ++ rest).
    rewrite prices_at_app, prices_at_single, decide_True, zmax_list_app by done. simpl.
    pose proof (zmax_list_le 0 _ _ Hpos (wins_rivals_le _ _ _ Hw)). lia.
  - pose proof (ahead_priority _ _ (ahead_asym _ _ Hc)).
    by rewrite (wins_nobody_higher _ _ _ _ Hw) by lia.
Qed.

(** The runner-up price after [c] joins the rivals of the winner [w]. *)
Lemma runner_up_kept w rest (c : candidate) :
  zmax_list 0 (prices_at (bid_Priority w) (rest ++ [c]))
  = let r := zmax_list 0 (prices_at (bid_Priority w) rest) in
    if (bid_Priority (fst c) =? bid_Priority w) && (r <? effectivePrice (fst c))
    then effectivePrice (fst c) else r.
Proof.
  rewrite prices_at_app, prices_at_single, zmax_list_app. simpl.
  pose proof (zmax_list_ge 0 (prices_at (bid_Priority w) rest)).
  case_decide as Hd; simpl; case_test; bool_hyps; lia.
Qed.

(** One more candidate: what [consider] does to the abstract result. *)
Lemma consider_eligible E a c :
  eligible_for (acc_request a) (acc_nowUnix a) c ->
  Forall (fun d : candidate => 0 <= effectivePrice (fst d)) E ->
  pass_result E a -> pass_result (E ++ [c]) (consider a (fst c) (snd c)).
Proof.
  intros He Hpos [Hcount Hres].
  assert (Hc : int64 (acc_candidates a + 1) = int64 (Z.of_nat (length (E ++ [c])))).
  { rewrite Hcount, int64_add_l, length_app. f_equal. simpl. lia. }
  unfold eligible_for in He. unfold consider. rewrite He. destruct c as [b bidder]. simpl.
  destruct (acc_winner a) as [w|] eqn:Ew.
  - destruct Hres as (rest & Hw & Hp & Hru). rewrite Hp. fold (ahead b w).
    destruct (ahead b w) eqn:Ha.
    + split; [done|]. exists E. split; [by eapply wins_displace|]. split; [done|].
      symmetry. apply (runner_up_displaced _ _ _ (b, bidder) Hw Ha).
      apply (Forall_elem _ _ _ Hpos). rewrite (wins_perm _ _ _ Hw). by left.
    + pose proof (wins_keep _ _ _ (b, bidder) Hw Ha) as Hk.
      pose proof (runner_up_kept w rest (b, bidder)) as Hr. simpl in Hr. rewrite <- Hru in Hr.
      destruct ((bid_Priority b =? bid_Priority w) && (acc_runnerUpPrice a <? effectivePrice b));
        (split; [done|]); simpl; rewrite ?Ew; exists (rest ++ [(b, bidder)]); done.
  - destruct Hres as (-> & _). split; [done|]. exists []. split; [by apply wins_single|]. done.
Qed.

Lemma consider_pass request nowUnix E a c :
  0 <= req_FloorMicros request ->
  acc_request a = request -> acc_nowUnix a = nowUnix ->
  Forall (eligible_for request nowUnix) E -> pass_result E a ->
  pass_result (E ++ filter (eligible_for request nowUnix) [c]) (consider a (fst c) (snd c)).
Proof.
  intros Hfl <- <- HE Ha. destruct (decide (eligible_for (acc_request a) (acc_nowUnix a) c)).
  - rewrite filter_cons_True by done. apply consider_eligible; [done| |done].
    eapply Forall_impl; [done|]. eauto using eligible_price_nonneg.
  - rewrite filter_cons_False by done. by rewrite app_nil_r, consider_ineligible.
Qed.

Lemma consider_request a b bidder : acc_request (consider a b bidder) = acc_request a.
Proof. unfold consider. split_tests; destruct (acc_winner a); split_tests; done. Qed.

Lemma consider_nowUnix a b bidder : acc_nowUnix (consider a b bidder) = acc_nowUnix a.
Proof. unfold consider. split_tests; destruct (acc_winner a); split_tests; done. Qed.

(** The accumulator computes the abstract result of the eligible candidates. *)
Lemma consider_all_pass request nowUnix l :
  0 <= req_FloorMicros request ->
  pass_result (eligible_candidates request nowUnix l)
    (consider_all l (new_accumulator request nowUnix)).
Proof.
  intros Hfl. unfold consider_all.
  assert (Hgen : forall E a, acc_request a = request -> acc_nowUnix a = nowUnix ->
    Forall (eligible_for request nowUnix) E -> pass_result E a ->
    pass_result (E ++ eligible_candidates request nowUnix l)
      (fold_left (fun a c => consider a (fst c) (snd c)) l a)).
  { induction l as [|c l IH]; intros E a Hr Hn HE Ha; simpl.
    - unfold eligible_candidates. by rewrite filter_nil, app_nil_r.
    - specialize (IH (E ++ filter (eligible_for request nowUnix) [c]) (consider a (fst c) (snd c))).
      unfold eligible_candidates in *.
      replace (E ++ filter (eligible_for request nowUnix) (c :: l))
        with ((E ++ filter (eligible_for request nowUnix) [c]) ++ filter (eligible_for request nowUnix) l)
        by (rewrite <- app_assoc, <- filter_app; done).
      apply IH; [by rewrite consider_request|by rewrite consider_nowUnix|..|by apply consider_pass].
      apply Forall_app. split; [done|]. apply Forall_forall. intros d [? _]%list_elem_of_filter. done. }
  apply (Hgen [] (new_accumulator request nowUnix)); done.
Qed.

(** An abstract result determines the accumulator's observable fields. *)
Lemma pass_result_unique E a a' :
  pass_result E a -> pass_result E a' ->
  acc_winner a = acc_winner a' /\ acc_winnerPrice a = acc_winnerPrice a'
  /\ acc_runnerUpPrice a = acc_runnerUpPrice a' /\ acc_winnerBidderID a = acc_winnerBidderID a'
  /\ acc_candidates a = acc_candidates a'.
Proof.
  intros [Hc Hr] [Hc' Hr']. destruct (acc_winner a) as [w|] eqn:Ew, (acc_winner a') as [w'|] eqn:Ew'.
  - destruct Hr as (rest & Hw & Hp & Hu), Hr' as (rest' & Hw' & Hp' & Hu').
    destruct (wins_unique _ _ _ _ _ Hw Hw') as [[= -> Hb] ->]. by rewrite Hp, Hp', Hu, Hu', Hc, Hc', Hb.
  - destruct Hr as (rest & Hw & _), Hr' as (-> & _).
    apply wins_perm, Permutation_nil_l in Hw. done.
  - destruct Hr' as (rest & Hw & _), Hr as (-> & _).
    apply wins_perm, Permutation_nil_l in Hw. done.
  - destruct Hr as (_ & -> & -> & ->), Hr' as (_ & -> & -> & ->). by rewrite Hc, Hc'.
Qed.

(** Candidates of a priority below the winner's do not change the winner or the
    best rival. *)
Lemma wins_filter E w rest p :
  p <= bid_Priority (fst w) -> wins E w rest ->
  wins (filter (fun c => p <= bid_Priority (fst c)) E) w (filter (fun c => p <= bid_Priority (fst c)) rest).
Proof.
  intros Hp (l1 & l2 & -> & -> & H1 & H2).
  exists (filter (fun c => p <= bid_Priority (fst c)) l1), (filter (fun c => p <= bid_Priority (fst c)) l2).
  rewrite filter_app_split, filter_app by done. repeat split.
  - apply Forall_forall. intros c [_ Hc]%list_elem_of_filter. by eapply (Forall_elem _ _ _ H1).
  - apply Forall_forall. intros c [_ Hc]%list_elem_of_filter. by eapply (Forall_elem _ _ _ H2).
Qed.

Lemma prices_at_filter p q l :
  q <= p -> prices_at p (filter (fun c => q <= bid_Priority (fst c)) l) = prices_at p l.
Proof.
  intros Hq. unfold prices_at. rewrite list_filter_filter. f_equal.
  apply list_filter_iff. intros c. split; [tauto|]. intros <-. done.
Qed.

(** ** Clearing prices *)

(** The overflow test of the code makes the clearing price the mathematical
    second price: the runner-up plus the increment, capped at the winner's price,
    and not below the floor. *)
Lemma clearingPrice_second p w wp ru fl :
  pol_PricingModel p <> FirstPrice -> 0 <= pol_SecondPriceIncrementMicros p <= MaxInt64 ->
  0 <= ru -> ru <= wp <= MaxInt64 ->
  clearingPrice p w wp ru fl =
  Z.max (Z.max fl (bid_FloorMicros w))
    (if ru =? 0 then Z.max fl (bid_FloorMicros w) else Z.min wp (ru + pol_SecondPriceIncrementMicros p)).
Proof.
  intros Hm Hi Hr Hw. unfold clearingPrice. set (inc := pol_SecondPriceIncrementMicros p) in *.
  apply String.eqb_neq in Hm. rewrite Hm.
  destruct (Z.eqb_spec ru 0); [lia|].
  destruct (Z.le_gt_cases (ru + inc) MaxInt64).
  - rewrite int64_id by (unfold_int; lia).
    destruct (Z.ltb_spec (ru + inc) ru), (Z.ltb_spec wp (ru + inc)); simpl; lia.
  - rewrite int64_overflow by lia.
    rewrite (proj2 (Z.ltb_lt _ ru)) by (unfold_int; lia). simpl. unfold_int. lia.
Qed.

Lemma eligible_floor b request nowUnix price :
  eligible b request nowUnix price = true -> Z.max (req_FloorMicros request) (bid_FloorMicros b) <= price.
Proof. unfold eligible. by destruct (Z.ltb_spec price (Z.max (req_FloorMicros request) (bid_FloorMicros b))). Qed.

(** ** Sorting *)

#[export] Instance bid_le_total : Total bid_le.
Proof.
  intros x y. unfold bid_le. rewrite !bid_less_ahead.
  destruct (ahead y x) eqn:E; [right|by left]. by apply ahead_asym.
Qed.

#[export] Instance bid_le_trans : Transitive bid_le.
Proof.
  intros x y z Hyx Hzy. unfold bid_le in *. rewrite bid_less_ahead in *.
  destruct (ahead z x) eqn:E; [|done].
  pose proof (ahead_weak z x y E Hyx) as Hz. congruence.
Qed.

Lemma sortBids_Permutation l : sortBids l ≡ₚ l.
Proof. apply merge_sort_Permutation. Qed.

Lemma sortBids_sorted l : StronglySorted bid_le (sortBids l).
Proof. apply StronglySorted_merge_sort; apply _. Qed.

(** Any two sorted permutations of bids with pairwise distinct ranks are equal. *)
Lemma sorted_unique l1 l2 :
  NoDup (rank_key <$> l1) -> StronglySorted bid_le l1 -> StronglySorted bid_le l2 -> l1 ≡ₚ l2 -> l1 = l2.
Proof.
  intros Hnd H1 H2 Hp. apply (StronglySorted_unique_strong bid_le); [|done..].
  intros x1 x2 Hx1 Hx2 H12 H21. unfold bid_le in *. rewrite bid_less_ahead in *.
  pose proof (ahead_total _ _ H21 H12) as Hk. rewrite <- Hp in Hx2.
  apply list_elem_of_lookup in Hx1 as [i Hi], Hx2 as [j Hj].
  assert (i = j) as ->; [|congruence].
  apply (NoDup_lookup (rank_key <$> l1) i j (rank_key x1)); [done|..].
  - by rewrite list_lookup_fmap, Hi.
  - by rewrite list_lookup_fmap, Hj, Hk.
Qed.

Lemma sortBids_canonical l l' :
  NoDup (rank_key <$> l) -> StronglySorted bid_le l' -> l ≡ₚ l' -> sortBids l = l'.
Proof.
  intros Hnd Hs Hp. apply sorted_unique; [|apply sortBids_sorted|done|].
  - by rewrite (sortBids_Permutation l).
  - by rewrite (sortBids_Permutation l).
Qed.

Lemma sortBids_idemp l : NoDup (rank_key <$> l) -> sortBids (sortBids l) = sortBids l.
Proof.
  intros Hnd. apply sortBids_canonical; [by rewrite sortBids_Permutation|apply sortBids_sorted|done].
Qed.

Lemma NoDup_ID_rank l : NoDup (bid_ID <$> l) -> NoDup (rank_key <$> l).
Proof.
  intros H. apply (NoDup_fmap_1 (fun k : Z * Z * string => snd k)).
  rewrite <- list_fmap_compose. done.
Qed.

(** In a sorted list the first candidate wins. *)
Lemma wins_sorted_head c l :
  StronglySorted bid_le (fst <$> c :: l) -> wins (c :: l) c l.
Proof.
  rewrite fmap_cons. intros [Hf _]%StronglySorted_cons. exists [], l. repeat split; [done|].
  rewrite Forall_fmap in Hf. eapply Forall_impl; [exact Hf|]. done.
Qed.

Lemma StronglySorted_filter_fst (P : candidate -> Prop) `{!∀ c, Decision (P c)} l :
  StronglySorted bid_le (fst <$> l) -> StronglySorted bid_le (fst <$> filter P l).
Proof.
  induction l as [|c l IH]; [done|]. rewrite fmap_cons. intros [Hf Hs]%StronglySorted_cons.
  rewrite filter_cons. case_decide; [|auto]. rewrite fmap_cons. apply StronglySorted_cons.
  split; [|auto]. rewrite Forall_fmap in Hf |- *. apply Forall_forall.
  intros d [_ Hd]%list_elem_of_filter. by eapply Forall_elem.
Qed.

(** ** Properties *)

(** Effective CPM. For any int64 price and any pacing from 0 to 10000 basis
    points no step of the code's arithmetic overflows, and the result is the exact
    product price * pacing / 10000 rounded towards zero; it never exceeds the
    price in magnitude. *)
Theorem effectivePrice_exact b :
  is_int64 (bid_PriceMicros b) -> 0 <= bid_PacingBPS b <= 10000 ->
  effectivePrice b = Z.quot (bid_PriceMicros b * bid_PacingBPS b) 10000
  /\ Z.abs (effectivePrice b) <= Z.abs (bid_PriceMicros b)
  /\ (0 <= bid_PriceMicros b -> effectivePrice b = bid_PriceMicros b * bid_PacingBPS b / 10000).
Proof.
  intros Hp Hc. rewrite effectivePrice_quot by done. split_and!; [done| |].
  - rewrite <- Z.quot_abs, Z.abs_mul, (Z.abs_eq (bid_PacingBPS b)), (Z.abs_eq 10000) by lia.
    apply Z.quot_le_upper_bound; [lia|]. pose proof (Z.abs_nonneg (bid_PriceMicros b)). nia.
  - intros Hpos. apply Z.quot_div_nonneg; nia.
Qed.

(** The largest price and the pacing that would overflow a naive product. *)
Definition extreme_bid : Bid := mkBid "b" 1 "p" "c" "x" "" "" MaxInt64 0 "" 0 9999 [] [] 0 0.

Lemma effectivePrice_exact_witness :
  effectivePrice extreme_bid = 9222449699651090329
  /\ effectivePrice extreme_bid = Z.quot (bid_PriceMicros extreme_bid * bid_PacingBPS extreme_bid) 10000.
Proof.
  split; [vm_compute; reflexivity|].
  refine (proj1 (effectivePrice_exact extreme_bid _ _)); split; vm_compute; discriminate.
Defined.

(** Sorting. sortBids returns a permutation of its input in ranking order
    (priority, then effective price, then the smaller ID), and when the IDs are
    distinct every correct sorting procedure returns the same list, so the
    instability of sort.Slice does not show. *)
Theorem sortBids_deterministic l :
  sortBids l ≡ₚ l /\ StronglySorted bid_le (sortBids l)
  /\ (NoDup (bid_ID <$> l) -> forall l', l' ≡ₚ l -> StronglySorted bid_le l' -> sortBids l = l').
Proof.
  split_and!; [apply sortBids_Permutation|apply sortBids_sorted|].
  intros Hnd l' Hp Hs. by apply sortBids_canonical; [apply NoDup_ID_rank| |].
Qed.
