(* ===== verification/DynamicBids.v ===== *)
(** * Dynamic bids and their cache (internal/ads/dynamic_bidding.go)

    The data DSP calls exchange, the cache key of a request, what the sanitizer
    makes of a DSP's answer, and [DynamicBidCache]. *)

From S2P Require Import Prelude GoInt GoTime GoString Types.
From Stdlib Require Import Ascii.
Open Scope string_scope.
Open Scope list_scope.
Open Scope Z_scope.
Open Scope go_scope.

(** ** Data *)

Record DSPRequest := mkDSPRequest {
  dsp_PlacementID : string;
  dsp_Country : string;
  dsp_Device : string;
  dsp_FloorMicros : Z
}.

Record DynamicBid := mkDynamicBid { dyn_Bid : Bid; dyn_BidderID : string }.

Record BidderEngineConfig := mkBidderEngineConfig {
  ec_MaxFanout : Z;
  ec_MaxConcurrentRefreshes : Z;
  ec_CacheTTL : Duration;
  ec_FailureTTL : Duration;
  ec_MaxKeys : Z
}.

Definition BidderEngineConfig_Validate (c : BidderEngineConfig) : option string :=
  if (ec_MaxFanout c <? 1) || (64 <? ec_MaxFanout c)
     || (ec_MaxConcurrentRefreshes c <? 1) || (4096 <? ec_MaxConcurrentRefreshes c)
  then Some "invalid DSP fan-out or refresh limit"
  else if (ec_MaxKeys c <? 1) || (1000000 <? ec_MaxKeys c)
     || (ec_CacheTTL c <=? 0) || (10 *i Minute <? ec_CacheTTL c)
     || (ec_FailureTTL c <=? 0) || (Minute <? ec_FailureTTL c)
  then Some "invalid DSP cache configuration"
  else None.

Definition DefaultBidderEngineConfig : BidderEngineConfig :=
  mkBidderEngineConfig 3 128 (2 *i Second) (250 *i Millisecond) 10000.

(** ** Keys and identifiers *)

(** The unit separator of the key, [\x1f]. *)
Definition unit_separator : ascii := "031"%char.

Definition dynamicCacheKey (request : AuctionRequest) : string :=
  req_PlacementID request +:+ String.String unit_separator (req_Country request +:+
    String.String unit_separator (req_Device request +:+
      String.String unit_separator (FormatInt (req_FloorMicros request) 10))).

(** A character of an identifier. The loop of [validBidderID] goes over runes; all
    accepted ones are ASCII, and every byte of another rune is rejected here. *)
Definition bidder_id_char (char : ascii) : bool :=
  let v := byte_val char in
  ((byte_val "a" <=? v) && (v <=? byte_val "z"))
  || ((byte_val "A" <=? v) && (v <=? byte_val "Z"))
  || ((byte_val "0" <=? v) && (v <=? byte_val "9"))
  || Ascii.eqb char "-" || Ascii.eqb char "_" || Ascii.eqb char ".".

Definition validBidderID (id : string) : bool :=
  if String.eqb id "" || (64 <? len id) then false
  else string_forall bidder_id_char id.

(** ** The sanitizer *)

(** One iteration of the loop; [None] is [continue]. The loop's [bid] is a copy. *)
Definition sanitize_bid (bidderID : string) (request : DSPRequest) (bid : Bid) : option DynamicBid :=
  let bid := Bid_Normalize bid in
  let bid := {| bid with bid_Revision := 0 |} in
  let bid := {| bid with bid_Priority := 0; bid_DealID := "" |} in
  if negb (String.eqb (bid_PlacementID bid) (dsp_PlacementID request)) then None
  else
    let bid := {| bid with bid_ID := bidderID +:+ ":" +:+ bid_ID bid |} in
    match Bid_ValidateDynamic bid with
    | Some _ => None
    | None => Some (mkDynamicBid bid bidderID)
    end.

Fixpoint sanitizeDynamicBids (bidderID : string) (request : DSPRequest) (bids : list Bid) : list DynamicBid :=
  match bids with
  | [] => []
  | bid :: rest =>
      match sanitize_bid bidderID request bid with
      | Some clean => clean :: sanitizeDynamicBids bidderID request rest
      | None => sanitizeDynamicBids bidderID request rest
      end
  end.

(** ** The cache *)

Record dynamicBidList := mkDynamicBidList { dl_bids : list DynamicBid; dl_expiresNS : Z }.

(** [entries] is a [sync.Map]; [writeMu] makes each [Put] atomic with respect to
    other writers, and a [Get] reads one entry. *)
Record DynamicBidCache := mkDynamicBidCache {
  dc_entries : gmap string dynamicBidList;
  dc_count : Z;
  dc_maxKeys : Z
}.

Definition NewDynamicBidCache (maxKeys : Z) : DynamicBidCache :=
  mkDynamicBidCache ∅ 0 (if maxKeys <? 1 then ec_MaxKeys DefaultBidderEngineConfig else maxKeys).

Definition DynamicBidCache_Get (key : string) (now : Time) (c : DynamicBidCache) : option (list DynamicBid) :=
  match dc_entries c !! key with
  | None => None
  | Some l => if dl_expiresNS l <=? UnixNano now then None else Some (dl_bids l)
  end.

(** The [Range] that removes expired entries while the cache is full; the list is
    the order of the iteration. *)
Fixpoint evict_expired (now : Z) (entries : list (string * dynamicBidList)) (c : DynamicBidCache) : DynamicBidCache :=
  match entries with
  | [] => c
  | (storedKey, storedValue) :: rest =>
      let c := if dl_expiresNS storedValue <=? now
               then {| c with dc_entries := delete storedKey (dc_entries c); dc_count := dc_count c -i 1 |}
               else c in
      if dc_maxKeys c <=? dc_count c then evict_expired now rest c else c
  end.

(** [now] is the clock when the expiry is computed, [later] when entries are
    evicted; [range] is the order of this execution's [Range]. *)
Definition DynamicBidCache_Put (range : gmap string dynamicBidList -> list (string * dynamicBidList)) (key : string)
    (bids : list DynamicBid) (ttl : Duration) (now later : Time) (c : DynamicBidCache) : DynamicBidCache * bool :=
  if ttl <=? 0 then (c, false)
  else
    let l := mkDynamicBidList bids (UnixNano (time_Add now ttl)) in
    match dc_entries c !! key with
    | Some _ => ({| c with dc_entries := <[key := l]> (dc_entries c) |}, true)
    | None =>
        let c := if dc_maxKeys c <=? dc_count c
                 then evict_expired (UnixNano later) (range (dc_entries c)) c else c in
        if dc_maxKeys c <=? dc_count c then (c, false)
        else ({| c with dc_entries := <[key := l]> (dc_entries c); dc_count := dc_count c +i 1 |}, true)
    end.

(** ** Keys *)

Lemma dynamicCacheKey_inj r r' :
  lacks "031" (req_PlacementID r) -> lacks "031" (req_PlacementID r') ->
  lacks "031" (req_Country r) -> lacks "031" (req_Country r') ->
  is_int64 (req_FloorMicros r) -> is_int64 (req_FloorMicros r') ->
  dynamicCacheKey r = dynamicCacheKey r' ->
  req_PlacementID r = req_PlacementID r' /\ req_Country r = req_Country r'
  /\ req_Device r = req_Device r' /\ req_FloorMicros r = req_FloorMicros r'.
Proof.
  intros Hp Hp' Hc Hc' Hf Hf' He. unfold dynamicCacheKey in He.
  apply separator_inj in He as [Ep He]; [|done..]. apply separator_inj in He as [Ec He]; [|done..].
  apply separator_inj_r in He as [Ed He]; [|by apply FormatInt_lacks..].
  split_and!; [done..|]. by apply FormatInt_inj.
Qed.

(** Whatever the texts, requests with different floors have different keys. *)
Lemma dynamicCacheKey_floor r r' :
  is_int64 (req_FloorMicros r) -> is_int64 (req_FloorMicros r') ->
  dynamicCacheKey r = dynamicCacheKey r' -> req_FloorMicros r = req_FloorMicros r'.
Proof.
  intros Hf Hf' He. unfold dynamicCacheKey in He.
  assert (Hassoc : forall p c d f : string,
    p +:+ String.String unit_separator (c +:+ String.String unit_separator (d +:+ String.String unit_separator f))
    = (p +:+ String.String unit_separator (c +:+ String.String unit_separator d)) +:+ String.String unit_separator f).
  { intros p c d f. rewrite string_app_assoc. f_equal. simpl. f_equal. rewrite string_app_assoc. done. }
  rewrite !Hassoc in He. apply separator_inj_r in He as [_ He]; [|by apply FormatInt_lacks..].
  by apply FormatInt_inj.
Qed.

(** ** What the sanitizer lets through *)

(** A bid fit for the auction of [placement] under the name of [bidderID]. *)
Record sanitized (bidderID placement : string) (d : DynamicBid) : Prop := {
  san_bidder : dyn_BidderID d = bidderID;
  san_wf : Bid_wf false (dyn_Bid d);
  san_placement : bid_PlacementID (dyn_Bid d) = placement;
  san_priority : bid_Priority (dyn_Bid d) = 0;
  san_deal : bid_DealID (dyn_Bid d) = "";
  san_revision : bid_Revision (dyn_Bid d) = 0;
  san_id : exists id, bid_ID (dyn_Bid d) = bidderID +:+ ":" +:+ id
}.

Lemma sanitize_bid_ok bidderID request b d :
  sanitize_bid bidderID request b = Some d -> sanitized bidderID (dsp_PlacementID request) d.
Proof.
  unfold sanitize_bid. intros H. case_test; [done|]. bool_hyps. simpl in *.
  destruct (Bid_ValidateDynamic _) eqn:Ev; [done|]. injection H as <-.
  apply Bid_validate_wf in Ev. constructor; simpl; eauto.
Qed.

(** The sanitizer is a filter and a map: it keeps the order, and every result comes
    from one bid of the answer. *)
Lemma sanitizeDynamicBids_omap bidderID request bids :
  sanitizeDynamicBids bidderID request bids = omap (sanitize_bid bidderID request) bids.
Proof.
  induction bids as [|b bids IH]; simpl; [done|].
  destruct (sanitize_bid bidderID request b); simpl; by rewrite IH.
Qed.

Lemma sanitizeDynamicBids_ok bidderID request bids :
  Forall (sanitized bidderID (dsp_PlacementID request)) (sanitizeDynamicBids bidderID request bids).
Proof.
  rewrite sanitizeDynamicBids_omap. apply Forall_forall. intros d.
  rewrite list_elem_of_omap. intros (b & _ & Hs). by eapply sanitize_bid_ok.
Qed.

(** Names of different bidders never produce the same bid ID. *)
Lemma validBidderID_lacks_colon id : validBidderID id = true -> lacks ":" id.
Proof.
  unfold validBidderID. intros H. case_test; [done|]. unfold lacks.
  apply (string_forall_impl bidder_id_char); [|done]. intros c Hc.
  destruct (Ascii.eqb_spec ":" c) as [<-|]; [by vm_compute in Hc|done].
Qed.

Lemma sanitized_ids_apart i j p q d d' :
  validBidderID i = true -> validBidderID j = true -> i <> j ->
  sanitized i p d -> sanitized j q d' -> bid_ID (dyn_Bid d) <> bid_ID (dyn_Bid d').
Proof.
  intros Hi Hj Hne [_ _ _ _ _ _ (x & Hx)] [_ _ _ _ _ _ (y & Hy)] He. rewrite Hx, Hy in He.
  apply separator_inj in He as [? _]; [done|by apply validBidderID_lacks_colon..].
Qed.

(** ** The invariant of the cache *)

Record dynamic_cache_ok (c : DynamicBidCache) : Prop := {
  dco_count : dc_count c = Z.of_nat (size (dc_entries c));
  dco_bound : dc_count c <= dc_maxKeys c;
  dco_max : 1 <= dc_maxKeys c <= MaxInt64
}.

Definition any_entry_order (range : gmap string dynamicBidList -> list (string * dynamicBidList)) : Prop :=
  forall m, range m ≡ₚ map_to_list m.

(** Eviction: entries that are gone had expired, the others are untouched, and a full
    cache with an expired entry gets room. *)
Lemma evict_expired_spec now entries c c2 :
  dynamic_cache_ok c -> NoDup entries.*1 ->
  (forall k l, (k, l) ∈ entries -> dc_entries c !! k = Some l) ->
  evict_expired now entries c = c2 ->
  dynamic_cache_ok c2 /\ dc_maxKeys c2 = dc_maxKeys c
  /\ (forall k, dc_entries c2 !! k = dc_entries c !! k
       \/ (exists l, dc_entries c !! k = Some l /\ dl_expiresNS l <= now /\ dc_entries c2 !! k = None))
  /\ (dc_maxKeys c <= dc_count c -> dc_count c2 < dc_maxKeys c2 <->
       exists k l, (k, l) ∈ entries /\ dl_expiresNS l <= now).
Proof.
  intros Hok Hnd Hin <-. revert c Hok Hnd Hin. induction entries as [|[k l] entries IH]; intros c Hok Hnd Hin; simpl.
  { split_and!; [done..|auto|]. intros Hle. split; [lia|]. by intros (? & ? & ?%elem_of_nil & _). }
  apply NoDup_cons in Hnd as [Hk Hnd].
  assert (Hl : dc_entries c !! k = Some l) by (apply Hin; by left).
  destruct (Z.leb_spec (dl_expiresNS l) now) as [He|He]; cbn [dc_maxKeys dc_count].
  - assert (Hsz : size (delete k (dc_entries c)) = pred (size (dc_entries c))) by (eapply map_size_delete_Some; eauto).
    assert (Hpos : (0 < size (dc_entries c))%nat).
    { destruct (size (dc_entries c)) eqn:Es; [|lia]. apply map_size_empty_iff in Es. by rewrite Es in Hl. }
    destruct Hok as [Hc Hb Hm].
    assert (Hcnt : int64 (dc_count c - 1) = Z.of_nat (size (delete k (dc_entries c)))).
    { rewrite int64_id by (unfold_int; lia). lia. }
    rewrite Hcnt. set (c1 := mkDynamicBidCache _ _ _).
    assert (Hok1 : dynamic_cache_ok c1) by (constructor; simpl; lia).
    rewrite (proj2 (Z.leb_gt _ _)) by lia. split_and!; [done|done| |].
    + intros k'. simpl. destruct (decide (k' = k)) as [->|]; [|left; by apply lookup_delete_ne].
      right. exists l. by rewrite lookup_delete_eq.
    + intros _. simpl. split; [intros _; exists k, l; split; [by left|done]|lia].
  - destruct (Z.leb_spec (dc_maxKeys c) (dc_count c)) as [Hfull|Hroom].
    + destruct (IH c Hok Hnd) as (H1 & H2 & H3 & H4); [intros ? ? ?; apply Hin; by right|].
      split_and!; [done..|]. intros _. rewrite (H4 Hfull). split; intros (k' & l' & Hkl & Hex).
      * exists k', l'. split; [by right|done].
      * apply elem_of_cons in Hkl as [[= -> ->]|?]; [lia|eauto].
    + split_and!; [done..|auto|]. lia.
Qed.

(** The state and the result of a [Put] of a new key, before the key is stored. *)
Lemma Put_room range later c :
  dynamic_cache_ok c -> any_entry_order range ->
  let c1 := if dc_maxKeys c <=? dc_count c then evict_expired (UnixNano later) (range (dc_entries c)) c else c in
  dynamic_cache_ok c1 /\ dc_maxKeys c1 = dc_maxKeys c
  /\ (forall k, dc_entries c1 !! k = dc_entries c !! k
       \/ exists l, dc_entries c !! k = Some l /\ dl_expiresNS l <= UnixNano later /\ dc_entries c1 !! k = None)
  /\ (dc_maxKeys c1 <= dc_count c1 <->
       dc_maxKeys c <= dc_count c /\ forall k l, dc_entries c !! k = Some l -> UnixNano later < dl_expiresNS l).
Proof.
  intros Hok Hrg c1. unfold c1. destruct (Z.leb_spec (dc_maxKeys c) (dc_count c)) as [Hfull|Hroom].
  - assert (Hin : forall k l, (k, l) ∈ range (dc_entries c) <-> dc_entries c !! k = Some l).
    { intros k l. rewrite (Hrg (dc_entries c)). apply elem_of_map_to_list. }
    destruct (evict_expired_spec (UnixNano later) (range (dc_entries c)) c (evict_expired (UnixNano later) (range (dc_entries c)) c) Hok) as (H1 & H2 & H3 & H4);
      [rewrite (Hrg (dc_entries c)); apply NoDup_fst_map_to_list|intros k l ?; by apply Hin|done|].
    split_and!; [done..|]. specialize (H4 Hfull). split.
    + intros Hge. split; [done|]. intros k l Hl. apply Z.nle_gt. intros Hex.
      enough (dc_count (evict_expired (UnixNano later) (range (dc_entries c)) c) < dc_maxKeys c) by lia.
      rewrite <- H2. apply H4. exists k, l. split; [by apply Hin|done].
    + intros [_ Hall]. apply Z.nlt_ge. intros Hlt. apply H4 in Hlt as (k & l & Hkl & Hex).
      apply Hin in Hkl. pose proof (Hall k l Hkl). lia.
  - split_and!; [done..|auto|]. lia.
Qed.

Lemma Get_evicted c c1 k t later :
  (dc_entries c1 !! k = dc_entries c !! k
   \/ exists l, dc_entries c !! k = Some l /\ dl_expiresNS l <= UnixNano later /\ dc_entries c1 !! k = None) ->
  UnixNano later <= UnixNano t -> DynamicBidCache_Get k t c1 = DynamicBidCache_Get k t c.
Proof.
  unfold DynamicBidCache_Get. intros [-> |(l & -> & He & ->)] Ht; [done|].
  by rewrite (proj2 (Z.leb_le _ _)) by lia.
Qed.

(** [Put] on every branch. *)
Lemma Put_spec range key bids ttl now later c c2 ok :
  dynamic_cache_ok c -> any_entry_order range ->
  DynamicBidCache_Put range key bids ttl now later c = (c2, ok) ->
  dynamic_cache_ok c2 /\ dc_maxKeys c2 = dc_maxKeys c
  /\ (forall k t, k <> key -> UnixNano later <= UnixNano t -> DynamicBidCache_Get k t c2 = DynamicBidCache_Get k t c)
  /\ (ok = true -> forall t, DynamicBidCache_Get key t c2
        = if UnixNano (now + ttl) <=? UnixNano t then None else Some bids)
  /\ (ok = false <-> ttl <= 0 \/ (dc_entries c !! key = None /\ dc_maxKeys c <= dc_count c
        /\ forall k l, dc_entries c !! k = Some l -> UnixNano later < dl_expiresNS l))
  /\ (ok = false -> forall k, dc_entries c2 !! k = dc_entries c !! k).
Proof.
  intros Hok Hrg Hput. unfold DynamicBidCache_Put in Hput.
  destruct (Z.leb_spec ttl 0) as [Httl|Httl].
  { injection Hput as <- <-. split_and!; try done. split; auto. }
  set (l := mkDynamicBidList bids (UnixNano (time_Add now ttl))) in *.
  assert (Hget : forall m n (mk : Z) t, DynamicBidCache_Get key t (mkDynamicBidCache (<[key:=l]> m) n mk)
    = if UnixNano (now + ttl) <=? UnixNano t then None else Some bids).
  { intros m n mk t. unfold DynamicBidCache_Get. simpl. by rewrite lookup_insert_eq. }
  assert (Hother : forall m n (mk : Z) k t, k <> key ->
    DynamicBidCache_Get k t (mkDynamicBidCache (<[key:=l]> m) n mk) = DynamicBidCache_Get k t (mkDynamicBidCache m n mk)).
  { intros m n mk k t Hk. unfold DynamicBidCache_Get. simpl. by rewrite lookup_insert_ne. }
  destruct (dc_entries c !! key) as [old|] eqn:Ek.
  - injection Hput as <- <-. destruct Hok as [Hc Hb Hm]. split_and!; try done.
    + constructor; simpl; [|done|done]. rewrite map_size_insert_Some by (rewrite Ek; eauto). done.
    + intros k t Hk _. apply Hother, Hk.
    + split; [done|]. intros [?|[? _]]; [lia|congruence].
  - destruct (Put_room range later c Hok Hrg) as (Hok1 & Hmax & Hent & Hroom).
    set (c1 := if dc_maxKeys c <=? dc_count c then _ else c) in *.
    destruct (Z.leb_spec (dc_maxKeys c1) (dc_count c1)) as [Hfull|Hlt]; injection Hput as <- <-.
    + apply Hroom in Hfull as [Hf Hall]. split_and!; try done; [eauto using Get_evicted|by split; [right|]|].
      intros _ k. destruct (Hent k) as [?|(l' & Hl' & Hex & _)]; [done|]. pose proof (Hall k l' Hl'). lia.
    + assert (Ek1 : dc_entries c1 !! key = None) by (destruct (Hent key) as [->|(? & ? & ? & ->)]; congruence).

      destruct Hok1 as [Hc Hb Hm].
      split_and!; try done.
      * constructor; simpl; rewrite ?map_size_insert_None by done; rewrite ?int64_id by (unfold_int; lia); lia.
      * intros k t Hk Ht. rewrite Hother by done. destruct c1. eauto using Get_evicted.
      * split; [done|]. intros [?|(_ & Hf)]; [lia|]. apply Hroom in Hf. lia.
Qed.

(** What a [Put] leaves in the cache: the new list under its key, and old entries. *)
Lemma Put_entries range key bids ttl now later c c2 ok k l :
  dynamic_cache_ok c -> any_entry_order range ->
  DynamicBidCache_Put range key bids ttl now later c = (c2, ok) ->
  dc_entries c2 !! k = Some l ->
  (k = key /\ l = mkDynamicBidList bids (UnixNano (time_Add now ttl))) \/ dc_entries c !! k = Some l.
Proof.
  intros Hok Hrg Hput Hl. unfold DynamicBidCache_Put in Hput.
  destruct (ttl <=? 0); [injection Hput as <- <-; auto|].
  assert (Hins : forall (m : gmap string dynamicBidList) v, <[key:=v]> m !! k = Some l ->
    (k = key /\ l = v) \/ m !! k = Some l).
  { intros m v. rewrite lookup_insert. case_decide; [intros [= <-]; auto|auto]. }
  destruct (dc_entries c !! key); [injection Hput as <- <-; apply Hins in Hl as [[-> ->]|?]; auto|].
  destruct (Put_room range later c Hok Hrg) as (_ & _ & Hent & _).
  assert (Hold : forall v, dc_entries (if dc_maxKeys c <=? dc_count c
      then evict_expired (UnixNano later) (range (dc_entries c)) c else c) !! k = Some v -> dc_entries c !! k = Some v).
  { intros v Hv. destruct (Hent k) as [He|(? & ? & ? & He)]; by rewrite He in Hv. }
  set (c1 := if dc_maxKeys c <=? dc_count c then _ else c) in *.
  destruct (dc_maxKeys c1 <=? dc_count c1); injection Hput as <- <-; [auto|]. simpl in Hl. apply Hins in Hl as [[-> ->]|?]; auto.
Qed.

(** ** Properties *)

(** C37: the dynamic cache is bounded and never drops a live entry. Whatever the
    order of Range, a Put keeps the count equal to the number of entries and within
    maxKeys; every other key reads the same at every later time; the key reads the
    new bids until now + ttl and nothing from then on; and Put refuses only for a
    non-positive ttl, or a new key when the cache is full of unexpired entries, and
    then changes nothing. *)
Theorem Put_bounded_and_live range key bids ttl now later c c2 ok :
  dynamic_cache_ok c -> any_entry_order range ->
  DynamicBidCache_Put range key bids ttl now later c = (c2, ok) ->
  dynamic_cache_ok c2 /\ dc_maxKeys c2 = dc_maxKeys c
  /\ (forall k t, k <> key -> UnixNano later <= UnixNano t -> DynamicBidCache_Get k t c2 = DynamicBidCache_Get k t c)
  /\ (ok = true -> forall t, DynamicBidCache_Get key t c2
        = if UnixNano (now + ttl) <=? UnixNano t then None else Some bids)
  /\ (ok = false <-> ttl <= 0 \/ (dc_entries c !! key = None /\ dc_maxKeys c <= dc_count c
        /\ forall k l, dc_entries c !! k = Some l -> UnixNano later < dl_expiresNS l))
  /\ (ok = false -> forall k, dc_entries c2 !! k = dc_entries c !! k).
Proof. apply Put_spec. Qed.

(** The sanitizer. Every bid it lets through is valid for an auction of the
    request's placement, at the open-market priority, with no deal and no revision,
    under an ID prefixed with its bidder; the results are the images of the DSP's
    bids in order; and the IDs of two valid bidders are never equal. *)
Theorem sanitize_sound bidderID request bids :
  Forall (sanitized bidderID (dsp_PlacementID request)) (sanitizeDynamicBids bidderID request bids)
  /\ sanitizeDynamicBids bidderID request bids = omap (sanitize_bid bidderID request) bids
  /\ (forall other request' bids' d d', validBidderID bidderID = true -> validBidderID other = true ->
        bidderID <> other -> d ∈ sanitizeDynamicBids bidderID request bids ->
        d' ∈ sanitizeDynamicBids other request' bids' -> bid_ID (dyn_Bid d) <> bid_ID (dyn_Bid d')).
Proof.
  split_and!; [apply sanitizeDynamicBids_ok|apply sanitizeDynamicBids_omap|].
  intros other request' bids' d d' Hi Hj Hne Hd Hd'.
  apply (sanitized_ids_apart bidderID other (dsp_PlacementID request) (dsp_PlacementID request')); try done;
    eapply Forall_elem; eauto using sanitizeDynamicBids_ok.
Qed.

(** Cache keys. Requests with the same key agree on placement, country, device
    and floor, provided the placement and country do not contain the separator
    byte; on the floor they agree in any case. The user ID is not part of the key. *)
Theorem cache_key_separates r r' :
  is_int64 (req_FloorMicros r) -> is_int64 (req_FloorMicros r') ->
  dynamicCacheKey r = dynamicCacheKey r' ->
  req_FloorMicros r = req_FloorMicros r'
  /\ (lacks "031" (req_PlacementID r) -> lacks "031" (req_PlacementID r') ->
      lacks "031" (req_Country r) -> lacks "031" (req_Country r') ->
      req_PlacementID r = req_PlacementID r' /\ req_Country r = req_Country r' /\ req_Device r = req_Device r').
Proof.
  intros Hf Hf' He. split; [by apply dynamicCacheKey_floor|]. intros.
  destruct (dynamicCacheKey_inj r r') as (? & ? & ? & _); done.
Qed.

Definition request_ab : AuctionRequest := mkAuctionRequest "a" "" (String.append "b" (String.String "031" "c")) "d" 0.
Definition request_abc : AuctionRequest := mkAuctionRequest (String.append "a" (String.String "031" "b")) "" "c" "d" 0.

(** The separator can be forged. Two valid auction requests for different
    placements can have the same cache key, so the bids a DSP returned for one
    placement are looked up for the other. *)
Theorem cache_key_collision :
  AuctionRequest_Validate request_ab = None /\ AuctionRequest_Validate request_abc = None
  /\ req_PlacementID request_ab <> req_PlacementID request_abc
  /\ dynamicCacheKey request_ab = dynamicCacheKey request_abc.
Proof. split_and!; [by vm_compute..|done|by vm_compute]. Qed.

(** ** Evaluations *)

(** A full cache of one key, live until 100. *)
Definition small_cache : DynamicBidCache := (DynamicBidCache_Put map_to_list "k" [] 100 0 0 (NewDynamicBidCache 1)).1.

Lemma new_cache_ok n : n <= MaxInt64 -> dynamic_cache_ok (NewDynamicBidCache n).
Proof.
  intros Hn. unfold NewDynamicBidCache. constructor; simpl; [done|..];
    destruct (Z.ltb_spec n 1); unfold_int; lia.
Qed.

Lemma map_entry_order : any_entry_order map_to_list.
Proof. by intros m. Qed.

Lemma small_cache_ok : dynamic_cache_ok small_cache.
Proof. constructor; [by vm_compute|by vm_compute|]. split; by vm_compute. Qed.

Definition put_live := DynamicBidCache_Put map_to_list "j" [] 50 99 99 small_cache.
Definition put_expired := DynamicBidCache_Put map_to_list "j" [] 50 100 100 small_cache.

Lemma Put_bounded_and_live_witness :
  put_live.2 = false /\ DynamicBidCache_Get "k" 99 put_live.1 = Some []
  /\ put_expired.2 = true /\ DynamicBidCache_Get "j" 149 put_expired.1 = Some [].
Proof.
  assert (Hf : put_live.2 = false) by (vm_compute; reflexivity).
  assert (Ht : put_expired.2 = true) by (vm_compute; reflexivity).
  split; [exact Hf|]. split; [vm_compute; reflexivity|]. split; [exact Ht|].
  destruct (Put_bounded_and_live map_to_list "j" [] 50 100 100 small_cache put_expired.1 put_expired.2
    small_cache_ok map_entry_order (surjective_pairing _)) as (_ & _ & _ & Hget & _).
  rewrite (Hget Ht 149). vm_compute. reflexivity.
Defined.

Definition request_x (floor : Z) : AuctionRequest := mkAuctionRequest "top" "user-1" "IN" "mobile" floor.
Definition request_y (floor : Z) : AuctionRequest := mkAuctionRequest "top" "user-2" "IN" "mobile" floor.

Lemma cache_key_separates_witness :
  dynamicCacheKey (request_x 5) = dynamicCacheKey (request_y 5) /\ req_Device (request_x 5) = req_Device (request_y 5).
Proof.
  assert (He : dynamicCacheKey (request_x 5) = dynamicCacheKey (request_y 5)) by (vm_compute; reflexivity).
  split; [exact He|].
  destruct (cache_key_separates (request_x 5) (request_y 5)) as [_ Hall];
    [split; vm_compute; discriminate..|exact He|].
  apply Hall; vm_compute; reflexivity.
Defined.
