(* ===== verification/JsonCodec.v ===== *)
(** * The JSON of the service's types

    How encoding/json fills a struct from a value (internal/ads/types.go,
    dynamic_bidding.go): fields are found by their exact name or else up to case,
    [null] leaves a field alone, a repeated field is filled again, and the elements of
    a slice that is filled again keep what the JSON does not set. Any mismatch is an
    error of the whole call. And what [json.Marshal] writes for each type. *)

From S2P Require Import Prelude GoInt GoString Types Ranking DynamicBids Utf8 Json JsonProps.
From Stdlib Require Import Ascii String.
Open Scope string_scope.
Open Scope list_scope.
Open Scope Z_scope.

(** ** Names of fields *)

(** The fold of a name: letters in upper case. Of the characters outside ASCII two
    fold to a letter: the long s (C5 BF) and the Kelvin sign (E2 84 AA). *)
Fixpoint fold_name (s : string) : string :=
  match s with
  | "" => ""
  | String c s1 =>
      let b := byte_val c in
      if in_range 97 122 b then String (byte_of_Z (b - 32)) (fold_name s1)
      else
        match s1 with
        | String c1 s2 =>
            if (b =? 197) && (byte_val c1 =? 191) then String "S" (fold_name s2)
            else
              match s2 with
              | String c2 s3 =>
                  if (b =? 226) && (byte_val c1 =? 132) && (byte_val c2 =? 170) then String "K" (fold_name s3)
                  else String c (fold_name s1)
              | "" => String c (fold_name s1)
              end
        | "" => String c (fold_name s1)
        end
  end.

Section structs.
Context {A : Type}.

(** A field: its name, and how a value is stored in it. *)
Definition field : Type := string * (json -> A -> option A).

Definition find_named (eqb : string -> string -> bool) (key : string) (fields : list field) : option (json -> A -> option A) :=
  snd <$> List.find (fun f => eqb key f.1) fields.

Definition find_field (key : string) (fields : list field) : option (json -> A -> option A) :=
  match find_named String.eqb key fields with
  | Some store => Some store
  | None => find_named (fun a b => String.eqb (fold_name a) (fold_name b)) key fields
  end.

(** [strict] is [DisallowUnknownFields]. *)
Fixpoint decode_members (fields : list field) (strict : bool) (members : list (string * json)) (a : A) : option A :=
  match members with
  | [] => Some a
  | (key, v) :: members =>
      match find_field key fields with
      | Some store => a ← store v a; decode_members fields strict members a
      | None => if strict then None else decode_members fields strict members a
      end
  end.

Definition decode_struct (fields : list field) (strict : bool) (v : json) (a : A) : option A :=
  match v with
  | JNull => Some a
  | JObject members => decode_members fields strict members a
  | _ => None
  end.

(** The field [get], stored by [set]. *)
Definition on {B} (get : A -> B) (set : A -> B -> A) (decode : json -> B -> option B) (v : json) (a : A) : option A :=
  x ← decode v (get a); Some (set a x).
End structs.

Arguments field A : clear implicits.

(** ** Fields of a basic type *)

Definition decode_string (v : json) (old : string) : option string :=
  match v with JNull => Some old | JString s => Some s | _ => None end.

Definition decode_int64 (v : json) (old : Z) : option Z :=
  match v with JNull => Some old | JNumber l => ParseInt l | _ => None end.

Definition decode_uint64 (v : json) (old : Z) : option Z :=
  match v with JNull => Some old | JNumber l => ParseUint l | _ => None end.

(** ** Slices *)

(** A slice: its elements, and those between its length and its capacity, up to
    zero values. *)
Record slice (A : Type) := mkSlice { sl_elems : list A; sl_spare : list A }.
Arguments mkSlice {A} _ _.
Arguments sl_elems {A} _.
Arguments sl_spare {A} _.

Definition nil_slice {A} : slice A := mkSlice [] [].

(** The elements are filled in place as far as the array reaches, then on [zero]. *)
Fixpoint decode_array {A} (decode : json -> A -> option A) (zero : A) (l : list json) (backing : list A) : option (slice A) :=
  match l with
  | [] => Some (mkSlice [] backing)
  | v :: l =>
      x ← decode v (default zero (head backing));
      s ← decode_array decode zero l (tail backing);
      Some (mkSlice (x :: sl_elems s) (sl_spare s))
  end.

Definition decode_slice {A} (decode : json -> A -> option A) (zero : A) (v : json) (old : slice A) : option (slice A) :=
  match v with
  | JNull | JArray [] => Some nil_slice
  | JArray l => decode_array decode zero l (sl_elems old ++ sl_spare old)
  | _ => None
  end.

(** ** Bid *)

(** A bid that is being filled. *)
Record bid_target := mkTarget { tg_bid : Bid; tg_countries : slice string; tg_devices : slice string }.

Definition zero_target : bid_target := mkTarget zero_Bid nil_slice nil_slice.

Definition filled_bid (t : bid_target) : Bid :=
  {| (tg_bid t) with bid_Countries := sl_elems (tg_countries t); bid_Devices := sl_elems (tg_devices t) |}.

Definition on_bid {B} (get : Bid -> B) (set : Bid -> B -> Bid) : (json -> B -> option B) -> json -> bid_target -> option bid_target :=
  on (fun t => get (tg_bid t)) (fun t x => {| t with tg_bid := set (tg_bid t) x |}).

Definition Bid_fields : list (field bid_target) :=
  [("id", on_bid bid_ID (fun b x => {| b with bid_ID := x |}) decode_string);
   ("revision", on_bid bid_Revision (fun b x => {| b with bid_Revision := x |}) decode_uint64);
   ("placement_id", on_bid bid_PlacementID (fun b x => {| b with bid_PlacementID := x |}) decode_string);
   ("campaign_id", on_bid bid_CampaignID (fun b x => {| b with bid_CampaignID := x |}) decode_string);
   ("creative_id", on_bid bid_CreativeID (fun b x => {| b with bid_CreativeID := x |}) decode_string);
   ("markup", on_bid bid_Markup (fun b x => {| b with bid_Markup := x |}) decode_string);
   ("click_url", on_bid bid_ClickURL (fun b x => {| b with bid_ClickURL := x |}) decode_string);
   ("price_micros", on_bid bid_PriceMicros (fun b x => {| b with bid_PriceMicros := x |}) decode_int64);
   ("floor_micros", on_bid bid_FloorMicros (fun b x => {| b with bid_FloorMicros := x |}) decode_int64);
   ("deal_id", on_bid bid_DealID (fun b x => {| b with bid_DealID := x |}) decode_string);
   ("priority", on_bid bid_Priority (fun b x => {| b with bid_Priority := x |}) decode_int64);
   ("pacing_bps", on_bid bid_PacingBPS (fun b x => {| b with bid_PacingBPS := x |}) decode_int64);
   ("countries", on tg_countries (fun t x => {| t with tg_countries := x |}) (decode_slice decode_string ""));
   ("devices", on tg_devices (fun t x => {| t with tg_devices := x |}) (decode_slice decode_string ""));
   ("active_from_unix", on_bid bid_ActiveFromUnix (fun b x => {| b with bid_ActiveFromUnix := x |}) decode_int64);
   ("active_to_unix", on_bid bid_ActiveToUnix (fun b x => {| b with bid_ActiveToUnix := x |}) decode_int64)].

Definition decode_target (strict : bool) (v : json) (t : bid_target) : option bid_target := decode_struct Bid_fields strict v t.

Definition decode_Bid_value (strict : bool) (v : json) : option Bid := filled_bid <$> decode_target strict v zero_target.

Definition jstring (s : string) : json := JString s.
Definition jint (z : Z) : json := JNumber (FormatInt z 10).
Definition juint (z : Z) : json := JNumber (FormatUint z 10).

(** A field with [omitempty]. *)
Definition omit (empty : bool) (key : string) (v : json) : list (string * json) := if empty then [] else [(key, v)].
Definition omit_int (key : string) (z : Z) := omit (z =? 0) key (jint z).
Definition omit_string (key s : string) := omit (String.eqb s "") key (jstring s).
Definition omit_strings (key : string) (l : list string) :=
  omit (match l with [] => true | _ => false end) key (JArray (jstring <$> l)).

Definition Bid_members (b : Bid) : list (string * json) :=
  [("id", jstring (bid_ID b)); ("revision", juint (bid_Revision b)); ("placement_id", jstring (bid_PlacementID b));
   ("campaign_id", jstring (bid_CampaignID b)); ("creative_id", jstring (bid_CreativeID b));
   ("markup", jstring (bid_Markup b)); ("click_url", jstring (bid_ClickURL b)); ("price_micros", jint (bid_PriceMicros b))]
  ++ omit_int "floor_micros" (bid_FloorMicros b) ++ omit_string "deal_id" (bid_DealID b)
  ++ omit_int "priority" (bid_Priority b) ++ omit_int "pacing_bps" (bid_PacingBPS b)
  ++ omit_strings "countries" (bid_Countries b) ++ omit_strings "devices" (bid_Devices b)
  ++ omit_int "active_from_unix" (bid_ActiveFromUnix b) ++ omit_int "active_to_unix" (bid_ActiveToUnix b).

Definition Bid_json (b : Bid) : json := JObject (Bid_members b).

(** [json.Marshal] and [json.Unmarshal] on bids, as the store calls them. *)
Definition Marshal_Bid (b : Bid) : string := print (Bid_json b).
Definition json_Unmarshal (payload : string) : option Bid := v ← whole_value payload; decode_Bid_value false v.

(** The writer fails on no bid. *)
Definition json_Marshal (b : Bid) : option string := Some (Marshal_Bid b).

(** ** Requests *)

Definition AuctionRequest_fields : list (field AuctionRequest) :=
  [("placement_id", on req_PlacementID (fun r x => {| r with req_PlacementID := x |}) decode_string);
   ("user_id", on req_UserID (fun r x => {| r with req_UserID := x |}) decode_string);
   ("country", on req_Country (fun r x => {| r with req_Country := x |}) decode_string);
   ("device", on req_Device (fun r x => {| r with req_Device := x |}) decode_string);
   ("floor_micros", on req_FloorMicros (fun r x => {| r with req_FloorMicros := x |}) decode_int64)].

(** [json.Decoder.Decode] with unknown fields disallowed: the value and the unread
    rest of the body. *)
Definition Decode_AuctionRequest (body : string) : option (AuctionRequest * string) :=
  '(v, rest) ← first_value body;
  r ← decode_struct AuctionRequest_fields true v zero_AuctionRequest;
  Some (r, rest).

Definition Decode_Bid (body : string) : option (Bid * string) :=
  '(v, rest) ← first_value body; b ← decode_Bid_value true v; Some (b, rest).

(** ** What is exchanged with a DSP *)

Definition DSPRequest_json (r : DSPRequest) : json :=
  JObject ([("placement_id", jstring (dsp_PlacementID r))]
    ++ omit_string "country" (dsp_Country r) ++ omit_string "device" (dsp_Device r)
    ++ omit_int "floor_micros" (dsp_FloorMicros r)).

Definition Marshal_DSPRequest (r : DSPRequest) : string := print (DSPRequest_json r).

(** The anonymous struct with the field [Bids]. *)
Definition answer_fields : list (field (slice bid_target)) :=
  [("bids", decode_slice (decode_target true) zero_target)].

Definition Decode_Bids (body : string) : option (list Bid * string) :=
  '(v, rest) ← first_value body;
  t ← decode_struct answer_fields true v nil_slice;
  Some (filled_bid <$> sl_elems t, rest).

(** ** Numbers *)

Lemma ParseInt_int64 s z : ParseInt s = Some z -> is_int64 z.
Proof.
  unfold ParseInt. destruct s as [|c s]; [done|]. destruct (ParseUint _) as [un|] eqn:Eu; [|done].
  pose proof (ParseUint_range _ _ Eu). destruct (Ascii.eqb c "-"); repeat (case_test; [done|]); intros [= <-]; bool_hyps; unfold_int; lia.
Qed.

Lemma ParseInt_FormatInt z : is_int64 z -> ParseInt (FormatInt z 10) = Some z.
Proof.
  intros Hz. assert (Hplain : forall n, is_uint64 n -> n <= MaxInt64 -> ParseInt (FormatUint n 10) = Some n).
  { intros n Hn Hm. pose proof (ParseUint_FormatUint n Hn) as Hp.
    destruct (scan_FormatUint n "" Hn I) as (t & Ht & Hne & Hd & _). rewrite Ht in Hp |- *. destruct t as [|c t]; [done|].
    cbn [string_forall] in Hd. apply andb_true_iff in Hd as [Hc _]. unfold ParseInt.
    replace (Ascii.eqb c "-") with false by (destruct (Ascii.eqb_spec c "-") as [->|]; done).
    replace (Ascii.eqb c "+") with false by (destruct (Ascii.eqb_spec c "+") as [->|]; done).
    cbn [orb negb andb]. rewrite Hp. by rewrite (proj2 (Z.ltb_ge _ _)) by lia. }
  unfold FormatInt. destruct (Z.ltb_spec z 0) as [Hneg|Hpos].
  - cbn [append]. unfold ParseInt. change (Ascii.eqb "-" "-") with true. cbn [orb negb andb].
    rewrite ParseUint_FormatUint by (unfold_int; lia). rewrite (proj2 (Z.ltb_ge _ _)) by (unfold_int; lia). f_equal. lia.
  - apply Hplain; unfold_int; lia.
Qed.

(** ** Structs, written and read *)

Section steps.
Context {A : Type} (fields : list (field A)) (strict : bool).

Lemma step_member key v store ms a b :
  find_field key fields = Some store -> store v a = Some b ->
  decode_members fields strict ((key, v) :: ms) a = decode_members fields strict ms b.
Proof. intros Hf Hs. cbn [decode_members]. rewrite Hf. cbn [mbind option_bind]. by rewrite Hs. Qed.

Lemma step_string key (get : A -> string) set s ms a :
  find_field key fields = Some (on get set decode_string) ->
  decode_members fields strict ((key, jstring s) :: ms) a = decode_members fields strict ms (set a s).
Proof. intros Hf. by eapply step_member. Qed.

Lemma step_int key (get : A -> Z) set z ms a :
  find_field key fields = Some (on get set decode_int64) -> is_int64 z ->
  decode_members fields strict ((key, jint z) :: ms) a = decode_members fields strict ms (set a z).
Proof. intros Hf Hz. eapply step_member; [done|]. unfold on. simpl. by rewrite ParseInt_FormatInt. Qed.

Lemma step_uint key (get : A -> Z) set z ms a :
  find_field key fields = Some (on get set decode_uint64) -> is_uint64 z ->
  decode_members fields strict ((key, juint z) :: ms) a = decode_members fields strict ms (set a z).
Proof. intros Hf Hz. eapply step_member; [done|]. unfold on. simpl. by rewrite ParseUint_FormatUint. Qed.

(** A field that is omitted keeps its zero value. *)
Lemma step_omit_string key (get : A -> string) set s ms a :
  find_field key fields = Some (on get set decode_string) -> set a "" = a ->
  decode_members fields strict (omit_string key s ++ ms) a = decode_members fields strict ms (set a s).
Proof.
  intros Hf Hz. unfold omit_string, omit. destruct (String.eqb_spec s "") as [->|]; [by rewrite Hz|]. by eapply step_string.
Qed.

Lemma step_omit_int key (get : A -> Z) set z ms a :
  find_field key fields = Some (on get set decode_int64) -> is_int64 z -> set a 0 = a ->
  decode_members fields strict (omit_int key z ++ ms) a = decode_members fields strict ms (set a z).
Proof.
  intros Hf Hz H0. unfold omit_int, omit. destruct (Z.eqb_spec z 0) as [->|]; [by rewrite H0|]. by eapply step_int.
Qed.

Lemma decode_strings l : decode_array decode_string "" (jstring <$> l) [] = Some (mkSlice l []).
Proof. induction l as [|s l IH]; [done|]. cbn [fmap list_fmap decode_array tail mbind option_bind]. fold (jstring <$> l). by rewrite IH. Qed.

Lemma step_omit_strings key (get : A -> slice string) set l ms a :
  find_field key fields = Some (on get set (decode_slice decode_string "")) -> get a = nil_slice -> set a nil_slice = a ->
  decode_members fields strict (omit_strings key l ++ ms) a = decode_members fields strict ms (set a (mkSlice l [])).
Proof.
  intros Hf Hg H0. unfold omit_strings, omit. destruct l as [|s l]; [unfold nil_slice in H0; by rewrite H0|].
  eapply step_member; [done|]. unfold on. rewrite Hg.
  change (decode_slice decode_string "" (JArray (jstring <$> s :: l)) nil_slice)
    with (decode_array decode_string "" (jstring <$> s :: l) []). by rewrite decode_strings.
Qed.
End steps.

(** A bid's strings. *)
Definition Bid_strings (b : Bid) : list string :=
  [bid_ID b; bid_PlacementID b; bid_CampaignID b; bid_CreativeID b; bid_Markup b; bid_ClickURL b; bid_DealID b]
  ++ bid_Countries b ++ bid_Devices b.

Definition Bid_utf8 (b : Bid) : Prop := Forall (fun s => valid_utf8 s = true) (Bid_strings b).

(** One field stored, and the target computed. *)
Tactic Notation "store_field" uconstr(lem) :=
  etrans; [eapply lem; [reflexivity|try done..]|];
  cbn [tg_bid tg_countries tg_devices bid_ID bid_Revision bid_PlacementID bid_CampaignID bid_CreativeID bid_Markup bid_ClickURL
       bid_PriceMicros bid_FloorMicros bid_DealID bid_Priority bid_PacingBPS bid_Countries bid_Devices bid_ActiveFromUnix
       bid_ActiveToUnix zero_target zero_Bid].

(** The target that decoding a bid leaves. *)
Definition target_of (b : Bid) : bid_target :=
  mkTarget {| b with bid_Countries := []; bid_Devices := [] |} (mkSlice (bid_Countries b) []) (mkSlice (bid_Devices b) []).

(** The members of a bid fill a zero one to the bid. *)
Lemma decode_Bid_members strict b : Bid_typed b ->
  decode_members Bid_fields strict (Bid_members b) zero_target
  = Some (target_of b).
Proof.
  intros [? ? ? ? ? ? ?]. unfold Bid_members. cbn [app].
  store_field step_string. store_field step_uint. do 5 store_field step_string. store_field step_int.
  store_field step_omit_int. store_field step_omit_string. do 2 store_field step_omit_int.
  do 2 store_field step_omit_strings. store_field step_omit_int.
  rewrite <- (app_nil_r (omit_int "active_to_unix" _)). store_field step_omit_int. done.
Qed.

Lemma decode_Bid_json strict b : Bid_typed b -> decode_Bid_value strict (Bid_json b) = Some b.
Proof.
  intros Hb. unfold decode_Bid_value, decode_target. cbn [Bid_json decode_struct]. rewrite decode_Bid_members by done. by destruct b.
Qed.

(** ** Round trips *)

Lemma printable_object depth l :
  printable depth (JObject l) <-> depth + 1 <= maxNestingDepth /\ Forall (fun m => printable (depth + 1) m.2) l.
Proof.
  simpl. apply and_iff_compat_l. induction l as [|m l IH]; simpl; [by split|]. by rewrite IH, Forall_cons.
Qed.

Lemma printable_array depth l :
  printable depth (JArray l) <-> depth + 1 <= maxNestingDepth /\ Forall (printable (depth + 1)) l.
Proof.
  simpl. apply and_iff_compat_l. induction l as [|m l IH]; simpl; [by split|]. by rewrite IH, Forall_cons.
Qed.

Lemma whole_value_print v : printable 0 v -> strings_ok v -> whole_value (print v) = Some v.
Proof.
  intros Hp Hs. unfold whole_value, first_value, parse_fuel.
  pose proof (parse_print v (2 * String.length (print v) + 2)%nat 0 "" Hp I) as H. rewrite string_app_empty_r in H.
  rewrite H by lia. cbn [mbind option_bind]. by rewrite clean_id.
Qed.

(** A member that is printed and comes back as it is. *)
Definition plain_member (depth : Z) (m : string * json) : Prop :=
  printable depth m.2 /\ valid_utf8 m.1 = true /\ strings_ok m.2.

Lemma plain_object depth l : depth + 1 <= maxNestingDepth -> Forall (plain_member (depth + 1)) l ->
  printable depth (JObject l) /\ strings_ok (JObject l).
Proof.
  intros Hd Hl. rewrite printable_object, strings_ok_object. split_and!; [done|..];
    (eapply Forall_impl; [exact Hl|]); by intros m (? & ? & ?).
Qed.

Section plain.
Context (depth : Z) (key : string) (Hkey : valid_utf8 key = true).

Lemma plain_string s : valid_utf8 s = true -> plain_member depth (key, jstring s).
Proof. done. Qed.

Lemma plain_int z : is_int64 z -> plain_member depth (key, jint z).
Proof. intros Hz. split_and!; [left; eauto|done..]. Qed.

Lemma plain_uint z : is_uint64 z -> plain_member depth (key, juint z).
Proof. intros Hz. split_and!; [right; eauto|done..]. Qed.

Lemma plain_omit empty v : plain_member depth (key, v) -> Forall (plain_member depth) (omit empty key v).
Proof. unfold omit. destruct empty; by constructor. Qed.

Lemma plain_strings l : depth + 1 <= maxNestingDepth -> Forall (fun s => valid_utf8 s = true) l ->
  plain_member depth (key, JArray (jstring <$> l)).
Proof.
  intros Hd Hl. split_and!; [|done|]; cbn [snd]; rewrite ?printable_array, ?strings_ok_array; [split; [done|]|];
    rewrite Forall_fmap; by (eapply Forall_impl; [exact Hl|]).
Qed.
End plain.

(** The members of a struct, one by one. *)
Ltac plain_members :=
  unfold omit_int, omit_string, omit_strings;
  repeat first [apply Forall_app_2 | apply Forall_cons_2 | apply Forall_nil_2 | apply plain_omit];
  first [apply plain_string | apply plain_int | apply plain_uint | apply plain_strings]; (reflexivity || lia || assumption).

Lemma Bid_plain depth b : depth + 2 <= maxNestingDepth -> Bid_utf8 b -> Bid_typed b ->
  printable depth (Bid_json b) /\ strings_ok (Bid_json b).
Proof.
  intros Hd Hu [? ? ? ? ? ? ?]. unfold Bid_utf8, Bid_strings in Hu. rewrite !Forall_app, !Forall_cons in Hu.
  destruct Hu as ((? & ? & ? & ? & ? & ? & ? & _) & ? & ?).
  apply plain_object; [lia|]. unfold Bid_members. plain_members.
Qed.

Lemma read_written b : Bid_utf8 b -> Bid_typed b -> json_Unmarshal (Marshal_Bid b) = Some b.
Proof.
  intros Hu Hb. destruct (Bid_plain 0 b) as [Hp Hs]; [done..|]. unfold json_Unmarshal, Marshal_Bid.
  rewrite whole_value_print by done. by apply decode_Bid_json.
Qed.

Lemma Marshal_total b : exists payload, json_Marshal b = Some payload.
Proof. by eexists. Qed.

Lemma Unmarshal_Marshal b payload : Bid_utf8 b -> Bid_typed b -> json_Marshal b = Some payload -> json_Unmarshal payload = Some b.
Proof. intros Hu Hb [= <-]. by apply read_written. Qed.

Lemma Bid_Normalize_utf8 b : Bid_utf8 b -> Bid_utf8 (Bid_Normalize b).
Proof. unfold Bid_Normalize. by destruct (bid_PacingBPS b =? 0). Qed.

(** ** What is decoded *)

Lemma find_field_In {A} key (fields : list (field A)) store : find_field key fields = Some store -> exists name, In (name, store) fields.
Proof.
  assert (Hnamed : forall eqb, find_named eqb key fields = Some store -> exists name, In (name, store) fields).
  { intros eqb. unfold find_named. destruct (List.find (fun f => eqb key f.1) fields) as [[name st]|] eqn:E; [|done].
    intros [= <-]. exists name. by apply find_some in E as [? _]. }
  unfold find_field. destruct (find_named String.eqb key fields) as [st|] eqn:E; [|apply Hnamed].
  intros [= ->]. by apply (Hnamed String.eqb).
Qed.

(** What every field keeps, a struct keeps. *)
Lemma decode_struct_inv {A} (fields : list (field A)) strict (P : A -> Prop) v a b :
  Forall (fun f => forall v a b, strings_ok v -> P a -> f.2 v a = Some b -> P b) fields ->
  strings_ok v -> P a -> decode_struct fields strict v a = Some b -> P b.
Proof.
  intros Hf Hv Ha Hd. unfold decode_struct in Hd. destruct v as [| | | | |ms]; try done; [by injection Hd as <-|].
  apply strings_ok_object in Hv. revert a Ha Hd. induction Hv as [|[key v] ms [_ Hv] _ IH]; intros a Ha Hd; [by injection Hd as <-|].
  cbn [decode_members] in Hd. destruct (find_field key fields) as [store|] eqn:Ef; [|destruct strict; [done|by eapply IH]].
  binds. eapply IH; [|exact Hd]. apply find_field_In in Ef as [name Hin]. rewrite Forall_forall in Hf.
  apply list_elem_of_In in Hin. by apply (Hf _ Hin v a).
Qed.

Lemma decode_string_valid v old s : strings_ok v -> valid_utf8 old = true -> decode_string v old = Some s -> valid_utf8 s = true.
Proof. destruct v; simpl; intros ? ? [= <-]; done. Qed.

Lemma decode_int64_range v old z : is_int64 old -> decode_int64 v old = Some z -> is_int64 z.
Proof. destruct v; simpl; try done; [by intros ? [= <-]|]. intros _. apply ParseInt_int64. Qed.

Lemma decode_uint64_range v old z : is_uint64 old -> decode_uint64 v old = Some z -> is_uint64 z.
Proof. destruct v; simpl; try done; [by intros ? [= <-]|]. intros _. apply ParseUint_range. Qed.

Definition slice_all {A} (P : A -> Prop) (s : slice A) : Prop := Forall P (sl_elems s) /\ Forall P (sl_spare s).

Lemma decode_slice_all {A} (decode : json -> A -> option A) zero (P : A -> Prop) v old s :
  P zero -> (forall v a b, strings_ok v -> P a -> decode v a = Some b -> P b) ->
  strings_ok v -> slice_all P old -> decode_slice decode zero v old = Some s -> slice_all P s.
Proof.
  intros Hz Hd Hv [He Hs] Hr.
  assert (Hall : forall l backing s, Forall strings_ok l -> Forall P backing -> decode_array decode zero l backing = Some s -> slice_all P s).
  { clear - Hz Hd. induction l as [|v l IH]; intros backing s Hl Hb H; cbn [decode_array] in H; [injection H as <-; by split|].
    apply Forall_cons in Hl as [Hv Hl]. apply bind_Some in H as (x & Hx & H). apply bind_Some in H as (s2 & Hs2 & H).
    injection H as <-. assert (Ht : Forall P (tail backing) /\ P (default zero (head backing))).
    { destruct Hb; by split. }
    destruct (IH _ _ Hl (proj1 Ht) Hs2) as [? ?]. split; [constructor|]; try done. exact (Hd v _ _ Hv (proj2 Ht) Hx). }
  destruct v as [| | | |l|]; try done; cbn [decode_slice] in Hr; [injection Hr as <-; by split|]. apply strings_ok_array in Hv.
  destruct l as [|v l]; [injection Hr as <-; by split|]. apply (Hall _ _ _ Hv) in Hr; [done|by apply Forall_app_2].
Qed.

(** A bid in the range of its type, made of valid strings. *)
Definition Bid_sound (b : Bid) : Prop := Bid_typed b /\ Bid_utf8 b.

Definition target_ok (t : bid_target) : Prop :=
  Bid_sound (tg_bid t) /\ slice_all (fun s => valid_utf8 s = true) (tg_countries t)
  /\ slice_all (fun s => valid_utf8 s = true) (tg_devices t).

Lemma zero_target_ok : target_ok zero_target.
Proof. split_and!; repeat constructor; unfold_int; simpl; lia. Qed.

Lemma filled_sound t : target_ok t -> Bid_sound (filled_bid t).
Proof.
  intros [[[] Hu] [[Hc _] [Hd _]]]. split; [by constructor|]. unfold Bid_utf8, Bid_strings in *.
  apply Forall_app in Hu as [Hu _]. by repeat apply Forall_app_2.
Qed.

Lemma decode_target_ok strict v t t2 : strings_ok v -> target_ok t -> decode_target strict v t = Some t2 -> target_ok t2.
Proof.
  intros Hv Ht. apply decode_struct_inv; [|done..]. clear.
  unfold Bid_fields. repeat apply Forall_cons_2; [..|apply Forall_nil_2]; intros v [b cs ds] t2 Hv [[Hb Hu] [Hc Hd]]; unfold on_bid, on;
    cbn [snd tg_bid tg_countries tg_devices]; intros (x & Hx & [= <-])%bind_Some.
  13, 14: split_and!; try done; cbn [tg_countries tg_devices];
    (eapply (decode_slice_all decode_string "" _ v); [done|apply decode_string_valid|done| |exact Hx]; done).
  all: split_and!; try done; cbn [tg_bid];
    destruct Hb; unfold Bid_utf8, Bid_strings in *; rewrite Forall_app, !Forall_cons in Hu;
    destruct Hu as ((? & ? & ? & ? & ? & ? & ? & _) & ?);
    (split; [constructor|apply Forall_app_2; [repeat apply Forall_cons_2; [..|apply Forall_nil_2]|]]); try done;
    first [apply (decode_string_valid _ _ _ Hv) in Hx | apply decode_int64_range in Hx | apply decode_uint64_range in Hx]; done.
Qed.

Lemma decode_Bid_value_sound strict v b : strings_ok v -> decode_Bid_value strict v = Some b -> Bid_sound b.
Proof.
  intros Hv (t & Ht & ->)%fmap_Some. eapply filled_sound, decode_target_ok; [exact Hv|exact zero_target_ok|exact Ht].
Qed.

Lemma Decode_Bid_sound body b rest : Decode_Bid body = Some (b, rest) -> Bid_sound b.
Proof. unfold Decode_Bid. intros H. binds. injection H as <- <-. eapply decode_Bid_value_sound; [by eapply first_value_strings|done]. Qed.

Lemma decoded_sound text b rest : Decode_Bid text = Some (b, rest) -> Bid_sound (Bid_Normalize b).
Proof. intros [? ?]%Decode_Bid_sound. split; [by apply Bid_Normalize_typed|by apply Bid_Normalize_utf8]. Qed.

Lemma json_Unmarshal_sound payload b : json_Unmarshal payload = Some b -> Bid_sound b.
Proof.
  unfold json_Unmarshal, whole_value. intros H. binds. case_test; [|done]. injection Er as <-.
  eapply decode_Bid_value_sound; [by eapply first_value_strings|done].
Qed.

Lemma Decode_AuctionRequest_int64 body r rest : Decode_AuctionRequest body = Some (r, rest) -> is_int64 (req_FloorMicros r).
Proof.
  unfold Decode_AuctionRequest. intros H. binds. injection H as <- <-.
  eapply (decode_struct_inv _ _ (fun r => is_int64 (req_FloorMicros r)) _ zero_AuctionRequest); [|by eapply first_value_strings|vm_compute; by split|exact Er0].
  unfold AuctionRequest_fields. repeat apply Forall_cons_2; [..|apply Forall_nil_2]; intros v r r2 Hv Hr; unfold on;
    cbn [snd]; intros (y & Hy & [= <-])%bind_Some; try done. by apply decode_int64_range in Hy.
Qed.

Lemma Decode_Bids_sound body bids rest : Decode_Bids body = Some (bids, rest) -> Forall Bid_sound bids.
Proof.
  unfold Decode_Bids. intros H. binds. injection H as <- <-.
  assert (Hall : slice_all target_ok x).
  { eapply (decode_struct_inv _ _ (slice_all target_ok) _ nil_slice); [|by eapply first_value_strings|by split|exact Er0].
    unfold answer_fields. apply Forall_cons_2; [|apply Forall_nil_2]. intros v a b Hv Ha Hd.
    eapply (decode_slice_all (decode_target true) zero_target _ v); [exact zero_target_ok| |done|exact Ha|exact Hd].
    apply decode_target_ok. }
  rewrite Forall_fmap. destruct Hall as [Hall _]. eapply Forall_impl; [exact Hall|]. apply filled_sound.
Qed.

(** ** Between a client or a DSP and the service *)

Lemma first_value_print v rest : printable 0 v -> strings_ok v -> ends_number rest ->
  first_value (print v +:+ rest) = Some (v, rest).
Proof.
  intros Hp Hs He. unfold first_value, parse_fuel. rewrite parse_print by (done || lia). by rewrite clean_id.
Qed.

Lemma Decode_Bid_Marshal b rest : Bid_sound b -> ends_number rest -> Decode_Bid (Marshal_Bid b +:+ rest) = Some (b, rest).
Proof.
  intros [Hb Hu] He. destruct (Bid_plain 0 b) as [Hp Hs]; [done..|]. unfold Decode_Bid, Marshal_Bid.
  rewrite first_value_print by done. cbn [mbind option_bind]. by rewrite decode_Bid_json.
Qed.

(** The answer of a DSP that writes its bids as this service does. *)
Definition Bids_json (bids : list Bid) : json := JObject [("bids", JArray (Bid_json <$> bids))].

Lemma decode_targets bids : Forall Bid_typed bids ->
  decode_array (decode_target true) zero_target (Bid_json <$> bids) [] = Some (mkSlice (target_of <$> bids) []).
Proof.
  induction 1 as [|b bids Hb _ IH]; [done|]. cbn [fmap list_fmap decode_array head tail].
  assert (Hone : decode_target true (Bid_json b) (default zero_target None) = Some (target_of b)) by (by apply decode_Bid_members).
  rewrite Hone. cbn [mbind option_bind]. fold (Bid_json <$> bids). by rewrite IH.
Qed.

Lemma Decode_Bids_print bids rest : Forall Bid_sound bids -> ends_number rest ->
  Decode_Bids (print (Bids_json bids) +:+ rest) = Some (bids, rest).
Proof.
  intros Hb He. assert (Hplain : printable 0 (Bids_json bids) /\ strings_ok (Bids_json bids)).
  { apply plain_object; [done|]. apply Forall_cons_2; [|apply Forall_nil_2]. split_and!; [|done|]; cbn [snd].
    - apply printable_array. split; [done|]. rewrite Forall_fmap. eapply Forall_impl; [exact Hb|]. intros b [? ?]. by apply Bid_plain.
    - apply strings_ok_array. rewrite Forall_fmap. eapply Forall_impl; [exact Hb|]. intros b [? ?]. by apply (Bid_plain 0). }
  destruct Hplain as [Hp Hs]. unfold Decode_Bids. rewrite first_value_print by done. cbn [mbind option_bind Bids_json decode_struct].
  rewrite (step_member _ _ "bids" _ (decode_slice (decode_target true) zero_target) [] nil_slice (mkSlice (target_of <$> bids) [])).
  3: { rewrite <- decode_targets by (eapply Forall_impl; [exact Hb|]; by intros ? [? _]). by destruct bids. }
  2: done.
  cbn [decode_members mbind option_bind sl_elems]. rewrite <- list_fmap_compose. do 2 f_equal.
  etrans; [|apply list_fmap_id]. apply list_fmap_ext. intros _ b _. by destruct b.
Qed.

Lemma ws_ends_number rest : string_forall is_ws rest = true -> ends_number rest.
Proof.
  destruct rest as [|c rest]; [done|]. cbn [string_forall ends_number]. intros [Hc _]%andb_true_iff. revert Hc.
  destruct c as [[] [] [] [] [] [] [] []]; vm_compute; intros Hc; (discriminate Hc || by split_and!).
Qed.

Lemma json_Unmarshal_written b rest : Bid_sound b -> string_forall is_ws rest = true -> json_Unmarshal (Marshal_Bid b +:+ rest) = Some b.
Proof.
  intros [Hb Hu] Hw. destruct (Bid_plain 0 b) as [Hp Hs]; [done..|]. unfold json_Unmarshal, whole_value, Marshal_Bid.
  rewrite first_value_print by (done || by apply ws_ends_number). cbn [mbind option_bind]. rewrite Hw. by apply decode_Bid_json.
Qed.

Lemma written_inj b b2 : Bid_typed b -> Bid_utf8 b -> Bid_typed b2 -> Bid_utf8 b2 -> json_Marshal b = json_Marshal b2 -> b = b2.
Proof.
  intros Hb Hu Hb2 Hu2 Hm. destruct (Marshal_total b) as [payload Hp]. rewrite Hp in Hm.
  pose proof (Unmarshal_Marshal b payload Hu Hb Hp). pose proof (Unmarshal_Marshal b2 payload Hu2 Hb2 (eq_sym Hm)). congruence.
Qed.

(** ** Properties *)

(** C18: bids as JSON. A bid whose strings are UTF-8 and whose numbers are in range is
    read back from its text exactly: by the store, with any white space after it; by
    the handlers and by a DSP's answer, which leave the rest unread. Two such bids
    have the same text only if they are equal, so the store's comparison of payloads
    is a comparison of bids. *)
Theorem bid_json_roundtrip b bids rest :
  Bid_sound b -> Forall Bid_sound bids -> string_forall is_ws rest = true ->
  json_Unmarshal (Marshal_Bid b +:+ rest) = Some b
  /\ Decode_Bid (Marshal_Bid b +:+ rest) = Some (b, rest)
  /\ Decode_Bids (print (Bids_json bids) +:+ rest) = Some (bids, rest)
  /\ (forall b2, Bid_sound b2 -> json_Marshal b2 = json_Marshal b <-> b2 = b).
Proof.
  intros Hb Hbs Hw. pose proof (ws_ends_number _ Hw) as He.
  split_and!; [by apply json_Unmarshal_written|by apply Decode_Bid_Marshal|by apply Decode_Bids_print|].
  intros b2 [Hb2 Hu2]. split; [|by intros ->]. intros Hm. apply (written_inj b2 b Hb2 Hu2); [apply Hb..|exact Hm].
Qed.

(** C19: whatever text is decoded, as a payload of the registry, the body of an upsert
    or the answer of a DSP, the bids it gives have numbers in the ranges of their
    fields and strings that are UTF-8 (so that they can be written and read back,
    normalised or not), and the floor of an auction request is an int64. *)
Theorem decoded_bids_sound text :
  (forall b, json_Unmarshal text = Some b -> Bid_sound b)
  /\ (forall b rest, Decode_Bid text = Some (b, rest) -> Bid_sound b /\ json_Unmarshal (Marshal_Bid (Bid_Normalize b)) = Some (Bid_Normalize b))
  /\ (forall bids rest, Decode_Bids text = Some (bids, rest) -> Forall Bid_sound bids)
  /\ (forall r rest, Decode_AuctionRequest text = Some (r, rest) -> is_int64 (req_FloorMicros r)).
Proof.
  split_and!.
  - intros b. apply json_Unmarshal_sound.
  - intros b rest Hd. split; [by eapply Decode_Bid_sound|]. destruct (decoded_sound _ _ _ Hd). by apply read_written.
  - intros bids rest. apply Decode_Bids_sound.
  - intros r rest. apply Decode_AuctionRequest_int64.
Qed.

(** ** Evaluations *)

(** JSON written with single quotes. *)
Fixpoint json_text (s : string) : string :=
  match s with
  | String c s => String (if Ascii.eqb c "'" then dquote else c) (json_text s)
  | "" => ""
  end.

Definition request_text : string :=
  json_text " {'placement_id': 'top', 'COUNTRY' : 'IN', 'device':'mobile'}
".

Example request_decoded :
  Decode_AuctionRequest request_text = Some (mkAuctionRequest "top" "" "IN" "mobile" 0, String "010" "").
Proof. vm_compute. reflexivity. Qed.

Example unknown_field_refused : Decode_AuctionRequest (json_text "{'placement_id':'top','x':1}") = None.
Proof. vm_compute. reflexivity. Qed.

(** The store accepts unknown fields, a repeated field counts once, null changes
    nothing, and what follows must be white space. *)
Example payload_read :
  json_Unmarshal (json_text "{'id':'a','id':'b','x':[{}, 1e5],'priority':null,'countries':['IN',null]} ")
  = Some {| zero_Bid with bid_ID := "b"; bid_Countries := ["IN"; ""] |}
  /\ json_Unmarshal (json_text "{'id':'a'} x") = None.
Proof. vm_compute. by split. Qed.

(** The elements of an array that is given again keep what they had. *)
Example array_refilled :
  Decode_Bids (json_text "{'bids':[{'id':'a','price_micros':7},{'id':'b'}],'bids':[{'id':'c'}]}")
  = Some ([{| zero_Bid with bid_ID := "c"; bid_PriceMicros := 7 |}], "").
Proof. vm_compute. reflexivity. Qed.

Example number_too_large :
  Decode_Bid (json_text "{'price_micros':9223372036854775808}") = None
  /\ Decode_Bid (json_text "{'price_micros':1.5}") = None
  /\ Decode_Bid (json_text "{'price_micros':01}") = None
  /\ Decode_Bid (json_text "{'revision':-1}") = None
  /\ Decode_Bid (json_text "{'revision':18446744073709551615}") = Some ({| zero_Bid with bid_Revision := MaxUint64 |}, "").
Proof. vm_compute. by split_and!. Qed.

(** Escapes: HTML's characters are written as escapes, a pair of surrogates is one
    rune, and a lone one is replaced. *)
Example string_escapes :
  quote "<a&b>" = json_text "'\u003ca\u0026b\u003e'"
  /\ parse_string (json_text "\ud83d\ude00\ud83d\n'") = Some (encode_runes [128512; 65533; 10], "")
  /\ parse_string (json_text "\x'") = None
  /\ quote (String "010" (String "255" "")) = json_text "'\n\ufffd'".
Proof. vm_compute. by split_and!. Qed.

Example bid_written :
  Marshal_Bid {| zero_Bid with bid_ID := "a"; bid_PriceMicros := -5; bid_Countries := ["IN"] |}
  = json_text "{'id':'a','revision':0,'placement_id':'','campaign_id':'','creative_id':'','markup':'','click_url':'','price_micros':-5,'countries':['IN']}".
Proof. vm_compute. reflexivity. Qed.

Definition odd_bid : Bid :=
  {| zero_Bid with bid_ID := "<&>"; bid_Revision := MaxUint64; bid_PriceMicros := MinInt64; bid_Markup := encode_runes [8232; 34; 0; 128512];
     bid_Countries := [""; "IN"] |}.

Lemma bid_json_roundtrip_witness :
  json_Unmarshal (Marshal_Bid odd_bid +:+ " ") = Some odd_bid
  /\ Decode_Bids (print (Bids_json [odd_bid; odd_bid]) +:+ " ") = Some ([odd_bid; odd_bid], " ").
Proof.
  assert (Hb : Bid_sound odd_bid).
  { split; [split; by vm_compute|]. repeat (apply Forall_cons_2; [by vm_compute|]). by apply Forall_nil_2. }
  destruct (bid_json_roundtrip odd_bid [odd_bid; odd_bid] " " Hb ltac:(by repeat constructor) eq_refl) as (H1 & _ & H3 & _).
  split; [exact H1|exact H3].
Defined.

Lemma decoded_bids_sound_witness : Bid_sound odd_bid.
Proof. apply (proj1 (decoded_bids_sound (Marshal_Bid odd_bid))). vm_compute. reflexivity. Defined.
