(* ===== verification/Breaker.v ===== *)
(** * The circuit breaker of a bidder (internal/ads/dynamic_bidding.go)

    A mutex makes each operation atomic, so a breaker's life is a sequence of calls
    of [Allow], [Success] and [Failure] with the times the callers read. *)

From S2P Require Import Prelude GoInt GoTime.
Open Scope list_scope.
Open Scope Z_scope.
Open Scope go_scope.

(** ** The code *)

Record circuitBreaker := mkBreaker {
  cb_failures : Z;
  cb_openUntil : Time;
  cb_probeInFlight : bool;
  cb_threshold : Z;
  cb_openFor : Duration
}.

Definition newCircuitBreaker (threshold : Z) (openFor : Duration) : circuitBreaker :=
  let threshold := if threshold <? 1 then 3 else threshold in
  let openFor := if openFor <=? 0 then 5 *i Second else openFor in
  mkBreaker 0 zero_time false threshold openFor.

Definition Allow (now : Time) (c : circuitBreaker) : circuitBreaker * bool :=
  if IsZero (cb_openUntil c) then (c, true)
  else if Before now (cb_openUntil c) then (c, false)
  else if cb_probeInFlight c then (c, false)
  else ({| c with cb_probeInFlight := true |}, true).

Definition Success (c : circuitBreaker) : circuitBreaker :=
  {| c with cb_failures := 0; cb_openUntil := zero_time; cb_probeInFlight := false |}.

Definition Failure (now : Time) (c : circuitBreaker) : circuitBreaker :=
  let c := {| c with cb_probeInFlight := false |} in
  let c := {| c with cb_failures := cb_failures c +i 1 |} in
  if cb_threshold c <=? cb_failures c then {| c with cb_openUntil := time_Add now (cb_openFor c) |} else c.

(** ** Histories *)

Inductive breaker_event := BAllow (now : Time) | BSuccess | BFailure (now : Time).

Definition breaker_step (c : circuitBreaker) (ev : breaker_event) : circuitBreaker :=
  match ev with
  | BAllow now => (Allow now c).1
  | BSuccess => Success c
  | BFailure now => Failure now c
  end.

Definition breaker_run (evs : list breaker_event) (c : circuitBreaker) : circuitBreaker := fold_left breaker_step evs c.

(** The failures since the last success, and the time of the last failure. *)
Fixpoint streak (n : Z) (evs : list breaker_event) : Z :=
  match evs with
  | [] => n
  | BAllow _ :: evs => streak n evs
  | BSuccess :: evs => streak 0 evs
  | BFailure _ :: evs => streak (n + 1) evs
  end.

Fixpoint last_failure (t : Time) (evs : list breaker_event) : Time :=
  match evs with
  | [] => t
  | BFailure now :: evs => last_failure now evs
  | _ :: evs => last_failure t evs
  end.

(** The calls made since the last recorded outcome. *)
Fixpoint calls_since_outcome (calls : list Time) (evs : list breaker_event) : list Time :=
  match evs with
  | [] => calls
  | BAllow now :: evs => calls_since_outcome (calls ++ [now]) evs
  | BSuccess :: evs | BFailure _ :: evs => calls_since_outcome [] evs
  end.

(** Times since 1970: later than the zero Time. *)
Definition modern (ev : breaker_event) : Prop :=
  match ev with BAllow now | BFailure now => 0 <= now | BSuccess => True end.

Lemma streak_bound evs n : 0 <= n -> 0 <= streak n evs <= n + Z.of_nat (length evs).
Proof.
  revert n. induction evs as [|[t| |t] evs IH]; intros n Hn; simpl; [lia|..].
  - specialize (IH n Hn). lia.
  - specialize (IH 0 ltac:(lia)). lia.
  - specialize (IH (n + 1) ltac:(lia)). lia.
Qed.

(** What the fields of a breaker say about its history. *)
Record breaker_tracks (c : circuitBreaker) (calls : list Time) (n : Z) (last : Time) : Prop := {
  bt_failures : cb_failures c = n;
  bt_threshold : 1 <= cb_threshold c;
  bt_openFor : 0 < cb_openFor c;
  bt_closed : n < cb_threshold c -> cb_openUntil c = zero_time /\ cb_probeInFlight c = false;
  bt_open : cb_threshold c <= n -> cb_openUntil c = last + cb_openFor c /\ 0 <= last
    /\ (cb_probeInFlight c = false <-> Forall (fun t => t < last + cb_openFor c) calls)
}.

Lemma new_breaker_tracks threshold openFor : breaker_tracks (newCircuitBreaker threshold openFor) [] 0 0.
Proof.
  unfold newCircuitBreaker.
  constructor; simpl; try done; try lia; destruct (Z.ltb_spec threshold 1), (Z.leb_spec openFor 0); try lia; done.
Qed.

Lemma open_not_zero last openFor : 0 <= last -> 0 < openFor -> IsZero (last + openFor) = false.
Proof. intros. unfold IsZero. apply Z.eqb_neq. unfold zero_time, Second. lia. Qed.

Lemma breaker_step_tracks c calls n last ev :
  breaker_tracks c calls n last -> 0 <= n < MaxInt64 -> modern ev ->
  breaker_tracks (breaker_step c ev) (calls_since_outcome calls [ev]) (streak n [ev]) (last_failure last [ev])
  /\ cb_threshold (breaker_step c ev) = cb_threshold c /\ cb_openFor (breaker_step c ev) = cb_openFor c.
Proof.
  intros Hb Hn Hm. pose proof Hb as [Hf Ht Ho Hc Hop]. destruct ev as [now| |now]; simpl.
  - unfold Allow. destruct (Z_lt_le_dec n (cb_threshold c)) as [Hlt|Hge].
    + destruct (Hc Hlt) as [-> _]. simpl. split_and!; [|done..]. constructor; simpl; try done. lia.
    + destruct (Hop Hge) as (Hu & Hl & Hp). rewrite Hu, open_not_zero by done. unfold Before.
      destruct (Z.ltb_spec now (last + cb_openFor c)); [|destruct (cb_probeInFlight c) eqn:Ep]; simpl;
        (split_and!; [|done..]); constructor; simpl; try done; try lia; intros _; split_and!; try done;
        rewrite Forall_app, Forall_singleton, <- ?Hp, ?Ep; intuition (done || lia).
  - split_and!; [|done..]. constructor; simpl; try done. lia.
  - unfold Failure. cbn [cb_failures cb_threshold cb_openFor cb_openUntil cb_probeInFlight].
    rewrite Hf, int64_id by (unfold_int; lia).
    destruct (Z.leb_spec (cb_threshold c) (n + 1)) as [Hge|Hlt]; (split_and!; [|done..]);
      constructor; simpl; try done; auto with lia; intros; split_and!; try done; lia.
Qed.

Lemma breaker_run_tracks evs c calls n last :
  breaker_tracks c calls n last -> 0 <= n -> n + Z.of_nat (length evs) <= MaxInt64 -> Forall modern evs ->
  breaker_tracks (breaker_run evs c) (calls_since_outcome calls evs) (streak n evs) (last_failure last evs)
  /\ cb_threshold (breaker_run evs c) = cb_threshold c /\ cb_openFor (breaker_run evs c) = cb_openFor c.
Proof.
  revert c calls n last. induction evs as [|ev evs IH]; intros c calls n last Hc Hn Hlen Hm; [done|].
  apply Forall_cons in Hm as [Hev Hm]. simpl length in Hlen.
  destruct (breaker_step_tracks c calls n last ev Hc ltac:(lia) Hev) as (Hc1 & Ht & Ho).
  destruct (IH (breaker_step c ev) _ _ _ Hc1) as (Hc2 & Ht2 & Ho2).
  - destruct (streak_bound [ev] n Hn). lia.
  - destruct (streak_bound [ev] n Hn) as [_ Hb]. simpl length in Hb. lia.
  - done.
  - unfold breaker_run in *. simpl. rewrite Ht2, Ho2. split_and!; [|done..].
    by destruct ev.
Qed.

(** While the breaker is open and no probe is out: the next probe is admitted at the
    deadline, and no other one before [openFor] has passed or a success arrived. *)
Fixpoint admitted (evs : list breaker_event) (c : circuitBreaker) : list Time :=
  match evs with
  | [] => []
  | ev :: evs =>
      let rest := admitted evs (breaker_step c ev) in
      match ev with
      | BAllow now => if (Allow now c).2 then now :: rest else rest
      | _ => rest
      end
  end.

Definition event_time (ev : breaker_event) : option Time :=
  match ev with BAllow now | BFailure now => Some now | BSuccess => None end.

(** The callers' clocks do not run backwards, starting at [t]. *)
Fixpoint ordered (t : Time) (evs : list breaker_event) : Prop :=
  match evs with
  | [] => True
  | ev :: evs => match event_time ev with Some now => t <= now /\ ordered now evs | None => ordered t evs end
  end.

(** [probed t c]: a probe went out at [t] and the next admission is at least
    [openFor] away, or waits for the probe's result. *)
Definition probed (t : Time) (c : circuitBreaker) : Prop :=
  IsZero (cb_openUntil c) = false /\ (cb_probeInFlight c = true \/ t + cb_openFor c <= cb_openUntil c).

Lemma admitted_after_probe evs t0 t c calls n last :
  breaker_tracks c calls n last -> cb_threshold c <= n -> n + Z.of_nat (length evs) <= MaxInt64 ->
  Forall modern evs -> t <= t0 -> ordered t0 evs -> BSuccess ∉ evs -> probed t c ->
  Forall (fun now => t + cb_openFor c <= now) (admitted evs c).
Proof.
  revert t0 c calls n last. induction evs as [|ev evs IH]; intros t0 c calls n last Hc Hn Hlen Hm Ht Ho Hs Hp; [constructor|].
  apply Forall_cons in Hm as [Hev Hm]. simpl length in Hlen. apply not_elem_of_cons in Hs as [Hne Hs].
  pose proof (bt_threshold _ _ _ _ Hc) as Hth.
  destruct (breaker_step_tracks c calls n last ev Hc ltac:(lia) Hev) as (Hc1 & Hth1 & Ho1).
  destruct Hp as [Hz Hp]. destruct ev as [now| |now]; [|done|].
  - simpl in Ho. destruct Ho as [Hnow Ho].
    assert (Hgo : probed t (breaker_step c (BAllow now)) -> Forall (fun now => t + cb_openFor c <= now) (admitted evs (breaker_step c (BAllow now)))).
    { intros Hp1. rewrite <- Ho1. eapply (IH now); [exact Hc1|rewrite Hth1; simpl; lia|simpl; lia|done|lia|done|done|done]. }
    simpl admitted. unfold breaker_step in Hgo, Hp. simpl in Hgo.
    unfold Allow in *. rewrite Hz in *. unfold Before in *.
    destruct (Z.ltb_spec now (cb_openUntil c)); simpl in *; [by apply Hgo|].
    destruct (cb_probeInFlight c) eqn:Epr; simpl in *; [apply Hgo; split; [done|by left]|].
    destruct Hp as [?|Hp]; [done|]. constructor; [lia|]. apply Hgo. split; [done|by left].
  - simpl in Ho. destruct Ho as [Hnow Ho]. simpl admitted. rewrite <- Ho1.
    eapply (IH now); [exact Hc1|simpl in *; lia|simpl; lia|done|lia|done|done|].
    destruct (bt_open _ _ _ _ Hc1) as (Hu & Hl & _); [simpl in *; lia|]. simpl in Hu, Hl.
    split; [rewrite Hu; apply open_not_zero; [done|apply (bt_openFor _ _ _ _ Hc1)]|].
    right. simpl. rewrite Hu. lia.
Qed.

(** ** Properties *)

(** C38: when a breaker is open. After any history, a breaker admits every call while
    fewer than the threshold of failures have followed the last success. From the
    threshold on it denies every call until the open period after the last failure is
    over; then it admits a call if and only if every call made since the last recorded
    outcome came before that time, so that at most one call is admitted between two
    outcomes. Any outcome lets the next probe out, also the late failure of a call
    admitted before the breaker opened, while the last probe is still out. Thresholds
    below one count as three, open periods that are not positive as five seconds. *)
Theorem breaker_opens threshold openFor evs now :
  Forall modern evs -> Z.of_nat (length evs) <= MaxInt64 ->
  let c := breaker_run evs (newCircuitBreaker threshold openFor) in
  let limit := if threshold <? 1 then 3 else threshold in
  let deadline := last_failure 0 evs + (if openFor <=? 0 then 5 * Second else openFor) in
  (streak 0 evs < limit -> (Allow now c).2 = true)
  /\ (limit <= streak 0 evs -> now < deadline -> (Allow now c).2 = false)
  /\ (limit <= streak 0 evs -> deadline <= now ->
        ((Allow now c).2 = true <-> Forall (fun t => t < deadline) (calls_since_outcome [] evs))).
Proof.
  intros Hm Hlen c limit deadline.
  destruct (breaker_run_tracks evs _ [] 0 0 (new_breaker_tracks threshold openFor) ltac:(lia) ltac:(lia) Hm) as (Hc & Ht & Ho).
  fold c in Hc, Ht, Ho. simpl in Ht, Ho. fold limit in Ht. destruct Hc as [Hf Hth Hop Hcl Hopen]. rewrite Ht, Ho in *.
  change (5 *i Second)%go with (5 * Second) in *. unfold Allow, Before. split_and!.
  - intros Hs. by destruct (Hcl Hs) as [-> _].
  - intros Hs Hnow. destruct (Hopen Hs) as (-> & Hl & _). rewrite open_not_zero by done.
    by rewrite (proj2 (Z.ltb_lt _ _)) by done.
  - intros Hs Hnow. destruct (Hopen Hs) as (-> & Hl & Hpr). fold deadline in Hpr |- *. unfold deadline at 1 2. rewrite open_not_zero by done.
    fold deadline. rewrite (proj2 (Z.ltb_ge _ _)), <- Hpr by done. by destruct (cb_probeInFlight c).
Qed.

(** Probes are spaced. Once a breaker is open, two admitted calls with no success
    between them are at least the open period apart, even when calls admitted before
    the breaker opened fail in the meantime. *)
Theorem probes_spaced threshold openFor evs now evs2 :
  let c := breaker_run evs (newCircuitBreaker threshold openFor) in
  let period := if openFor <=? 0 then 5 * Second else openFor in
  Forall modern (evs ++ BAllow now :: evs2) -> Z.of_nat (length (evs ++ BAllow now :: evs2)) <= MaxInt64 ->
  (if threshold <? 1 then 3 else threshold) <= streak 0 evs ->
  (Allow now c).2 = true -> ordered now evs2 -> BSuccess ∉ evs2 ->
  Forall (fun later => now + period <= later) (admitted evs2 (Allow now c).1).
Proof.
  intros c period [Hm [Hnow Hm2]%Forall_cons]%Forall_app Hlen Hs Ha Ho Hns.
  rewrite length_app in Hlen. simpl length in Hlen.
  destruct (breaker_run_tracks evs _ [] 0 0 (new_breaker_tracks threshold openFor) ltac:(lia) ltac:(lia) Hm) as (Hc & Ht & Hof).
  fold c in Hc, Ht, Hof. simpl in Ht, Hof. change (5 *i Second)%go with (5 * Second) in Hof. fold period in Hof.
  rewrite <- Ht in Hs. pose proof (streak_bound evs 0 ltac:(lia)) as Hsb.
  destruct (bt_open _ _ _ _ Hc Hs) as (Hu & Hl & _).
  destruct (breaker_step_tracks c _ _ _ (BAllow now) Hc ltac:(lia) Hnow) as (Hc1 & Ht1 & Ho1).
  change (breaker_step c (BAllow now)) with (Allow now c).1 in *. rewrite <- Hof, <- Ho1.
  eapply (admitted_after_probe evs2 now); [exact Hc1|rewrite Ht1; simpl; lia|simpl; lia|done|lia|done|done|].
  revert Ha. unfold Allow. rewrite Hu, open_not_zero by (done || apply (bt_openFor _ _ _ _ Hc)).
  destruct (Before _ _); [done|]. destruct (cb_probeInFlight c); [done|]. intros _. simpl.
  split; [rewrite <- Hu; simpl; rewrite Hu; apply open_not_zero; [done|apply (bt_openFor _ _ _ _ Hc)]|by left].
Qed.

(** ** Evaluations *)

Definition two_failures : list breaker_event := [BAllow 10; BAllow 11; BFailure 20; BFailure 30].

Lemma two_failures_modern : Forall modern two_failures.
Proof. repeat constructor; by vm_compute. Qed.

(** The probe of time 130, and a late failure of the call of time 11 while it is out. *)
Definition late_failure : list breaker_event := two_failures ++ [BAllow 130; BFailure 150].

Lemma late_failure_modern : Forall modern late_failure.
Proof. repeat constructor; by vm_compute. Qed.

Lemma breaker_opens_witness :
  (Allow 129 (breaker_run two_failures (newCircuitBreaker 2 100))).2 = false
  /\ (Allow 130 (breaker_run two_failures (newCircuitBreaker 2 100))).2 = true
  /\ (Allow 131 (breaker_run (two_failures ++ [BAllow 130]) (newCircuitBreaker 2 100))).2 = false
  /\ (Allow 250 (breaker_run late_failure (newCircuitBreaker 2 100))).2 = true.
Proof.
  destruct (breaker_opens 2 100 two_failures 129 two_failures_modern ltac:(by vm_compute)) as (_ & Hd & _).
  destruct (breaker_opens 2 100 two_failures 130 two_failures_modern ltac:(by vm_compute)) as (_ & _ & Hp).
  destruct (breaker_opens 2 100 late_failure 250 late_failure_modern ltac:(by vm_compute)) as (_ & _ & Hl).
  split_and!; [apply Hd; by vm_compute|apply Hp|vm_compute; reflexivity|apply Hl]; repeat constructor; by vm_compute.
Defined.

(** A late failure of an earlier call while the probe of time 130 is out. *)
Definition after_probe : list breaker_event := [BAllow 140; BFailure 150; BAllow 240; BAllow 260].

Lemma probes_spaced_witness :
  admitted after_probe (Allow 130 (breaker_run two_failures (newCircuitBreaker 2 100))).1 = [260]
  /\ Forall (fun later => 130 + 100 <= later)
       (admitted after_probe (Allow 130 (breaker_run two_failures (newCircuitBreaker 2 100))).1).
Proof.
  split; [vm_compute; reflexivity|].
  apply (probes_spaced 2 100 two_failures 130 after_probe).
  - repeat constructor; by vm_compute.
  - by vm_compute.
  - by vm_compute.
  - vm_compute; reflexivity.
  - repeat constructor; by vm_compute.
  - intros Hin. repeat (apply elem_of_cons in Hin as [Hin|Hin]; [discriminate Hin|]). by apply elem_of_nil in Hin.
Defined.
