(* ===== verification/Engine.v ===== *)
(** * The bidder engine (internal/ads/dynamic_bidding.go)

    [BidderEngine]: its construction, [Lookup] and [Trigger], and the background
    refresh, which runs as one goroutine per cache key with one worker goroutine per
    DSP call. The goroutines are interleaved at their synchronisation points; a DSP's
    answer is an event. Channels used as semaphores are the number of their tokens. *)

From S2P Require Import Prelude GoInt GoTime GoString Types DynamicBids Breaker.
From Stdlib Require Import Ascii.
Open Scope string_scope.
Open Scope list_scope.
Open Scope Z_scope.
Open Scope go_scope.

(** ** Construction *)

(** An adapter is known by its ID; [None] is a nil adapter. *)
Record BidderConfig := mkBidderConfig {
  bcfg_Adapter : option string;
  bcfg_Timeout : Duration;
  bcfg_MaxConcurrent : Z;
  bcfg_FailureThreshold : Z;
  bcfg_CircuitOpenFor : Duration
}.

(** [rt_id] is the ID of the configured adapter, [rt_sem] the tokens in [sem]. *)
Record bidderRuntime := mkRuntime {
  rt_id : string;
  rt_config : BidderConfig;
  rt_sem : Z;
  rt_breaker : circuitBreaker
}.

Record BidderEngineStats := mkEngineStats {
  es_CacheHits : Z;
  es_CacheFull : Z;
  es_Refreshes : Z;
  es_RefreshSkipped : Z;
  es_FanoutSkipped : Z;
  es_CircuitOpen : Z;
  es_Timeouts : Z;
  es_Failures : Z
}.

(** [be_cancelled] says that the engine's context has ended. *)
Record BidderEngine := mkBidderEngine {
  be_cache : DynamicBidCache;
  be_bidders : list bidderRuntime;
  be_config : BidderEngineConfig;
  be_cancelled : bool;
  be_refreshSlots : Z;
  be_inflight : gset string;
  be_stats : BidderEngineStats
}.

(** [%q] of a bidder ID that [validBidderID] accepts. *)
Definition quoted (id : string) : string := String.String "034" (id +:+ String.String "034" "").

(** The defaults [NewBidderEngine] gives to the fields that are not set. *)
Definition engine_defaults (config : BidderEngineConfig) : BidderEngineConfig :=
  let defaults := DefaultBidderEngineConfig in
  let config := if ec_MaxFanout config <? 1 then {| config with ec_MaxFanout := ec_MaxFanout defaults |} else config in
  let config := if ec_CacheTTL config <=? 0 then {| config with ec_CacheTTL := ec_CacheTTL defaults |} else config in
  let config := if ec_FailureTTL config <=? 0 then {| config with ec_FailureTTL := ec_FailureTTL defaults |} else config in
  let config := if ec_MaxKeys config <? 1 then {| config with ec_MaxKeys := ec_MaxKeys defaults |} else config in
  if ec_MaxConcurrentRefreshes config <? 1
  then {| config with ec_MaxConcurrentRefreshes := ec_MaxConcurrentRefreshes defaults |} else config.

(** One iteration of the loop over the bidder configurations. *)
Definition new_runtime (seen : gset string) (config : BidderConfig) : string + bidderRuntime :=
  match bcfg_Adapter config with
  | None => inl "bidder adapter and id are required"
  | Some id =>
      if negb (validBidderID id) then inl "bidder adapter and id are required"
      else if decide (id ∈ seen) then inl ("duplicate bidder id " +:+ quoted id)
      else
        let config := if bcfg_Timeout config <=? 0
                      then {| config with bcfg_Timeout := 60 *i Millisecond |} else config in
        let config := if bcfg_MaxConcurrent config <? 1
                      then {| config with bcfg_MaxConcurrent := 32 |} else config in
        if (10 *i Second <? bcfg_Timeout config) || (1024 <? bcfg_MaxConcurrent config)
           || (100 <? bcfg_FailureThreshold config) || (Hour <? bcfg_CircuitOpenFor config)
        then inl ("invalid limits for bidder " +:+ quoted id)
        else inr (mkRuntime id config 0 (newCircuitBreaker (bcfg_FailureThreshold config) (bcfg_CircuitOpenFor config)))
  end.

Fixpoint new_runtimes (seen : gset string) (configs : list BidderConfig) : string + list bidderRuntime :=
  match configs with
  | [] => inr []
  | config :: rest =>
      match new_runtime seen config with
      | inl e => inl e
      | inr runtime =>
          match new_runtimes ({[rt_id runtime]} ∪ seen) rest with
          | inl e => inl e
          | inr runtimes => inr (runtime :: runtimes)
          end
      end
  end.

(** [ctx] says whether a context was given. *)
Definition NewBidderEngine (ctx : bool) (config : BidderEngineConfig) (bidderConfigs : list BidderConfig)
    : string + BidderEngine :=
  if negb ctx then inl "bidder context is required"
  else
    let config := engine_defaults config in
    match BidderEngineConfig_Validate config with
    | Some e => inl e
    | None =>
        match new_runtimes ∅ bidderConfigs with
        | inl e => inl e
        | inr bidders =>
            inr (mkBidderEngine (NewDynamicBidCache (ec_MaxKeys config)) bidders config false 0 ∅
                   (mkEngineStats 0 0 0 0 0 0 0 0))
        end
    end.

(** ** Lookup and Trigger *)

Definition count_stat (f : BidderEngineStats -> BidderEngineStats) (e : BidderEngine) : BidderEngine :=
  {| e with be_stats := f (be_stats e) |}.

Definition Lookup (request : AuctionRequest) (now : Time) (e : BidderEngine) : BidderEngine * option (list DynamicBid) :=
  match DynamicBidCache_Get (dynamicCacheKey request) now (be_cache e) with
  | None => (e, None)
  | Some bids => (count_stat (fun s => {| s with es_CacheHits := counter_add (es_CacheHits s) 1 |}) e, Some bids)
  end.

(** The fields of an auction request a DSP gets to see. *)
Definition dsp_request (request : AuctionRequest) : DSPRequest :=
  mkDSPRequest (req_PlacementID request) (req_Country request) (req_Device request) (req_FloorMicros request).

(** The second component says whether the refresh goroutine is started. *)
Definition Trigger (request : AuctionRequest) (now : Time) (e : BidderEngine) : BidderEngine * bool :=
  if bool_decide (be_bidders e = []) || be_cancelled e then (e, false)
  else
    let key := dynamicCacheKey request in
    match DynamicBidCache_Get key now (be_cache e) with
    | Some _ => (e, false)
    | None =>
        if decide (key ∈ be_inflight e) then (e, false)
        else
          let e := {| e with be_inflight := {[key]} ∪ be_inflight e |} in
          if be_refreshSlots e <? ec_MaxConcurrentRefreshes (be_config e)
          then ({| e with be_refreshSlots := be_refreshSlots e + 1 |}, true)
          else
            let e := {| e with be_inflight := be_inflight e ∖ {[key]} |} in
            (count_stat (fun s => {| s with es_RefreshSkipped := counter_add (es_RefreshSkipped s) 1 |}) e, false)
    end.

(** ** The refresh goroutine *)

Record bidderResult := mkResult { res_bids : list DynamicBid; res_success : bool }.

(** A worker waits for its DSP, and has then sent its result; [bidder] is an index. *)
Inductive worker := Calling (bidder : nat) | Reported (bidder : nat).

(** A call of [Trigger] that found no fresh entry; one that has marked its key; one
    that gives the mark back because no slot is free. Then the goroutine it starts:
    before its first statement; in the launching loop, with the bidders left; there
    with a token of bidder [i] in hand; waiting for its workers; and, after [refresh]
    returned, with its deferred calls left. *)
Inductive phase :=
  | Missed | Marked | Skipping
  | Starting | Launching (todo : list nat) | Checking (i : nat) (todo : list nat) | Waiting
  | Unmarking | Releasing.

Record refresher := mkRefresher {
  rf_key : string;
  rf_request : DSPRequest;
  rf_phase : phase;
  rf_started : Z;
  rf_workers : list worker;
  rf_results : list bidderResult
}.

(** What [Adapter.Fetch] returned: an error, with the context's deadline exceeded or
    not, or the DSP's bids. *)
Inductive fetch_outcome := FetchError (deadline : bool) | FetchBids (bids : list Bid).

(** The rest of a [Trigger] that found no fresh entry; the last component is [None]
    when it returns without starting a goroutine. *)
Definition trigger_step (r : refresher) (e : BidderEngine) : option (option refresher * BidderEngine) :=
  match rf_phase r with
  | Missed =>
      if decide (rf_key r ∈ be_inflight e) then Some (None, e)
      else Some (Some {| r with rf_phase := Marked |}, {| e with be_inflight := {[rf_key r]} ∪ be_inflight e |})
  | Marked =>
      if be_refreshSlots e <? ec_MaxConcurrentRefreshes (be_config e)
      then Some (Some {| r with rf_phase := Starting |}, {| e with be_refreshSlots := be_refreshSlots e + 1 |})
      else Some (Some {| r with rf_phase := Skipping |}, e)
  | Skipping =>
      Some (None, count_stat (fun s => {| s with es_RefreshSkipped := counter_add (es_RefreshSkipped s) 1 |})
                    {| e with be_inflight := be_inflight e ∖ {[rf_key r]} |})
  | _ => None
  end.

(** Put a bidder's new breaker and number of tokens in place. *)
Definition set_bidder (i : nat) (bidder : bidderRuntime) (breaker : circuitBreaker) (sem : Z) (e : BidderEngine) : BidderEngine :=
  {| e with be_bidders := <[i := {| bidder with rt_breaker := breaker; rt_sem := sem |}]> (be_bidders e) |}.

(** The head of the launching loop for the bidder with index [i]: take one of its
    tokens, or skip it. *)
Definition try_token (i : nat) (todo : list nat) (r : refresher) (e : BidderEngine) : option (refresher * BidderEngine) :=
  match be_bidders e !! i with
  | None => None
  | Some bidder =>
      if rt_sem bidder <? bcfg_MaxConcurrent (rt_config bidder)
      then Some ({| r with rf_phase := Checking i todo |},
                 set_bidder i bidder (rt_breaker bidder) (rt_sem bidder + 1) e)
      else Some ({| r with rf_phase := Launching todo |},
                 count_stat (fun s => {| s with es_FanoutSkipped := counter_add (es_FanoutSkipped s) 1 |}) e)
  end.

(** The rest of the iteration: ask the breaker, and start the worker or give the
    token back. *)
Definition launch (i : nat) (todo : list nat) (now : Time) (r : refresher) (e : BidderEngine)
    : option (refresher * BidderEngine) :=
  match be_bidders e !! i with
  | None => None
  | Some bidder =>
      let '(breaker, ok) := Allow now (rt_breaker bidder) in
      if negb ok
      then Some ({| r with rf_phase := Launching todo |},
                 count_stat (fun s => {| s with es_CircuitOpen := counter_add (es_CircuitOpen s) 1 |})
                   (set_bidder i bidder breaker (rt_sem bidder - 1) e))
      else Some ({| r with rf_phase := Launching todo; rf_started := rf_started r +i 1;
                    rf_workers := rf_workers r ++ [Calling i] |},
                 set_bidder i bidder breaker (rt_sem bidder) e)
  end.

(** A step of the refresh goroutine up to [workers.Wait()]; [None] when it is not in
    the loop. *)
Definition advance (now : Time) (r : refresher) (e : BidderEngine) : option (refresher * BidderEngine) :=
  match rf_phase r with
  | Starting =>
      Some ({| r with rf_phase := Launching (seq 0 (length (be_bidders e))) |},
            count_stat (fun s => {| s with es_Refreshes := counter_add (es_Refreshes s) 1 |}) e)
  | Launching [] => Some ({| r with rf_phase := Waiting |}, e)
  | Launching (i :: todo) =>
      if rf_started r =? ec_MaxFanout (be_config e) then Some ({| r with rf_phase := Waiting |}, e)
      else try_token i todo r e
  | Checking i todo => launch i todo now r e
  | _ => None
  end.

(** The worker at position [n] gets the DSP's answer and sends its result; the send
    needs room in the channel. *)
Definition report (n : nat) (outcome : fetch_outcome) (now : Time) (r : refresher) (e : BidderEngine)
    : option (refresher * BidderEngine) :=
  match rf_workers r !! n with
  | Some (Calling i) =>
      match be_bidders e !! i with
      | None => None
      | Some bidder =>
          if ec_MaxFanout (be_config e) <=? Z.of_nat (length (rf_results r)) then None
          else
            let '(breaker, result, e) :=
              match outcome with
              | FetchError deadline =>
                  (Failure now (rt_breaker bidder), mkResult [] false,
                   count_stat (fun s => if deadline
                     then {| s with es_Timeouts := counter_add (es_Timeouts s) 1 |}
                     else {| s with es_Failures := counter_add (es_Failures s) 1 |}) e)
              | FetchBids bids =>
                  (Success (rt_breaker bidder), mkResult (sanitizeDynamicBids (rt_id bidder) (rf_request r) bids) true, e)
              end in
            Some ({| r with rf_workers := <[n := Reported i]> (rf_workers r); rf_results := rf_results r ++ [result] |},
                  set_bidder i bidder breaker (rt_sem bidder) e)
      end
  | _ => None
  end.

(** The deferred calls of a worker that has sent its result: its token and its
    [workers.Done()]. *)
Definition release (n : nat) (r : refresher) (e : BidderEngine) : option (refresher * BidderEngine) :=
  match rf_workers r !! n with
  | Some (Reported i) =>
      match be_bidders e !! i with
      | None => None
      | Some bidder =>
          Some ({| r with rf_workers := delete n (rf_workers r) |},
                set_bidder i bidder (rt_breaker bidder) (rt_sem bidder - 1) e)
      end
  | _ => None
  end.

Definition gathered (results : list bidderResult) : list DynamicBid :=
  results ≫= (fun r => if res_success r then res_bids r else []).

(** The rest of [refresh], once all workers are done. *)
Definition store_results (range : gmap string dynamicBidList -> list (string * dynamicBidList)) (now later : Time)
    (r : refresher) (e : BidderEngine) : option (refresher * BidderEngine) :=
  match rf_phase r, rf_workers r with
  | Waiting, [] =>
      let success := existsb res_success (rf_results r) in
      let ttl := if success then ec_CacheTTL (be_config e) else ec_FailureTTL (be_config e) in
      let '(cache, ok) := DynamicBidCache_Put range (rf_key r) (gathered (rf_results r)) ttl now later (be_cache e) in
      let e := {| e with be_cache := cache |} in
      let e := if negb ok then count_stat (fun s => {| s with es_CacheFull := counter_add (es_CacheFull s) 1 |}) e else e in
      Some ({| r with rf_phase := Unmarking |}, e)
  | _, _ => None
  end.

(** The deferred calls of the refresh goroutine; the last one ends it. *)
Definition finish (r : refresher) (e : BidderEngine) : option (option refresher * BidderEngine) :=
  match rf_phase r with
  | Unmarking => Some (Some {| r with rf_phase := Releasing |}, {| e with be_inflight := be_inflight e ∖ {[rf_key r]} |})
  | Releasing => Some (None, {| e with be_refreshSlots := be_refreshSlots e - 1 |})
  | _ => None
  end.

(** ** Executions *)

Record engine_state := mkEngineState {
  en_engine : BidderEngine;
  en_now : Time;
  en_threads : gmap nat refresher
}.

Inductive engine_event :=
  | XLookup (request : AuctionRequest)
  | XTrigger (tid : nat) (request : AuctionRequest)
  | XMark (tid : nat)
  | XAdvance (tid : nat)
  | XReport (tid n : nat) (outcome : fetch_outcome)
  | XRelease (tid n : nat)
  | XStore (tid : nat) (range : gmap string dynamicBidList -> list (string * dynamicBidList)) (later : Time)
  | XFinish (tid : nat)
  | XCancel
  | XTime (now : Time).

(** The step [f] of the refresh [tid]. *)
Definition thread_does (tid : nat) (f : refresher -> BidderEngine -> option (option refresher * BidderEngine))
    (st : engine_state) : option engine_state :=
  match en_threads st !! tid with
  | None => None
  | Some r =>
      match f r (en_engine st) with
      | None => None
      | Some (r, e) =>
          Some {| st with en_engine := e; en_threads := partial_alter (fun _ => r) tid (en_threads st) |}
      end
  end.

Definition keep (f : refresher -> BidderEngine -> option (refresher * BidderEngine))
    (r : refresher) (e : BidderEngine) : option (option refresher * BidderEngine) :=
  match f r e with Some (r, e) => Some (Some r, e) | None => None end.

Definition new_refresher (request : AuctionRequest) : refresher :=
  mkRefresher (dynamicCacheKey request) (dsp_request request) Missed 0 [] [].

(** [Trigger] up to the miss: whether it goes on. *)
Definition trigger_misses (request : AuctionRequest) (now : Time) (e : BidderEngine) : bool :=
  negb (bool_decide (be_bidders e = []) || be_cancelled e)
  && match DynamicBidCache_Get (dynamicCacheKey request) now (be_cache e) with None => true | Some _ => false end.

Definition engine_exec (ev : engine_event) (st : engine_state) : option engine_state :=
  match ev with
  | XLookup request => Some {| st with en_engine := (Lookup request (en_now st) (en_engine st)).1 |}
  | XTrigger tid request =>
      match en_threads st !! tid with
      | Some _ => None
      | None =>
          if trigger_misses request (en_now st) (en_engine st)
          then Some {| st with en_threads := <[tid := new_refresher request]> (en_threads st) |}
          else Some st
      end
  | XMark tid => thread_does tid trigger_step st
  | XAdvance tid => thread_does tid (keep (advance (en_now st))) st
  | XReport tid n outcome => thread_does tid (keep (report n outcome (en_now st))) st
  | XRelease tid n => thread_does tid (keep (release n)) st
  | XStore tid range later => thread_does tid (keep (store_results range (en_now st) later)) st
  | XFinish tid => thread_does tid finish st
  | XCancel => Some {| st with en_engine := {| (en_engine st) with be_cancelled := true |} |}
  | XTime now => if en_now st <=? now then Some {| st with en_now := now |} else None
  end.

Fixpoint engine_exec_all (evs : list engine_event) (st : engine_state) : option engine_state :=
  match evs with
  | [] => Some st
  | ev :: evs => match engine_exec ev st with Some st => engine_exec_all evs st | None => None end
  end.
