(* ===== verification/DecisionLog.v ===== *)
(** * The decision log (internal/ads/decision_log.go)

    A bounded queue between the request handlers and one writer goroutine. [Record]
    never waits; [Close] closes the queue and waits until the writer has drained it.
    A nil [*DecisionLogger] is [None]. *)

From S2P Require Import Prelude GoInt GoString Types.
Open Scope string_scope.
Open Scope list_scope.
Open Scope Z_scope.

(** ** The code *)

Record DecisionLog := mkDecisionLog {
  dlog_RequestID : string;
  dlog_PlacementID : string;
  dlog_PricingModel : PricingModel;
  dlog_EligibleCandidates : Z;
  dlog_WinnerBidID : string;
  dlog_WinnerDealID : string;
  dlog_WinnerPriority : Z;
  dlog_EffectivePriceMicros : Z;
  dlog_ClearingPriceMicros : Z;
  dlog_NoBidReason : string;
  dlog_ServedStale : bool;
  dlog_SnapshotAgeMS : Z;
  dlog_DynamicBidderID : string
}.

(** [entries] is a buffered channel: its contents, its capacity and whether it is
    closed; [dl_done] says that [done] is closed. [dl_written] is what the writer
    has handed to [slog], oldest first. *)
Record DecisionLogger := mkDecisionLogger {
  dl_entries : list DecisionLog;
  dl_capacity : Z;
  dl_closed : bool;
  dl_done : bool;
  dl_dropped : Z;
  dl_written : list DecisionLog
}.

Definition NewDecisionLogger (enabled : bool) (buffer : Z) : option DecisionLogger :=
  if negb enabled then None
  else
    let buffer := if buffer <? 1 then 4096 else buffer in
    Some (mkDecisionLogger [] buffer false false 0 []).

(** What a call of [Record] does: it returns, or it panics because the channel is
    closed. *)
Inductive record_result := Recorded (ok : bool) | SendOnClosedChannel.

Definition Record_entry (entry : DecisionLog) (d : option DecisionLogger) : option DecisionLogger * record_result :=
  match d with
  | None => (None, Recorded true)
  | Some d =>
      if dl_closed d then (Some d, SendOnClosedChannel)
      else if Z.of_nat (length (dl_entries d)) <? dl_capacity d
      then (Some {| d with dl_entries := dl_entries d ++ [entry] |}, Recorded true)
      else (Some {| d with dl_dropped := counter_add (dl_dropped d) 1 |}, Recorded false)
  end.

Definition Dropped (d : option DecisionLogger) : Z :=
  match d with None => 0 | Some d => dl_dropped d end.

(** [Close] up to [<-d.done]; only the first call closes the channel. *)
Definition Close_begin (d : DecisionLogger) : DecisionLogger := {| d with dl_closed := true |}.

(** One step of [run]: write an entry, or end after the closed channel is empty;
    [None] when the writer waits or has ended. *)
Definition run_step (d : DecisionLogger) : option DecisionLogger :=
  if dl_done d then None
  else
    match dl_entries d with
    | entry :: rest => Some {| d with dl_entries := rest; dl_written := dl_written d ++ [entry] |}
    | [] => if dl_closed d then Some {| d with dl_done := true |} else None
    end.

(** [Close] with its wait: the writer runs until it is done. *)
Fixpoint drain (fuel : nat) (d : DecisionLogger) : option DecisionLogger :=
  if dl_done d then Some d
  else
    match fuel with
    | O => None
    | S fuel => match run_step d with None => None | Some d => drain fuel d end
    end.

Definition Close (d : option DecisionLogger) : option (option DecisionLogger) :=
  match d with
  | None => Some None
  | Some d => Some <$> drain (S (length (dl_entries d))) (Close_begin d)
  end.

(** ** Executions *)

Inductive log_event := LRecord (entry : DecisionLog) | LWrite | LClose.

(** A step of the logger; a [Record] on a closed logger is the panic, [None]. *)
Definition log_step (ev : log_event) (d : DecisionLogger) : option DecisionLogger :=
  match ev with
  | LRecord entry =>
      match Record_entry entry (Some d) with
      | (Some d, Recorded _) => Some d
      | _ => None
      end
  | LWrite => run_step d
  | LClose => Some (Close_begin d)
  end.

Fixpoint log_run (evs : list log_event) (d : DecisionLogger) : option DecisionLogger :=
  match evs with
  | [] => Some d
  | ev :: evs => match log_step ev d with Some d => log_run evs d | None => None end
  end.

(** The entries of a history, and which of them were accepted from state [d] on. *)
Definition recorded (evs : list log_event) : list DecisionLog :=
  omap (fun ev => match ev with LRecord entry => Some entry | _ => None end) evs.

Fixpoint accepted (evs : list log_event) (d : DecisionLogger) : list DecisionLog :=
  match evs with
  | [] => []
  | ev :: evs =>
      match log_step ev d with
      | None => []
      | Some d2 =>
          match ev with
          | LRecord entry => if Z.of_nat (length (dl_entries d)) <? dl_capacity d then entry :: accepted evs d2 else accepted evs d2
          | _ => accepted evs d2
          end
      end
  end.

(** ** The queue *)

Record logger_ok (d : DecisionLogger) : Prop := {
  lo_capacity : 1 <= dl_capacity d;
  lo_bound : Z.of_nat (length (dl_entries d)) <= dl_capacity d;
  lo_done : dl_done d = true -> dl_closed d = true /\ dl_entries d = [];
  lo_dropped : is_uint64 (dl_dropped d)
}.

Lemma new_logger_ok enabled buffer d : NewDecisionLogger enabled buffer = Some d -> logger_ok d.
Proof.
  unfold NewDecisionLogger. destruct enabled; [|done]. intros [= <-].
  constructor; simpl; try done; case_test; bool_hyps; lia.
Qed.

(** The entries of a history that were dropped. *)
Definition dropped_count (evs : list log_event) (d : DecisionLogger) : Z :=
  Z.of_nat (length (recorded evs)) - Z.of_nat (length (accepted evs d)).

(** What an execution does to the queue, the written entries and the drop count. *)
Definition log_effect (evs : list log_event) (d d2 : DecisionLogger) : Prop :=
  logger_ok d2 /\ dl_capacity d2 = dl_capacity d
  /\ dl_written d2 ++ dl_entries d2 = (dl_written d ++ dl_entries d) ++ accepted evs d
  /\ dl_dropped d2 = uint64 (dl_dropped d + dropped_count evs d).

Lemma log_step_effect ev d d2 : logger_ok d -> log_step ev d = Some d2 -> log_effect [ev] d d2.
Proof.
  intros [Hc Hb Hd Hu] Hs. unfold log_effect, dropped_count. cbn [accepted]. rewrite Hs.
  destruct ev as [entry| |]; simpl in Hs.
  - destruct (dl_closed d) eqn:Ecl; [done|].
    assert (Hdone : dl_done d = false) by (destruct (dl_done d); [by destruct (Hd eq_refl)|done]).
    destruct (Z.ltb_spec (Z.of_nat (length (dl_entries d))) (dl_capacity d)) as [Hlt|Hge]; injection Hs as <-; simpl.
    + rewrite uint64_id, app_assoc by (unfold_int; lia). split_and!; [|done|done|lia].
      constructor; simpl; [done| |by rewrite Hdone|done]. rewrite length_app. simpl. lia.
    + rewrite app_nil_r. split_and!; try done. constructor; simpl; try done. apply uint64_range.
  - unfold run_step in Hs. rewrite app_nil_r. simpl. rewrite uint64_id by (unfold_int; lia).
    destruct (dl_done d) eqn:Ed; [done|]. destruct (dl_entries d) as [|entry rest] eqn:Ee.
    + destruct (dl_closed d) eqn:Ec; [|done]. injection Hs as <-. simpl.
      split_and!; try done; try lia.
    + injection Hs as <-. simpl. rewrite <- app_assoc. split_and!; try done; try lia.
      constructor; simpl in *; try done; lia.
  - injection Hs as <-. simpl. rewrite app_nil_r, uint64_id by (unfold_int; lia). split_and!; try done; try lia.
    constructor; simpl; try done. intros Hdn. by destruct (Hd Hdn).
Qed.

Lemma accepted_cons ev evs d d2 :
  log_step ev d = Some d2 -> accepted (ev :: evs) d = accepted [ev] d ++ accepted evs d2.
Proof. intros Hs. cbn [accepted]. rewrite Hs. destruct ev; simpl; try done. by destruct (_ <? _). Qed.

Lemma recorded_cons ev evs : recorded (ev :: evs) = recorded [ev] ++ recorded evs.
Proof. by destruct ev. Qed.

Lemma log_run_effect evs d d2 : logger_ok d -> log_run evs d = Some d2 -> log_effect evs d d2.
Proof.
  revert d. induction evs as [|ev evs IH]; intros d Hok Hr; simpl in Hr.
  { injection Hr as <-. unfold log_effect, dropped_count. simpl. rewrite app_nil_r, Z.add_0_r, uint64_id by apply (lo_dropped _ Hok). done. }
  destruct (log_step ev d) as [d1|] eqn:Es; [|done].
  destruct (log_step_effect _ _ _ Hok Es) as (Hok1 & Hc1 & Hq1 & Hd1).
  destruct (IH d1 Hok1 Hr) as (Hok2 & Hc2 & Hq2 & Hd2).
  split_and!; [done|congruence|by rewrite Hq2, Hq1, (accepted_cons ev evs _ _ Es), !app_assoc|].
  rewrite Hd2, Hd1, uint64_add_l. f_equal. unfold dropped_count.
  rewrite (accepted_cons ev evs _ _ Es), (recorded_cons ev evs), !length_app. lia.
Qed.

(** Draining writes everything that is queued. *)
Lemma drain_spec n d :
  logger_ok d -> dl_closed d = true -> length (dl_entries d) = n ->
  exists d2, drain (S n) d = Some d2 /\ dl_done d2 = true /\ dl_closed d2 = true /\ dl_entries d2 = []
    /\ dl_written d2 = dl_written d ++ dl_entries d /\ dl_dropped d2 = dl_dropped d.
Proof.
  revert d. induction n as [|n IH]; intros d Hok Hcl Hlen.
  - apply nil_length_inv in Hlen. simpl. destruct (dl_done d) eqn:Ed.
    + exists d. rewrite Hlen, app_nil_r. done.
    + unfold run_step. rewrite Ed, Hlen, Hcl. eexists. split; [reflexivity|]. simpl. rewrite ?Hlen, ?app_nil_r. done.
  - destruct (dl_entries d) as [|entry rest] eqn:Ee; [done|]. injection Hlen as Hlen.
    assert (Ed : dl_done d = false).
    { destruct (dl_done d) eqn:Ed; [|done]. destruct (lo_done _ Hok Ed) as [_ ?]. congruence. }
    set (d1 := {| d with dl_entries := rest; dl_written := dl_written d ++ [entry] |}).
    assert (Hs : run_step d = Some d1) by (unfold run_step, d1; by rewrite Ed, Ee).
    destruct (IH d1) as (d2 & Hdr & ? & ? & ? & Hw & ?).
    + destruct Hok as [Hc Hb Hd Hu]. constructor; simpl; try done; [|by rewrite Ed]. rewrite Ee in Hb. simpl in Hb. lia.
    + done.
    + done.
    + simpl in Hw. rewrite <- app_assoc in Hw. exists d2. split_and!; try done.
      change (drain (S (S n)) d) with (if dl_done d then Some d else match run_step d with None => None | Some d => drain (S n) d end).
      by rewrite Ed, Hs.
Qed.

(** ** Properties *)

(** The queue. From a new logger, in every interleaving of records with the
    writer: the queue never holds more than its capacity; the written entries and
    the queued ones are together exactly the accepted entries, in the order of their
    records, so nothing is lost, duplicated or reordered; and the drop counter is the
    number of records that were refused (modulo 2^64). *)
Theorem decision_log_accounts enabled buffer d evs d2 :
  NewDecisionLogger enabled buffer = Some d -> log_run evs d = Some d2 ->
  Z.of_nat (length (dl_entries d2)) <= dl_capacity d2
  /\ dl_capacity d2 = (if buffer <? 1 then 4096 else buffer)
  /\ dl_written d2 ++ dl_entries d2 = accepted evs d
  /\ Dropped (Some d2) = uint64 (dropped_count evs d).
Proof.
  intros Hn Hr. destruct (log_run_effect _ _ _ (new_logger_ok _ _ _ Hn) Hr) as (Hok & Hc & Hq & Hd).
  unfold NewDecisionLogger in Hn. destruct enabled; [|done]. injection Hn as <-. simpl in *.
  split_and!; [apply Hok|done|done|done].
Qed.

(** Closing. Close terminates, after as many writes as there are queued entries:
    every accepted entry has then been written; and closing again changes nothing. *)
Theorem Close_drains enabled buffer d evs d2 :
  NewDecisionLogger enabled buffer = Some d -> log_run evs d = Some d2 ->
  exists d3, Close (Some d2) = Some (Some d3) /\ dl_done d3 = true /\ dl_entries d3 = []
  /\ dl_written d3 = accepted evs d /\ dl_dropped d3 = dl_dropped d2 /\ Close (Some d3) = Some (Some d3).
Proof.
  intros Hn Hr. destruct (log_run_effect _ _ _ (new_logger_ok _ _ _ Hn) Hr) as (Hok & _ & Hq & _).
  assert (Hq0 : dl_written d ++ dl_entries d = []).
  { unfold NewDecisionLogger in Hn. destruct enabled; [|done]. by injection Hn as <-. }
  rewrite Hq0 in Hq. simpl in Hq.
  destruct (drain_spec (length (dl_entries d2)) (Close_begin d2)) as (d3 & Hdr & Hdn & Hcl & He & Hw & Hdp);
    [|done|done|].
  { destruct Hok as [H1 H2 H3 H4]. constructor; simpl; try done. intros Hd. by destruct (H3 Hd). }
  exists d3. unfold Close. rewrite Hdr. split_and!; try done.
  - by rewrite Hw.
  - assert (Hb : Close_begin d3 = d3) by (destruct d3; simpl in *; by subst).
    rewrite Hb, He. simpl. by rewrite Hdn.
Qed.

(** A record after Close. Record never waits: it accepts the entry, or drops it
    exactly when the queue is full; but once the logger is closed it panics, on every
    entry. A disabled logger accepts everything and stores nothing. *)
Theorem Record_never_blocks entry d :
  (forall ok d2, Record_entry entry (Some d) = (Some d2, Recorded ok) ->
     dl_closed d = false /\ (ok = true <-> Z.of_nat (length (dl_entries d)) < dl_capacity d))
  /\ Record_entry entry (Some (Close_begin d)) = (Some (Close_begin d), SendOnClosedChannel)
  /\ Record_entry entry None = (None, Recorded true).
Proof.
  split_and!; [|done|done]. intros ok d2 Hr. simpl in Hr. destruct (dl_closed d); [done|]. split; [done|].
  destruct (Z.ltb_spec (Z.of_nat (length (dl_entries d))) (dl_capacity d)); injection Hr as <- <-; split; done || lia.
Qed.

(** ** Evaluations *)

Definition sample_entry (id : string) : DecisionLog := mkDecisionLog id "top" FirstPrice 0 "" "" 0 0 0 "cold_cache" false 0 "".
Definition small_log : DecisionLogger := mkDecisionLogger [] 1 false false 0 [].
Definition log_history : list log_event := [LRecord (sample_entry "1"); LRecord (sample_entry "2"); LWrite; LRecord (sample_entry "3")].
Definition log_end : DecisionLogger := default small_log (log_run log_history small_log).

Lemma decision_log_accounts_witness :
  NewDecisionLogger true 1 = Some small_log
  /\ dl_written log_end ++ dl_entries log_end = [sample_entry "1"; sample_entry "3"] /\ Dropped (Some log_end) = 1.
Proof.
  split; [reflexivity|].
  destruct (decision_log_accounts true 1 small_log log_history log_end eq_refl ltac:(vm_compute; reflexivity)) as (_ & _ & Hq & Hd).
  split; [rewrite Hq; vm_compute; reflexivity|rewrite Hd; vm_compute; reflexivity].
Defined.

Lemma Close_drains_witness :
  exists d3, Close (Some log_end) = Some (Some d3) /\ dl_written d3 = [sample_entry "1"; sample_entry "3"].
Proof.
  destruct (Close_drains true 1 small_log log_history log_end eq_refl ltac:(vm_compute; reflexivity)) as (d3 & Hc & _ & _ & Hw & _).
  exists d3. split; [exact Hc|]. rewrite Hw. vm_compute. reflexivity.
Defined.
