(* ===== verification/Redis.v ===== *)
(** * Redis as the bid registry's server, and its two Lua scripts

    Redis is not part of the repository: [Redis] is an interface with the documented
    behaviour of the commands the scripts and the client use. The scripts
    themselves, constants of internal/ads/store.go, are modelled here with the
    numbers of Lua 5.1 (IEEE doubles), and related to an abstract registry of
    versioned entries. *)

From S2P Require Import Prelude GoInt GoString.
Open Scope string_scope.
Open Scope list_scope.
Open Scope Z_scope.

(** ** The server *)

(** A database observed through HGETALL ([hash]), SMEMBERS ([members]) and the
    messages published so far. A command on a key that holds the other type is an
    error in Redis, so the laws of the mutating commands ask for a key of their own
    type (or an absent one). [redis_error] is what the client library says of a call
    that failed, the same for every failure. *)
Class Redis := {
  db : Type;
  hash : db -> string -> gmap string string;
  members : db -> string -> gset string;
  published : db -> list (string * string);
  hset : db -> string -> string -> string -> db;
  hdel : db -> string -> string -> db;
  sadd : db -> string -> string -> db;
  publish : db -> string -> string -> db;
  redis_error : string;

  hash_hset d k f v k' : members d k = ∅ ->
    hash (hset d k f v) k' = if decide (k = k') then <[f := v]> (hash d k) else hash d k';
  hash_hdel d k f k' : members d k = ∅ ->
    hash (hdel d k f) k' = if decide (k = k') then delete f (hash d k) else hash d k';
  hash_sadd d k m k' : hash d k = ∅ -> hash (sadd d k m) k' = hash d k';
  hash_publish d c m k' : hash (publish d c m) k' = hash d k';
  members_hset d k f v k' : members d k = ∅ -> members (hset d k f v) k' = members d k';
  members_hdel d k f k' : members d k = ∅ -> members (hdel d k f) k' = members d k';
  members_sadd d k m k' : hash d k = ∅ ->
    members (sadd d k m) k' = if decide (k = k') then {[m]} ∪ members d k else members d k';
  members_publish d c m k' : members (publish d c m) k' = members d k';
  published_hset d k f v : published (hset d k f v) = published d;
  published_hdel d k f : published (hdel d k f) = published d;
  published_sadd d k m : published (sadd d k m) = published d;
  published_publish d c m : published (publish d c m) = published d ++ [(c, m)]
}.

(** ** Lua numbers *)

(** The double nearest to a non-negative integer (ties to even): 53 significant
    bits. Integers up to 2^53 are exact. *)
Definition double_of_Z (z : Z) : Z :=
  if z <=? 2 ^ 53 then z
  else
    let e := Z.log2 z - 52 in
    let q := z / 2 ^ e in
    let r := z mod 2 ^ e in
    let half := 2 ^ (e - 1) in
    let q' := if half <? r then q + 1
              else if r =? half then (if Z.even q then q else q + 1)
              else q in
    q' * 2 ^ e.

(** [tonumber] on a decimal integer string. The version hashes hold nothing else;
    on other text the model gives nil. *)
Definition tonumber (s : string) : option Z :=
  if String.eqb s "" then None else double_of_Z <$> parse_digits 10 0 s.

Lemma double_of_Z_exact z : z <= 2 ^ 53 -> double_of_Z z = z.
Proof. intros H. unfold double_of_Z. by rewrite (proj2 (Z.leb_le _ _)). Qed.

(** Above 2^53 the result stays within the binade of the argument. *)
Lemma double_of_Z_binade z :
  2 ^ 53 < z -> 2 ^ Z.log2 z <= double_of_Z z <= 2 ^ (Z.log2 z + 1).
Proof.
  intros Hz. unfold double_of_Z. rewrite (proj2 (Z.leb_gt _ _)) by done.
  assert (Hl : 53 <= Z.log2 z) by (apply Z.log2_le_pow2; lia).
  destruct (Z.log2_spec z ltac:(lia)) as [Hlo Hhi].
  set (e := Z.log2 z - 52). assert (He : 0 < 2 ^ e) by (apply Z.pow_pos_nonneg; lia).
  assert (Hsplit : 2 ^ Z.log2 z = 2 ^ 52 * 2 ^ e) by (rewrite <- Z.pow_add_r by lia; f_equal; lia).
  assert (Hsplit' : 2 ^ (Z.log2 z + 1) = 2 ^ 53 * 2 ^ e) by (rewrite <- Z.pow_add_r by lia; f_equal; lia).
  replace (Z.succ (Z.log2 z)) with (Z.log2 z + 1) in Hhi by lia.
  assert (Hq : 2 ^ 52 <= z / 2 ^ e < 2 ^ 53).
  { split; [apply Z.div_le_lower_bound|apply Z.div_lt_upper_bound]; lia. }
  repeat case_test; nia.
Qed.

Lemma double_of_Z_mono a b : a <= b -> double_of_Z a <= double_of_Z b.
Proof.
  intros Hab. destruct (Z.le_gt_cases b (2 ^ 53)) as [Hb|Hb].
  { by rewrite !double_of_Z_exact by lia. }
  pose proof (double_of_Z_binade b Hb) as [Hblo _].
  assert (Hlb : 53 <= Z.log2 b) by (apply Z.log2_le_pow2; lia).
  destruct (Z.le_gt_cases a (2 ^ 53)) as [Ha|Ha].
  { rewrite (double_of_Z_exact a) by done.
    pose proof (Z.pow_le_mono_r 2 53 (Z.log2 b)). lia. }
  pose proof (double_of_Z_binade a Ha) as [_ Hahi].
  pose proof (Z.log2_le_mono a b Hab) as Hlog.
  destruct (Z.le_lteq (Z.log2 a) (Z.log2 b)) as [Hcase _]. destruct (Hcase Hlog) as [Hlt|Heq].
  { pose proof (Z.pow_le_mono_r 2 (Z.log2 a + 1) (Z.log2 b)). lia. }
  unfold double_of_Z. rewrite !(proj2 (Z.leb_gt _ _)) by done. rewrite Heq.
  set (e := Z.log2 b - 52). assert (He : 0 < 2 ^ e) by (apply Z.pow_pos_nonneg; lia).
  pose proof (Z.div_le_mono a b _ He Hab) as Hq.
  pose proof (Z.div_mod a (2 ^ e) ltac:(lia)). pose proof (Z.div_mod b (2 ^ e) ltac:(lia)).
  apply Z.mul_le_mono_nonneg_r; [lia|].
  destruct (Z.eq_dec (a / 2 ^ e) (b / 2 ^ e)) as [Hqe|Hqe].
  - rewrite Hqe in *. repeat case_test; bool_hyps; lia.
  - repeat case_test; lia.
Qed.

Lemma tonumber_FormatUint n : is_uint64 n -> tonumber (FormatUint n 10) = Some (double_of_Z n).
Proof.
  intros Hn. unfold tonumber. rewrite (proj2 (String.eqb_neq _ _)) by apply FormatUint_nonempty.
  by rewrite parse_FormatUint by (done || lia).
Qed.

(** ** The scripts *)

Section scripts.
Context `{Redis}.

(** A script's reply, or [None] when Lua raises an error (comparing nil). *)
Definition upsertBidScript (active version : string) (id revision payload : string) (d : db) : db * option Z :=
  let accept := (hset (hset d active id payload) version id revision, Some 1) in
  match hash d version !! id with
  | None => accept
  | Some current =>
      match tonumber revision, tonumber current with
      | Some revision, Some existing =>
          if revision <? existing then (d, Some 0)
          else if revision =? existing then
            if decide (hash d active !! id = Some payload) then (d, Some 2) else (d, Some 0)
          else accept
      | _, _ => (d, None)
      end
  end.

Definition deleteBidScript (active version : string) (id revision : string) (d : db) : db * option Z :=
  let accept := (hset (hdel d active id) version id revision, Some 1) in
  match hash d version !! id with
  | None => accept
  | Some current =>
      match tonumber revision, tonumber current with
      | Some revision, Some existing =>
          if revision <? existing then (d, Some 0)
          else if revision =? existing then
            if decide (hash d active !! id = None) then (d, Some 2) else (d, Some 0)
          else accept
      | _, _ => (d, None)
      end
  end.
End scripts.

(** ** The abstract registry entry

    What the scripts implement, for one bid of one placement: a versioned cell that
    holds a payload, or a tombstone ([None]) once deleted. *)

Inductive verdict := Accepted | Idempotent | Stale.

#[export] Instance verdict_eq_dec : EqDecision verdict.
Proof. solve_decision. Defined.

Abbreviation cell := (option (Z * option string)).

Section spec.
Variable cmp : Z -> Z -> comparison.

Definition spec_write (current : cell) (revision : Z) (value : option string) : cell * verdict :=
  match current with
  | None => (Some (revision, value), Accepted)
  | Some (existing, stored) =>
      match cmp revision existing with
      | Lt => (current, Stale)
      | Eq => (current, if decide (stored = value) then Idempotent else Stale)
      | Gt => (Some (revision, value), Accepted)
      end
  end.
End spec.

(** The registry the documentation describes compares revisions as integers; the
    scripts compare their doubles. *)
Definition exact_compare (a b : Z) : comparison := Z.compare a b.
Definition lua_compare (a b : Z) : comparison := Z.compare (double_of_Z a) (double_of_Z b).

Lemma lua_compare_exact a b : a <= 2 ^ 53 -> b <= 2 ^ 53 -> lua_compare a b = exact_compare a b.
Proof. intros Ha Hb. unfold lua_compare. by rewrite !double_of_Z_exact. Qed.

Lemma lua_compare_gt a b : lua_compare a b = Gt -> b < a.
Proof.
  unfold lua_compare. rewrite Z.compare_gt_iff. intros H.
  destruct (Z.le_gt_cases a b) as [Hle|]; [|done].
  pose proof (double_of_Z_mono a b Hle). lia.
Qed.

Lemma lua_compare_le a b : a <= b -> lua_compare a b <> Gt.
Proof. intros Hab Hc. apply lua_compare_gt in Hc. lia. Qed.

Lemma lua_compare_refl a : lua_compare a a = Eq.
Proof. apply Z.compare_refl. Qed.

(** A second delivery of the same write changes nothing, and is reported as stale
    only if the first one was. *)
Lemma spec_write_again c rev v :
  let '(c', vd) := spec_write lua_compare c rev v in
  spec_write lua_compare c' rev v = (c', match vd with Stale => Stale | _ => Idempotent end).
Proof.
  unfold spec_write. destruct c as [[r s]|]; simpl.
  - destruct (lua_compare rev r) eqn:E; rewrite ?E, ?lua_compare_refl; simpl.
    + by case_decide.
    + done.
    + by rewrite decide_True.
  - by rewrite lua_compare_refl, decide_True.
Qed.

(** Cells only move forward: the revision never decreases, and a cell that keeps its
    revision keeps its value. *)
Definition cell_le (c c' : cell) : Prop :=
  match c, c' with
  | None, _ => True
  | Some _, None => False
  | Some (r, v), Some (r', v') => r < r' \/ (r = r' /\ v = v')
  end.

#[export] Instance cell_le_preorder : PreOrder cell_le.
Proof.
  split.
  - intros [[r v]|]; simpl; auto.
  - intros [[r v]|] [[r' v']|] [[r'' v'']|]; simpl; try done.
    intros [?|[-> ->]] [?|[-> ->]]; auto; left; lia.
Qed.

Lemma spec_write_forward c rev v : cell_le c (spec_write lua_compare c rev v).1.
Proof.
  unfold spec_write. destruct c as [[r s]|]; simpl; [|done].
  destruct (lua_compare rev r) eqn:E; simpl; auto. left. by apply lua_compare_gt.
Qed.

Lemma spec_write_stale c rev v : (spec_write lua_compare c rev v).2 = Stale -> (spec_write lua_compare c rev v).1 = c.
Proof. unfold spec_write. destruct c as [[r s]|]; simpl; [|done]. by destruct (lua_compare rev r). Qed.

Lemma spec_write_stored c rev v :
  (spec_write lua_compare c rev v).2 <> Stale ->
  exists r, (spec_write lua_compare c rev v).1 = Some (r, v) /\ double_of_Z r = double_of_Z rev.
Proof.
  unfold spec_write. destruct c as [[r s]|]; simpl; [|eauto].
  destruct (lua_compare rev r) eqn:E; simpl; [|done|eauto].
  case_decide as Hs; [|done]. intros _. exists r. subst. split; [done|].
  unfold lua_compare in E. by apply Z.compare_eq_iff in E.
Qed.

(** ** The scripts implement the cell *)

Section refinement.
Context `{Redis}.

(** Both scripts are one versioned write; only the new value differs. *)
Definition versioned_write (active version : string) (id revision : string) (value : option string) (d : db) : db * option Z :=
  let accept :=
    (hset (match value with Some p => hset d active id p | None => hdel d active id end) version id revision, Some 1) in
  match hash d version !! id with
  | None => accept
  | Some current =>
      match tonumber revision, tonumber current with
      | Some revision, Some existing =>
          if revision <? existing then (d, Some 0)
          else if revision =? existing then
            if decide (hash d active !! id = value) then (d, Some 2) else (d, Some 0)
          else accept
      | _, _ => (d, None)
      end
  end.

Lemma upsert_versioned active version id revision payload d :
  upsertBidScript active version id revision payload d
  = versioned_write active version id revision (Some payload) d.
Proof. done. Qed.

Lemma delete_versioned active version id revision d :
  deleteBidScript active version id revision d = versioned_write active version id revision None d.
Proof.
  unfold deleteBidScript, versioned_write. destruct (hash d version !! id); [|done].
  destruct (tonumber revision), (tonumber s); try done. repeat case_test; try done.
  by repeat case_decide.
Qed.

(** The version hash holds decimal uint64 numbers. *)
Definition decimal_versions (m : gmap string string) : Prop :=
  forall id v, m !! id = Some v -> exists r, is_uint64 r /\ v = FormatUint r 10.

Definition cell_of (d : db) (active version id : string) : cell :=
  match hash d version !! id with
  | None => None
  | Some v => match ParseUint v with
              | Some r => Some (r, hash d active !! id)
              | None => None
              end
  end.

Definition reply_of (v : verdict) : Z :=
  match v with Stale => 0 | Accepted => 1 | Idempotent => 2 end.

Definition set_field (id : string) (value : option string) (m : gmap string string) : gmap string string :=
  match value with Some p => <[id := p]> m | None => delete id m end.

Record hash_keys (active version : string) (d : db) : Prop := {
  keys_ne : active <> version;
  keys_active : members d active = ∅;
  keys_version : members d version = ∅
}.

(** Every observation of the database after an accepted write. *)
Lemma accept_observed active version id revision value d :
  hash_keys active version d ->
  let d' := hset (match value with Some p => hset d active id p | None => hdel d active id end) version id revision in
  (forall k, hash d' k = if decide (k = version) then <[id := revision]> (hash d version)
                         else if decide (k = active) then set_field id value (hash d active) else hash d k)
  /\ (forall k, members d' k = members d k) /\ published d' = published d.
Proof.
  intros [Hne Ha Hv]. set (d1 := match value with Some p => hset d active id p | None => hdel d active id end).
  assert (Hh : forall k, hash d1 k = if decide (active = k) then set_field id value (hash d active) else hash d k).
  { intros k. unfold d1. destruct value; [by apply hash_hset|by apply hash_hdel]. }
  assert (Hm : forall k, members d1 k = members d k).
  { intros k. unfold d1. destruct value; [by apply members_hset|by apply members_hdel]. }
  assert (Hp : published d1 = published d).
  { unfold d1. destruct value; [by apply published_hset|by apply published_hdel]. }
  simpl. repeat split; intros.
  - rewrite hash_hset, !Hh by (by rewrite Hm). repeat case_decide; simplify_eq; done.
  - by rewrite members_hset, Hm by (by rewrite Hm).
  - by rewrite published_hset.
Qed.

(** The scripts refine the abstract cell. *)
Lemma versioned_write_spec active version id rev value d :
  hash_keys active version d -> decimal_versions (hash d version) -> is_uint64 rev ->
  let '(d', reply) := versioned_write active version id (FormatUint rev 10) value d in
  let '(c', vd) := spec_write lua_compare (cell_of d active version id) rev value in
  reply = Some (reply_of vd) /\ cell_of d' active version id = c' /\
  (vd <> Accepted -> d' = d) /\
  (vd = Accepted ->
    (forall k, hash d' k = if decide (k = version) then <[id := FormatUint rev 10]> (hash d version)
                           else if decide (k = active) then set_field id value (hash d active) else hash d k)
    /\ (forall k, members d' k = members d k) /\ published d' = published d).
Proof.
  intros Hk Hdec Hrev. pose proof (accept_observed active version id (FormatUint rev 10) value d Hk) as Hacc.
  simpl in Hacc. destruct Hacc as (Hh & Hm & Hp).
  assert (Hcell : cell_of (hset (match value with Some p => hset d active id p | None => hdel d active id end)
                             version id (FormatUint rev 10)) active version id = Some (rev, value)).
  { unfold cell_of. rewrite !Hh. rewrite decide_True, lookup_insert_eq, ParseUint_FormatUint by done.
    rewrite decide_False by apply Hk. rewrite decide_True by done.
    destruct value; simpl; by simplify_map_eq. }
  unfold versioned_write, spec_write. unfold cell_of at 1.
  destruct (hash d version !! id) as [v|] eqn:Ev; [|done].
  destruct (Hdec id v Ev) as (r & Hr & ->).
  rewrite ParseUint_FormatUint, !tonumber_FormatUint by done. unfold lua_compare.
  assert (Hsame : cell_of d active version id = Some (r, hash d active !! id)).
  { unfold cell_of. by rewrite Ev, ParseUint_FormatUint. }
  destruct (Z.compare_spec (double_of_Z rev) (double_of_Z r)) as [He|Hl|Hg].
  - rewrite (proj2 (Z.ltb_ge _ _)), (proj2 (Z.eqb_eq _ _)) by lia. by case_decide.
  - by rewrite (proj2 (Z.ltb_lt _ _)).
  - by rewrite (proj2 (Z.ltb_ge _ _)), (proj2 (Z.eqb_neq _ _)) by lia.
Qed.
End refinement.
