(* ===== verification/Store.v ===== *)
(** * The bid registry (internal/ads/store.go)

    [RedisStore] runs each operation as a sequence of Redis commands over a network
    that can lose a command or its reply, or deliver a command more than once (the
    client library retries, and [retryTopology] runs the operation again in cluster
    mode). The operations are total functions on a world that holds the database and
    the fate of the coming calls; everything they do to the database is a sequence
    of [store_step]s, so the invariants hold for any number of servers working on
    the same Redis. *)

From S2P Require Import Prelude GoInt Utf8 Json JsonCodec.
From S2P Require Import Prelude GoInt GoString Types Ranking Redis.
Open Scope string_scope.
Open Scope list_scope.
Open Scope Z_scope.

(** ** Errors *)

Inductive error := ErrStaleBidRevision | ErrMsg (msg : string).

#[export] Instance error_eq_dec : EqDecision error.
Proof. solve_decision. Defined.

(** [errors.Is(err, ErrStaleBidRevision)]. *)
Definition is_stale_error (e : error) : bool :=
  match e with ErrStaleBidRevision => true | ErrMsg _ => false end.

Record RedisStore := mkRedisStore {
  rs_cluster : bool;     (* the [cluster] field is not nil *)
  rs_prefix : string
}.

Definition key (s : RedisStore) (parts : list string) : string := rs_prefix s +:+ ":" +:+ join_colon parts.
Definition activeKey (s : RedisStore) (placement : string) : string := key s ["active"; "{" +:+ placement +:+ "}"].
Definition versionKey (s : RedisStore) (placement : string) : string := key s ["active-version"; "{" +:+ placement +:+ "}"].
Definition placementsKey (s : RedisStore) : string := key s ["placements"].
Definition eventsKey (s : RedisStore) : string := key s ["bid-events"].

Section store.
Context `{Redis}.

(** ** The network *)

(** The fate of one client call: the command is executed [dups] extra times and
    then once more, whose reply arrives; or it is executed [execs] times and the
    call returns an error. With nothing scheduled a call simply works. *)
Inductive net := Reply (dups : nat) | Lost (execs : nat).

Record World := mkWorld { w_db : db; w_net : list net }.

Fixpoint execute {A} (op : db -> db * option A) (n : nat) (d : db) : db :=
  match n with
  | O => d
  | S n' => execute op n' (op d).1
  end.

(** One client call; [None] is an error. *)
Definition call {A} (op : db -> db * option A) (w : World) : World * option A :=
  match w_net w with
  | [] => let '(d, r) := op (w_db w) in (mkWorld d [], r)
  | Reply dups :: net => let '(d, r) := op (execute op dups (w_db w)) in (mkWorld d net, r)
  | Lost execs :: net => (mkWorld (execute op execs (w_db w)) net, None)
  end.

(** ** Operations *)

(** [fmt.Errorf("...: %w", err)] of a failed call. *)
Definition wrapped (msg : string) : string := String.append msg (String.append ": " redis_error).

Definition retryTopology {A} (s : RedisStore) (operation : db -> db * option A) (w : World) : World * option A :=
  let '(w, r) := call operation w in
  match r with
  | Some _ => (w, r)
  | None => if rs_cluster s then call operation w else (w, r)
  end.

Definition SAdd (k member : string) (d : db) : db * option unit := (sadd d k member, Some tt).
Definition Publish (channel message : string) (d : db) : db * option unit := (publish d channel message, Some tt).
Definition HGetAll (k : string) (d : db) : db * option (gmap string string) := (d, Some (hash d k)).
Definition SMembers (k : string) (d : db) : db * option (gset string) := (d, Some (members d k)).

(** One PING; it is not retried by [retryTopology]. *)
Definition PING (d : db) : db * option unit := (d, Some tt).

Definition RedisStore_Ping (s : RedisStore) (w : World) : World * option error :=
  let '(w, r) := call PING w in
  match r with Some _ => (w, None) | None => (w, Some (ErrMsg redis_error)) end.

Definition RedisStore_Upsert (s : RedisStore) (bid : Bid) (w : World) : World * option error :=
  let bid := Bid_Normalize bid in
  match Bid_Validate bid with
  | Some msg => (w, Some (ErrMsg msg))
  | None =>
  match json_Marshal bid with
  | None => (w, Some (ErrMsg "marshal bid"))
  | Some payload =>
  let '(w, r) := retryTopology s (SAdd (placementsKey s) (bid_PlacementID bid)) w in
  match r with
  | None => (w, Some (ErrMsg redis_error))
  | Some _ =>
  let '(w, r) := retryTopology s (upsertBidScript (activeKey s (bid_PlacementID bid)) (versionKey s (bid_PlacementID bid))
                                    (bid_ID bid) (FormatUint (bid_Revision bid) 10) payload) w in
  match r with
  | None => (w, Some (ErrMsg (wrapped "versioned bid upsert")))
  | Some result =>
  if result =? 0 then (w, Some ErrStaleBidRevision)
  else
  let '(w, r) := retryTopology s (Publish (eventsKey s) (bid_PlacementID bid)) w in
  match r with
  | None => (w, Some (ErrMsg (wrapped "publish bid invalidation")))
  | Some _ => (w, None)
  end end end end end.

Definition RedisStore_Delete (s : RedisStore) (placement bidID : string) (revision : Z) (w : World) : World * option error :=
  if String.eqb placement "" || String.eqb bidID "" || (revision =? 0) || (Z.shiftr MaxUint64 1 <? revision)
  then (w, Some (ErrMsg "placement_id, bid id, and valid revision are required"))
  else
  let '(w, r) := retryTopology s (SAdd (placementsKey s) placement) w in
  match r with
  | None => (w, Some (ErrMsg redis_error))
  | Some _ =>
  let '(w, r) := retryTopology s (deleteBidScript (activeKey s placement) (versionKey s placement)
                                    bidID (FormatUint revision 10)) w in
  match r with
  | None => (w, Some (ErrMsg (wrapped "versioned bid delete")))
  | Some result =>
  if result =? 0 then (w, Some ErrStaleBidRevision)
  else
  let '(w, r) := retryTopology s (Publish (eventsKey s) placement) w in
  match r with
  | None => (w, Some (ErrMsg (wrapped "publish bid invalidation")))
  | Some _ => (w, None)
  end end end.

(** The decoding loop of [Fetch]; [None] is a decode error. *)
Fixpoint decode_bids (placement : string) (payloads : list string) : option (list Bid) :=
  match payloads with
  | [] => Some []
  | payload :: rest =>
      match json_Unmarshal payload with
      | None => None
      | Some bid =>
          let bid := Bid_Normalize bid in
          match Bid_Validate bid with
          | None =>
              if String.eqb (bid_PlacementID bid) placement
              then cons bid <$> decode_bids placement rest
              else decode_bids placement rest
          | Some _ => decode_bids placement rest
          end
      end
  end.

(** [range] is the order in which this execution iterates over the Go map. *)
Definition RedisStore_Fetch (s : RedisStore) (range : gmap string string -> list (string * string))
    (placement : string) (w : World) : World * (error + list Bid) :=
  let '(w, r) := retryTopology s (HGetAll (activeKey s placement)) w in
  match r with
  | None => (w, inl (ErrMsg redis_error))
  | Some values =>
      match decode_bids placement (snd <$> range values) with
      | None => (w, inl (ErrMsg "decode active bid"))
      | Some bids => (w, inr (sortBids bids))
      end
  end.

Definition RedisStore_Placements (s : RedisStore) (w : World) : World * (error + list string) :=
  let '(w, r) := retryTopology s (SMembers (placementsKey s)) w in
  match r with
  | None => (w, inl (ErrMsg redis_error))
  | Some placements => (w, inr (merge_sort String.le (elements placements)))
  end.
End store.

(** ** Keys *)

(** Different placements have different keys, and the four families of keys do not
    overlap. *)
Lemma activeKey_inj s p q : activeKey s p = activeKey s q -> p = q.
Proof.
  unfold activeKey, key. intros He. do 2 apply (inj (String.append _)) in He.
  simpl in He. injection He as He. apply separator_inj_r in He; [tauto|done|done].
Qed.

Lemma versionKey_inj s p q : versionKey s p = versionKey s q -> p = q.
Proof.
  unfold versionKey, key. intros He. do 2 apply (inj (String.append _)) in He.
  simpl in He. injection He as He. apply separator_inj_r in He; [tauto|done|done].
Qed.

Lemma active_version_ne s p q : activeKey s p <> versionKey s q.
Proof. unfold activeKey, versionKey, key. intros He. do 2 apply (inj (String.append _)) in He. done. Qed.

Lemma active_placements_ne s p : activeKey s p <> placementsKey s.
Proof. unfold activeKey, placementsKey, key. intros He. do 2 apply (inj (String.append _)) in He. done. Qed.

Lemma version_placements_ne s p : versionKey s p <> placementsKey s.
Proof. unfold versionKey, placementsKey, key. intros He. do 2 apply (inj (String.append _)) in He. done. Qed.

#[export] Hint Resolve active_version_ne active_placements_ne version_placements_ne : ads.

Section store_facts.
Context `{Redis} (s : RedisStore).

(** ** The registry as abstract cells *)

Definition registry (d : db) (p id : string) : cell := cell_of d (activeKey s p) (versionKey s p) id.

Definition stored_bid (b : Bid) : Prop := Bid_wf true b /\ Bid_typed b /\ Bid_utf8 b.

(** The database is one this program can have written. *)
Record Consistent (d : db) : Prop := {
  cons_active_type p : members d (activeKey s p) = ∅;
  cons_version_type p : members d (versionKey s p) = ∅;
  cons_index_type : hash d (placementsKey s) = ∅;
  cons_versions p id v : hash d (versionKey s p) !! id = Some v ->
    exists r, 0 < r <= MaxInt64 /\ v = FormatUint r 10;
  cons_active p id payload : hash d (activeKey s p) !! id = Some payload ->
    exists b, stored_bid b /\ json_Marshal b = Some payload /\ bid_ID b = id /\ bid_PlacementID b = p
      /\ hash d (versionKey s p) !! id = Some (FormatUint (bid_Revision b) 10);
  cons_index p id v : hash d (versionKey s p) !! id = Some v -> p ∈ members d (placementsKey s)
}.

(** ** One command *)

(** A value this program writes for revision [rev] of bid [id] of placement [p]. *)
Definition writable (p id : string) (rev : Z) (value : option string) : Prop :=
  match value with
  | None => True
  | Some payload => exists b, stored_bid b /\ json_Marshal b = Some payload
      /\ bid_ID b = id /\ bid_PlacementID b = p /\ bid_Revision b = rev
  end.

Definition write_op (p id : string) (rev : Z) (value : option string) : db -> db * option Z :=
  versioned_write (activeKey s p) (versionKey s p) id (FormatUint rev 10) value.

Inductive store_step (d : db) : db -> Prop :=
  | step_sadd p : store_step d (sadd d (placementsKey s) p)
  | step_write p id rev value :
      p ∈ members d (placementsKey s) -> 0 < rev <= MaxInt64 -> writable p id rev value ->
      store_step d (write_op p id rev value d).1
  | step_publish p : store_step d (publish d (eventsKey s) p).

Lemma Consistent_keys d p : Consistent d -> hash_keys (activeKey s p) (versionKey s p) d.
Proof. intros []. by constructor; auto with ads. Qed.

Lemma Consistent_decimal d p : Consistent d -> decimal_versions (hash d (versionKey s p)).
Proof. intros Hc id v Hv. destruct (cons_versions d Hc p id v Hv) as (r & Hr & ->). exists r. split; [unfold_int; lia|done]. Qed.

(** What one write does: the cell follows the abstract write, and either nothing
    changes or exactly the two fields of the cell do. *)
Lemma write_op_spec d p id rev value :
  Consistent d -> 0 < rev <= MaxInt64 ->
  let '(c', vd) := spec_write lua_compare (registry d p id) rev value in
  (write_op p id rev value d).2 = Some (reply_of vd)
  /\ registry (write_op p id rev value d).1 p id = c'
  /\ (vd <> Accepted -> (write_op p id rev value d).1 = d)
  /\ (vd = Accepted ->
      (forall k, hash (write_op p id rev value d).1 k =
         if decide (k = versionKey s p) then <[id := FormatUint rev 10]> (hash d (versionKey s p))
         else if decide (k = activeKey s p) then set_field id value (hash d (activeKey s p)) else hash d k)
      /\ (forall k, members (write_op p id rev value d).1 k = members d k)
      /\ published (write_op p id rev value d).1 = published d).
Proof.
  intros Hc Hr. unfold write_op, registry.
  assert (Hu : is_uint64 rev) by (unfold_int; lia).
  pose proof (versioned_write_spec (activeKey s p) (versionKey s p) id rev value d
                (Consistent_keys d p Hc) (Consistent_decimal d p Hc) Hu) as Hs.
  destruct (versioned_write _ _ _ _ _ _) as [d' reply]. done.
Qed.

Lemma set_field_lookup (id id' : string) value (m : gmap string string) :
  set_field id value m !! id' = if decide (id = id') then value else m !! id'.
Proof. destruct value; simpl; case_decide; by simplify_map_eq. Qed.

Lemma Consistent_step d d2 : Consistent d -> store_step d d2 -> Consistent d2.
Proof.
  intros Hc [p | p id rev value Hin Hrev Hval | p].
  - destruct Hc. constructor; intros *; rewrite ?hash_sadd, ?members_sadd by done; rewrite ?decide_False by auto with ads; eauto.
    intros Hv. apply cons_index0 in Hv. rewrite decide_True by done. set_solver.
  - pose proof (write_op_spec d p id rev value Hc Hrev) as Hs.
    destruct (spec_write lua_compare (registry d p id) rev value) as [c' vd].
    destruct Hs as (_ & _ & Hsame & Hacc).
    destruct (decide (vd = Accepted)) as [Hvd|Hvd]; [|by rewrite Hsame].
    destruct (Hacc Hvd) as (Hh & Hm & _). set (d' := (write_op p id rev value d).1) in *.
    constructor.
    + intros q. rewrite Hm. apply Hc.
    + intros q. rewrite Hm. apply Hc.
    + rewrite Hh, !decide_False by auto with ads. apply Hc.
    + intros q id' v. rewrite Hh. case_decide as Hq; [|rewrite decide_False by auto with ads; apply Hc].
      rewrite lookup_insert. case_decide; [intros [= <-]; eauto|apply Hc].
    + intros q id' payload. rewrite !Hh, (decide_False (P := activeKey s q = versionKey s p)) by auto with ads.
      destruct (decide (activeKey s q = activeKey s p)) as [Hq|Hq].
      * apply activeKey_inj in Hq as ->. rewrite decide_True by done.
        rewrite set_field_lookup, lookup_insert. case_decide; [|apply Hc].
        intros ->. destruct Hval as (b & ? & ? & ? & ? & ?). exists b. subst. done.
      * rewrite decide_False by (intros ->%versionKey_inj; done).
        rewrite decide_False by auto with ads. apply Hc.
    + intros q id' v. rewrite Hh, Hm. case_decide as Hq; [apply versionKey_inj in Hq as ->; done|].
      rewrite decide_False by auto with ads. apply Hc.
  - destruct Hc. constructor; intros *; rewrite ?hash_publish, ?members_publish; eauto.
Qed.

(** Cells of other bids are not touched; the cell of this one moves forward. *)
Lemma registry_write_other d p id rev value q id' :
  Consistent d -> 0 < rev <= MaxInt64 -> (q, id') <> (p, id) ->
  registry (write_op p id rev value d).1 q id' = registry d q id'.
Proof.
  intros Hc Hrev Hne. pose proof (write_op_spec d p id rev value Hc Hrev) as Hs.
  destruct (spec_write lua_compare (registry d p id) rev value) as [c' vd].
  destruct Hs as (_ & _ & Hsame & Hacc).
  destruct (decide (vd = Accepted)) as [Hvd|Hvd]; [|by rewrite Hsame].
  destruct (Hacc Hvd) as (Hh & _ & _). unfold registry, cell_of.
  rewrite !Hh, (decide_False (P := activeKey s q = versionKey s p)) by auto with ads.
  destruct (decide (q = p)) as [->|Hq].
  - rewrite !decide_True by done. rewrite set_field_lookup, lookup_insert_ne, decide_False by congruence. done.
  - rewrite (decide_False (P := versionKey s q = versionKey s p)) by (intros ->%versionKey_inj; done).
    rewrite decide_False by (symmetry; auto with ads).
    rewrite decide_False by (intros ->%activeKey_inj; done). done.
Qed.

Lemma registry_step d d2 p id :
  Consistent d -> store_step d d2 -> cell_le (registry d p id) (registry d2 p id).
Proof.
  intros Hc [q | q id' rev value Hin Hrev Hval | q].
  - unfold registry, cell_of. rewrite !hash_sadd by apply Hc. done.
  - destruct (decide ((p, id) = (q, id'))) as [[= -> ->]|Hne]; [|by rewrite registry_write_other].
    pose proof (write_op_spec d q id' rev value Hc Hrev) as Hs.
    pose proof (spec_write_forward (registry d q id') rev value) as Hf.
    destruct (spec_write lua_compare (registry d q id') rev value) as [c' vd].
    destruct Hs as (_ & -> & _). done.
  - unfold registry, cell_of. rewrite !hash_publish. done.
Qed.

Lemma index_step d d2 p :
  Consistent d -> store_step d d2 -> p ∈ members d (placementsKey s) -> p ∈ members d2 (placementsKey s).
Proof.
  intros Hc [q | q id' rev value Hin Hrev Hval | q] Hp.
  - rewrite members_sadd, decide_True by (done || apply Hc). set_solver.
  - pose proof (write_op_spec d q id' rev value Hc Hrev) as Hs.
    destruct (spec_write lua_compare (registry d q id') rev value) as [c' vd].
    destruct Hs as (_ & _ & Hsame & Hacc).
    destruct (decide (vd = Accepted)) as [Hvd|Hvd]; [|by rewrite Hsame].
    destruct (Hacc Hvd) as (_ & Hm & _). by rewrite Hm.
  - by rewrite members_publish.
Qed.

(** ** Sequences of commands, of one client or of many *)

Lemma Consistent_rtc d d2 : rtc store_step d d2 -> Consistent d -> Consistent d2.
Proof. apply (rtc_invariant store_step Consistent). eauto using Consistent_step. Qed.

Lemma registry_rtc d d2 p id :
  rtc store_step d d2 -> Consistent d -> cell_le (registry d p id) (registry d2 p id).
Proof.
  induction 1 as [|d d1 d2 H1 _ IH]; intros Hc; [done|].
  etrans; [by apply registry_step|]. apply IH. by eapply Consistent_step.
Qed.

(** ** Calls *)

Lemma execute_invariant {A} (op : db -> db * option A) (I : db -> Prop) n d :
  (forall d, I d -> I (op d).1) -> I d -> I (execute op n d).
Proof. intros Hop. revert d. induction n; simpl; auto. Qed.

(** After a call that returned an error the operation ran some number of times;
    after one that returned, at least once and the reply is that of the last run. *)
Lemma call_executes {A} (op : db -> db * option A) w w2 r :
  call op w = (w2, r) ->
  (exists n, w_db w2 = execute op n (w_db w) /\ r = None)
  \/ (exists n, w_db w2 = (op (execute op n (w_db w))).1 /\ r = (op (execute op n (w_db w))).2).
Proof.
  unfold call. destruct (w_net w) as [|[n|n] net]; intros Hc.
  - right. exists O. simpl. destruct (op (w_db w)). by simplify_eq.
  - right. exists n. destruct (op (execute op n (w_db w))). by simplify_eq.
  - left. exists n. by simplify_eq.
Qed.

Lemma execute_add {A} (op : db -> db * option A) n m d :
  execute op m (execute op n d) = execute op (n + m) d.
Proof. revert d. induction n; simpl; auto. Qed.

Lemma retry_executes {A} (op : db -> db * option A) w w2 r :
  retryTopology s op w = (w2, r) ->
  (exists n, w_db w2 = execute op n (w_db w) /\ r = None)
  \/ (exists n, w_db w2 = (op (execute op n (w_db w))).1 /\ r = (op (execute op n (w_db w))).2).
Proof.
  unfold retryTopology. destruct (call op w) as [w1 r1] eqn:E1.
  destruct (call_executes _ _ _ _ E1) as [(n & Hd & ->)|(n & Hd & Hr)].
  - destruct (rs_cluster s); [|intros; simplify_eq; eauto]. intros E2.
    destruct (call_executes _ _ _ _ E2) as [(m & Hd2 & ->)|(m & Hd2 & ->)]; rewrite Hd, execute_add in *; eauto.
  - destruct r1 as [a|]; [intros; simplify_eq; eauto|].
    destruct (rs_cluster s); [|intros; simplify_eq; eauto]. intros E2.
    assert (Hx : forall m, execute op m ((op (execute op n (w_db w))).1) = execute op (S n + m) (w_db w)).
    { intros m. change (execute op m (execute op 1 (execute op n (w_db w))) = execute op (S n + m) (w_db w)).
      rewrite !execute_add. f_equal. lia. }
    destruct (call_executes _ _ _ _ E2) as [(m & Hd2 & ->)|(m & Hd2 & ->)]; rewrite Hd, Hx in *; eauto.
Qed.

Lemma call_no_fault {A} (op : db -> db * option A) d r :
  (op d).2 = Some r -> retryTopology s op (mkWorld d []) = (mkWorld (op d).1 [], Some r).
Proof. intros Hr. unfold retryTopology, call. simpl. by destruct (op d) as [d1 [a|]]; simplify_eq/=. Qed.

(** A delivered write is a fixed point: delivering it again changes nothing and
    answers idempotent, or stale if the first delivery was stale. *)
Definition redelivered (vd : verdict) : verdict :=
  match vd with Stale => Stale | _ => Idempotent end.

Lemma write_op_again d p id rev value :
  Consistent d -> p ∈ members d (placementsKey s) -> 0 < rev <= MaxInt64 -> writable p id rev value ->
  let d1 := (write_op p id rev value d).1 in
  (write_op p id rev value d1).1 = d1
  /\ (write_op p id rev value d1).2
     = Some (reply_of (redelivered (spec_write lua_compare (registry d p id) rev value).2)).
Proof.
  intros Hc Hin Hrev Hval d1.
  assert (Hc1 : Consistent d1) by (eapply Consistent_step; [done|by constructor]).
  pose proof (write_op_spec d p id rev value Hc Hrev) as Hs.
  pose proof (write_op_spec d1 p id rev value Hc1 Hrev) as Hs1.
  pose proof (spec_write_again (registry d p id) rev value) as Hag.
  destruct (spec_write lua_compare (registry d p id) rev value) as [c' vd] eqn:E.
  destruct Hs as (_ & Hreg & _). fold d1 in Hreg. rewrite Hreg, Hag in Hs1.
  destruct Hs1 as (Hr1 & _ & Hsame & _). split; [|by destruct vd]. apply Hsame. by destruct vd.
Qed.

Lemma execute_write d p id rev value n :
  Consistent d -> p ∈ members d (placementsKey s) -> 0 < rev <= MaxInt64 -> writable p id rev value ->
  execute (write_op p id rev value) (S n) d = (write_op p id rev value d).1.
Proof.
  intros Hc Hin Hrev Hval. simpl.
  destruct (write_op_again d p id rev value Hc Hin Hrev Hval) as [Hfix _].
  set (d1 := (write_op p id rev value d).1) in *. clearbody d1.
  induction n as [|n IH]; simpl; [done|]. by rewrite Hfix.
Qed.

(** The reply to a write delivered after [n] earlier deliveries. *)
Lemma write_after d p id rev value n :
  Consistent d -> p ∈ members d (placementsKey s) -> 0 < rev <= MaxInt64 -> writable p id rev value ->
  let '(c', vd) := spec_write lua_compare (registry d p id) rev value in
  let r := write_op p id rev value (execute (write_op p id rev value) n d) in
  r.1 = (write_op p id rev value d).1
  /\ r.2 = Some (reply_of (if n is O then vd else redelivered vd)).
Proof.
  intros Hc Hin Hrev Hval. pose proof (write_op_spec d p id rev value Hc Hrev) as Hs.
  destruct (write_op_again d p id rev value Hc Hin Hrev Hval) as [Hfix Hrep].
  destruct (spec_write lua_compare (registry d p id) rev value) as [c' vd].
  destruct n as [|n]; [simpl; split; [done|apply Hs]|].
  by rewrite execute_write.
Qed.

Lemma execute_sadd d p n :
  Consistent d ->
  let d1 := execute (SAdd (placementsKey s) p) n d in
  rtc store_step d d1 /\ (forall q id, registry d1 q id = registry d q id).
Proof.
  intros Hc. revert d Hc. induction n as [|n IH]; intros d Hc; simpl; [done|].
  pose proof (step_sadd d p) as Hstep.
  destruct (IH (sadd d (placementsKey s) p)) as [Hrtc Hreg]; [by eapply Consistent_step|].
  split; [by eapply rtc_l|]. intros q id. rewrite Hreg.
  unfold registry, cell_of. by rewrite !hash_sadd by apply Hc.
Qed.

Lemma execute_publish d p n :
  let d1 := execute (Publish (eventsKey s) p) n d in
  rtc store_step d d1 /\ (forall q id, registry d1 q id = registry d q id).
Proof.
  revert d. induction n as [|n IH]; intros d; simpl; [done|].
  destruct (IH (publish d (eventsKey s) p)) as [Hrtc Hreg].
  split; [eapply rtc_l; [apply step_publish|done]|]. intros q id. rewrite Hreg.
  unfold registry, cell_of. by rewrite !hash_publish.
Qed.

(** The three phases as [retryTopology] runs them. *)
Lemma retry_sadd p w w1 r :
  Consistent (w_db w) -> retryTopology s (SAdd (placementsKey s) p) w = (w1, r) ->
  rtc store_step (w_db w) (w_db w1)
  /\ (forall q id, registry (w_db w1) q id = registry (w_db w) q id)
  /\ (is_Some r -> p ∈ members (w_db w1) (placementsKey s)).
Proof.
  intros Hc Hr. apply retry_executes in Hr as [(n & -> & ->)|(n & -> & _)].
  - destruct (execute_sadd (w_db w) p n Hc) as [? ?]. repeat split; [done..|]. by intros [? ?].
  - destruct (execute_sadd (w_db w) p n Hc) as [Hrtc Hreg].
    assert (Hc1 : Consistent (execute (SAdd (placementsKey s) p) n (w_db w))) by (by eapply Consistent_rtc).
    repeat split.
    + eapply rtc_r; [done|]. apply step_sadd.
    + intros q id. rewrite <- Hreg. unfold registry, cell_of. simpl. by rewrite !hash_sadd by apply Hc1.
    + intros _. simpl. rewrite members_sadd, decide_True by (done || apply Hc1). set_solver.
Qed.

Lemma retry_publish p w w1 r :
  retryTopology s (Publish (eventsKey s) p) w = (w1, r) ->
  rtc store_step (w_db w) (w_db w1)
  /\ (forall q id, registry (w_db w1) q id = registry (w_db w) q id)
  /\ (is_Some r -> (eventsKey s, p) ∈ published (w_db w1)).
Proof.
  intros Hr. apply retry_executes in Hr as [(n & -> & ->)|(n & -> & _)].
  - destruct (execute_publish (w_db w) p n) as [? ?]. repeat split; [done..|]. by intros [? ?].
  - destruct (execute_publish (w_db w) p n) as [Hrtc Hreg]. repeat split.
    + eapply rtc_r; [done|]. apply step_publish.
    + intros q id. rewrite <- Hreg. unfold registry, cell_of. simpl. by rewrite !hash_publish.
    + intros _. simpl. rewrite published_publish. set_solver.
Qed.

Lemma retry_write p id rev value w w1 r :
  Consistent (w_db w) -> p ∈ members (w_db w) (placementsKey s) -> 0 < rev <= MaxInt64 -> writable p id rev value ->
  retryTopology s (write_op p id rev value) w = (w1, r) ->
  let vd := (spec_write lua_compare (registry (w_db w) p id) rev value).2 in
  let d1 := (write_op p id rev value (w_db w)).1 in
  (r = None /\ (w_db w1 = w_db w \/ w_db w1 = d1))
  \/ (w_db w1 = d1 /\ exists vd', r = Some (reply_of vd') /\ (vd' = Stale <-> vd = Stale)).
Proof.
  intros Hc Hin Hrev Hval Hr vd d1.
  apply retry_executes in Hr as [(n & Hd & ->)|(n & Hd & Hr)].
  - left. split; [done|]. rewrite Hd. destruct n as [|n]; [by left|right]. by apply execute_write.
  - right. pose proof (write_after (w_db w) p id rev value n Hc Hin Hrev Hval) as Ha.
    unfold vd. destruct (spec_write lua_compare (registry (w_db w) p id) rev value) as [c' v].
    destruct Ha as [Ha1 Ha2]. rewrite Hd, Ha1. split; [done|].
    rewrite Hr, Ha2. eexists. split; [done|]. destruct n, v; simpl; split; done.
Qed.

(** ** Upsert and Delete

    Once its arguments are accepted, a mutation is the same three phases for both;
    [update] is that body and [mutation_outcome] what it guarantees. *)
Definition update (msg p id : string) (rev : Z) (value : option string) (w : World) : World * option error :=
  let '(w, r) := retryTopology s (SAdd (placementsKey s) p) w in
  match r with
  | None => (w, Some (ErrMsg redis_error))
  | Some _ =>
  let '(w, r) := retryTopology s (write_op p id rev value) w in
  match r with
  | None => (w, Some (ErrMsg msg))
  | Some result =>
  if result =? 0 then (w, Some ErrStaleBidRevision)
  else
  let '(w, r) := retryTopology s (Publish (eventsKey s) p) w in
  match r with
  | None => (w, Some (ErrMsg (wrapped "publish bid invalidation")))
  | Some _ => (w, None)
  end end end.

Definition mutation_outcome (cmp : Z -> Z -> comparison) (p id : string) (rev : Z) (value : option string)
    (d d' : db) (e : option error) : Prop :=
  let '(c', vd) := spec_write cmp (registry d p id) rev value in
  rtc store_step d d'
  /\ (forall q id', (q, id') <> (p, id) -> registry d' q id' = registry d q id')
  /\ (registry d' p id = registry d p id \/ registry d' p id = c')
  /\ (e = None -> registry d' p id = c' /\ vd <> Stale /\ (eventsKey s, p) ∈ published d')
  /\ (e = Some ErrStaleBidRevision -> vd = Stale /\ registry d' p id = registry d p id).

(** The write phase from a state where the placement is indexed. *)
Lemma write_phase p id rev value d d1 :
  Consistent d -> p ∈ members d (placementsKey s) -> 0 < rev <= MaxInt64 -> writable p id rev value ->
  d1 = d \/ d1 = (write_op p id rev value d).1 ->
  let c' := (spec_write lua_compare (registry d p id) rev value).1 in
  rtc store_step d d1
  /\ (forall q id', (q, id') <> (p, id) -> registry d1 q id' = registry d q id')
  /\ (registry d1 p id = registry d p id \/ registry d1 p id = c')
  /\ (d1 = (write_op p id rev value d).1 -> registry d1 p id = c').
Proof.
  intros Hc Hin Hrev Hval Hd.
  pose proof (write_op_spec d p id rev value Hc Hrev) as Hs.
  destruct (spec_write lua_compare (registry d p id) rev value) as [c' vd].
  destruct Hs as (_ & Hreg & _). destruct Hd as [->| ->].
  - split; [done|]. split; [done|]. split; [by left|]. intros Heq. by rewrite <- Heq in Hreg.
  - split; [apply rtc_once; by constructor|]. split; [intros; by apply registry_write_other|].
    split; [by right|done].
Qed.

Lemma update_outcome msg p id rev value w w2 e :
  Consistent (w_db w) -> 0 < rev <= MaxInt64 -> writable p id rev value ->
  update msg p id rev value w = (w2, e) -> mutation_outcome lua_compare p id rev value (w_db w) (w_db w2) e.
Proof.
  intros Hc Hrev Hval. unfold update, mutation_outcome.
  destruct (retryTopology s (SAdd (placementsKey s) p) w) as [w1 r1] eqn:E1.
  destruct (retry_sadd _ _ _ _ Hc E1) as (Hrtc1 & Hreg1 & Hin1). rewrite <- (Hreg1 p id).
  assert (Hc1 : Consistent (w_db w1)) by (by eapply Consistent_rtc).
  destruct (spec_write lua_compare (registry (w_db w1) p id) rev value) as [c' vd] eqn:Es.
  destruct r1 as [u|]; [|intros [= <- <-]; split_and!; (done || by auto)].
  specialize (Hin1 (mk_is_Some _ _ eq_refl)).
  destruct (retryTopology s (write_op p id rev value) w1) as [w3 r3] eqn:E3.
  pose proof (retry_write _ _ _ _ _ _ _ Hc1 Hin1 Hrev Hval E3) as Hw.
  pose proof (write_phase p id rev value (w_db w1) (w_db w3) Hc1 Hin1 Hrev Hval) as Hph.
  rewrite Es in Hw, Hph. simpl in Hw, Hph.
  destruct Hw as [[-> Hd3]|(Hd3 & vd' & -> & Hvd)].
  { destruct (Hph Hd3) as (Hrtc3 & Hoth & Hor & _). intros [= <- <-].
    split_and!; [by etrans|intros; by rewrite Hoth, Hreg1|done|done|done]. }
  destruct (Hph (or_intror Hd3)) as (Hrtc3 & Hoth & Hor & Hnew). specialize (Hnew Hd3).
  destruct (Z.eqb_spec (reply_of vd') 0) as [Hz|Hz].
  - assert (vd = Stale) as ->  by (apply Hvd; by destruct vd'). intros [= <- <-].
    pose proof (spec_write_stale (registry (w_db w1) p id) rev value) as Hst.
    rewrite Es in Hst. simpl in Hst. rewrite Hst in Hnew by done.
    split_and!; [by etrans|intros; by rewrite Hoth, Hreg1|by left|done|done].
  - assert (vd <> Stale) by (intros Hv; apply Hz; by rewrite (proj2 Hvd Hv)).
    destruct (retryTopology s (Publish (eventsKey s) p) w3) as [w4 r4] eqn:E4.
    destruct (retry_publish _ _ _ _ E4) as (Hrtc4 & Hreg4 & Hpub4).
    destruct r4 as [u4|]; intros [= <- <-]; rewrite Hreg4; (split_and!;
      [by do 2 (etrans; [done|])|intros; by rewrite Hreg4, Hoth, Hreg1|by right|done || eauto|done]).
Qed.

(** On a network without faults a mutation returns its verdict. *)
Lemma update_no_fault msg p id rev value d w2 e :
  Consistent d -> 0 < rev <= MaxInt64 -> writable p id rev value ->
  update msg p id rev value (mkWorld d []) = (w2, e) ->
  e = match (spec_write lua_compare (registry d p id) rev value).2 with
      | Stale => Some ErrStaleBidRevision
      | _ => None
      end.
Proof.
  intros Hc Hrev Hval. unfold update.
  rewrite (call_no_fault (SAdd (placementsKey s) p) d tt) by done. simpl.
  set (d1 := sadd d (placementsKey s) p).
  assert (Hc1 : Consistent d1) by (eapply Consistent_step; [done|constructor]).
  assert (Hreg : registry d1 p id = registry d p id).
  { unfold registry, cell_of, d1. by rewrite !hash_sadd by apply Hc. }
  pose proof (write_op_spec d1 p id rev value Hc1 Hrev) as Hs. rewrite Hreg in Hs.
  destruct (spec_write lua_compare (registry d p id) rev value) as [c' vd]. destruct Hs as (Hr & _).
  rewrite (call_no_fault _ _ _ Hr). simpl.
  destruct vd; simpl; rewrite ?(call_no_fault (Publish (eventsKey s) p) _ tt) by done; by intros [= _ <-].
Qed.

Lemma mutation_outcome_ext cmp cmp' p id rev value d d' e :
  (forall r v, registry d p id = Some (r, v) -> cmp rev r = cmp' rev r) ->
  mutation_outcome cmp p id rev value d d' e -> mutation_outcome cmp' p id rev value d d' e.
Proof.
  intros Hcmp. unfold mutation_outcome, spec_write.
  destruct (registry d p id) as [[r v]|]; [|done]. by rewrite (Hcmp r v).
Qed.

Lemma Upsert_update b payload w :
  Bid_wf true b -> json_Marshal b = Some payload ->
  RedisStore_Upsert s b w
  = update (wrapped "versioned bid upsert") (bid_PlacementID b) (bid_ID b) (bid_Revision b) (Some payload) w.
Proof.
  intros Hwf Hm. unfold RedisStore_Upsert. rewrite (Bid_wf_normalized _ _ Hwf).
  unfold Bid_Validate. rewrite (proj2 (Bid_validate_wf true b) Hwf), Hm. done.
Qed.

(** [retryTopology] only depends on what its operation does. *)
Lemma execute_ext {A} (op op' : db -> db * option A) n d :
  (forall d, op d = op' d) -> execute op n d = execute op' n d.
Proof. intros He. revert d. induction n; intros d; simpl; [done|]. by rewrite He. Qed.

Lemma call_ext {A} (op op' : db -> db * option A) w : (forall d, op d = op' d) -> call op w = call op' w.
Proof.
  intros He. unfold call. destruct (w_net w) as [|[n|n] net]; rewrite ?He, ?(execute_ext op op') by done; done.
Qed.

Lemma retry_ext {A} (op op' : db -> db * option A) w :
  (forall d, op d = op' d) -> retryTopology s op w = retryTopology s op' w.
Proof.
  intros He. unfold retryTopology. rewrite (call_ext op op') by done.
  destruct (call op' w) as [w1 [a|]]; [done|]. destruct (rs_cluster s); [by apply call_ext|done].
Qed.

Definition delete_accepts (p id : string) (rev : Z) : Prop := p <> "" /\ id <> "" /\ 0 < rev <= MaxInt64.

Lemma Delete_update p id rev w :
  delete_accepts p id rev ->
  RedisStore_Delete s p id rev w = update (wrapped "versioned bid delete") p id rev None w.
Proof.
  intros (Hp & Hid & Hrev). unfold RedisStore_Delete, update.
  change (Z.shiftr MaxUint64 1) with MaxInt64.
  rewrite (proj2 (String.eqb_neq p "")), (proj2 (String.eqb_neq id "")) by done.
  rewrite (proj2 (Z.eqb_neq rev 0)), (proj2 (Z.ltb_ge MaxInt64 rev)) by lia. simpl.
  destruct (retryTopology s (SAdd (placementsKey s) p) w) as [w1 [u|]]; [|done].
  rewrite (retry_ext (deleteBidScript (activeKey s p) (versionKey s p) id (FormatUint rev 10)) (write_op p id rev None)); [done|].
  intros d. apply delete_versioned.
Qed.

Lemma stored_writable b payload :
  stored_bid b -> json_Marshal b = Some payload ->
  writable (bid_PlacementID b) (bid_ID b) (bid_Revision b) (Some payload) /\ 0 < bid_Revision b <= MaxInt64.
Proof.
  intros Hb Hm. pose proof Hb as (Hwf & Ht & _). split; [exists b; done|].
  destruct (wf_Revision _ _ Hwf eq_refl). destruct (typed_Revision _ Ht). lia.
Qed.

(** Valid mutations keep the database consistent. *)
Lemma Upsert_Consistent b w :
  Consistent (w_db w) -> stored_bid b -> Consistent (w_db (RedisStore_Upsert s b w).1).
Proof.
  intros Hc Hb. destruct (Marshal_total b) as (payload & Hm).
  destruct (stored_writable b payload Hb Hm) as [Hw Hr].
  destruct (RedisStore_Upsert s b w) as [w2 e] eqn:E.
  rewrite (Upsert_update b payload) in E by (done || apply Hb).
  pose proof (update_outcome _ _ _ _ _ _ w2 e Hc Hr Hw E) as Ho.
  unfold mutation_outcome in Ho. destruct (spec_write _ _ _ _). destruct Ho as (Hrtc & _).
  by apply (Consistent_rtc _ _ Hrtc).
Qed.

Lemma Delete_Consistent p id rev w :
  Consistent (w_db w) -> delete_accepts p id rev -> Consistent (w_db (RedisStore_Delete s p id rev w).1).
Proof.
  intros Hc Ha. destruct (RedisStore_Delete s p id rev w) as [w2 e] eqn:E.
  rewrite Delete_update in E by done. destruct Ha as (_ & _ & Hr).
  pose proof (update_outcome _ _ _ _ None _ w2 e Hc Hr I E) as Ho.
  unfold mutation_outcome in Ho. destruct (spec_write _ _ _ _). destruct Ho as (Hrtc & _).
  by apply (Consistent_rtc _ _ Hrtc).
Qed.

(** ** Fetch *)

Lemma retry_read {A} (op : db -> db * option A) w w2 r :
  (forall d, (op d).1 = d) -> retryTopology s op w = (w2, r) ->
  w_db w2 = w_db w /\ (r = None \/ r = (op (w_db w)).2).
Proof.
  intros Hop Hr. assert (Hex : forall n d, execute op n d = d).
  { induction n as [|n IH]; intros d; simpl; [done|]. by rewrite Hop. }
  apply retry_executes in Hr as [(n & -> & ->)|(n & -> & ->)]; rewrite ?Hop, Hex; auto.
Qed.

(** A payload the decoding loop keeps, as it is. *)
Definition decodes_in (p payload : string) (b : Bid) : Prop :=
  stored_bid b /\ bid_PlacementID b = p /\ json_Marshal b = Some payload.

Lemma decode_bids_stored p payloads bs :
  Forall2 (decodes_in p) payloads bs -> decode_bids p payloads = Some bs.
Proof.
  induction 1 as [|payload b payloads bs (Hb & Hp & Hm) _ IH]; [done|]. simpl.
  destruct Hb as (Hwf & Ht & Hs). rewrite (Unmarshal_Marshal _ _ Hs Ht Hm).
  rewrite (Bid_wf_normalized _ _ Hwf). unfold Bid_Validate.
  by rewrite (proj2 (Bid_validate_wf true b) Hwf), (proj2 (String.eqb_eq _ _) Hp), IH.
Qed.

(** The bids of a placement, read off the database. *)
Definition active_bid (d : db) (p : string) (b : Bid) : Prop :=
  stored_bid b /\ bid_PlacementID b = p /\
  exists payload, json_Marshal b = Some payload /\ registry d p (bid_ID b) = Some (bid_Revision b, Some payload).

Lemma active_entry d p id payload :
  Consistent d -> hash d (activeKey s p) !! id = Some payload ->
  exists b, decodes_in p payload b /\ bid_ID b = id /\ active_bid d p b.
Proof.
  intros Hc Hl. destruct (cons_active d Hc p id payload Hl) as (b & Hb & Hm & Hid & Hp & Hv).
  exists b. unfold decodes_in, active_bid. split_and!; try done. exists payload. split; [done|].
  unfold registry, cell_of. rewrite Hid, Hv, ParseUint_FormatUint, Hl; [done|].
  apply (typed_Revision b). apply Hb.
Qed.

Lemma active_bid_entry d p b :
  active_bid d p b -> exists payload, json_Marshal b = Some payload /\ hash d (activeKey s p) !! bid_ID b = Some payload.
Proof.
  intros (_ & _ & payload & Hm & Hr). exists payload. split; [done|].
  unfold registry, cell_of in Hr. destruct (hash d (versionKey s p) !! bid_ID b); [|done].
  destruct (ParseUint _); [|done]. by injection Hr.
Qed.

Lemma Marshal_inj b b' payload :
  stored_bid b -> stored_bid b' -> json_Marshal b = Some payload -> json_Marshal b' = Some payload -> b = b'.
Proof.
  intros (_ & Ht & Hs) (_ & Ht' & Hs') Hm Hm'.
  pose proof (Unmarshal_Marshal _ _ Hs Ht Hm). pose proof (Unmarshal_Marshal _ _ Hs' Ht' Hm'). congruence.
Qed.

(** The list [Fetch] is to return, for some order of the hash's entries. *)
Lemma decode_entries d p (l : list (string * string)) :
  Consistent d -> (forall id payload, (id, payload) ∈ l -> hash d (activeKey s p) !! id = Some payload) ->
  exists bs, decode_bids p (snd <$> l) = Some bs /\ bid_ID <$> bs = fst <$> l /\ Forall (active_bid d p) bs.
Proof.
  intros Hc Hl.
  assert (Hex : exists bs, Forall2 (decodes_in p) (snd <$> l) bs /\ bid_ID <$> bs = fst <$> l /\ Forall (active_bid d p) bs).
  { induction l as [|[id payload] l IH]; [exists []; repeat constructor|].
    destruct IH as (bs & H2 & Hids & Hf); [intros; apply Hl; by right|].
    destruct (active_entry d p id payload Hc) as (b & Hd & Hid & Ha); [apply Hl; by left|].
    exists (b :: bs). split_and!; [by constructor|by rewrite !fmap_cons, Hids, Hid|by constructor]. }
  destruct Hex as (bs & H2 & Hids & Hf). exists bs. split; [by apply decode_bids_stored|done].
Qed.

Definition any_order (range : gmap string string -> list (string * string)) : Prop :=
  forall m, range m ≡ₚ map_to_list m.

Lemma Fetch_decodes d p range :
  Consistent d -> any_order range ->
  exists bs, decode_bids p (snd <$> range (hash d (activeKey s p))) = Some bs
    /\ NoDup (bid_ID <$> bs) /\ (forall b, b ∈ bs <-> active_bid d p b).
Proof.
  intros Hc Hr. unfold any_order in Hr. set (l := range (hash d (activeKey s p))).
  assert (Hl : forall id payload, (id, payload) ∈ l <-> hash d (activeKey s p) !! id = Some payload).
  { intros id payload. unfold l. rewrite Hr. apply elem_of_map_to_list. }
  destruct (decode_entries d p l Hc) as (bs & Hd & Hids & Hf); [intros ? ?; apply Hl|].
  exists bs. split; [done|]. split.
  - rewrite Hids. unfold l. rewrite Hr. apply NoDup_fst_map_to_list.
  - intros b. split; [by apply Forall_elem|]. intros Hb.
    destruct (active_bid_entry d p b Hb) as (payload & Hm & Hh).
    assert (Hin : bid_ID b ∈ bid_ID <$> bs).
    { rewrite Hids. apply list_elem_of_fmap. exists (bid_ID b, payload). split; [done|]. by apply Hl. }
    apply list_elem_of_fmap in Hin as (b' & Hid & Hin).
    assert (Hb' : active_bid d p b') by (by eapply Forall_elem).
    destruct (active_bid_entry d p b' Hb') as (payload' & Hm' & Hh'). rewrite <- Hid, Hh in Hh'.
    injection Hh' as <-. rewrite (Marshal_inj b b' payload); [done|apply Hb|apply Hb'|done..].
Qed.

(** What [Fetch] returns: the sorted list of the placement's active bids. *)
Definition fetched (d : db) (p : string) (bids : list Bid) : Prop :=
  StronglySorted bid_le bids /\ NoDup (bid_ID <$> bids) /\ (forall b, b ∈ bids <-> active_bid d p b).

Lemma fetched_unique d p l l' : fetched d p l -> fetched d p l' -> l = l'.
Proof.
  intros (Hs & Hn & Hb) (Hs' & Hn' & Hb'). apply sorted_unique; [by apply NoDup_ID_rank|done|done|].
  apply NoDup_Permutation; [by eapply NoDup_fmap_1|by eapply NoDup_fmap_1|].
  intros b. by rewrite Hb, Hb'.
Qed.

Lemma Fetch_spec d p range w w2 r :
  Consistent (w_db w) -> any_order range -> d = w_db w ->
  RedisStore_Fetch s range p w = (w2, r) ->
  w_db w2 = w_db w /\ (r = inl (ErrMsg redis_error) \/ exists bids, r = inr bids /\ fetched d p bids).
Proof.
  intros Hc Hr -> Hf. unfold RedisStore_Fetch in Hf.
  destruct (retryTopology s (HGetAll (activeKey s p)) w) as [w1 r1] eqn:E1.
  destruct (retry_read (HGetAll (activeKey s p)) _ _ _ (fun _ => eq_refl) E1) as [Hd [->| ->]]; [simplify_eq; auto|].
  simpl in Hf. destruct (Fetch_decodes (w_db w) p range Hc Hr) as (bs & Hdec & Hn & Hb).
  rewrite Hdec in Hf. injection Hf as <- <-. split; [done|]. right. exists (sortBids bs). split; [done|].
  split_and!; [apply sortBids_sorted|by rewrite sortBids_Permutation|].
  intros b. by rewrite sortBids_Permutation.
Qed.

Lemma Fetch_no_fault d p range :
  Consistent d -> any_order range ->
  exists bids, RedisStore_Fetch s range p (mkWorld d []) = (mkWorld d [], inr bids) /\ fetched d p bids.
Proof.
  intros Hc Hr. destruct (RedisStore_Fetch s range p (mkWorld d [])) as [w2 r] eqn:E.
  destruct (Fetch_spec d p range (mkWorld d []) w2 r Hc Hr eq_refl E) as [Hd Hres].
  unfold RedisStore_Fetch in E. rewrite (call_no_fault _ _ (hash d (activeKey s p))) in E by done.
  destruct (Fetch_decodes d p range Hc Hr) as (bs & Hdec & _ & _). simpl in E. rewrite Hdec in E. injection E as <- <-. destruct Hres as [?|(bids & [= <-] & Hf)]; [done|]. eauto.
Qed.
End store_facts.
