(* ===== verification/BidStore.v ===== *)
(** * The BidStore interface (internal/ads/store.go)

    The Go interface through which the cache and the server use the registry, as a
    type class over the state of the outside world, with the laws its clients rely
    on; [RedisStore] is an instance. *)

From S2P Require Import Prelude GoInt Utf8 Json JsonCodec.
From S2P Require Import Prelude GoInt GoString Types Ranking Redis Store.
Open Scope string_scope.
Open Scope list_scope.
Open Scope Z_scope.

(** Contexts, and the channel of [Subscribe], are not part of the class: the calls'
    failures are in their results, and the messages of a subscription are events of
    the cache's loops. *)
Class BidStore (W : Type) := {
  store_Ping : W -> W * option error;
  store_Upsert : Bid -> W -> W * option error;
  store_Delete : string -> string -> Z -> W -> W * option error;
  store_Fetch : string -> W -> W * (error + list Bid);
  store_Placements : W -> W * (error + list string)
}.

(** What a placement's list of bids looks like when it comes from a store. *)
Definition valid_bids (placement : string) (bids : list Bid) : Prop :=
  Forall (fun b => Bid_wf true b /\ Bid_typed b /\ bid_PlacementID b = placement) bids
  /\ NoDup (bid_ID <$> bids).

Class BidStoreLaws (W : Type) `{BidStore W} := {
  store_ok : W -> Prop;
  Ping_ok w w2 e : store_ok w -> store_Ping w = (w2, e) -> store_ok w2;
  Upsert_ok b w w2 e : store_ok w -> Bid_sound b -> store_Upsert b w = (w2, e) -> store_ok w2;
  Delete_ok p id rev w w2 e : store_ok w -> is_uint64 rev -> store_Delete p id rev w = (w2, e) -> store_ok w2;
  Fetch_ok p w w2 r : store_ok w -> store_Fetch p w = (w2, r) ->
    store_ok w2 /\ forall bids, r = inr bids -> valid_bids p bids;
  Placements_ok w w2 r : store_ok w -> store_Placements w = (w2, r) ->
    store_ok w2 /\ forall ps, r = inr ps -> NoDup ps
}.

(** ** The Redis instance *)

Section redis_instance.
Context `{Redis} (s : RedisStore) (range : gmap string string -> list (string * string)).

Definition redis_bid_store : BidStore World := {|
  store_Ping := RedisStore_Ping s;
  store_Upsert := RedisStore_Upsert s;
  store_Delete := RedisStore_Delete s;
  store_Fetch := RedisStore_Fetch s range;
  store_Placements := RedisStore_Placements s
|}.

Hypothesis Hrange : any_order range.

Lemma Placements_spec w w2 r :
  RedisStore_Placements s w = (w2, r) ->
  w_db w2 = w_db w /\ (r = inl (ErrMsg redis_error) \/
    exists ps, r = inr ps /\ ps ≡ₚ elements (members (w_db w) (placementsKey s)) /\ StronglySorted String.le ps).
Proof.
  unfold RedisStore_Placements. destruct (retryTopology s (SMembers (placementsKey s)) w) as [w1 r1] eqn:E.
  destruct (retry_read s (SMembers (placementsKey s)) _ _ _ (fun _ => eq_refl) E) as [Hd [->| ->]];
    intros [= <- <-]; (split; [done|]); [by left|right].
  eexists. split; [done|]. split; [apply merge_sort_Permutation|apply StronglySorted_merge_sort; apply _].
Qed.

Lemma Ping_spec w w2 e : RedisStore_Ping s w = (w2, e) -> w_db w2 = w_db w.
Proof.
  unfold RedisStore_Ping. destruct (call PING w) as [w1 r] eqn:E.
  assert (Hex : forall n d, execute PING n d = d) by (intros n; induction n; simpl; auto).
  intros Hp. assert (w1 = w2) as <- by (destruct r; by simplify_eq).
  destruct (call_executes _ _ _ _ E) as [(n & -> & _)|(n & -> & _)]; simpl; apply Hex.
Qed.

Lemma Upsert_keeps b w w2 e :
  Consistent s (w_db w) -> Bid_typed b -> Bid_utf8 b -> RedisStore_Upsert s b w = (w2, e) -> Consistent s (w_db w2).
Proof.
  intros Hc Ht Hs Hu. destruct (Bid_Validate (Bid_Normalize b)) as [msg|] eqn:Ev.
  - unfold RedisStore_Upsert in Hu. rewrite Ev in Hu. by injection Hu as <- <-.
  - assert (Hb : stored_bid (Bid_Normalize b)).
    { split_and!; [by apply Bid_validate_wf|by apply Bid_Normalize_typed|by apply Bid_Normalize_utf8]. }
    replace w2 with (RedisStore_Upsert s (Bid_Normalize b) w).1; [by apply Upsert_Consistent|].
    unfold RedisStore_Upsert in *. rewrite Bid_Normalize_idemp. by rewrite Hu.
Qed.

Lemma Delete_keeps p id rev w w2 e :
  Consistent s (w_db w) -> is_uint64 rev -> RedisStore_Delete s p id rev w = (w2, e) -> Consistent s (w_db w2).
Proof.
  intros Hc Hr Hd. destruct (String.eqb p "" || String.eqb id "" || (rev =? 0) || (Z.shiftr MaxUint64 1 <? rev)) eqn:E.
  - unfold RedisStore_Delete in Hd. rewrite E in Hd. by injection Hd as <- <-.
  - replace w2 with (RedisStore_Delete s p id rev w).1 by (by rewrite Hd).
    apply Delete_Consistent; [done|]. change (Z.shiftr MaxUint64 1) with MaxInt64 in E.
    bool_hyps. unfold delete_accepts. unfold_int. split_and!; done || lia.
Qed.

Definition redis_bid_store_laws : @BidStoreLaws World redis_bid_store.
Proof.
  refine (@Build_BidStoreLaws World redis_bid_store
    (fun w => Consistent s (w_db w)) _ _ _ _ _).
  - intros w w2 e Hc Hp. cbv beta. by rewrite (Ping_spec _ _ _ Hp).
  - intros b w w2 e Hc [Ht Hs] Hu. exact (Upsert_keeps b w w2 e Hc Ht Hs Hu).
  - intros p id rev w w2 e Hc Hr Hd. exact (Delete_keeps p id rev w w2 e Hc Hr Hd).
  - intros p w w2 r Hc Hf. destruct (Fetch_spec s _ p range w w2 r Hc Hrange eq_refl Hf) as [Hd Hr].
    split; [cbv beta; by rewrite Hd|]. intros bids ->. destruct Hr as [?|(l & [= <-] & Hs & Hn & Hin)]; [done|].
    split; [|done]. apply Forall_forall. intros b (Hb & Hp & _)%Hin. split_and!; [apply Hb|apply Hb|done].
  - intros w w2 r Hc Hp. destruct (Placements_spec w w2 r Hp) as [Hd Hr]. split; [cbv beta; by rewrite Hd|].
    intros ps ->. destruct Hr as [?|(l & [= <-] & Hperm & _)]; [done|].
    rewrite Hperm. apply NoDup_elements.
Defined.
End redis_instance.
