(* ===== verification/Cache.v ===== *)
(** * The snapshot cache (internal/ads/cache.go)

    [BidCache] and its operations, sequentially: each operation is a function of the
    cache and, where it calls the store, of the state [W] of the outside world. The
    interleavings of the cache's goroutines are in [CacheRun]. The cache is a client
    of the [BidStore] interface; its theorems use the interface's laws only. *)

From S2P Require Import Prelude GoInt Utf8 Json JsonCodec.
From S2P Require Import Prelude GoInt GoTime GoString Types Ranking Store BidStore.
Open Scope string_scope.
Open Scope list_scope.
Open Scope Z_scope.
Open Scope go_scope.

(** ** Policy *)

Abbreviation StaleSnapshotAction := string (only parsing).
Definition ServeStale : StaleSnapshotAction := "serve_stale".
Definition NoBidOnStale : StaleSnapshotAction := "no_bid".

Record CachePolicy := mkCachePolicy {
  cp_RefreshEvery : Duration;
  cp_MaxSnapshotAge : Duration;
  cp_StaleAction : StaleSnapshotAction
}.

Definition DefaultCachePolicy (refreshEvery : Duration) : CachePolicy :=
  let refreshEvery := if refreshEvery <=? 0 then 30 *i Second else refreshEvery in
  mkCachePolicy refreshEvery (2 *i refreshEvery) ServeStale.

Definition CachePolicy_Validate (p : CachePolicy) : bool :=
  (0 <? cp_RefreshEvery p) && (0 <? cp_MaxSnapshotAge p)
  && (String.eqb (cp_StaleAction p) ServeStale || String.eqb (cp_StaleAction p) NoBidOnStale).

(** ** State *)

Record bidList := mkBidList { bl_bids : list Bid; bl_refreshedAtNS : Z }.

Record SnapshotState := mkSnapshotState {
  ss_Found : bool;
  ss_Stale : bool;
  ss_RejectStale : bool;
  ss_Age : Duration
}.

Definition zero_SnapshotState : SnapshotState := mkSnapshotState false false false 0.

Record cacheCounters := mkCacheCounters {
  cc_refreshes : Z;
  cc_refreshFailures : Z;
  cc_reconciliations : Z;
  cc_reconcileFailures : Z;
  cc_subscriptionFailures : Z
}.

(** [entries] maps a placement to its snapshot cell; the cell is made empty ([None])
    by [LoadOrStore] and then filled, and is never replaced, so the pointer to it is
    left out. [inflight] is a map to empty structs: a set. *)
Record BidCache := mkBidCache {
  bc_entries : gmap string (option bidList);
  bc_policy : CachePolicy;
  bc_inflight : gset string;
  bc_stats : cacheCounters
}.

Record CacheStats := mkCacheStats {
  cs_Refreshes : Z;
  cs_RefreshFailures : Z;
  cs_Reconciliations : Z;
  cs_ReconcileFailures : Z;
  cs_SubscriptionFailures : Z;
  cs_Placements : Z;
  cs_InflightRefreshes : Z
}.

Definition NewBidCacheWithPolicy (policy : CachePolicy) : BidCache :=
  let policy := if negb (CachePolicy_Validate policy) then DefaultCachePolicy (30 *i Second) else policy in
  mkBidCache ∅ policy ∅ (mkCacheCounters 0 0 0 0 0).

Definition NewBidCache (refreshEvery : Duration) : BidCache :=
  NewBidCacheWithPolicy (DefaultCachePolicy refreshEvery).

(** ** Reading *)

Definition BidCache_Get (placement : string) (now : Time) (c : BidCache) : list Bid * SnapshotState :=
  match bc_entries c !! placement with
  | None | Some None => ([], zero_SnapshotState)
  | Some (Some l) =>
      let age := time_Sub now (Unix_ns (bl_refreshedAtNS l)) in
      let stale := cp_MaxSnapshotAge (bc_policy c) <? age in
      (bl_bids l,
       mkSnapshotState true stale (stale && String.eqb (cp_StaleAction (bc_policy c)) NoBidOnStale) age)
  end.

(** The two loops count the entries and the refreshes in flight. *)
Definition BidCache_Stats (c : BidCache) : CacheStats :=
  mkCacheStats (cc_refreshes (bc_stats c)) (cc_refreshFailures (bc_stats c))
    (cc_reconciliations (bc_stats c)) (cc_reconcileFailures (bc_stats c))
    (cc_subscriptionFailures (bc_stats c))
    (uint64 (Z.of_nat (size (bc_entries c)))) (uint64 (Z.of_nat (size (bc_inflight c)))).

(** ** Counters *)

Definition count_refresh (c : BidCache) : BidCache :=
  {| c with bc_stats := {| (bc_stats c) with cc_refreshes := counter_add (cc_refreshes (bc_stats c)) 1 |} |}.
Definition count_refresh_failure (c : BidCache) : BidCache :=
  {| c with bc_stats := {| (bc_stats c) with cc_refreshFailures := counter_add (cc_refreshFailures (bc_stats c)) 1 |} |}.
Definition count_reconciliation (c : BidCache) : BidCache :=
  {| c with bc_stats := {| (bc_stats c) with cc_reconciliations := counter_add (cc_reconciliations (bc_stats c)) 1 |} |}.
Definition count_reconcile_failure (c : BidCache) : BidCache :=
  {| c with bc_stats := {| (bc_stats c) with cc_reconcileFailures := counter_add (cc_reconcileFailures (bc_stats c)) 1 |} |}.
Definition count_subscription_failure (c : BidCache) : BidCache :=
  {| c with bc_stats :=
       {| (bc_stats c) with cc_subscriptionFailures := counter_add (cc_subscriptionFailures (bc_stats c)) 1 |} |}.

(** ** Refreshing *)

(** [entries.LoadOrStore(placement, &placementSnapshot{})]. *)
Definition load_or_store (placement : string) (c : BidCache) : BidCache :=
  match bc_entries c !! placement with
  | Some _ => c
  | None => {| c with bc_entries := <[placement := None]> (bc_entries c) |}
  end.

(** [value.Store(...)] on the placement's cell. *)
Definition store_list (placement : string) (l : bidList) (c : BidCache) : BidCache :=
  {| c with bc_entries := <[placement := Some l]> (bc_entries c) |}.

(** What a refresh makes of the fetched bids: each normalised, then sorted. *)
Definition snapshot_bids (bids : list Bid) : list Bid := sortBids (Bid_Normalize <$> bids).

Section cache.
Context {W : Type} `{BidStore W}.

(** [now] is the clock's reading at the end of a successful refresh. *)
Definition refresh (placement : string) (now : Time) (c : BidCache) (w : W) : BidCache * W * option error :=
  let c := count_refresh c in
  let '(w, r) := store_Fetch placement w in
  match r with
  | inl e => (count_refresh_failure c, w, Some e)
  | inr bids =>
      let c := load_or_store placement c in
      (store_list placement (mkBidList (snapshot_bids bids) (UnixNano now)) c, w, None)
  end.

(** The loop of [Reconcile]; [clock i] is the reading of the [i]-th refresh. *)
Fixpoint refresh_each (clock : nat -> Time) (i : nat) (placements : list string) (c : BidCache) (w : W)
    : BidCache * W * option error :=
  match placements with
  | [] => (c, w, None)
  | placement :: rest =>
      let '(c, w, e) := refresh placement (clock i) c w in
      match e with
      | Some e => (count_reconcile_failure c, w, Some e)
      | None => refresh_each clock (S i) rest c w
      end
  end.

Definition Reconcile (clock : nat -> Time) (c : BidCache) (w : W) : BidCache * W * option error :=
  let c := count_reconciliation c in
  let '(w, r) := store_Placements w in
  match r with
  | inl e => (count_reconcile_failure c, w, Some e)
  | inr placements => refresh_each clock 0 placements c w
  end.

Definition Warm := Reconcile.

(** [RefreshAsync] up to the [go] statement: the second component says whether a
    goroutine is started for the placement. *)
Definition RefreshAsync (placement : string) (c : BidCache) : BidCache * bool :=
  if String.eqb placement "" then (c, false)
  else if decide (placement ∈ bc_inflight c) then (c, false)
  else ({| c with bc_inflight := {[placement]} ∪ bc_inflight c |}, true).

(** [defer c.inflight.Delete(placement)]. *)
Definition inflight_delete (placement : string) (c : BidCache) : BidCache :=
  {| c with bc_inflight := bc_inflight c ∖ {[placement]} |}.

(** The goroutine of [RefreshAsync], when nothing runs in between; its error is
    logged only. *)
Definition refresh_goroutine (placement : string) (now : Time) (c : BidCache) (w : W) : BidCache * W :=
  let '(c, w, _) := refresh placement now c w in (inflight_delete placement c, w).
End cache.

(** ** The policy of a cache is always valid *)

Lemma CachePolicy_Validate_spec p :
  CachePolicy_Validate p = true <->
  0 < cp_RefreshEvery p /\ 0 < cp_MaxSnapshotAge p
  /\ (cp_StaleAction p = ServeStale \/ cp_StaleAction p = NoBidOnStale).
Proof. unfold CachePolicy_Validate. rewrite !andb_true_iff, orb_true_iff, !Z.ltb_lt, !String.eqb_eq. tauto. Qed.

Lemma NewBidCacheWithPolicy_valid p : CachePolicy_Validate (bc_policy (NewBidCacheWithPolicy p)) = true.
Proof. unfold NewBidCacheWithPolicy. simpl. by destruct (CachePolicy_Validate p) eqn:E. Qed.

(** Twice the refresh interval overflows for the upper half of the durations; the
    constructor then falls back to 30 seconds. *)
Lemma NewBidCache_policy d :
  is_int64 d ->
  bc_policy (NewBidCache d) =
    if (0 <? d) && (d <=? Z.quot MaxInt64 2) then mkCachePolicy d (2 * d) ServeStale
    else mkCachePolicy (30 * Second) (60 * Second) ServeStale.
Proof.
  intros Hd. unfold NewBidCache, NewBidCacheWithPolicy, DefaultCachePolicy. simpl.
  destruct (Z.leb_spec d 0) as [Hle|Hgt].
  - by rewrite (proj2 (Z.ltb_ge 0 d)) by lia.
  - rewrite (proj2 (Z.ltb_lt 0 d)) by lia. simpl andb. change (Z.quot MaxInt64 2) with 4611686018427387903.
    unfold CachePolicy_Validate. simpl. rewrite (proj2 (Z.ltb_lt 0 d)) by lia. simpl.
    destruct (Z.leb_spec d 4611686018427387903).
    + rewrite int64_id by (unfold_int; lia). by rewrite (proj2 (Z.ltb_lt 0 (2 * d))) by lia.
    + rewrite int64_overflow by (unfold_int; lia).
      rewrite (proj2 (Z.ltb_ge 0 _)) by (unfold_int; lia). done.
Qed.

(** ** The snapshots a cache holds *)

Definition snapshot_ok (placement : string) (l : bidList) : Prop :=
  valid_bids placement (bl_bids l) /\ StronglySorted bid_le (bl_bids l) /\ is_int64 (bl_refreshedAtNS l).

(** The invariant of the cache. *)
Record cache_ok (c : BidCache) : Prop := {
  ok_policy : CachePolicy_Validate (bc_policy c) = true;
  ok_entries p l : bc_entries c !! p = Some (Some l) -> snapshot_ok p l;
  ok_inflight : "" ∉ bc_inflight c
}.

Lemma valid_bids_normal p bids : valid_bids p bids -> Bid_Normalize <$> bids = bids.
Proof.
  intros [Hf _]. rewrite <- (list_fmap_id bids) at 2. apply list_fmap_ext. intros i b Hb.
  apply list_elem_of_lookup_2 in Hb. apply (Forall_elem _ _ _ Hf) in Hb as (Hw & _).
  by eapply Bid_wf_normalized.
Qed.

Lemma valid_bids_perm p l l' : l ≡ₚ l' -> valid_bids p l -> valid_bids p l'.
Proof. intros Hp [Hf Hn]. split; by rewrite <- Hp. Qed.

(** A snapshot of valid bids is the sorted list of the same bids. *)
Lemma snapshot_bids_ok p bids ns :
  valid_bids p bids -> is_int64 ns -> snapshot_ok p (mkBidList (snapshot_bids bids) ns).
Proof.
  intros Hv Hns. unfold snapshot_ok, snapshot_bids. simpl. rewrite (valid_bids_normal p) by done.
  split_and!; [|apply sortBids_sorted|done].
  eapply valid_bids_perm; [|exact Hv]. symmetry. apply sortBids_Permutation.
Qed.

Lemma snapshot_bids_sorted p bids :
  valid_bids p bids -> StronglySorted bid_le bids -> snapshot_bids bids = bids.
Proof.
  intros Hv Hs. unfold snapshot_bids. rewrite (valid_bids_normal p) by done.
  apply sortBids_canonical; [|done|done]. apply NoDup_ID_rank, Hv.
Qed.

Lemma load_or_store_lookup p q c :
  bc_entries (load_or_store p c) !! q =
  if decide (q = p) then Some (default None (bc_entries c !! p)) else bc_entries c !! q.
Proof.
  unfold load_or_store. destruct (bc_entries c !! p) eqn:E; simpl; case_decide; subst; try done.
  - by rewrite lookup_insert_eq.
  - by rewrite lookup_insert_ne.
Qed.

Lemma store_list_lookup p q l c :
  bc_entries (store_list p l c) !! q = if decide (q = p) then Some (Some l) else bc_entries c !! q.
Proof. unfold store_list. simpl. rewrite lookup_insert. repeat case_decide; congruence. Qed.

(** The operations that leave the entries, the policy or the in-flight set alone. *)
Lemma load_or_store_rest p c :
  bc_policy (load_or_store p c) = bc_policy c /\ bc_inflight (load_or_store p c) = bc_inflight c
  /\ bc_stats (load_or_store p c) = bc_stats c.
Proof. unfold load_or_store. by destruct (bc_entries c !! p). Qed.

Lemma cache_ok_same c c' :
  bc_entries c' = bc_entries c -> bc_policy c' = bc_policy c -> bc_inflight c' = bc_inflight c ->
  cache_ok c -> cache_ok c'.
Proof. intros He Hp Hi [H1 H2 H3]. constructor; rewrite ?He, ?Hp, ?Hi; done. Qed.

Lemma load_or_store_ok p c : cache_ok c -> cache_ok (load_or_store p c).
Proof.
  intros [H1 H2 H3]. destruct (load_or_store_rest p c) as (Hp & Hi & _).
  constructor; rewrite ?Hp, ?Hi; [done| |done]. intros q l. rewrite load_or_store_lookup.
  case_decide; [subst|apply H2]. destruct (bc_entries c !! p) as [[]|] eqn:E; simpl; intros [=]; subst.
  by apply H2.
Qed.

Lemma store_list_ok p l c : snapshot_ok p l -> cache_ok c -> cache_ok (store_list p l c).
Proof.
  intros Hl [H1 H2 H3]. constructor; [done| |done]. intros q l'. rewrite store_list_lookup.
  case_decide; [|apply H2]. subst. by intros [= <-].
Qed.

Lemma RefreshAsync_ok p c : cache_ok c -> cache_ok (RefreshAsync p c).1.
Proof.
  intros [H1 H2 H3]. unfold RefreshAsync. destruct (String.eqb p "") eqn:E; [done|].
  case_decide; [done|]. constructor; [done..|]. simpl. apply String.eqb_neq in E. set_solver.
Qed.

Lemma inflight_delete_ok p c : cache_ok c -> cache_ok (inflight_delete p c).
Proof. intros [H1 H2 H3]. constructor; [done..|]. simpl. set_solver. Qed.

#[export] Hint Resolve RefreshAsync_ok inflight_delete_ok load_or_store_ok store_list_ok : ads.

(** ** Refreshing, against the interface of the store *)

Section cache_facts.
Context {W : Type} `{HL : BidStoreLaws W}.

(** What a refresh of [p] installs: the bids the store returned in some state [w]. *)
Definition refreshed (p : string) (now : Time) (l : bidList) : Prop :=
  exists w w2 bids, store_ok w /\ store_Fetch p w = (w2, inr bids)
    /\ l = mkBidList (snapshot_bids bids) (UnixNano now).

Lemma refreshed_ok p now l : refreshed p now l -> snapshot_ok p l.
Proof.
  intros (w & w2 & bids & Hw & Hf & ->). apply snapshot_bids_ok; [|apply int64_range].
  by apply (Fetch_ok p w w2 _ Hw Hf).
Qed.

Lemma refresh_spec p now c w c2 w2 e :
  store_ok w -> refresh p now c w = (c2, w2, e) ->
  store_ok w2 /\ bc_policy c2 = bc_policy c /\ bc_inflight c2 = bc_inflight c
  /\ (forall q, q <> p -> bc_entries c2 !! q = bc_entries c !! q)
  /\ match e with
     | Some _ => bc_entries c2 = bc_entries c
         /\ bc_stats c2 = bc_stats (count_refresh_failure (count_refresh c))
     | None => (exists l, bc_entries c2 !! p = Some (Some l) /\ refreshed p now l)
         /\ bc_stats c2 = bc_stats (count_refresh c)
     end.
Proof.
  intros Hw Hr. unfold refresh in Hr. destruct (store_Fetch p w) as [w1 [err|bids]] eqn:Ef;
    injection Hr as <- <- <-; destruct (Fetch_ok p w _ _ Hw Ef) as [Hw1 Hv]; (split; [done|]).
  { done. }
  destruct (load_or_store_rest p (count_refresh c)) as (Hp & Hi & Hs).
  simpl. rewrite Hp, Hi, Hs. split_and!; try done.
  - intros q Hq. pose proof (store_list_lookup p q (mkBidList (snapshot_bids bids) (UnixNano now))
      (load_or_store p (count_refresh c))) as Hl. rewrite load_or_store_lookup in Hl.
    rewrite !decide_False in Hl by done. exact Hl.
  - eexists. split; [apply lookup_insert_eq|]. exists w, w1, bids. done.
Qed.

Lemma refresh_ok p now c w c2 w2 e :
  store_ok w -> cache_ok c -> refresh p now c w = (c2, w2, e) -> cache_ok c2.
Proof.
  intros Hw [H1 H2 H3] Hr. destruct (refresh_spec p now c w c2 w2 e Hw Hr) as (_ & Hp & Hi & Hq & He).
  constructor; rewrite ?Hp, ?Hi; [done| |done]. intros q l Hl.
  destruct e as [e|]; [destruct He as [He _]; rewrite He in Hl; by apply H2|].
  destruct (decide (q = p)) as [->|Hne]; [|rewrite Hq in Hl by done; by apply H2].
  destruct He as [(l' & Hl' & Hf) _]. rewrite Hl in Hl'. injection Hl' as ->. by eapply refreshed_ok.
Qed.

(** The state after the loop of [Reconcile]: a prefix of the placements is refreshed,
    all of them when there is no error, and every other entry is as it was. *)
Definition reconciled (clock : nat -> Time) (i : nat) (ps : list string) (c c2 : BidCache)
    (e : option error) : Prop :=
  exists done_ rest, ps = done_ ++ rest
  /\ (forall p, p ∉ done_ -> bc_entries c2 !! p = bc_entries c !! p)
  /\ (forall p, p ∈ done_ -> exists l k, (i <= k < i + length done_)%nat
       /\ bc_entries c2 !! p = Some (Some l) /\ refreshed p (clock k) l)
  /\ match e with
     | None => rest = [] /\ bc_stats c2 = bc_stats (Nat.iter (length done_) count_refresh c)
     | Some _ => rest <> [] /\ bc_stats c2 =
         bc_stats (count_reconcile_failure (count_refresh_failure (Nat.iter (S (length done_)) count_refresh c)))
     end.

Lemma count_refresh_stats n c c' :
  bc_stats c = bc_stats c' -> bc_stats (Nat.iter n count_refresh c) = bc_stats (Nat.iter n count_refresh c').
Proof.
  intros Hs. induction n as [|n IH]; [done|]. rewrite !Nat.iter_succ. unfold count_refresh at 1 3.
  cbn [bc_stats]. by rewrite IH.
Qed.

Lemma count_refresh_swap n c : Nat.iter n count_refresh (count_refresh c) = count_refresh (Nat.iter n count_refresh c).
Proof. by rewrite <- Nat.iter_succ_r, Nat.iter_succ. Qed.

Lemma refresh_each_spec clock ps i c w c2 w2 e :
  store_ok w -> refresh_each clock i ps c w = (c2, w2, e) ->
  store_ok w2 /\ bc_policy c2 = bc_policy c /\ bc_inflight c2 = bc_inflight c
  /\ (cache_ok c -> cache_ok c2) /\ reconciled clock i ps c c2 e.
Proof.
  revert i c w. induction ps as [|p ps IH]; intros i c w Hw; simpl.
  { intros [= <- <- <-]. split_and!; try done. exists [], []. split_and!; try done. by intros p ?%elem_of_nil. }
  destruct (refresh p (clock i) c w) as [[c1 w1] e1] eqn:Er.
  destruct (refresh_spec _ _ _ _ _ _ _ Hw Er) as (Hw1 & Hp & Hi & Hq & He).
  pose proof (fun Hc => refresh_ok _ _ _ _ _ _ _ Hw Hc Er) as Hok.
  destruct e1 as [err|]; intros Hr.
  - injection Hr as <- <- <-. destruct He as [He Hs]. split_and!; try done.
    { intros Hc. eapply cache_ok_same; [..|exact (Hok Hc)]; done. }
    exists [], (p :: ps). simpl. rewrite He, Hs. split_and!; try done. by intros q ?%elem_of_nil.
  - destruct He as [(l & Hl & Hf) Hs].
    destruct (IH (S i) c1 w1 Hw1 Hr) as (Hw2 & Hp2 & Hi2 & Hok2 & dn & rest & -> & Hout & Hin & Hst).
    rewrite Hp2, Hi2. split_and!; try done; [auto|]. exists (p :: dn), rest. split_and!; [done|..].
    + intros q [Hne Hnin]%not_elem_of_cons. rewrite Hout, Hq; done.
    + intros q Hqin. destruct (decide (q ∈ dn)) as [Hd|Hd].
      * destruct (Hin q Hd) as (l' & k & Hk & Hl' & Hf'). exists l', k. simpl. split_and!; [lia..|done|done].
      * apply elem_of_cons in Hqin as [->|?]; [|done]. exists l, i. rewrite Hout by done. simpl. split_and!; [lia..|done|done].
    + destruct e as [err|].
      * destruct Hst as [Hr1 Hr2]. split; [done|]. rewrite Hr2. cbn [length].
        change (Nat.iter (S (S (length dn))) count_refresh c) with (count_refresh (Nat.iter (S (length dn)) count_refresh c)).
        pose proof (count_refresh_stats (S (length dn)) c1 (count_refresh c) Hs) as Hcs.
        rewrite count_refresh_swap in Hcs.
        unfold count_reconcile_failure, count_refresh_failure. cbn [bc_stats]. by rewrite Hcs.
      * destruct Hst as [-> Hr2]. split; [done|]. rewrite Hr2. cbn [length].
        rewrite Nat.iter_succ, <- count_refresh_swap. by apply count_refresh_stats.
Qed.

Lemma Reconcile_ok clock c w c2 w2 e :
  store_ok w -> cache_ok c -> Reconcile clock c w = (c2, w2, e) -> store_ok w2 /\ cache_ok c2.
Proof.
  intros Hw Hc Hr. unfold Reconcile in Hr. destruct (store_Placements w) as [w1 [err|ps]] eqn:Ep;
    destruct (Placements_ok _ _ _ Hw Ep) as [Hw1 _].
  - injection Hr as <- <- <-. split; [done|]. by apply (cache_ok_same c).
  - destruct (refresh_each_spec _ _ _ _ _ _ _ _ Hw1 Hr) as (Hw2 & _ & _ & Hok & _). split; [done|].
    apply Hok. by apply (cache_ok_same c).
Qed.
End cache_facts.
