(* ===== verification/Auction.v ===== *)
(** * The auctioneer (internal/ads/auction.go)

    [Auctioneer.run] on top of the ranking of [Ranking] and the snapshots of
    [Cache], and what it decides. An auction reads two clocks: the cache's, for the
    age of the snapshot, and its own, for the active windows. *)

From S2P Require Import Prelude GoInt GoTime GoString Types Ranking DynamicBids Store BidStore Cache.
Open Scope string_scope.
Open Scope list_scope.
Open Scope Z_scope.

(** ** The code *)

Record AuctionDecision := mkAuctionDecision {
  ad_Bid : option Bid;
  ad_EffectivePriceMicros : Z;
  ad_ClearingPriceMicros : Z;
  ad_EligibleCandidates : Z;
  ad_NoBidReason : string;
  ad_ServedStale : bool;
  ad_SnapshotAge : Duration;
  ad_DynamicBidderID : string
}.

Definition zero_AuctionDecision : AuctionDecision := mkAuctionDecision None 0 0 0 "" false 0 "".

Definition AuctionDecision_Filled (d : AuctionDecision) : bool :=
  match ad_Bid d with Some _ => true | None => false end.

(** The [cache] field is the state passed to the operations. *)
Record Auctioneer := mkAuctioneer { au_policy : AuctionPolicy }.

Definition NewAuctioneerWithPolicy (policy : AuctionPolicy) : Auctioneer :=
  mkAuctioneer (match AuctionPolicy_Validate policy with Some _ => DefaultAuctionPolicy | None => policy end).

Definition NewAuctioneer : Auctioneer := NewAuctioneerWithPolicy DefaultAuctionPolicy.

Definition static_candidate (b : Bid) : candidate := (b, "").
Definition dynamic_candidate (d : DynamicBid) : candidate := (dyn_Bid d, dyn_BidderID d).

(** The part of [run] after the snapshot is accepted. *)
Definition decide_bids (a : Auctioneer) (request : AuctionRequest) (dynamic : list DynamicBid)
    (bids : list Bid) (snapshot : SnapshotState) (now : Time) : AuctionDecision :=
  let accumulator := new_accumulator request (time_Unix now) in
  let accumulator := consider_all (static_candidate <$> bids) accumulator in
  let accumulator := consider_all (dynamic_candidate <$> dynamic) accumulator in
  match acc_winner accumulator with
  | None =>
      {| zero_AuctionDecision with
         ad_EligibleCandidates := acc_candidates accumulator; ad_NoBidReason := "no_eligible_bid";
         ad_ServedStale := ss_Stale snapshot; ad_SnapshotAge := ss_Age snapshot |}
  | Some winner =>
      mkAuctionDecision (Some winner) (acc_winnerPrice accumulator)
        (clearingPrice (au_policy a) winner (acc_winnerPrice accumulator)
           (acc_runnerUpPrice accumulator) (req_FloorMicros request))
        (acc_candidates accumulator) "" (ss_Stale snapshot) (ss_Age snapshot)
        (acc_winnerBidderID accumulator)
  end.

Definition cold_cache : AuctionDecision := {| zero_AuctionDecision with ad_NoBidReason := "cold_cache" |}.
Definition stale_snapshot (snapshot : SnapshotState) : AuctionDecision :=
  {| zero_AuctionDecision with ad_NoBidReason := "stale_snapshot"; ad_SnapshotAge := ss_Age snapshot |}.

(** The second component says whether a background refresh is started. *)
Definition run (a : Auctioneer) (request : AuctionRequest) (dynamic : list DynamicBid)
    (cacheNow now : Time) (c : BidCache) : BidCache * bool * AuctionDecision :=
  let '(bids, snapshot) := BidCache_Get (req_PlacementID request) cacheNow c in
  if negb (ss_Found snapshot) then
    let '(c, go) := RefreshAsync (req_PlacementID request) c in (c, go, cold_cache)
  else
    let '(c, go) := if ss_Stale snapshot then RefreshAsync (req_PlacementID request) c else (c, false) in
    if ss_Stale snapshot && ss_RejectStale snapshot then (c, go, stale_snapshot snapshot)
    else (c, go, decide_bids a request dynamic bids snapshot now).

Definition Run (a : Auctioneer) (request : AuctionRequest) := run a request [].
Definition RunWithDynamic := run.

(** [Select] returns the decision's bid and its fill status. *)
Definition Select (a : Auctioneer) (request : AuctionRequest) (cacheNow now : Time) (c : BidCache)
    : BidCache * bool * (option Bid * bool) :=
  let '(c, go, decision) := Run a request cacheNow now c in
  (c, go, (ad_Bid decision, AuctionDecision_Filled decision)).

(** ** The specification of an auction

    Over the eligible candidates [E]: the best one wins; it pays its effective price
    in a first-price auction, and otherwise what the best rival of its priority
    offers plus the increment, within the floor and its own price. *)

Definition auctioneer_ok (a : Auctioneer) : Prop :=
  AuctionPolicy_Validate (au_policy a) = None /\ is_int64 (pol_SecondPriceIncrementMicros (au_policy a)).

Definition candidates_of (bids : list Bid) (dynamic : list DynamicBid) : list candidate :=
  (static_candidate <$> bids) ++ (dynamic_candidate <$> dynamic).

Definition price_floor (request : AuctionRequest) (winner : Bid) : Z :=
  Z.max (req_FloorMicros request) (bid_FloorMicros winner).

Definition price_to_pay (p : AuctionPolicy) (request : AuctionRequest) (winner : Bid) (rest : list candidate) : Z :=
  if String.eqb (pol_PricingModel p) FirstPrice then effectivePrice winner
  else
    let rival := zmax_list 0 (prices_at (bid_Priority winner) rest) in
    if rival =? 0 then price_floor request winner
    else Z.max (price_floor request winner)
           (Z.min (effectivePrice winner) (rival + pol_SecondPriceIncrementMicros p)).

Definition auction_spec (p : AuctionPolicy) (request : AuctionRequest) (E : list candidate) (ss : SnapshotState)
    (d : AuctionDecision) : Prop :=
  ad_EligibleCandidates d = int64 (Z.of_nat (length E))
  /\ ad_ServedStale d = ss_Stale ss /\ ad_SnapshotAge d = ss_Age ss
  /\ match ad_Bid d with
     | None => E = [] /\ ad_NoBidReason d = "no_eligible_bid" /\ ad_EffectivePriceMicros d = 0
         /\ ad_ClearingPriceMicros d = 0 /\ ad_DynamicBidderID d = ""
     | Some w => exists rest, wins E (w, ad_DynamicBidderID d) rest /\ ad_NoBidReason d = ""
         /\ ad_EffectivePriceMicros d = effectivePrice w
         /\ ad_ClearingPriceMicros d = price_to_pay p request w rest
     end.

Lemma effectivePrice_range b : is_int64 (effectivePrice b).
Proof. apply int64_range. Qed.

Lemma NewAuctioneerWithPolicy_ok p :
  is_int64 (pol_SecondPriceIncrementMicros p) -> auctioneer_ok (NewAuctioneerWithPolicy p).
Proof.
  intros Hp. unfold auctioneer_ok, NewAuctioneerWithPolicy. simpl.
  destruct (AuctionPolicy_Validate p) eqn:E; [|done]. split; [done|]. vm_compute. split; discriminate.
Qed.

Lemma eligible_candidates_elem request nowUnix l c :
  c ∈ eligible_candidates request nowUnix l <-> eligible_for request nowUnix c /\ c ∈ l.
Proof. apply list_elem_of_filter. Qed.

Lemma wins_elem E w rest : wins E w rest -> w ∈ E.
Proof. intros Hw. rewrite (wins_perm _ _ _ Hw). by left. Qed.

(** The code's clearing price is the specification's. *)
Lemma clearingPrice_spec a request nowUnix l w rest :
  auctioneer_ok a -> wins (eligible_candidates request nowUnix l) w rest ->
  clearingPrice (au_policy a) (fst w) (effectivePrice (fst w))
    (zmax_list 0 (prices_at (bid_Priority (fst w)) rest)) (req_FloorMicros request)
  = price_to_pay (au_policy a) request (fst w) rest.
Proof.
  intros [Hv Hi] Hw. apply AuctionPolicy_Validate_spec in Hv as [_ Hinc]. unfold price_to_pay.
  destruct (String.eqb_spec (pol_PricingModel (au_policy a)) FirstPrice) as [Hm|Hm].
  { unfold clearingPrice. by rewrite Hm. }
  set (ru := zmax_list 0 _). assert (Hru : 0 <= ru) by apply zmax_list_ge.
  assert (Hin : w ∈ eligible_candidates request nowUnix l) by (by eapply wins_elem).
  apply eligible_candidates_elem in Hin as [He _].
  destruct (decide (0 <= effectivePrice (fst w))) as [Hpos|Hneg].
  - rewrite clearingPrice_second; [|done|unfold_int; lia|done|].
    + unfold price_floor. destruct (ru =? 0); lia.
    + split; [|apply effectivePrice_range]. apply zmax_list_le; [done|]. by eapply wins_rivals_le.
  - (* a negative winner leaves no positive rival *)
    assert (Hz : ru = 0).
    { unfold ru in *. destruct (zmax_list_in 0 (prices_at (bid_Priority (fst w)) rest)) as [|Hx]; [done|].
      pose proof (Forall_elem _ _ _ (wins_rivals_le _ _ _ Hw) Hx) as Hle. cbv beta in Hle. lia. }
    unfold clearingPrice. apply String.eqb_neq in Hm. rewrite Hm, Hz. done.
Qed.

(** ** What [run] computes *)

(** With a snapshot that is served, the decision is the specified one and the cache
    only gains an in-flight mark when the snapshot is stale. *)
Lemma run_spec a request dynamic cacheNow now c bids ss :
  auctioneer_ok a -> 0 <= req_FloorMicros request ->
  BidCache_Get (req_PlacementID request) cacheNow c = (bids, ss) ->
  ss_Found ss = true -> ss_RejectStale ss = false ->
  exists d, run a request dynamic cacheNow now c
    = ((if ss_Stale ss then RefreshAsync (req_PlacementID request) c else (c, false)), d)
  /\ auction_spec (au_policy a) request
       (eligible_candidates request (time_Unix now) (candidates_of bids dynamic)) ss d.
Proof.
  intros Ha Hfl Hg Hf Hr. unfold run, decide_bids. rewrite Hg, Hf, Hr, andb_false_r. simpl negb. cbv iota.
  assert (Hacc : consider_all (dynamic_candidate <$> dynamic)
      (consider_all (static_candidate <$> bids) (new_accumulator request (time_Unix now)))
    = consider_all (candidates_of bids dynamic) (new_accumulator request (time_Unix now))).
  { unfold consider_all, candidates_of. by rewrite fold_left_app. }
  rewrite Hacc. pose proof (consider_all_pass request (time_Unix now) (candidates_of bids dynamic) Hfl) as [Hn Hres].
  clear Hacc. set (acc := consider_all (candidates_of bids dynamic) _) in *.
  destruct (if ss_Stale ss then RefreshAsync (req_PlacementID request) c else (c, false)) as [c2 go].
  destruct (acc_winner acc) as [w|] eqn:Ew.
  - destruct Hres as (rest & Hw & Hp & Hru). eexists. split; [reflexivity|].
    split_and!; [done..|]. exists rest. simpl. rewrite Hp, Hru. split_and!; [done..|].
    by apply (clearingPrice_spec a request (time_Unix now) (candidates_of bids dynamic) (w, acc_winnerBidderID acc)).
  - destruct Hres as (HE & _). eexists. split; [reflexivity|]. by split_and!.
Qed.

(** A specified decision is unique. *)
Lemma auction_spec_unique p request E ss d d' :
  auction_spec p request E ss d -> auction_spec p request E ss d' -> d = d'.
Proof.
  intros (Hn & Hs & Hg & Hm) (Hn' & Hs' & Hg' & Hm'). destruct d as [w ef cl n re st ag di], d' as [w' ef' cl' n' re' st' ag' di'].
  simpl in *. subst.
  destruct w as [w|], w' as [w'|].
  - destruct Hm as (rest & Hw & -> & -> & ->), Hm' as (rest' & Hw' & -> & -> & ->).
    by destruct (wins_unique _ _ _ _ _ Hw Hw') as [[= -> ->] ->].
  - destruct Hm as (rest & Hw & _), Hm' as (-> & _). by apply wins_perm, Permutation_nil_l in Hw.
  - destruct Hm' as (rest & Hw & _), Hm as (-> & _). by apply wins_perm, Permutation_nil_l in Hw.
  - destruct Hm as (_ & -> & -> & -> & ->), Hm' as (_ & -> & -> & -> & ->). done.
Qed.
