(* ===== verification/Metrics.v ===== *)
(** * Metrics (internal/ads/metrics.go)

    The counters and latency histograms of the service, what a request adds to them,
    and the text the metrics endpoint writes. Each counter is an [atomic.Uint64]. *)

From S2P Require Import Prelude GoInt GoString Cache Engine.
From Stdlib Require Import Ascii.
Open Scope string_scope.
Open Scope list_scope.
Open Scope Z_scope.

(** ** The code *)

(** The histograms are arrays with one bucket per entry of [latencyUpperUS]. *)
Record Metrics := mkMetrics {
  me_auctions : Z;
  me_filled : Z;
  me_noBid : Z;
  me_badRequests : Z;
  me_bidMutations : Z;
  me_bidMutationErrors : Z;
  me_readinessChecks : Z;
  me_readinessFailures : Z;
  me_decisionLogDropped : Z;
  me_servedStale : Z;
  me_staleNoBid : Z;
  me_dynamicWins : Z;
  me_selectionLatency : list Z;
  me_handlerLatency : list Z
}.

Definition latencyUpperUS : list Z := [1; 2; 5; 10; 25; 50; 100; 250; 500; 1000; 5000; 10000].

Definition zero_Metrics : Metrics :=
  mkMetrics 0 0 0 0 0 0 0 0 0 0 0 0 (replicate 12 0) (replicate 12 0).

(** The loop over [latencyUpperUS], with the buckets from the current one on. *)
Fixpoint observe_from (uppers histogram : list Z) (latencyUS : Z) : list Z :=
  match uppers, histogram with
  | upper :: uppers, n :: histogram =>
      if latencyUS <=? upper then counter_add n 1 :: histogram
      else n :: observe_from uppers histogram latencyUS
  | _, _ => histogram
  end.

Definition observeHistogram (histogram : list Z) (latencyUS : Z) : list Z :=
  observe_from latencyUpperUS histogram latencyUS.

Definition RecordAuction (filled : bool) (selectionUS handlerUS : Z) (m : Metrics) : Metrics :=
  let m := {| m with me_auctions := counter_add (me_auctions m) 1 |} in
  let m := if filled then {| m with me_filled := counter_add (me_filled m) 1 |}
           else {| m with me_noBid := counter_add (me_noBid m) 1 |} in
  {| m with me_selectionLatency := observeHistogram (me_selectionLatency m) selectionUS;
     me_handlerLatency := observeHistogram (me_handlerLatency m) handlerUS |}.

(** ** The text format *)

Definition newline : string := String.String "010" "".
Definition dquote : string := String.String "034" "".

(** [fmt.Fprintf(w, "name %d\n", v)] of an unsigned value. *)
Definition metric_line (name : string) (v : Z) : string := name +:+ " " +:+ FormatUint v 10 +:+ newline.

Definition bucket_line (name le : string) (v : Z) : string :=
  metric_line (name +:+ "_bucket{le=" +:+ dquote +:+ le +:+ dquote +:+ "}") v.

(** The running sums the loop of [writeHistogram] computes. *)
Fixpoint cumulative_from (cumulative : Z) (histogram : list Z) : list Z :=
  match histogram with
  | [] => []
  | n :: histogram => let cumulative := counter_add cumulative n in cumulative :: cumulative_from cumulative histogram
  end.

Definition writeHistogram (name : string) (histogram : list Z) (total : Z) : list string :=
  zip_with (fun upper cumulative => bucket_line name (FormatInt upper 10) cumulative)
    latencyUpperUS (cumulative_from 0 histogram)
  ++ [bucket_line name "+Inf" total; metric_line (name +:+ "_count") total].

Definition Metrics_Handler (m : Metrics) : list string :=
  [metric_line "adserver_auctions_total" (me_auctions m);
   metric_line "adserver_fills_total" (me_filled m);
   metric_line "adserver_no_bid_total" (me_noBid m);
   metric_line "adserver_bad_requests_total" (me_badRequests m);
   metric_line "adserver_bid_mutations_total" (me_bidMutations m);
   metric_line "adserver_bid_mutation_errors_total" (me_bidMutationErrors m);
   metric_line "adserver_readiness_checks_total" (me_readinessChecks m);
   metric_line "adserver_readiness_failures_total" (me_readinessFailures m);
   metric_line "adserver_decision_log_dropped_total" (me_decisionLogDropped m);
   metric_line "adserver_served_stale_total" (me_servedStale m);
   metric_line "adserver_stale_snapshot_no_bid_total" (me_staleNoBid m);
   metric_line "adserver_dynamic_bid_wins_total" (me_dynamicWins m)]
  ++ writeHistogram "adserver_auction_selection_latency_microseconds" (me_selectionLatency m) (me_auctions m)
  ++ writeHistogram "adserver_auction_handler_latency_microseconds" (me_handlerLatency m) (me_auctions m).

Definition writeCacheMetrics (stats : CacheStats) : list string :=
  [metric_line "adserver_cache_refresh_total" (cs_Refreshes stats);
   metric_line "adserver_cache_refresh_failures_total" (cs_RefreshFailures stats);
   metric_line "adserver_cache_reconciliations_total" (cs_Reconciliations stats);
   metric_line "adserver_cache_reconcile_failures_total" (cs_ReconcileFailures stats);
   metric_line "adserver_cache_subscription_failures_total" (cs_SubscriptionFailures stats);
   metric_line "adserver_cache_placements" (cs_Placements stats);
   metric_line "adserver_cache_refresh_inflight" (cs_InflightRefreshes stats)].

Definition writeBidderMetrics (stats : BidderEngineStats) : list string :=
  [metric_line "adserver_dynamic_bid_cache_hits_total" (es_CacheHits stats);
   metric_line "adserver_dynamic_bid_cache_full_total" (es_CacheFull stats);
   metric_line "adserver_dynamic_bid_refreshes_total" (es_Refreshes stats);
   metric_line "adserver_dynamic_bid_refresh_skipped_total" (es_RefreshSkipped stats);
   metric_line "adserver_dynamic_bid_fanout_skipped_total" (es_FanoutSkipped stats);
   metric_line "adserver_dynamic_bid_circuit_open_total" (es_CircuitOpen stats);
   metric_line "adserver_dynamic_bid_timeouts_total" (es_Timeouts stats);
   metric_line "adserver_dynamic_bid_failures_total" (es_Failures stats)].

(** ** Histograms *)

(** How many of the observations are at most [upper]. *)
Definition at_most (upper : Z) (obs : list Z) : Z := Z.of_nat (length (filter (fun x => x <= upper) obs)).

Lemma cumulative_shift histogram c :
  cumulative_from (uint64 (c + 1)) histogram = (fun x => uint64 (x + 1)) <$> cumulative_from c histogram.
Proof.
  revert c. induction histogram as [|n histogram IH]; intros c; [done|]. cbn [cumulative_from]. rewrite fmap_cons.
  unfold counter_add. assert (He : uint64 (uint64 (c + 1) + n) = uint64 (uint64 (c + n) + 1)).
  { rewrite !uint64_add_l. f_equal. lia. }
  rewrite He, IH. done.
Qed.

Lemma length_cumulative c histogram : length (cumulative_from c histogram) = length histogram.
Proof. revert c. induction histogram as [|n histogram IH]; intros c; simpl; [done|by rewrite IH]. Qed.

Lemma zip_with_covered (x : Z) uppers (l : list Z) :
  Forall (fun u => x <= u) uppers -> length l = length uppers ->
  zip_with (fun u n => if x <=? u then uint64 (n + 1) else n) uppers l = (fun n => uint64 (n + 1)) <$> l.
Proof.
  intros Hu. revert l. induction Hu as [|u uppers Hle _ IH]; intros [|y l] Hlen; try done.
  injection Hlen as Hlen. simpl. rewrite (proj2 (Z.leb_le _ _)) by done. f_equal. by apply IH.
Qed.

(** An observation adds one to the running sum of every bucket that covers it. *)
Lemma cumulative_observe uppers histogram c x :
  StronglySorted Z.le uppers -> length histogram = length uppers ->
  cumulative_from c (observe_from uppers histogram x)
  = zip_with (fun u n => if x <=? u then uint64 (n + 1) else n) uppers (cumulative_from c histogram).
Proof.
  revert histogram c. induction uppers as [|u uppers IH]; intros [|n histogram] c Hs Hlen; try done.
  apply StronglySorted_cons in Hs as [Hu Hs]. injection Hlen as Hlen. simpl.
  destruct (Z.leb_spec x u) as [Hle|Hgt]; cbn [cumulative_from].
  - unfold counter_add. assert (He : uint64 (c + uint64 (n + 1)) = uint64 (uint64 (c + n) + 1)).
    { rewrite (Z.add_comm c), !uint64_add_l. f_equal. lia. }
    rewrite He, cumulative_shift. f_equal. symmetry. apply zip_with_covered; [|by rewrite length_cumulative].
    eapply Forall_impl; [exact Hu|]. intros u' ?. simpl in *. lia.
  - f_equal. by apply IH.
Qed.

Lemma length_observe uppers histogram x : length (observe_from uppers histogram x) = length histogram.
Proof.
  revert histogram. induction uppers as [|u uppers IH]; intros [|n histogram]; simpl; try done.
  destruct (x <=? u); simpl; [done|by rewrite IH].
Qed.

Lemma at_most_app u l1 l2 : at_most u (l1 ++ l2) = at_most u l1 + at_most u l2.
Proof. unfold at_most. rewrite filter_app, length_app. lia. Qed.

Lemma at_most_single u x : at_most u [x] = if x <=? u then 1 else 0.
Proof. unfold at_most. rewrite filter_cons. case_decide; [rewrite (proj2 (Z.leb_le _ _)) by done|rewrite (proj2 (Z.leb_gt _ _)) by lia]; done. Qed.

Lemma latencyUpperUS_sorted : StronglySorted Z.le latencyUpperUS.
Proof. repeat constructor; by vm_compute. Qed.

(** After any observations, each running sum is the number of observations the
    bucket's bound covers. *)
Lemma observed_cumulative obs :
  length (fold_left observeHistogram obs (replicate 12 0)) = 12%nat
  /\ cumulative_from 0 (fold_left observeHistogram obs (replicate 12 0)) = (fun u => uint64 (at_most u obs)) <$> latencyUpperUS.
Proof.
  induction obs as [|x obs [Hlen IH]] using rev_ind; [done|].
  rewrite fold_left_app. simpl fold_left at 1. cbn [fold_left]. unfold observeHistogram at 1. rewrite length_observe. split; [done|].
  unfold observeHistogram at 1. rewrite cumulative_observe by (apply latencyUpperUS_sorted || done).
  rewrite IH. generalize latencyUpperUS. intros us. induction us as [|u us IHu]; [done|]. rewrite !fmap_cons. simpl.
  f_equal; [|exact IHu]. rewrite at_most_app, at_most_single.
  destruct (x <=? u); [by rewrite uint64_add_l|by rewrite Z.add_0_r].
Qed.

Lemma at_most_mono u v obs : u <= v -> at_most u obs <= at_most v obs.
Proof.
  intros Huv. induction obs as [|x obs IH]; [done|].
  change (x :: obs) with ([x] ++ obs). rewrite !at_most_app, !at_most_single.
  destruct (Z.leb_spec x u), (Z.leb_spec x v); lia.
Qed.

Lemma at_most_le u obs : at_most u obs <= Z.of_nat (length obs).
Proof. unfold at_most. pose proof (length_filter (fun x => x <= u) obs). lia. Qed.

(** ** Properties *)

(** One recorded auction: whether it was filled, and its two latencies. *)
Definition record_all (runs : list (bool * Z * Z)) (m : Metrics) : Metrics :=
  fold_left (fun m r => RecordAuction r.1.1 r.1.2 r.2 m) runs m.

Definition fills (runs : list (bool * Z * Z)) : Z := Z.of_nat (length (filter (fun r : bool * Z * Z => r.1.1 = true) runs)).

Lemma record_all_spec runs :
  let m := record_all runs zero_Metrics in
  me_auctions m = uint64 (Z.of_nat (length runs)) /\ me_filled m = uint64 (fills runs)
  /\ me_noBid m = uint64 (Z.of_nat (length runs) - fills runs)
  /\ me_selectionLatency m = fold_left observeHistogram ((fun r => r.1.2) <$> runs) (replicate 12 0)
  /\ me_handlerLatency m = fold_left observeHistogram (snd <$> runs) (replicate 12 0).
Proof.
  induction runs as [|r runs IH] using rev_ind; [done|]. destruct IH as (Ha & Hf & Hn & Hs & Hh).
  unfold record_all in *. cbv zeta. rewrite fold_left_app. cbn [fold_left].
  set (m := fold_left _ runs zero_Metrics) in *. unfold RecordAuction.
  rewrite !fmap_app, !fold_left_app, <- Hs, <- Hh. unfold fills in *. rewrite length_app, filter_app, length_app.
  destruct r as [[[] s] h]; simpl; rewrite ?filter_cons_True, ?filter_cons_False by done; simpl;
    rewrite Ha, Hf, Hn; unfold counter_add; rewrite !uint64_add_l; split_and!; try done; f_equal; lia.
Qed.

(** The metrics add up. After any auctions since the start: the auction counter
    is the sum of fills and no-bids; each line of a histogram counts exactly the
    observations its bound covers, so the buckets do not decrease; and the +Inf
    bucket and the count are the number of auctions, which covers observations above
    every bound (all counts modulo 2^64). *)
Theorem metrics_add_up runs :
  let m := record_all runs zero_Metrics in
  me_auctions m = uint64 (me_filled m + me_noBid m)
  /\ writeHistogram "h" (me_selectionLatency m) (me_auctions m)
     = ((fun u => bucket_line "h" (FormatInt u 10) (uint64 (at_most u ((fun r => r.1.2) <$> runs)))) <$> latencyUpperUS)
       ++ [bucket_line "h" "+Inf" (uint64 (Z.of_nat (length runs))); metric_line "h_count" (uint64 (Z.of_nat (length runs)))]
  /\ writeHistogram "h" (me_handlerLatency m) (me_auctions m)
     = ((fun u => bucket_line "h" (FormatInt u 10) (uint64 (at_most u (snd <$> runs)))) <$> latencyUpperUS)
       ++ [bucket_line "h" "+Inf" (uint64 (Z.of_nat (length runs))); metric_line "h_count" (uint64 (Z.of_nat (length runs)))]
  /\ forall u v obs, u <= v -> at_most u obs <= at_most v obs <= Z.of_nat (length obs).
Proof.
  intros m. destruct (record_all_spec runs) as (Ha & Hf & Hn & Hs & Hh). fold m in Ha, Hf, Hn, Hs, Hh.
  assert (Hw : forall obs, writeHistogram "h" (fold_left observeHistogram obs (replicate 12 0)) (me_auctions m)
    = ((fun u => bucket_line "h" (FormatInt u 10) (uint64 (at_most u obs))) <$> latencyUpperUS)
      ++ [bucket_line "h" "+Inf" (uint64 (Z.of_nat (length runs))); metric_line "h_count" (uint64 (Z.of_nat (length runs)))]).
  { intros obs. unfold writeHistogram. destruct (observed_cumulative obs) as [_ ->]. by rewrite Ha. }
  split_and!.
  - rewrite Ha, Hf, Hn, uint64_add_l, Z.add_comm, uint64_add_l. f_equal. lia.
  - rewrite Hs. apply Hw.
  - rewrite Hh. apply Hw.
  - intros u v obs Huv. split; [by apply at_most_mono|apply at_most_le].
Qed.
