(* ===== verification/MetricsRun.v ===== *)
(** * The metrics under concurrency (internal/ads/metrics.go)

    [Metrics.Handler] and [Metrics.RecordAuction] at the grain of their atomic loads
    and adds: a page is made of loads at different moments, with other requests
    recorded in between. What a page still promises, and by how much its lines can
    disagree. *)

From S2P Require Import Prelude GoInt GoString Cache Engine Metrics.
Open Scope string_scope.
Open Scope list_scope.
Open Scope Z_scope.

(** ** The counters *)

Inductive counter :=
  | Auctions | Filled | NoBid | BadRequests | BidMutations | BidMutationErrors | ReadinessChecks | ReadinessFailures
  | DecisionLogDropped | ServedStaleTotal | StaleNoBid | DynamicWins
  | Selection (bucket : nat) | Handling (bucket : nat).

#[export] Instance counter_eq_dec : EqDecision counter.
Proof. solve_decision. Defined.

(** [Load]. *)
Definition value (c : counter) (m : Metrics) : Z :=
  match c with
  | Auctions => me_auctions m
  | Filled => me_filled m
  | NoBid => me_noBid m
  | BadRequests => me_badRequests m
  | BidMutations => me_bidMutations m
  | BidMutationErrors => me_bidMutationErrors m
  | ReadinessChecks => me_readinessChecks m
  | ReadinessFailures => me_readinessFailures m
  | DecisionLogDropped => me_decisionLogDropped m
  | ServedStaleTotal => me_servedStale m
  | StaleNoBid => me_staleNoBid m
  | DynamicWins => me_dynamicWins m
  | Selection i => default 0 (me_selectionLatency m !! i)
  | Handling i => default 0 (me_handlerLatency m !! i)
  end.

(** [Add(1)]. *)
Definition increment (c : counter) (m : Metrics) : Metrics :=
  let next n := counter_add n 1 in
  match c with
  | Auctions => {| m with me_auctions := next (me_auctions m) |}
  | Filled => {| m with me_filled := next (me_filled m) |}
  | NoBid => {| m with me_noBid := next (me_noBid m) |}
  | BadRequests => {| m with me_badRequests := next (me_badRequests m) |}
  | BidMutations => {| m with me_bidMutations := next (me_bidMutations m) |}
  | BidMutationErrors => {| m with me_bidMutationErrors := next (me_bidMutationErrors m) |}
  | ReadinessChecks => {| m with me_readinessChecks := next (me_readinessChecks m) |}
  | ReadinessFailures => {| m with me_readinessFailures := next (me_readinessFailures m) |}
  | DecisionLogDropped => {| m with me_decisionLogDropped := next (me_decisionLogDropped m) |}
  | ServedStaleTotal => {| m with me_servedStale := next (me_servedStale m) |}
  | StaleNoBid => {| m with me_staleNoBid := next (me_staleNoBid m) |}
  | DynamicWins => {| m with me_dynamicWins := next (me_dynamicWins m) |}
  | Selection i => {| m with me_selectionLatency := alter next i (me_selectionLatency m) |}
  | Handling i => {| m with me_handlerLatency := alter next i (me_handlerLatency m) |}
  end.

(** ** The methods as sequences of atomic operations *)

(** The bucket [observeHistogram] adds to, if a bound covers the observation. *)
Fixpoint bucket_from (uppers : list Z) (latencyUS : Z) : option nat :=
  match uppers with
  | [] => None
  | upper :: uppers => if latencyUS <=? upper then Some 0%nat else S <$> bucket_from uppers latencyUS
  end.

Definition observe_prog (histogram : nat -> counter) (latencyUS : Z) : list counter :=
  match bucket_from latencyUpperUS latencyUS with Some i => [histogram i] | None => [] end.

(** The adds of [RecordAuction]. *)
Definition RecordAuction_prog (filled : bool) (selectionUS handlerUS : Z) : list counter :=
  Auctions :: (if filled then Filled else NoBid) :: observe_prog Selection selectionUS ++ observe_prog Handling handlerUS.

(** The loads of [Handler]: the count of a histogram is loaded before its buckets. *)
Definition plain_counters : list counter :=
  [Auctions; Filled; NoBid; BadRequests; BidMutations; BidMutationErrors; ReadinessChecks; ReadinessFailures;
   DecisionLogDropped; ServedStaleTotal; StaleNoBid; DynamicWins].
Definition Handler_loads : list counter :=
  plain_counters ++ (Auctions :: (Selection <$> seq 0 12)) ++ (Auctions :: (Handling <$> seq 0 12)).

Definition plain_names : list string :=
  ["adserver_auctions_total"; "adserver_fills_total"; "adserver_no_bid_total"; "adserver_bad_requests_total";
   "adserver_bid_mutations_total"; "adserver_bid_mutation_errors_total"; "adserver_readiness_checks_total";
   "adserver_readiness_failures_total"; "adserver_decision_log_dropped_total"; "adserver_served_stale_total";
   "adserver_stale_snapshot_no_bid_total"; "adserver_dynamic_bid_wins_total"].

(** The values loaded for each part of the page, and its text. *)
Definition selection_count (loads : list Z) : Z := nth 12 loads 0.
Definition selection_buckets (loads : list Z) : list Z := take 12 (drop 13 loads).
Definition handling_count (loads : list Z) : Z := nth 25 loads 0.
Definition handling_buckets (loads : list Z) : list Z := take 12 (drop 26 loads).

Definition page (loads : list Z) : list string :=
  zip_with metric_line plain_names loads
  ++ writeHistogram "adserver_auction_selection_latency_microseconds" (selection_buckets loads) (selection_count loads)
  ++ writeHistogram "adserver_auction_handler_latency_microseconds" (handling_buckets loads) (handling_count loads).

(** ** Executions *)

(** The adds each handler has still to do, and the loads of the scrape so far. *)
Record scrape := mkScrape { sc_metrics : Metrics; sc_recording : gmap nat (list counter); sc_loads : list Z }.

(** [SRecord]: a handler enters [RecordAuction]; [SAdd]: its next add; [SCount]: an add
    elsewhere in the server; [SLoad]: the next load of the scrape. *)
Inductive scrape_event :=
  | SRecord (h : nat) (filled : bool) (selectionUS handlerUS : Z)
  | SAdd (h : nat)
  | SCount (c : counter)
  | SLoad.

(** The counters that only [RecordAuction] adds to. *)
Definition of_auctions (c : counter) : bool :=
  match c with Auctions | Filled | NoBid | Selection _ | Handling _ => true | _ => false end.

Definition scrape_exec (ev : scrape_event) (s : scrape) : option scrape :=
  match ev with
  | SRecord h filled selectionUS handlerUS =>
      match sc_recording s !! h with
      | None => Some {| s with sc_recording := <[h := RecordAuction_prog filled selectionUS handlerUS]> (sc_recording s) |}
      | Some _ => None
      end
  | SAdd h =>
      match sc_recording s !! h with
      | Some (c :: rest) => Some {| s with sc_metrics := increment c (sc_metrics s); sc_recording := <[h := rest]> (sc_recording s) |}
      | _ => None
      end
  | SCount c => if of_auctions c then None else Some {| s with sc_metrics := increment c (sc_metrics s) |}
  | SLoad => c ← Handler_loads !! length (sc_loads s); Some {| s with sc_loads := sc_loads s ++ [value c (sc_metrics s)] |}
  end.

Fixpoint scrape_exec_all (evs : list scrape_event) (s : scrape) : option scrape :=
  match evs with
  | [] => Some s
  | ev :: evs => s ← scrape_exec ev s; scrape_exec_all evs s
  end.

Definition new_scrape : scrape := mkScrape zero_Metrics ∅ [].

(** ** The sequences are the methods *)

Definition sized (m : Metrics) : Prop := length (me_selectionLatency m) = 12%nat /\ length (me_handlerLatency m) = 12%nat.

Lemma observe_bucket uppers histogram x : length histogram = length uppers ->
  observe_from uppers histogram x
  = match bucket_from uppers x with Some i => alter (fun n => counter_add n 1) i histogram | None => histogram end.
Proof.
  revert histogram. induction uppers as [|u uppers IH]; intros [|n histogram] Hl; try done. injection Hl as Hl.
  cbn [observe_from bucket_from]. destruct (x <=? u); [done|]. rewrite IH by done. by destruct (bucket_from uppers x).
Qed.

Lemma RecordAuction_adds filled selectionUS handlerUS m : sized m ->
  fold_left (fun m c => increment c m) (RecordAuction_prog filled selectionUS handlerUS) m = RecordAuction filled selectionUS handlerUS m.
Proof.
  intros [Hs Hh]. unfold RecordAuction, observeHistogram, RecordAuction_prog, observe_prog.
  rewrite !observe_bucket by (destruct filled; done). destruct m, filled;
    destruct (bucket_from latencyUpperUS selectionUS), (bucket_from latencyUpperUS handlerUS); done.
Qed.

Lemma page_Handler m : sized m -> page ((fun c => value c m) <$> Handler_loads) = Metrics_Handler m.
Proof.
  intros [Hs Hh]. unfold page, Metrics_Handler, Handler_loads, selection_buckets, handling_buckets.
  destruct m as [? ? ? ? ? ? ? ? ? ? ? ? sel han]. cbn [me_selectionLatency me_handlerLatency] in *.
  do 12 (destruct sel as [|? sel]; [done|]). destruct sel; [|done].
  do 12 (destruct han as [|? han]; [done|]). destruct han; [|done]. done.
Qed.

(** ** What holds at every moment *)

(** The counters a handler adds to at most once, after the auction counter. *)
Definition classes : list (list counter) := [[Filled; NoBid]; Selection <$> seq 0 12; Handling <$> seq 0 12].

Definition among (class cs : list counter) : Z := Z.of_nat (length (filter (fun c => c ∈ class) cs)).
Definition total (class : list counter) (m : Metrics) : Z := foldr (fun c acc => value c m + acc) 0 class.

(** The adds to [class] of an auction that has been counted. *)
Definition owed (class rest : list counter) : Z := if decide (Auctions ∈ rest) then 0 else among class rest.

(** What a handler has left of its adds. *)
Definition recorder_ok (rest : list counter) : Prop :=
  exists filled selectionUS handlerUS before, RecordAuction_prog filled selectionUS handlerUS = before ++ rest.

Record scrape_ok (n : Z) (s : scrape) : Prop := {
  so_sized : sized (sc_metrics s);
  so_range c : 0 <= value c (sc_metrics s) <= n;
  so_recording h rest : sc_recording s !! h = Some rest -> recorder_ok rest;
  so_classes class : class ∈ classes ->
    total class (sc_metrics s) + map_sum (owed class) (sc_recording s) <= value Auctions (sc_metrics s)
}.

(** A counter that has a place: a bucket is one of the twelve. *)
Definition placed (c : counter) : Prop := match c with Selection i | Handling i => (i < 12)%nat | _ => True end.

Lemma value_increment c d m : sized m -> placed d ->
  value c (increment d m) = if decide (c = d) then counter_add (value c m) 1 else value c m.
Proof.
  intros [Hs Hh] Hd. destruct (decide (c = d)) as [->|Hne].
  - destruct d; try done; simpl in *; rewrite list_lookup_alter_eq.
    + destruct (lookup_lt_is_Some_2 (me_selectionLatency m) bucket) as [x ->]; [by rewrite Hs|done].
    + destruct (lookup_lt_is_Some_2 (me_handlerLatency m) bucket) as [x ->]; [by rewrite Hh|done].
  - destruct c, d; try done; simpl; rewrite list_lookup_alter_ne; congruence.
Qed.

Lemma increment_sized c m : sized m -> sized (increment c m).
Proof. intros [Hs Hh]. destruct c; unfold sized; simpl; rewrite ?length_alter; done. Qed.

Lemma bucket_from_lt uppers x i : bucket_from uppers x = Some i -> (i < length uppers)%nat.
Proof.
  revert i. induction uppers as [|u uppers IH]; intros i; simpl; [done|]. destruct (x <=? u); [intros [= <-]; lia|].
  intros (j & Hj & ->)%fmap_Some. specialize (IH _ Hj). lia.
Qed.

(** The adds of one auction: the auction counter, then at most one of each class. *)
Lemma RecordAuction_prog_shape filled selectionUS handlerUS : exists rest,
  RecordAuction_prog filled selectionUS handlerUS = Auctions :: rest /\ (Auctions ∉ rest) /\ Forall placed rest
  /\ forall class, class ∈ classes -> among class rest <= 1.
Proof.
  eexists. split; [reflexivity|]. unfold observe_prog.
  pose proof (bucket_from_lt latencyUpperUS selectionUS) as Hs. pose proof (bucket_from_lt latencyUpperUS handlerUS) as Hh.
  assert (Hin : forall (f : nat -> counter) i, (i < 12)%nat -> f i ∈ (f <$> seq 0 12)).
  { intros f i Hi. apply list_elem_of_fmap. exists i. split; [done|]. apply elem_of_seq. lia. }
  destruct (bucket_from latencyUpperUS selectionUS) as [i|], (bucket_from latencyUpperUS handlerUS) as [j|];
    try specialize (Hs _ eq_refl); try specialize (Hh _ eq_refl); simpl length in *.
  all: split_and!; [destruct filled; set_solver|by destruct filled; repeat first [apply Forall_nil_2|apply Forall_cons_2]|].
  all: unfold classes, among; intros class Hc; rewrite !elem_of_cons in Hc; destruct Hc as [-> |[-> |[-> |Hc]]]; [..|by inv Hc];
    destruct filled; cbn [app]; repeat (rewrite filter_cons; case_decide); rewrite ?filter_nil; cbn [length]; try lia.
  all: exfalso; repeat match goal with H : _ ∈ _ <$> _ |- _ => apply list_elem_of_fmap in H as (? & ? & ?) end; try done.
  all: by repeat match goal with H : _ ∈ [_; _] |- _ => apply list_elem_of_In in H as [?|[?|[]]] end.
Qed.

Lemma recorder_next c rest : recorder_ok (c :: rest) ->
  recorder_ok rest /\ placed c /\ (Auctions ∉ rest) /\ (c = Auctions -> forall class, class ∈ classes -> among class rest <= 1).
Proof.
  intros (f & s & h & pre & Hp). split; [exists f, s, h, (pre ++ [c]); by rewrite <- app_assoc|].
  destruct (RecordAuction_prog_shape f s h) as (tl & Htl & Hn & Hpl & Hcl). rewrite Htl in Hp.
  destruct pre as [|x pre]; simplify_eq/=; [by split_and!|].
  rewrite Forall_app, Forall_cons in Hpl. rewrite elem_of_app, elem_of_cons in Hn. split_and!; [tauto..|].
  intros ->. tauto.
Qed.

Lemma among_cons class c cs : among class (c :: cs) = (if decide (c ∈ class) then 1 else 0) + among class cs.
Proof. unfold among. rewrite filter_cons. case_decide; simpl; lia. Qed.

Lemma classes_facts class : class ∈ classes -> NoDup class /\ (Auctions ∉ class) /\ forall c, c ∈ class -> of_auctions c = true.
Proof.
  unfold classes. rewrite !elem_of_cons. intros [-> |[-> |[-> |Hc]]]; [..|by inv Hc].
  - split_and!; [|set_solver|intros c; rewrite !elem_of_cons; intros [-> |[-> |Hc]]; [done..|by inv Hc]].
    apply NoDup_cons. split; [set_solver|apply NoDup_singleton].
  - split_and!; [apply NoDup_fmap_2; [by intros ? ? [=]|apply NoDup_seq]|by intros (? & ? & ?)%list_elem_of_fmap|].
    by intros c (? & -> & ?)%list_elem_of_fmap.
  - split_and!; [apply NoDup_fmap_2; [by intros ? ? [=]|apply NoDup_seq]|by intros (? & ? & ?)%list_elem_of_fmap|].
    by intros c (? & -> & ?)%list_elem_of_fmap.
Qed.

Section increments.
Context (m : Metrics) (n : Z) (Hm : sized m) (Hr : forall c, 0 <= value c m <= n) (Hn : n + 1 < 2 ^ 64).

Lemma value_next c d : placed d -> value c (increment d m) = value c m + if decide (c = d) then 1 else 0.
Proof.
  intros Hd. rewrite value_increment by done. pose proof (Hr c). destruct (decide (c = d)); [|lia].
  apply uint64_id. unfold_int. lia.
Qed.

Lemma total_next class d : placed d -> NoDup class -> total class (increment d m) = total class m + if decide (d ∈ class) then 1 else 0.
Proof.
  intros Hd. induction 1 as [|c class Hc _ IH]; [by rewrite decide_False by apply not_elem_of_nil|].
  cbn [total foldr]. fold (total class (increment d m)). fold (total class m). rewrite IH, value_next by done.
  destruct (decide (c = d)) as [->|Hne].
  - rewrite (decide_False (P := d ∈ class)), (decide_True (P := d ∈ d :: class)) by (done || by left). lia.
  - destruct (decide (d ∈ class)); [rewrite decide_True by (by right)|rewrite decide_False by (rewrite elem_of_cons; intros []; congruence)]; lia.
Qed.

Lemma range_next d : placed d -> forall c, value c m <= value c (increment d m) <= n + 1.
Proof. intros Hd c. rewrite value_next by done. pose proof (Hr c). destruct (decide (c = d)); lia. Qed.
End increments.

Lemma owed_before class rest : Auctions ∈ rest -> owed class rest = 0.
Proof. intros Hin. unfold owed. by rewrite decide_True. Qed.

Lemma owed_after class rest : Auctions ∉ rest -> owed class rest = among class rest.
Proof. intros Hin. unfold owed. by rewrite decide_False. Qed.

Lemma owed_nonneg class rest : 0 <= owed class rest.
Proof. unfold owed, among. case_decide; lia. Qed.

Lemma scrape_exec_ok n ev s s2 : scrape_ok n s -> n + 1 < 2 ^ 64 -> scrape_exec ev s = Some s2 ->
  scrape_ok (n + 1) s2 /\ forall c, value c (sc_metrics s) <= value c (sc_metrics s2).
Proof.
  intros [Hm Hr Hrec Hcl] Hn Hx. destruct ev as [h f sel han|h|c|]; simpl in Hx.
  - destruct (sc_recording s !! h) eqn:Eh; [done|]. injection Hx as <-. split; [|done]. split; cbn [sc_metrics sc_recording]; [done|intros c; specialize (Hr c); lia| |].
    + intros h2 rest. destruct (decide (h2 = h)) as [->|]; [rewrite lookup_insert_eq|rewrite lookup_insert_ne by done; apply Hrec].
      intros [= <-]. by exists f, sel, han, [].
    + intros class Hc. rewrite map_sum_insert by done. specialize (Hcl class Hc). rewrite owed_before by left. lia.
  - destruct (sc_recording s !! h) as [[|d rest]|] eqn:Eh; [done| |done]. injection Hx as <-.
    destruct (recorder_next d rest (Hrec h _ Eh)) as (Hok & Hd & Hna & Hone).
    pose proof (range_next _ n Hm Hr Hn d Hd) as Hv. split; [|intros c; apply Hv]. split; cbn [sc_metrics sc_recording].
    + by apply increment_sized.
    + intros c. specialize (Hv c). specialize (Hr c). lia.
    + intros h2 r2. destruct (decide (h2 = h)) as [->|]; [rewrite lookup_insert_eq; by intros [= <-]|rewrite lookup_insert_ne by done; apply Hrec].
    + intros class Hc. destruct (classes_facts class Hc) as (Hnd & Hnoa & _). specialize (Hcl class Hc).
      rewrite (map_sum_update _ _ _ _ _ Eh), (total_next _ n), (value_next _ n) by done.
      rewrite (owed_after class rest) by exact Hna. destruct (decide (Auctions = d)) as [<-|Hne].
      * rewrite (decide_False (P := Auctions ∈ class)) by done. rewrite owed_before by left. specialize (Hone eq_refl class Hc). lia.
      * rewrite owed_after by (rewrite elem_of_cons; intros []; done). rewrite among_cons. lia.
  - destruct (of_auctions c) eqn:Eo; [done|]. injection Hx as <-. assert (Hd : placed c) by by destruct c.
    pose proof (range_next _ n Hm Hr Hn c Hd) as Hv. split; [|intros d; apply Hv]. split; cbn [sc_metrics sc_recording]; [by apply increment_sized| |done|].
    + intros d. specialize (Hv d). specialize (Hr d). lia.
    + intros class Hc. destruct (classes_facts class Hc) as (Hnd & _ & Hof). specialize (Hcl class Hc).
      rewrite (total_next _ n), (value_next _ n) by done. rewrite (decide_False (P := c ∈ class)) by (intros Hin; apply Hof in Hin; congruence).
      destruct (decide (Auctions = c)); [by subst|]. lia.
  - apply bind_Some in Hx as (c & _ & [= <-]). split; [|done]. split; cbn [sc_metrics sc_recording]; [done|intros d; specialize (Hr d); lia|done|done].
Qed.

(** ** Executions *)

Definition between (m m2 : Metrics) (c : counter) (v : Z) : Prop := value c m <= v <= value c m2.

Lemma scrape_exec_loads ev s s2 : scrape_exec ev s = Some s2 ->
  sc_loads s2 = sc_loads s
  \/ exists c, ev = SLoad /\ Handler_loads !! length (sc_loads s) = Some c /\ sc_metrics s2 = sc_metrics s
       /\ sc_loads s2 = sc_loads s ++ [value c (sc_metrics s)].
Proof.
  intros Hx. destruct ev as [h f sel han|h|c|]; simpl in Hx; [left..|right].
  - destruct (sc_recording s !! h); [done|]. by injection Hx as <-.
  - destruct (sc_recording s !! h) as [[|d rest]|]; [done| |done]. by injection Hx as <-.
  - destruct (of_auctions c); [done|]. by injection Hx as <-.
  - apply bind_Some in Hx as (c & Hc & [= <-]). by exists c.
Qed.

Lemma scrape_exec_all_ok evs n s s2 :
  scrape_ok n s -> n + Z.of_nat (length evs) < 2 ^ 64 -> scrape_exec_all evs s = Some s2 ->
  scrape_ok (n + Z.of_nat (length evs)) s2 /\ (forall c, value c (sc_metrics s) <= value c (sc_metrics s2))
  /\ exists new, sc_loads s2 = sc_loads s ++ new
     /\ Forall2 (between (sc_metrics s) (sc_metrics s2)) (take (length new) (drop (length (sc_loads s)) Handler_loads)) new.
Proof.
  revert n s. induction evs as [|ev evs IH]; intros n s Hok Hn Hx; cbn [scrape_exec_all length] in *.
  { injection Hx as <-. split; [by rewrite Z.add_0_r|]. split; [done|]. exists []. split; [by rewrite app_nil_r|].
    cbn [length]. rewrite take_0. constructor. }
  apply bind_Some in Hx as (s1 & Hev & Hx). destruct (scrape_exec_ok n ev s s1 Hok) as [Hok1 Hmono]; [lia|done|].
  destruct (IH (n + 1) s1 Hok1) as (Hok2 & Hmono2 & new & Hl & Hf); [lia|done|].
  replace (n + Z.of_nat (S (length evs))) with (n + 1 + Z.of_nat (length evs)) by lia. split; [done|]. split; [intros c; pose proof (Hmono c); pose proof (Hmono2 c); lia|].
  assert (Hwide : forall cs vs, Forall2 (between (sc_metrics s1) (sc_metrics s2)) cs vs -> Forall2 (between (sc_metrics s) (sc_metrics s2)) cs vs).
  { intros cs vs Hcv. eapply Forall2_impl; [exact Hcv|]. intros c v [Hlo Hhi]. pose proof (Hmono c). split; lia. }
  destruct (scrape_exec_loads ev s s1 Hev) as [Hsame|(c & _ & Hc & Hmet & Hload)].
  - exists new. rewrite Hl, Hsame in *. split; [done|]. by apply Hwide.
  - exists (value c (sc_metrics s) :: new). rewrite Hl, Hload, <- app_assoc in *. split; [done|].
    rewrite length_app, Nat.add_1_r in Hf. cbn [length]. rewrite (drop_S _ _ _ Hc). cbn [take]. constructor; [|by apply Hwide].
    split; [done|]. rewrite <- Hmet. apply Hmono2.
Qed.

Lemma new_scrape_ok : scrape_ok 0 new_scrape.
Proof.
  assert (Hz : forall c, value c zero_Metrics = 0).
  { intros c. destruct c; try done; cbn [value zero_Metrics me_selectionLatency me_handlerLatency];
      (destruct (replicate 12 0 !! bucket) eqn:E; [|done]; by apply lookup_replicate in E as [-> _]). }
  split; [done|intros c; rewrite Hz; lia|done|]. intros class Hc. cbn [new_scrape sc_metrics sc_recording]. rewrite map_sum_empty, Hz.
  assert (Ht : total class zero_Metrics = 0); [|lia]. clear Hc. induction class as [|c class IH]; [done|].
  cbn [total foldr]. fold (total class zero_Metrics). by rewrite IH, Hz.
Qed.

(** ** What a page promises *)

(** The running sums of buckets that add up to at most [b]. *)
Lemma cumulative_le l b c : 0 <= c -> Forall (fun v => 0 <= v) l -> c + foldr Z.add 0 l <= b -> b < 2 ^ 64 ->
  Forall (fun v => v <= b) (cumulative_from c l).
Proof.
  intros Hc Hl. revert c Hc. induction Hl as [|v l Hv Hl IH]; intros c Hc Hb H64; [constructor|]. cbn [cumulative_from foldr] in *.
  assert (Hs : 0 <= foldr Z.add 0 l) by (clear -Hl; induction Hl; simpl; lia).
  unfold counter_add. rewrite uint64_id by (unfold_int; lia). constructor; [lia|]. apply IH; lia.
Qed.

Lemma loaded_sum m m2 class vs : Forall2 (between m m2) class vs -> foldr Z.add 0 vs <= total class m2.
Proof. induction 1 as [|c v class vs [_ Hv] _ IH]; [done|]. cbn [foldr total]. fold (total class m2). lia. Qed.

Lemma scrape_class n s class : scrape_ok n s -> class ∈ classes -> total class (sc_metrics s) <= value Auctions (sc_metrics s).
Proof.
  intros Hok Hc. pose proof (so_classes _ _ Hok class Hc).
  pose proof (map_sum_nonneg (owed class) (sc_recording s) ltac:(intros; apply owed_nonneg)). lia.
Qed.

Lemma loads_only evs s s2 : Forall (fun ev => ev = SLoad) evs -> scrape_exec_all evs s = Some s2 -> sc_metrics s2 = sc_metrics s.
Proof.
  intros Hf. revert s. induction Hf as [|ev evs -> _ IH]; intros s Hx; cbn [scrape_exec_all] in Hx; [by injection Hx as <-|].
  apply bind_Some in Hx as (s1 & Hev & Hx). rewrite (IH _ Hx). apply bind_Some in Hev as (c & _ & [= <-]). done.
Qed.

(** Loads of a class, wherever they are on the page, exceed the auction counter at the
    start by at most the auctions counted since. *)
Lemma class_excess n m s class vs count : scrape_ok n s -> class ∈ classes -> Forall2 (between m (sc_metrics s)) class vs ->
  value Auctions m <= count -> foldr Z.add 0 vs <= count + (value Auctions (sc_metrics s) - value Auctions m).
Proof. intros Hok Hc Hv Hn. pose proof (loaded_sum _ _ _ _ Hv). pose proof (scrape_class _ _ _ Hok Hc). lia. Qed.

Lemma between_nonneg n1 m1 m2 cs vs : scrape_ok n1 m1 -> Forall2 (between (sc_metrics m1) m2) cs vs -> Forall (fun v => 0 <= v) vs.
Proof. intros Hok. induction 1 as [|c v cs vs [Hv _] _ IH]; constructor; [|done]. pose proof (so_range _ _ Hok c). lia. Qed.

Lemma between_same m cs vs : Forall2 (between m m) cs vs -> vs = (fun c => value c m) <$> cs.
Proof. induction 1 as [|c v cs vs [? ?] _ IH]; [done|]. rewrite fmap_cons, <- IH. f_equal. lia. Qed.

(** The first, the second and the third part of the loads. *)
Lemma loads_parts m m2 loads : Forall2 (between m m2) Handler_loads loads ->
  Forall2 (between m m2) [Filled; NoBid] (take 2 (drop 1 loads))
  /\ value Auctions m <= nth 0 loads 0 /\ value Auctions m <= selection_count loads /\ value Auctions m <= handling_count loads
  /\ Forall2 (between m m2) (Selection <$> seq 0 12) (selection_buckets loads)
  /\ Forall2 (between m m2) (Handling <$> seq 0 12) (handling_buckets loads).
Proof.
  intros Hf. assert (Hcount : forall i, Handler_loads !! i = Some Auctions -> value Auctions m <= nth i loads 0).
  { intros i Hi. destruct (Forall2_lookup_l _ _ _ _ _ Hf Hi) as (v & Hv & [Hlo _]). by rewrite (nth_lookup_Some _ _ _ _ Hv). }
  split_and!; [|by apply Hcount..| |].
  - change [Filled; NoBid] with (take 2 (drop 1 Handler_loads)). by apply Forall2_take, Forall2_drop.
  - change (Selection <$> seq 0 12) with (take 12 (drop 13 Handler_loads)). by apply Forall2_take, Forall2_drop.
  - change (Handling <$> seq 0 12) with (take 12 (drop 26 Handler_loads)). by apply Forall2_take, Forall2_drop.
Qed.

(** C39: a metrics page while requests are served. Every number is a value its counter
    had during the scrape, so no counter decreases from one page to the next. The
    lines are loaded at different moments: fills and no-bids, and the buckets of a
    histogram, can add up to more than the auction count and the +Inf bucket beside
    them, but by no more than the auctions counted during the scrape. A scrape that
    nothing interrupts gives exactly the page of the sequential handler. *)
Theorem page_accounts evs1 evs2 s1 s2 :
  Z.of_nat (length evs1 + length evs2) < 2 ^ 64 -> scrape_exec_all evs1 new_scrape = Some s1 -> sc_loads s1 = [] ->
  scrape_exec_all evs2 s1 = Some s2 -> length (sc_loads s2) = length Handler_loads ->
  let loads := sc_loads s2 in
  let meanwhile := value Auctions (sc_metrics s2) - value Auctions (sc_metrics s1) in
  Forall2 (fun c v => value c (sc_metrics s1) <= v <= value c (sc_metrics s2)) Handler_loads loads
  /\ nth 1 loads 0 + nth 2 loads 0 <= nth 0 loads 0 + meanwhile
  /\ Forall (fun v => v <= selection_count loads + meanwhile) (cumulative_from 0 (selection_buckets loads))
  /\ Forall (fun v => v <= handling_count loads + meanwhile) (cumulative_from 0 (handling_buckets loads))
  /\ (Forall (fun ev => ev = SLoad) evs2 -> page loads = Metrics_Handler (sc_metrics s1)).
Proof.
  intros Hn H1 Hl1 H2 Hlen loads meanwhile. rewrite Nat2Z.inj_add in Hn.
  destruct (scrape_exec_all_ok evs1 0 new_scrape s1 new_scrape_ok) as (Hok1 & _ & _); [lia|done|].
  destruct (scrape_exec_all_ok evs2 _ s1 s2 Hok1) as (Hok2 & _ & new & Hnew & Hf); [lia|done|].
  rewrite Hl1 in Hnew, Hf. rewrite app_nil_l in Hnew. subst new. rewrite drop_0, Hlen, firstn_all in Hf. fold loads in Hf.
  destruct (loads_parts _ _ _ Hf) as (Hfills & Hc0 & Hcs & Hch & Hsel & Hhan).
  assert (Hlines : forall class vs count, class ∈ classes -> Forall2 (between (sc_metrics s1) (sc_metrics s2)) class vs ->
    value Auctions (sc_metrics s1) <= count -> Forall (fun v => v <= count + meanwhile) (cumulative_from 0 vs)).
  { intros class vs count Hc Hv Hcount. pose proof (between_nonneg _ _ _ _ _ Hok1 Hv) as Hpos. pose proof (loaded_sum _ _ _ _ Hv) as Hle.
    pose proof (scrape_class _ _ _ Hok2 Hc) as Hcl. pose proof (so_range _ _ Hok2 Auctions) as Hr.
    eapply Forall_impl; [apply (cumulative_le vs (value Auctions (sc_metrics s2)) 0); [done|exact Hpos|lia|lia]|].
    intros v Hle2. cbv beta in *. unfold meanwhile. lia. }
  split_and!; [exact Hf| |exact (Hlines _ _ _ ltac:(by right; left) Hsel Hcs)|exact (Hlines _ _ _ ltac:(by right; right; left) Hhan Hch)|].
  - pose proof (class_excess _ _ _ _ _ _ Hok2 ltac:(by left) Hfills Hc0) as Hsum.
    destruct loads as [|? [|? [|? ?]]]; simpl in *; lia.
  - intros Hq. pose proof (loads_only _ _ _ Hq H2) as Hm. rewrite Hm in Hf. rewrite (between_same _ _ _ Hf). apply page_Handler, Hok1.
Qed.

(** ** Evaluations *)

Definition one_auction (h : nat) : list scrape_event := SRecord h true 3 40 :: replicate 4 (SAdd h).

(** One auction before the scrape, and one between the load of the first histogram's
    count and its buckets. *)
Definition torn_run : list scrape_event := replicate 13 SLoad ++ one_auction 1 ++ replicate 25 SLoad.
Abbreviation before_scrape := (default new_scrape (scrape_exec_all (one_auction 0) new_scrape)).
Abbreviation after_scrape := (default new_scrape (scrape_exec_all torn_run before_scrape)).

(** The page shows two auctions of at most 5 microseconds, and one auction. *)
Example torn_page :
  selection_count (sc_loads after_scrape) = 1
  /\ cumulative_from 0 (selection_buckets (sc_loads after_scrape)) = [0; 0; 2; 2; 2; 2; 2; 2; 2; 2; 2; 2]
  /\ handling_count (sc_loads after_scrape) = 2
  /\ bucket_line "adserver_auction_selection_latency_microseconds" "10000" 2 ∈ page (sc_loads after_scrape)
  /\ bucket_line "adserver_auction_selection_latency_microseconds" "+Inf" 1 ∈ page (sc_loads after_scrape).
Proof.
  split; [by vm_compute|]. split; [by vm_compute|]. split; [by vm_compute|].
  assert (Hin : forall line l, existsb (String.eqb line) l = true -> line ∈ l).
  { intros line l (x & Hx & ->%String.eqb_eq)%existsb_exists. by apply list_elem_of_In. }
  split; apply Hin; by vm_compute.
Qed.

Lemma page_accounts_witness :
  Forall (fun v => v <= 2) (cumulative_from 0 (selection_buckets (sc_loads after_scrape)))
  /\ page (sc_loads (default new_scrape (scrape_exec_all (replicate 38 SLoad) before_scrape))) = Metrics_Handler (sc_metrics before_scrape).
Proof.
  assert (H1 : scrape_exec_all (one_auction 0) new_scrape = Some before_scrape) by by vm_compute.
  split.
  - assert (H2 : scrape_exec_all torn_run before_scrape = Some after_scrape) by by vm_compute.
    destruct (page_accounts (one_auction 0) torn_run before_scrape after_scrape eq_refl H1 ltac:(by vm_compute) H2 ltac:(by vm_compute))
      as (_ & _ & Hsel & _). exact Hsel.
  - refine (proj2 (proj2 (proj2 (proj2 (page_accounts (one_auction 0) (replicate 38 SLoad) before_scrape _ eq_refl H1 _ _ _)))) _);
      [by vm_compute..|]. by repeat constructor.
Defined.
