(* ===== verification/Config.v ===== *)
(** * Configuration (internal/ads/types.go)

    The configuration of the process, how it is read from the environment ([env] is
    [os.Getenv]) and its validation. *)

From S2P Require Import Prelude GoInt GoTime GoString GoParse Types Ranking DynamicBids Store BidStore Cache Auction.
From S2P Require Import Breaker Engine.
From Stdlib Require Import Ascii.
Open Scope string_scope.
Open Scope list_scope.
Open Scope Z_scope.
Open Scope go_scope.

(** ** The code *)

Record DSPBidderEndpoint := mkEndpoint { ep_ID : string; ep_URL : string }.

Record Config := mkConfig {
  c_HTTPAddr : string;
  c_DebugAddr : string;
  c_RedisAddr : string;
  c_RedisPassword : string;
  c_RedisDB : Z;
  c_RedisMode : string;
  c_RedisAddrs : list string;
  c_RedisPrefix : string;
  c_AdminToken : string;
  c_CacheRefresh : Duration;
  c_AuctionPolicy : AuctionPolicy;
  c_DecisionLogging : bool;
  c_DecisionLogBuffer : Z;
  c_MaxSnapshotAge : Duration;
  c_StaleSnapshotAction : StaleSnapshotAction;
  c_DSPBidderEndpoints : list DSPBidderEndpoint;
  c_DSPAuthorization : string;
  c_BidderEngineConfig : BidderEngineConfig;
  c_DSPTimeout : Duration;
  c_DSPMaxConcurrent : Z;
  c_DSPFailureThreshold : Z;
  c_DSPCircuitOpenFor : Duration
}.

Definition getenv (env : string -> string) (key : string) : string := TrimSpace (env key).

(** The three shapes of the function's statements: [set] runs if the value is not
    empty; if it parses to a positive duration; if it parses to an integer that
    passes the test. [strconv.Atoi] and [ParseInt] with base 10 agree. *)
Definition set_text (value : string) (set : string -> Config -> Config) (c : Config) : Config :=
  if negb (String.eqb value "") then set value c else c.

Definition set_duration (value : string) (set : Duration -> Config -> Config) (c : Config) : Config :=
  if negb (String.eqb value "") then
    match ParseDuration value with
    | Some d => if 0 <? d then set d c else c
    | None => c
    end
  else c.

Definition set_number (value : string) (least : Z) (set : Z -> Config -> Config) (c : Config) : Config :=
  if negb (String.eqb value "") then
    match ParseInt value with
    | Some n => if least <=? n then set n c else c
    | None => c
    end
  else c.

Definition set_engine (f : BidderEngineConfig -> BidderEngineConfig) (c : Config) : Config :=
  {| c with c_BidderEngineConfig := f (c_BidderEngineConfig c) |}.
Definition set_policy (f : AuctionPolicy -> AuctionPolicy) (c : Config) : Config :=
  {| c with c_AuctionPolicy := f (c_AuctionPolicy c) |}.

(** The loop over [REDIS_ADDRS]. *)
Definition redis_addrs (value : string) : list string :=
  omap (fun address => let address := TrimSpace address in
    if negb (String.eqb address "") then Some address else None) (Split value ",").

(** One entry of [DSP_ENDPOINTS]; a malformed one is kept as an empty endpoint, which
    the validation refuses. *)
Definition dsp_endpoint (rawEndpoint : string) : DSPBidderEndpoint :=
  match SplitN2 (TrimSpace rawEndpoint) "=" with
  | [id; url] => if String.eqb id "" || String.eqb url "" then mkEndpoint "" "" else mkEndpoint id url
  | _ => mkEndpoint "" ""
  end.

Definition default_Config : Config :=
  mkConfig ":8080" "" "127.0.0.1:6379" "" 0 "single" [] "adserver" "" (30 *i Second) DefaultAuctionPolicy
    false 4096 Minute ServeStale [] "" DefaultBidderEngineConfig (60 *i Millisecond) 32 3 (5 *i Second).

Definition ConfigFromEnv (env : string -> string) : Config :=
  let text key := TrimSpace (getenv env key) in
  let c := default_Config in
  let c := set_text (text "HTTP_ADDR") (fun v c => {| c with c_HTTPAddr := v |}) c in
  let c := set_text (text "DEBUG_ADDR") (fun v c => {| c with c_DebugAddr := v |}) c in
  let c := set_text (text "REDIS_ADDR") (fun v c => {| c with c_RedisAddr := v |}) c in
  let c := set_text (text "REDIS_MODE") (fun v c => {| c with c_RedisMode := v |}) c in
  let c := set_text (text "REDIS_ADDRS") (fun v c => {| c with c_RedisAddrs := c_RedisAddrs c ++ redis_addrs v |}) c in
  let c := set_text (getenv env "REDIS_PASSWORD") (fun v c => {| c with c_RedisPassword := v |}) c in
  let c := set_number (text "REDIS_DB") 0 (fun n c => {| c with c_RedisDB := n |}) c in
  let c := set_text (text "REDIS_PREFIX") (fun v c => {| c with c_RedisPrefix := v |}) c in
  let c := set_text (getenv env "AD_ADMIN_TOKEN") (fun v c => {| c with c_AdminToken := v |}) c in
  let c := set_duration (text "CACHE_REFRESH_INTERVAL") (fun d c => {| c with c_CacheRefresh := d |}) c in
  let c := set_duration (text "MAX_SNAPSHOT_AGE") (fun d c => {| c with c_MaxSnapshotAge := d |}) c in
  let c := set_text (text "STALE_SNAPSHOT_ACTION") (fun v c => {| c with c_StaleSnapshotAction := v |}) c in
  let c := set_text (text "AUCTION_PRICING_MODEL")
             (fun v => set_policy (fun p => {| p with pol_PricingModel := v |})) c in
  let c := set_number (text "SECOND_PRICE_INCREMENT_MICROS") 0
             (fun n => set_policy (fun p => {| p with pol_SecondPriceIncrementMicros := n |})) c in
  let c := if String.eqb (text "DECISION_LOGGING") "true" then {| c with c_DecisionLogging := true |} else c in
  let c := set_number (text "DECISION_LOG_BUFFER") 1 (fun n c => {| c with c_DecisionLogBuffer := n |}) c in
  let c := set_text (text "DSP_ENDPOINTS") (fun v c =>
             {| c with c_DSPBidderEndpoints := c_DSPBidderEndpoints c ++ (dsp_endpoint <$> Split v ",") |}) c in
  let c := {| c with c_DSPAuthorization := getenv env "DSP_AUTHORIZATION" |} in
  let c := set_duration (text "DSP_TIMEOUT") (fun d c => {| c with c_DSPTimeout := d |}) c in
  let c := set_duration (text "DSP_CACHE_TTL") (fun d => set_engine (fun e => {| e with ec_CacheTTL := d |})) c in
  let c := set_duration (text "DSP_FAILURE_TTL") (fun d => set_engine (fun e => {| e with ec_FailureTTL := d |})) c in
  let c := set_number (text "DSP_MAX_FANOUT") 1 (fun n => set_engine (fun e => {| e with ec_MaxFanout := n |})) c in
  let c := set_number (text "DSP_MAX_REFRESHES") 1
             (fun n => set_engine (fun e => {| e with ec_MaxConcurrentRefreshes := n |})) c in
  let c := set_number (text "DSP_MAX_KEYS") 1 (fun n => set_engine (fun e => {| e with ec_MaxKeys := n |})) c in
  let c := set_number (text "DSP_MAX_CONCURRENT") 1 (fun n c => {| c with c_DSPMaxConcurrent := n |}) c in
  let c := set_number (text "DSP_FAILURE_THRESHOLD") 1 (fun n c => {| c with c_DSPFailureThreshold := n |}) c in
  set_duration (text "DSP_CIRCUIT_OPEN") (fun d c => {| c with c_DSPCircuitOpenFor := d |}) c.

Definition endpoint_ok (endpoint : DSPBidderEndpoint) : bool :=
  negb (negb (validBidderID (ep_ID endpoint)) || String.eqb (ep_URL endpoint) "" || (4096 <? len (ep_URL endpoint))).

Definition Config_Validate (c : Config) : option string :=
  match AuctionPolicy_Validate (c_AuctionPolicy c) with
  | Some e => Some e
  | None =>
  if negb (String.eqb (c_RedisMode c) "single") && negb (String.eqb (c_RedisMode c) "cluster")
  then Some "REDIS_MODE must be single or cluster"
  else if String.eqb (c_RedisMode c) "cluster" && negb (c_RedisDB c =? 0)
  then Some "Redis Cluster only supports database 0"
  else if c_MaxSnapshotAge c <=? 0 then Some "MAX_SNAPSHOT_AGE must be positive"
  else if negb (String.eqb (c_StaleSnapshotAction c) ServeStale) && negb (String.eqb (c_StaleSnapshotAction c) NoBidOnStale)
  then Some "STALE_SNAPSHOT_ACTION must be serve_stale or no_bid"
  else if 64 <? Z.of_nat (length (c_DSPBidderEndpoints c)) then Some "DSP_ENDPOINTS has more than 64 entries"
  else if negb (forallb endpoint_ok (c_DSPBidderEndpoints c)) then Some "DSP_ENDPOINTS entries require id=url"
  else if (8192 <? len (c_DSPAuthorization c)) || (c_DSPTimeout c <=? 0) || (10 *i Second <? c_DSPTimeout c)
       || (c_DSPMaxConcurrent c <? 1) || (1024 <? c_DSPMaxConcurrent c)
       || (c_DSPFailureThreshold c <? 1) || (100 <? c_DSPFailureThreshold c)
       || (c_DSPCircuitOpenFor c <=? 0) || (Hour <? c_DSPCircuitOpenFor c)
  then Some "invalid DSP timeout, concurrency, or circuit configuration"
  else BidderEngineConfig_Validate (c_BidderEngineConfig c)
  end.

(** ** What the environment cannot break *)

(** Numbers that come from the environment are in the range of their types, and
    limits and durations positive. *)
Record config_sane (c : Config) : Prop := {
  cs_refresh : 0 < c_CacheRefresh c /\ is_int64 (c_CacheRefresh c);
  cs_age : 0 < c_MaxSnapshotAge c /\ is_int64 (c_MaxSnapshotAge c);
  cs_increment : 0 <= pol_SecondPriceIncrementMicros (c_AuctionPolicy c) <= MaxInt64;
  cs_buffer : 1 <= c_DecisionLogBuffer c <= MaxInt64;
  cs_db : 0 <= c_RedisDB c <= MaxInt64;
  cs_timeout : 0 < c_DSPTimeout c /\ is_int64 (c_DSPTimeout c);
  cs_concurrent : 1 <= c_DSPMaxConcurrent c <= MaxInt64;
  cs_threshold : 1 <= c_DSPFailureThreshold c <= MaxInt64;
  cs_open : 0 < c_DSPCircuitOpenFor c /\ is_int64 (c_DSPCircuitOpenFor c);
  cs_fanout : 1 <= ec_MaxFanout (c_BidderEngineConfig c) <= MaxInt64;
  cs_refreshes : 1 <= ec_MaxConcurrentRefreshes (c_BidderEngineConfig c) <= MaxInt64;
  cs_keys : 1 <= ec_MaxKeys (c_BidderEngineConfig c) <= MaxInt64;
  cs_ttl : 0 < ec_CacheTTL (c_BidderEngineConfig c) /\ is_int64 (ec_CacheTTL (c_BidderEngineConfig c));
  cs_failure_ttl : 0 < ec_FailureTTL (c_BidderEngineConfig c) /\ is_int64 (ec_FailureTTL (c_BidderEngineConfig c))
}.

Lemma ParseInt_range s n : ParseInt s = Some n -> n <= MaxInt64.
Proof.
  unfold ParseInt. destruct s as [|c s]; [done|]. cbv zeta.
  match goal with |- context [ParseUint ?x] => destruct (ParseUint x) as [un|] eqn:Eu; [|done] end.
  apply ParseUint_range in Eu.
  destruct (Ascii.eqb c "-"); simpl; intros H; repeat case_test; try done; bool_hyps; simplify_eq; unfold_int; lia.
Qed.

Lemma set_text_inv (P : Config -> Prop) value set c :
  P c -> (forall v c, P c -> P (set v c)) -> P (set_text value set c).
Proof. intros. unfold set_text. case_test; auto. Qed.

Lemma set_duration_inv (P : Config -> Prop) value set c :
  P c -> (forall d c, 0 < d -> is_int64 d -> P c -> P (set d c)) -> P (set_duration value set c).
Proof.
  intros Hc Hset. unfold set_duration. case_test; [|done]. destruct (ParseDuration value) as [d|] eqn:Ed; [|done].
  case_test; [|done]. bool_hyps. apply Hset; [done| |done]. by eapply ParseDuration_range.
Qed.

Lemma set_number_inv (P : Config -> Prop) value least set c :
  P c -> (forall n c, least <= n <= MaxInt64 -> P c -> P (set n c)) -> P (set_number value least set c).
Proof.
  intros Hc Hset. unfold set_number. case_test; [|done]. destruct (ParseInt value) as [n|] eqn:En; [|done].
  case_test; [|done]. bool_hyps. apply Hset; [|done]. split; [done|]. by eapply ParseInt_range.
Qed.

Lemma default_sane : config_sane default_Config.
Proof. constructor; by vm_compute. Qed.

(** One statement of [ConfigFromEnv] at a time, from the last to the first. *)
Ltac sane_steps :=
  repeat match goal with
  | |- config_sane (set_text _ _ _) => apply set_text_inv; [|by intros v c []; constructor]
  | |- config_sane (set_duration _ _ _) => apply set_duration_inv; [|by intros d c ? ? []; constructor]
  | |- config_sane (set_number _ _ _ _) => apply set_number_inv; [|by intros n c ? []; constructor]
  | |- config_sane (if _ then _ else _) => case_test
  | |- config_sane (mkConfig _ _ _ _ _ _ _ _ _ _ _ _ _ _ _ _ _ _ _ _ _ _) => idtac
  end.

Lemma set_authorization_sane c a : config_sane c -> config_sane {| c with c_DSPAuthorization := a |}.
Proof. intros []. by constructor. Qed.

Lemma set_logging_sane c : config_sane c -> config_sane {| c with c_DecisionLogging := true |}.
Proof. intros []. by constructor. Qed.

Lemma ConfigFromEnv_sane env : config_sane (ConfigFromEnv env).
Proof.
  unfold ConfigFromEnv. cbv zeta. sane_steps. apply set_authorization_sane. sane_steps; try apply set_logging_sane; sane_steps;
    apply default_sane.
Qed.
