(* ===== verification/Server.v ===== *)
(** * The HTTP server (internal/ads/server.go)

    The handlers, composed from the components. A request is its headers, path and
    query values and its body; what a handler writes is the response (its text is in
    [Wire]). A handler is one function of the server's state and of the clock readings
    it takes; the goroutines it starts are part of its result. *)

From S2P Require Import Prelude GoInt Utf8 Json JsonCodec.
From S2P Require Import Prelude GoInt GoTime GoString GoParse Types Ranking DynamicBids Store BidStore Cache Auction.
From S2P Require Import Engine DecisionLog Metrics Config.
From Stdlib Require Import Ascii.
Open Scope string_scope.
Open Scope list_scope.
Open Scope Z_scope.

(** ** Requests and responses *)

(** The path is that of a clean URL (the mux redirects any other), as its decoded
    segments: a trailing slash is an empty last one. The mux sets [rq_path_id]. *)
Record Request := mkRequest {
  rq_method : string;
  rq_path : list string;
  rq_header : string -> string;       (* [r.Header.Get] *)
  rq_path_id : string;                (* [r.PathValue] of id *)
  rq_query : string -> string;        (* [r.URL.Query().Get] *)
  rq_body : string
}.

Record AuctionResponse := mkAuctionResponse {
  rsp_RequestID : string;
  rsp_Status : string;
  rsp_PricingModel : string;
  rsp_Bid : option Bid;
  rsp_EffectivePriceMicros : Z;
  rsp_ClearingPriceMicros : Z;
  rsp_NoBidReason : string;
  rsp_ServedStale : bool;
  rsp_SnapshotAgeMS : Z;
  rsp_DynamicBidderID : string;
  rsp_SelectionLatencyUS : Z
}.

(** The values the handlers encode as JSON, and the text of the metrics endpoint. *)
Inductive body :=
  | NoBody
  | JSONMap (key value : string)
  | JSONAuction (response : AuctionResponse)
  | JSONBid (bid : Bid)
  | Text (lines : list string).

Record Response := mkResponse { rs_status : Z; rs_header : gmap string string; rs_body : body }.

Definition StatusOK := 200.
Definition StatusNoContent := 204.
Definition StatusBadRequest := 400.
Definition StatusUnauthorized := 401.
Definition StatusNotFound := 404.
Definition StatusMethodNotAllowed := 405.
Definition StatusConflict := 409.
Definition StatusServiceUnavailable := 503.

Definition writeJSON (status : Z) (value : body) : Response :=
  mkResponse status {[ "Content-Type" := "application/json" ]} value.
Definition error_response (status : Z) (message : string) : Response := writeJSON status (JSONMap "error" message).

(** The body is limited to 64 KiB; after the value there must be nothing but white
    space up to its end. With a longer body the second [Decode] meets the limit's
    error, or more data, instead of [io.EOF]. *)
Definition decodeJSON {A} (decode : string -> option (A * string)) (r : Request) : option A :=
  if Z.shiftl 64 10 <? len (rq_body r) then None
  else
    match decode (rq_body r) with
    | None => None
    | Some (v, rest) => if string_forall is_ws rest then Some v else None
    end.

(** ** The server *)

Section server.
Context {W : Type} `{BidStore W}.

Record Server := mkServer {
  sv_config : Config;
  sv_store : W;
  sv_cache : BidCache;
  sv_auctioneer : Auctioneer;
  sv_metrics : Metrics;
  sv_decisionLogger : option DecisionLogger;
  sv_bidderEngine : option BidderEngine;
  sv_requestNumber : Z
}.

Definition NewServer (config : Config) (store : W) (cache : BidCache) : Server :=
  mkServer config store cache (NewAuctioneerWithPolicy (c_AuctionPolicy config)) zero_Metrics
    (NewDecisionLogger (c_DecisionLogging config) (c_DecisionLogBuffer config)) None 0.

Definition SetBidderEngine (engine : BidderEngine) (s : Server) : Server := {| s with sv_bidderEngine := Some engine |}.

(** The background work a handler starts. *)
Inductive started := RefreshSnapshot (placement : string) | RefreshDynamic (request : AuctionRequest).

Definition count_metric (f : Metrics -> Metrics) (s : Server) : Server := {| s with sv_metrics := f (sv_metrics s) |}.

Definition bad_request (m : Metrics) : Metrics := {| m with me_badRequests := counter_add (me_badRequests m) 1 |}.
Definition bid_mutation (m : Metrics) : Metrics := {| m with me_bidMutations := counter_add (me_bidMutations m) 1 |}.
Definition bid_mutation_error (m : Metrics) : Metrics :=
  {| m with me_bidMutationErrors := counter_add (me_bidMutationErrors m) 1 |}.
Definition readiness_check (m : Metrics) : Metrics :=
  {| m with me_readinessChecks := counter_add (me_readinessChecks m) 1 |}.
Definition readiness_failure (m : Metrics) : Metrics :=
  {| m with me_readinessFailures := counter_add (me_readinessFailures m) 1 |}.

Definition authorized (s : Server) (r : Request) : bool :=
  if String.eqb (c_AdminToken (sv_config s)) "" then true
  else
    let provided := TrimPrefix (rq_header r "Authorization") "Bearer " in
    (len provided =? len (c_AdminToken (sv_config s))) && String.eqb provided (c_AdminToken (sv_config s)).

(** The ID, and the server with its counter advanced when the ID is generated. *)
Definition requestID (r : Request) (s : Server) : string * Server :=
  let id := rq_header r "X-Request-ID" in
  if negb (String.eqb id "") then (id, s)
  else
    let n := counter_add (sv_requestNumber s) 1 in
    ("a-" +:+ FormatUint n 36, {| s with sv_requestNumber := n |}).

Definition log_entry (a : Auctioneer) (requestID placementID : string) (decision : AuctionDecision) : DecisionLog :=
  let '(id, deal, priority) :=
    match ad_Bid decision with
    | Some b => (bid_ID b, bid_DealID b, bid_Priority b)
    | None => ("", "", 0)
    end in
  mkDecisionLog requestID placementID (pol_PricingModel (au_policy a)) (ad_EligibleCandidates decision) id deal priority
    (ad_EffectivePriceMicros decision) (ad_ClearingPriceMicros decision) (ad_NoBidReason decision)
    (ad_ServedStale decision) (Milliseconds (ad_SnapshotAge decision)) (ad_DynamicBidderID decision).

(** [None] is the panic of a record after Close. *)
Definition recordDecision (requestID placementID : string) (decision : AuctionDecision) (s : Server) : option Server :=
  match sv_decisionLogger s with
  | None => Some s
  | Some d =>
      match Record_entry (log_entry (sv_auctioneer s) requestID placementID decision) (Some d) with
      | (_, SendOnClosedChannel) => None
      | (d, Recorded ok) =>
          let s := {| s with sv_decisionLogger := d |} in
          Some (if negb ok
                then count_metric (fun m => {| m with me_decisionLogDropped := counter_add (me_decisionLogDropped m) 1 |}) s
                else s)
      end
  end.

(** The readings of the clocks during one auction request, in order. *)
Record auction_clock := mkAuctionClock {
  ck_started : Time;
  ck_selection_started : Time;
  ck_lookup : Time;
  ck_trigger : Time;
  ck_cache : Time;
  ck_auction : Time;
  ck_selected : Time;
  ck_finished : Time
}.

(** The handler's two calls of the bidder engine. *)
Definition dynamic_bids (request : AuctionRequest) (clock : auction_clock) (s : Server)
    : Server * list DynamicBid * list started :=
  match sv_bidderEngine s with
  | None => (s, [], [])
  | Some e =>
      let '(e, dynamic) := Lookup request (ck_lookup clock) e in
      let '(e, go) := Trigger request (ck_trigger clock) e in
      ({| s with sv_bidderEngine := Some e |}, default [] dynamic, if go then [RefreshDynamic request] else [])
  end.

Definition count_decision (decision : AuctionDecision) (m : Metrics) : Metrics :=
  let m := if ad_ServedStale decision then {| m with me_servedStale := counter_add (me_servedStale m) 1 |} else m in
  let m := if String.eqb (ad_NoBidReason decision) "stale_snapshot"
           then {| m with me_staleNoBid := counter_add (me_staleNoBid m) 1 |} else m in
  if negb (String.eqb (ad_DynamicBidderID decision) "")
  then {| m with me_dynamicWins := counter_add (me_dynamicWins m) 1 |} else m.

Definition auction_response (a : Auctioneer) (requestID : string) (selectionLatency : Z) (decision : AuctionDecision)
    : AuctionResponse :=
  let response := mkAuctionResponse requestID "no_bid" (pol_PricingModel (au_policy a)) None 0 0
    (ad_NoBidReason decision) (ad_ServedStale decision) (Milliseconds (ad_SnapshotAge decision)) "" selectionLatency in
  if AuctionDecision_Filled decision then
    {| response with rsp_Status := "filled"; rsp_Bid := ad_Bid decision;
       rsp_EffectivePriceMicros := ad_EffectivePriceMicros decision;
       rsp_ClearingPriceMicros := ad_ClearingPriceMicros decision;
       rsp_DynamicBidderID := ad_DynamicBidderID decision |}
  else response.

(** [None] is a panic, after which no response is written. *)
Definition auction (r : Request) (clock : auction_clock) (s : Server) : Server * list started * option Response :=
  let invalid := (count_metric bad_request s, [], Some (error_response StatusBadRequest "invalid auction request")) in
  match decodeJSON Decode_AuctionRequest r with
  | None => invalid
  | Some request =>
  match AuctionRequest_Validate request with
  | Some _ => invalid
  | None =>
      let '(s, dynamic, work) := dynamic_bids request clock s in
      let '(cache, go, decision) := RunWithDynamic (sv_auctioneer s) request dynamic (ck_cache clock) (ck_auction clock) (sv_cache s) in
      let s := {| s with sv_cache := cache |} in
      let work := work ++ (if go then [RefreshSnapshot (req_PlacementID request)] else []) in
      let filled := AuctionDecision_Filled decision in
      let selectionLatency := Microseconds (time_Sub (ck_selected clock) (ck_selection_started clock)) in
      let '(id, s) := requestID r s in
      let response := auction_response (sv_auctioneer s) id selectionLatency decision in
      let s := count_metric (count_decision decision) s in
      let deferred := RecordAuction filled selectionLatency
        (Microseconds (time_Sub (ck_finished clock) (ck_started clock))) in
      match recordDecision id (req_PlacementID request) decision s with
      | None => (count_metric deferred s, work, None)
      | Some s => (count_metric deferred s, work, Some (writeJSON StatusOK (JSONAuction response)))
      end
  end end.

Definition upsertBid (r : Request) (s : Server) : Server * list started * Response :=
  if negb (authorized s r) then (s, [], error_response StatusUnauthorized "unauthorized")
  else
    match decodeJSON Decode_Bid r with
    | None => (count_metric bad_request s, [], error_response StatusBadRequest "invalid bid or bid id")
    | Some bid =>
        let bid := Bid_Normalize bid in
        if negb (String.eqb (bid_ID bid) (rq_path_id r)) || match Bid_Validate bid with Some _ => true | None => false end
        then (count_metric bad_request s, [], error_response StatusBadRequest "invalid bid or bid id")
        else
          let s := count_metric bid_mutation s in
          let '(w, e) := store_Upsert bid (sv_store s) in
          let s := {| s with sv_store := w |} in
          match e with
          | Some e =>
              let s := count_metric bid_mutation_error s in
              if is_stale_error e then (s, [], error_response StatusConflict "stale bid revision")
              else (s, [], error_response StatusServiceUnavailable "bid registry unavailable")
          | None =>
              let '(cache, go) := RefreshAsync (bid_PlacementID bid) (sv_cache s) in
              ({| s with sv_cache := cache |}, if go then [RefreshSnapshot (bid_PlacementID bid)] else [],
               writeJSON StatusOK (JSONBid bid))
          end
    end.

(** [err.Error()]. *)
Definition error_text (e : error) : string :=
  match e with ErrStaleBidRevision => "stale bid revision" | ErrMsg msg => msg end.

Definition deleteBid (r : Request) (s : Server) : Server * list started * Response :=
  if negb (authorized s r) then (s, [], error_response StatusUnauthorized "unauthorized")
  else
    let placement := rq_query r "placement_id" in
    match ParseUint (rq_query r "revision") with
    | None => (s, [], error_response StatusBadRequest "revision query parameter is required")
    | Some revision =>
        let s := count_metric bid_mutation s in
        let '(w, e) := store_Delete placement (rq_path_id r) revision (sv_store s) in
        let s := {| s with sv_store := w |} in
        match e with
        | Some e =>
            let s := count_metric bid_mutation_error s in
            if is_stale_error e then (s, [], error_response StatusConflict "stale bid revision")
            else (s, [], error_response StatusBadRequest (error_text e))
        | None =>
            let '(cache, go) := RefreshAsync placement (sv_cache s) in
            ({| s with sv_cache := cache |}, if go then [RefreshSnapshot placement] else [], mkResponse StatusNoContent ∅ NoBody)
        end
    end.

Definition health (s : Server) : Server * Response := (s, writeJSON StatusOK (JSONMap "status" "ok")).

Definition ready (s : Server) : Server * Response :=
  let s := count_metric readiness_check s in
  let '(w, e) := store_Ping (sv_store s) in
  let s := {| s with sv_store := w |} in
  match e with
  | Some _ => (count_metric readiness_failure s, writeJSON StatusServiceUnavailable (JSONMap "status" "redis unavailable"))
  | None => (s, writeJSON StatusOK (JSONMap "status" "ready"))
  end.

Definition metricsEndpoint (s : Server) : Response :=
  mkResponse StatusOK {[ "Content-Type" := "text/plain; version=0.0.4; charset=utf-8" ]}
    (Text (Metrics_Handler (sv_metrics s) ++ writeCacheMetrics (BidCache_Stats (sv_cache s))
    ++ match sv_bidderEngine s with None => [] | Some e => writeBidderMetrics (be_stats e) end)).

(** ** Routing *)

Inductive endpoint :=
  | ToAuction | ToUpsertBid (id : string) | ToDeleteBid (id : string) | ToHealth | ToReady | ToMetrics
  | ToMethodNotAllowed (allow : string) | ToNotFound.

(** [http.ServeMux] on the six patterns: [{id}] matches one non-empty segment, GET
    also matches HEAD, and a path known for other methods only is a 405 that names
    them. *)
Definition route (method : string) (path : list string) : endpoint :=
  let on (m : string) (e : endpoint) := if String.eqb method m then e else ToMethodNotAllowed m in
  let get (e : endpoint) :=
    if String.eqb method "GET" || String.eqb method "HEAD" then e else ToMethodNotAllowed "GET, HEAD" in
  match path with
  | ["v1"; "auction"] => on "POST" ToAuction
  | ["v1"; "bids"; id] =>
      if String.eqb id "" then ToNotFound
      else if String.eqb method "PUT" then ToUpsertBid id
      else if String.eqb method "DELETE" then ToDeleteBid id
      else ToMethodNotAllowed "DELETE, PUT"
  | ["healthz"] => get ToHealth
  | ["readyz"] => get ToReady
  | ["metrics"] => get ToMetrics
  | _ => ToNotFound
  end.

Definition SetPathValue (id : string) (r : Request) : Request := {| r with rq_path_id := id |}.

(** [http.Error]. *)
Definition http_Error (message : string) (status : Z) : Response :=
  mkResponse status {[ "Content-Type" := "text/plain; charset=utf-8" ]} (Text [message +:+ newline]).

Definition serve (r : Request) (clock : auction_clock) (s : Server) : Server * list started * option Response :=
  match route (rq_method r) (rq_path r) with
  | ToAuction => auction r clock s
  | ToUpsertBid id => let '(s, work, resp) := upsertBid (SetPathValue id r) s in (s, work, Some resp)
  | ToDeleteBid id => let '(s, work, resp) := deleteBid (SetPathValue id r) s in (s, work, Some resp)
  | ToHealth => let '(s, resp) := health s in (s, [], Some resp)
  | ToReady => let '(s, resp) := ready s in (s, [], Some resp)
  | ToMetrics => (s, [], Some (metricsEndpoint s))
  | ToMethodNotAllowed allow =>
      let resp := http_Error "Method Not Allowed" StatusMethodNotAllowed in
      (s, [], Some {| resp with rs_header := <["Allow" := allow]> (rs_header resp) |})
  | ToNotFound => (s, [], Some (http_Error "404 page not found" StatusNotFound))
  end.

Definition securityHeaders (resp : Response) : Response :=
  {| resp with rs_header := <["X-Content-Type-Options" := "nosniff"]> (rs_header resp) |}.

Definition Handler (r : Request) (clock : auction_clock) (s : Server) : Server * list started * option Response :=
  let '(s, work, resp) := serve r clock s in (s, work, securityHeaders <$> resp).

Definition Server_Close (s : Server) : option Server :=
  match Close (sv_decisionLogger s) with
  | None => None
  | Some d => Some {| s with sv_decisionLogger := d |}
  end.
End server.

Arguments Server W : clear implicits.
