(* ===== verification/CacheRun.v ===== *)
(** * The snapshot cache under concurrency (internal/ads/cache.go)

    The goroutines of [BidCache] interleaved at their atomic steps: the refreshes
    [RefreshAsync] starts, the reconciliations of [refreshLoop] and [Warm], and the
    writes other servers make to the store in between. An execution is a sequence
    of events; [exec] performs one. *)

From S2P Require Import Prelude GoInt Utf8 Json JsonCodec.
From S2P Require Import Prelude GoInt GoTime GoString Types Ranking Store BidStore Cache.
Open Scope string_scope.
Open Scope list_scope.
Open Scope Z_scope.

(** ** Threads *)

(** Where a call of [refresh] is: about to fetch; with the answer of the store; with
    the placement's cell in hand; or returning. *)
Inductive pc := Begin | Fetched (r : error + list Bid) | Slotted (bids : list Bid) | Returned (e : option error).

(** [TAsync]: the goroutine of [RefreshAsync]; [TListing]: a reconciliation about to
    list the placements; [TReconcile]: one that refreshes [p], with [rest] to do. *)
Inductive thread :=
  | TAsync (p : string) (at_ : pc)
  | TListing
  | TReconcile (p : string) (at_ : pc) (rest : list string).

(** What the surroundings can do: a client writes to the store or pings it, a message
    or an auction calls [RefreshAsync], the ticker fires, a subscription fails, a thread
    takes its next step, time passes. A new thread gets an unused name [tid]. *)
Inductive event :=
  | EUpsert (b : Bid)
  | EDelete (p id : string) (revision : Z)
  | EPing
  | EInvalidate (tid : nat) (p : string)
  | ETick (tid : nat)
  | EUnsubscribed
  | ERun (tid : nat)
  | ETime (now : Time).

Section run.
Context {W : Type} `{BidStore W}.

Record state := mkState {
  st_cache : BidCache;
  st_world : W;
  st_now : Time;
  st_threads : gmap nat thread
}.

(** One atomic step of a call of [refresh] for [p]. The counter is bumped together
    with the fetch. [Returned] has no next step of its own. *)
Definition refresh_step (p : string) (now : Time) (at_ : pc) (c : BidCache) (w : W) : pc * BidCache * W :=
  match at_ with
  | Begin => let '(w2, r) := store_Fetch p w in (Fetched r, count_refresh c, w2)
  | Fetched (inl e) => (Returned (Some e), count_refresh_failure c, w)
  | Fetched (inr bids) => (Slotted (snapshot_bids bids), load_or_store p c, w)
  | Slotted bids => (Returned None, store_list p (mkBidList bids (UnixNano now)) c, w)
  | Returned e => (Returned e, c, w)
  end.

(** The result of a call of [refresh] that is over. *)
Definition returned (at_ : pc) : option (option error) :=
  match at_ with Returned e => Some e | _ => None end.

(** What a reconciliation does next with placements [ps] left. *)
Definition reconcile_next (ps : list string) : option thread :=
  match ps with
  | [] => None
  | p :: rest => Some (TReconcile p Begin rest)
  end.

(** One step of a thread; [None] is a thread that has ended. *)
Definition thread_step (now : Time) (t : thread) (c : BidCache) (w : W) : option thread * BidCache * W :=
  match t with
  | TAsync p at_ =>
      match returned at_ with
      | Some _ => (None, inflight_delete p c, w)
      | None => let '(at_, c, w) := refresh_step p now at_ c w in (Some (TAsync p at_), c, w)
      end
  | TListing =>
      let '(w, r) := store_Placements w in
      match r with
      | inl _ => (None, count_reconcile_failure c, w)
      | inr ps => (reconcile_next ps, c, w)
      end
  | TReconcile p at_ rest =>
      match returned at_ with
      | Some (Some _) => (None, count_reconcile_failure c, w)
      | Some None => (reconcile_next rest, c, w)
      | None => let '(at_, c, w) := refresh_step p now at_ c w in (Some (TReconcile p at_ rest), c, w)
      end
  end.

Definition exec (ev : event) (st : state) : option state :=
  match ev with
  | EUpsert b => Some {| st with st_world := (store_Upsert b (st_world st)).1 |}
  | EDelete p id rev => Some {| st with st_world := (store_Delete p id rev (st_world st)).1 |}
  | EPing => Some {| st with st_world := (store_Ping (st_world st)).1 |}
  | EInvalidate tid p =>
      match st_threads st !! tid with
      | Some _ => None
      | None =>
          let '(c, go) := RefreshAsync p (st_cache st) in
          Some {| st with st_cache := c;
                  st_threads := set_thread tid (if go then Some (TAsync p Begin) else None) (st_threads st) |}
      end
  | ETick tid =>
      match st_threads st !! tid with
      | Some _ => None
      | None => Some {| st with st_cache := count_reconciliation (st_cache st);
                        st_threads := set_thread tid (Some TListing) (st_threads st) |}
      end
  | EUnsubscribed => Some {| st with st_cache := count_subscription_failure (st_cache st) |}
  | ERun tid =>
      match st_threads st !! tid with
      | None => None
      | Some t =>
          let '(t, c, w) := thread_step (st_now st) t (st_cache st) (st_world st) in
          Some {| st with st_cache := c; st_world := w; st_threads := set_thread tid t (st_threads st) |}
      end
  | ETime now => if st_now st <=? now then Some {| st with st_now := now |} else None
  end.

Fixpoint exec_all (evs : list event) (st : state) : option state :=
  match evs with
  | [] => Some st
  | ev :: evs => match exec ev st with Some st => exec_all evs st | None => None end
  end.

Definition initial (policy : CachePolicy) (w : W) (now : Time) : state :=
  mkState (NewBidCacheWithPolicy policy) w now ∅.
End run.

Arguments state W : clear implicits.

(** ** The invariant *)

Section run_facts.
Context {W : Type} `{HL : BidStoreLaws W}.

(** The writes of other clients are typed, and the clock stays before 2262. *)
Definition event_ok (ev : event) : Prop :=
  match ev with
  | EUpsert b => Bid_sound b
  | EDelete _ _ rev => is_uint64 rev
  | ETime now => is_int64 now
  | _ => True
  end.

Definition step (st st2 : state W) : Prop := exists ev, event_ok ev /\ exec ev st = Some st2.

Definition thread_refresh (t : thread) : option (string * pc) :=
  match t with TAsync p at_ | TReconcile p at_ _ => Some (p, at_) | TListing => None end.

(** The bids a refresh holds are valid for its placement. *)
Definition pc_ok (p : string) (at_ : pc) : Prop :=
  match at_ with
  | Fetched (inr bids) => valid_bids p bids
  | Slotted bids => valid_bids p bids /\ StronglySorted bid_le bids
  | _ => True
  end.

(** The placement whose in-flight mark the thread [tid] holds. *)
Definition async_of (t : thread) : option string := match t with TAsync p _ => Some p | _ => None end.

Record run_ok (st : state W) : Prop := {
  run_store : store_ok (st_world st);
  run_cache : cache_ok (st_cache st);
  run_now : is_int64 (st_now st);
  run_pcs tid t p at_ : st_threads st !! tid = Some t -> thread_refresh t = Some (p, at_) -> pc_ok p at_;
  run_past p l : bc_entries (st_cache st) !! p = Some (Some l) -> bl_refreshedAtNS l <= st_now st;
  run_flight p : p ∈ bc_inflight (st_cache st) <-> exists tid, holds async_of (st_threads st) tid p;
  run_single p tid1 tid2 : holds async_of (st_threads st) tid1 p -> holds async_of (st_threads st) tid2 p -> tid1 = tid2
}.

(** What a step of a call of [refresh] may change. *)
Lemma refresh_step_spec p now at_ c w at2 c2 w2 :
  store_ok w -> cache_ok c -> pc_ok p at_ -> is_int64 now ->
  refresh_step p now at_ c w = (at2, c2, w2) ->
  store_ok w2 /\ cache_ok c2 /\ pc_ok p at2 /\ bc_inflight c2 = bc_inflight c
  /\ (forall q l, bc_entries c2 !! q = Some (Some l) ->
        bc_entries c !! q = Some (Some l) \/ (q = p /\ bl_refreshedAtNS l = now))
  /\ (forall q l, bc_entries c !! q = Some (Some l) -> exists l2, bc_entries c2 !! q = Some (Some l2)).
Proof.
  intros Hw Hc Hp Hnow Hs. unfold refresh_step in Hs. destruct at_ as [|[e|bids]|bids|e].
  - destruct (store_Fetch p w) as [w1 r] eqn:Ef. injection Hs as <- <- <-.
    destruct (Fetch_ok _ _ _ _ Hw Ef) as [Hw1 Hv]. split_and!; try done; eauto.
    + by apply (cache_ok_same c).
    + destruct r as [|bids]; [done|]. by apply Hv.
  - injection Hs as <- <- <-. split_and!; try done; eauto. by apply (cache_ok_same c).
  - injection Hs as <- <- <-. destruct (load_or_store_rest p c) as (_ & Hi & _).
    split_and!; try done; auto with ads.
    + destruct (snapshot_bids_ok p bids now Hp Hnow) as (? & ? & _). done.
    + intros q l. rewrite load_or_store_lookup. case_decide; [subst|auto].
      destruct (bc_entries c !! p) as [[]|]; simpl; intros [=]; subst; auto.
    + intros q l Hq. rewrite load_or_store_lookup. case_decide; [subst|eauto]. rewrite Hq. eauto.
  - injection Hs as <- <- <-. destruct Hp as [Hv Hsd]. split_and!; try done.
    + apply store_list_ok; [|done]. split_and!; [done|done|]. apply int64_range.
    + intros q l. rewrite store_list_lookup. case_decide; [|auto]. intros [= <-]. right. split; [done|].
      by apply int64_id.
    + intros q l Hq. rewrite store_list_lookup. case_decide; eauto.
  - injection Hs as <- <- <-. split_and!; try done; eauto.
Qed.

(** The entries after a step: each is an old one or was refreshed just now, and no
    snapshot is lost. *)
Definition entries_step (now : Time) (c c2 : BidCache) : Prop :=
  (forall q l, bc_entries c2 !! q = Some (Some l) -> bc_entries c !! q = Some (Some l) \/ bl_refreshedAtNS l = now)
  /\ (forall q l, bc_entries c !! q = Some (Some l) -> exists l2, bc_entries c2 !! q = Some (Some l2)).

Lemma entries_step_same now c c2 : bc_entries c2 = bc_entries c -> entries_step now c c2.
Proof. intros He. split; intros q l; rewrite He; eauto. Qed.

Definition thread_ok (t : option thread) : Prop :=
  forall t' p at_, t = Some t' -> thread_refresh t' = Some (p, at_) -> pc_ok p at_.

Lemma reconcile_next_ok ps : thread_ok (reconcile_next ps) /\ reconcile_next ps ≫= async_of = None.
Proof. destruct ps; (split; [|done]); intros t p at_ [= <-]; by intros [= <- <-]. Qed.

Lemma thread_step_spec now t c w t2 c2 w2 :
  store_ok w -> cache_ok c -> thread_ok (Some t) -> is_int64 now ->
  thread_step now t c w = (t2, c2, w2) ->
  store_ok w2 /\ cache_ok c2 /\ thread_ok t2 /\ entries_step now c c2
  /\ ((t2 ≫= async_of = async_of t /\ bc_inflight c2 = bc_inflight c)
      \/ (exists p, async_of t = Some p /\ t2 = None /\ bc_inflight c2 = bc_inflight c ∖ {[p]})).
Proof.
  intros Hw Hc Ht Hnow Hs.
  assert (Hgen : forall p at_, thread_refresh t = Some (p, at_) -> forall at2 c2 w2,
    refresh_step p now at_ c w = (at2, c2, w2) ->
    store_ok w2 /\ cache_ok c2 /\ pc_ok p at2 /\ entries_step now c c2 /\ bc_inflight c2 = bc_inflight c).
  { intros p at_ Htr at3 c3 w3 Hr. pose proof (Ht t p at_ eq_refl Htr) as Hp.
    destruct (refresh_step_spec _ _ _ _ _ _ _ _ Hw Hc Hp Hnow Hr) as (? & ? & ? & ? & He1 & He2).
    split_and!; try done. split; [|done]. intros q l [?|[_ ?]]%He1; auto. }
  destruct t as [p at_| |p at_ rest]; cbn [thread_step] in Hs.
  - destruct (returned at_) as [e|].
    + injection Hs as <- <- <-. split_and!; auto with ads; [done|by apply entries_step_same|right; eauto].
    + destruct (refresh_step p now at_ c w) as [[at2 c3] w3] eqn:Er. injection Hs as <- <- <-.
      destruct (Hgen p _ eq_refl _ _ _ Er) as (? & ? & ? & ? & ?). split_and!; auto.
      by intros t p' at' [= <-] [= <- <-].
  - destruct (store_Placements w) as [w3 [e|ps]] eqn:Ep; injection Hs as <- <- <-;
      destruct (Placements_ok _ _ _ Hw Ep) as [Hw3 _]; (split; [done|]).
    + split_and!; [by apply (cache_ok_same c)|done|by apply entries_step_same|by left].
    + destruct (reconcile_next_ok ps) as [? ?]. split_and!; [done|done|by apply entries_step_same|by left].
  - destruct (returned at_) as [[e|]|].
    + injection Hs as <- <- <-. split_and!; [done|by apply (cache_ok_same c)|done|by apply entries_step_same|by left].
    + injection Hs as <- <- <-. destruct (reconcile_next_ok rest) as [? ?].
      split_and!; [done|done|done|by apply entries_step_same|by left].
    + destruct (refresh_step p now at_ c w) as [[at2 c3] w3] eqn:Er. injection Hs as <- <- <-.
      destruct (Hgen p _ eq_refl _ _ _ Er) as (? & ? & ? & ? & ?). split_and!; auto.
      by intros t p' at' [= <-] [= <- <-].
Qed.

Lemma run_ok_intro (st : state W) :
  store_ok (st_world st) -> cache_ok (st_cache st) -> is_int64 (st_now st) ->
  (forall tid, thread_ok (st_threads st !! tid)) ->
  (forall p l, bc_entries (st_cache st) !! p = Some (Some l) -> bl_refreshedAtNS l <= st_now st) ->
  marks_ok async_of (bc_inflight (st_cache st)) (st_threads st) -> run_ok st.
Proof. intros H1 H2 H3 H4 H5 [H6 H7]. constructor; done. Qed.

Lemma run_ok_threads st tid : run_ok st -> thread_ok (st_threads st !! tid).
Proof. intros Hok t p at_ Hl Hr. by apply (run_pcs st Hok tid t). Qed.

Lemma run_ok_marks st : run_ok st -> marks_ok async_of (bc_inflight (st_cache st)) (st_threads st).
Proof. intros Hok. split; [apply run_flight, Hok|apply run_single, Hok]. Qed.

Lemma thread_ok_set st tid t :
  run_ok st -> thread_ok t -> forall tid', thread_ok (set_thread tid t (st_threads st) !! tid').
Proof. intros Hok Ht tid'. rewrite set_thread_lookup. case_decide; [done|by apply run_ok_threads]. Qed.

Lemma exec_ok ev st st2 : run_ok st -> event_ok ev -> exec ev st = Some st2 -> run_ok st2.
Proof.
  intros Hok Hev Hx. pose proof (run_ok_marks _ Hok) as Hm. pose proof (run_ok_threads st) as Hts.
  destruct Hok as [Hw Hc Hn Hp Hpast Hf Hsg] eqn:Eok. clear Eok.
  destruct ev as [b|p id rev| |tid p|tid| |tid|now]; simpl in Hx.
  - injection Hx as <-. apply run_ok_intro; simpl; auto.
    destruct (store_Upsert b (st_world st)) as [w2 e] eqn:E. by eapply (Upsert_ok b).
  - injection Hx as <-. apply run_ok_intro; simpl; auto.
    destruct (store_Delete p id rev (st_world st)) as [w2 e] eqn:E. by eapply (Delete_ok p id rev).
  - injection Hx as <-. apply run_ok_intro; simpl; auto.
    destruct (store_Ping (st_world st)) as [w2 e] eqn:E. by eapply Ping_ok.
  - destruct (st_threads st !! tid) eqn:Et; [done|]. pose proof (RefreshAsync_ok p _ Hc) as Hc2.
    unfold RefreshAsync in *. destruct (String.eqb p ""); [|case_decide];
      injection Hx as <-; apply run_ok_intro; simpl; auto;
      try (by intros tid'; apply (thread_ok_set st); auto);
      try (apply marks_keep; [done|]; by rewrite Et).
    + intros tid'. apply (thread_ok_set st); auto. intros t p' at_ [= <-]. by intros [= <- <-].
    + apply marks_acquire; [done|done| |done]. by rewrite Et.
  - destruct (st_threads st !! tid) eqn:Et; [done|]. injection Hx as <-. apply run_ok_intro; simpl; auto.
    + by apply (cache_ok_same (st_cache st)).
    + intros tid'. apply (thread_ok_set st); auto. intros t p' at_ [= <-]. done.
    + apply marks_keep; [done|]. by rewrite Et.
  - injection Hx as <-. apply run_ok_intro; simpl; auto. by apply (cache_ok_same (st_cache st)).
  - destruct (st_threads st !! tid) as [t|] eqn:Et; [|done].
    destruct (thread_step (st_now st) t (st_cache st) (st_world st)) as [[t2 c2] w2] eqn:Es. injection Hx as <-.
    assert (Ht : thread_ok (Some t)) by (rewrite <- Et; by apply Hts).
    destruct (thread_step_spec _ _ _ _ _ _ _ Hw Hc Ht Hn Es) as (Hw2 & Hc2 & Ht2 & [He1 _] & Hmk).
    apply run_ok_intro; simpl; auto.
    + intros tid'. by apply (thread_ok_set st).
    + intros q l [Hq|Hq]%He1; [by eapply Hpast|lia].
    + destruct Hmk as [[Ha ->]|(q & Ha & -> & ->)].
      * apply marks_keep; [done|]. by rewrite Et.
      * apply marks_release; [done| |done]. unfold holds. by rewrite Et.
  - destruct (Z.leb_spec (st_now st) now); [|done]. injection Hx as <-. apply run_ok_intro; simpl; auto.
    intros q l Hq. pose proof (Hpast q l Hq). lia.
Qed.

Lemma initial_ok policy w now : store_ok w -> is_int64 now -> run_ok (initial policy w now).
Proof.
  intros Hw Hn. apply run_ok_intro; simpl; auto.
  - constructor; [apply NewBidCacheWithPolicy_valid|by intros|]. simpl. set_solver.
  - intros tid t p at_. by rewrite lookup_empty.
  - intros p l. by rewrite lookup_empty.
  - split; [|by intros p tid1 tid2]. intros p. split; [set_solver|]. intros (tid & Hh). by unfold holds in Hh.
Qed.

Lemma reachable_ok policy w now st :
  store_ok w -> is_int64 now -> rtc step (initial policy w now) st -> run_ok st.
Proof.
  intros Hw Hn Hr. apply (rtc_invariant step run_ok) with (initial policy w now); [|done|by apply initial_ok].
  intros s s2 Hok (ev & Hev & Hx). by eapply exec_ok.
Qed.

(** No step changes the policy. *)
Lemma exec_policy ev (st st2 : state W) :
  exec ev st = Some st2 -> bc_policy (st_cache st2) = bc_policy (st_cache st).
Proof.
  assert (Hrefresh : forall p at_ at2 c c2 w w2, refresh_step p (st_now st) at_ c w = (at2, c2, w2) -> bc_policy c2 = bc_policy c).
  { intros p at_ at2 c c2 w w2. destruct at_ as [|[e|bids]|bids|e]; simpl; try by intros [= _ <- _].
    - destruct (store_Fetch p w). by intros [= _ <- _].
    - intros [= _ <- _]. apply load_or_store_rest. }
  intros Hx. destruct ev as [b|q id rev| |tid q|tid| |tid|now]; simpl in Hx; simplify_eq; try done.
  - destruct (st_threads st !! tid); [done|]. unfold RefreshAsync in Hx.
    destruct (String.eqb q ""); [|case_decide]; by injection Hx as <-.
  - destruct (st_threads st !! tid); [done|]. by injection Hx as <-.
  - destruct (st_threads st !! tid) as [t|]; [|done].
    destruct (thread_step (st_now st) t (st_cache st) (st_world st)) as [[t2 c2] w2] eqn:Es. injection Hx as <-. simpl.
    unfold thread_step in Es. destruct t as [p at_| |p at_ rest].
    + destruct (returned at_); [by injection Es as _ <- _|].
      destruct (refresh_step _ _ _ _ _) as [[at2 c'] w'] eqn:Er. injection Es as _ <- _. by eapply Hrefresh.
    + destruct (store_Placements _) as [w' [e|ps]]; by injection Es as _ <- _.
    + destruct (returned at_) as [[e|]|]; [by injection Es as _ <- _..|].
      destruct (refresh_step _ _ _ _ _) as [[at2 c'] w'] eqn:Er. injection Es as _ <- _. by eapply Hrefresh.
  - destruct (st_now st <=? now); [|done]. by injection Hx as <-.
Qed.

Lemma steps_policy (st st2 : state W) : rtc step st st2 -> bc_policy (st_cache st2) = bc_policy (st_cache st).
Proof. induction 1 as [|st st1 st2 (ev & _ & Hx) _ IH]; [done|]. by rewrite IH, (exec_policy _ _ _ Hx). Qed.

Lemma exec_time ev (st st2 : state W) : exec ev st = Some st2 -> st_now st <= st_now st2.
Proof.
  intros Hx. destruct ev; simpl in Hx; try (by injection Hx as <-).
  - destruct (st_threads st !! tid); [done|]. destruct (RefreshAsync p (st_cache st)). by injection Hx as <-.
  - destruct (st_threads st !! tid); [done|]. by injection Hx as <-.
  - destruct (st_threads st !! tid) as [t|]; [|done]. destruct (thread_step _ t _ _) as [[t2 c2] w2]. by injection Hx as <-.
  - destruct (Z.leb_spec (st_now st) now); [|done]. by injection Hx as <-.
Qed.

(** A snapshot that is there stays there. *)
Lemma exec_keeps_snapshot ev st st2 p l :
  run_ok st -> event_ok ev -> exec ev st = Some st2 ->
  bc_entries (st_cache st) !! p = Some (Some l) -> exists l2, bc_entries (st_cache st2) !! p = Some (Some l2).
Proof.
  intros Hok Hev Hx Hl. destruct ev as [b|q id rev| |tid q|tid| |tid|now]; simpl in Hx; simplify_eq; eauto.
  - destruct (st_threads st !! tid); [done|]. unfold RefreshAsync in Hx.
    destruct (String.eqb q ""); [|case_decide]; injection Hx as <-; eauto.
  - destruct (st_threads st !! tid); [done|]. injection Hx as <-. eauto.
  - destruct (st_threads st !! tid) as [t|] eqn:Et; [|done].
    destruct (thread_step (st_now st) t (st_cache st) (st_world st)) as [[t2 c2] w2] eqn:Es. injection Hx as <-.
    assert (Ht : thread_ok (Some t)) by (rewrite <- Et; by apply run_ok_threads).
    destruct (thread_step_spec _ _ _ _ _ _ _ (run_store _ Hok) (run_cache _ Hok) Ht (run_now _ Hok) Es)
      as (_ & _ & _ & [_ He2] & _). by apply (He2 p l).
  - destruct (st_now st <=? now); [|done]. injection Hx as <-. eauto.
Qed.
End run_facts.
