(* ===== verification/Loops.v ===== *)
(** * The background loops of the cache (internal/ads/cache.go, store.go)

    [BidCache.Start]: the loop that subscribes to invalidations and calls
    [RefreshAsync] for each, with the goroutine of [RedisStore.Subscribe] that forwards
    the client library's messages to a channel of 128, and the loop that reconciles at
    each tick. They are interleaved with the rest of the cache ([CacheRun]). *)

From S2P Require Import Prelude GoInt GoTime GoString Types Ranking Store BidStore Cache CacheRun.
Open Scope string_scope.
Open Scope list_scope.
Open Scope Z_scope.

(** ** The state *)

(** [make(chan string, 128)]. *)
Definition outCapacity : nat := 128.

(** The forwarding goroutine: waiting for the library's channel, with a message to
    send or for the context to be done, or returned (which closes [out]). *)
Inductive forwarder := FRange | FSend (message : string) | FEnded.

(** [sb_inbox]: what the library has delivered and the goroutine has not taken;
    [sb_hungup]: the library has closed its channel. *)
Record subscription := mkSubscription {
  sb_inbox : list string;
  sb_hungup : bool;
  sb_forwarder : forwarder;
  sb_out : list string
}.

(** [subscribeLoop]: at the loop's condition; in the call of [Subscribe]; in the select
    of the back-off, whose timer fires at [until]; ranging over the messages; or returned. *)
Inductive subscriber := SCheck | SCall | SBackoff (until : Time) | SRange (s : subscription) | SEnded.

(** [refreshLoop]: in its select, in a call of [Reconcile], or returned. *)
Inductive refresher := RSelect | RReconcile (tid : nat) | REnded.

(** The ticker fires at [lp_next]; [lp_tick]: its channel holds a tick. *)
Record loops (W : Type) := mkLoops {
  lp_run : state W;
  lp_cancelled : bool;
  lp_subscriber : subscriber;
  lp_refresher : refresher;
  lp_next : Time;
  lp_tick : bool
}.
Arguments mkLoops {W} _ _ _ _ _ _.
Arguments lp_run {W} _.
Arguments lp_cancelled {W} _.
Arguments lp_subscriber {W} _.
Arguments lp_refresher {W} _.
Arguments lp_next {W} _.
Arguments lp_tick {W} _.

(** [LRun]: a step of the rest of the cache, or time; [LCancel]: the context is done.
    Of the library: [LSubscribed], the result of the call; [LDeliver] and [LHangUp].
    Of the forwarder: [LForward], and [LGiveUp] when its select sees the context.
    Of the subscriber: [LCheck], [LReceive] with the name for a goroutine, and the two
    cases of the back-off. Of the refresher: [LFire] by its ticker, and the cases of
    its select, [LTick] and [LStop], and [LReconciled]. *)
Inductive loop_event :=
  | LRun (ev : event)
  | LCancel
  | LSubscribed (ok : bool)
  | LDeliver (message : string)
  | LHangUp
  | LForward
  | LGiveUp
  | LCheck
  | LReceive (tid : nat)
  | LBackoffOver
  | LBackoffDone
  | LFire
  | LTick (tid : nat)
  | LStop
  | LReconciled.

(** ** The code *)

Section loops.
Context {W : Type} `{BidStore W}.

Definition new_subscription : subscription := mkSubscription [] false FRange [].

Definition now_of (l : loops W) : Time := st_now (lp_run l).
Definition refresh_every (l : loops W) : Duration := cp_RefreshEvery (bc_policy (st_cache (lp_run l))).

(** [Start], with the ticker of [refreshLoop]. *)
Definition Start (st : state W) : loops W :=
  mkLoops st false SCheck RSelect (st_now st + cp_RefreshEvery (bc_policy (st_cache st))) false.

(** The goroutine of [Subscribe]: the next message of the library, sent when [out] has
    room; the end of the library's channel ends it. *)
Definition forward (s : subscription) : option subscription :=
  match sb_forwarder s with
  | FRange =>
      match sb_inbox s with
      | m :: rest => Some {| s with sb_inbox := rest; sb_forwarder := FSend m |}
      | [] => if sb_hungup s then Some {| s with sb_forwarder := FEnded |} else None
      end
  | FSend m =>
      if (length (sb_out s) <? outCapacity)%nat
      then Some {| s with sb_forwarder := FRange; sb_out := sb_out s ++ [m] |} else None
  | FEnded => None
  end.

Definition abandon (s : subscription) : option subscription :=
  match sb_forwarder s with
  | FSend _ => Some {| s with sb_forwarder := FEnded |}
  | _ => None
  end.

Definition deliver (m : string) (s : subscription) : option subscription :=
  if sb_hungup s then None else Some {| s with sb_inbox := sb_inbox s ++ [m] |}.

Definition hang_up (s : subscription) : option subscription := Some {| s with sb_hungup := true |}.

(** A step of the current subscription. *)
Definition ranging (f : subscription -> option subscription) (l : loops W) : option (loops W) :=
  match lp_subscriber l with
  | SRange s => s ← f s; Some {| l with lp_subscriber := SRange s |}
  | _ => None
  end.

Definition running (ev : event) (l : loops W) : option (loops W) :=
  st ← exec ev (lp_run l); Some {| l with lp_run := st |}.

(** [for ctx.Err() == nil]. *)
Definition check (l : loops W) : option (loops W) :=
  match lp_subscriber l with
  | SCheck => Some {| l with lp_subscriber := if lp_cancelled l then SEnded else SCall |}
  | _ => None
  end.

(** The result of the store's [Subscribe]; a failure is counted and backed off. *)
Definition subscribed (ok : bool) (l : loops W) : option (loops W) :=
  match lp_subscriber l with
  | SCall =>
      if ok then Some {| l with lp_subscriber := SRange new_subscription |}
      else running EUnsubscribed {| l with lp_subscriber := SBackoff (time_Add (now_of l) Second) |}
  | _ => None
  end.

(** [for placement := range messages], whose end closes the subscription. *)
Definition receive (tid : nat) (l : loops W) : option (loops W) :=
  match lp_subscriber l with
  | SRange s =>
      match sb_out s with
      | m :: rest => running (EInvalidate tid m) {| l with lp_subscriber := SRange {| s with sb_out := rest |} |}
      | [] => match sb_forwarder s with FEnded => Some {| l with lp_subscriber := SCheck |} | _ => None end
      end
  | _ => None
  end.

Definition backoff_over (l : loops W) : option (loops W) :=
  match lp_subscriber l with
  | SBackoff until => if until <=? now_of l then Some {| l with lp_subscriber := SCheck |} else None
  | _ => None
  end.

Definition backoff_done (l : loops W) : option (loops W) :=
  match lp_subscriber l with
  | SBackoff _ => if lp_cancelled l then Some {| l with lp_subscriber := SEnded |} else None
  | _ => None
  end.

(** The runtime's ticker: a tick is dropped when the last is still there, and the next
    one is due at the first multiple of the period after now. *)
Definition fire (l : loops W) : option (loops W) :=
  if lp_next l <=? now_of l then
    let period := refresh_every l in
    Some {| l with lp_next := lp_next l + period * (1 + (now_of l - lp_next l) / period); lp_tick := true |}
  else None.

Definition tick (tid : nat) (l : loops W) : option (loops W) :=
  match lp_refresher l with
  | RSelect => if lp_tick l then running (ETick tid) {| l with lp_refresher := RReconcile tid; lp_tick := false |} else None
  | _ => None
  end.

Definition stop (l : loops W) : option (loops W) :=
  match lp_refresher l with
  | RSelect => if lp_cancelled l then Some {| l with lp_refresher := REnded |} else None
  | _ => None
  end.

(** The call of [Reconcile] has returned. *)
Definition reconciled (l : loops W) : option (loops W) :=
  match lp_refresher l with
  | RReconcile tid =>
      match st_threads (lp_run l) !! tid with
      | None => Some {| l with lp_refresher := RSelect |}
      | Some _ => None
      end
  | _ => None
  end.

(** The steps of the rest of the cache: ticks and failed subscriptions are the loops',
    and so is the name of the reconciliation that [refreshLoop] is in. *)
Definition reserved (tid : nat) (l : loops W) : bool :=
  match lp_refresher l with RReconcile t => (t =? tid)%nat | _ => false end.

Definition elsewhere (ev : event) (l : loops W) : bool :=
  match ev with ETick _ | EUnsubscribed => false | EInvalidate tid _ => negb (reserved tid l) | _ => true end.

Definition loop_exec (ev : loop_event) (l : loops W) : option (loops W) :=
  match ev with
  | LRun ev => if elsewhere ev l then running ev l else None
  | LCancel => Some {| l with lp_cancelled := true |}
  | LSubscribed ok => subscribed ok l
  | LDeliver m => ranging (deliver m) l
  | LHangUp => ranging hang_up l
  | LForward => ranging forward l
  | LGiveUp => if lp_cancelled l then ranging abandon l else None
  | LCheck => check l
  | LReceive tid => if reserved tid l then None else receive tid l
  | LBackoffOver => backoff_over l
  | LBackoffDone => backoff_done l
  | LFire => fire l
  | LTick tid => tick tid l
  | LStop => stop l
  | LReconciled => reconciled l
  end.

Fixpoint loop_exec_all (evs : list loop_event) (l : loops W) : option (loops W) :=
  match evs with
  | [] => Some l
  | ev :: evs => l ← loop_exec ev l; loop_exec_all evs l
  end.
End loops.
