(* ===== verification/Samples.v ===== *)
(** * Concrete instances of the interfaces

    An in-memory Redis, and sample data. The witnesses of the theorems evaluate on them. *)

From S2P Require Import Prelude GoInt Utf8 Json JsonCodec.
From S2P Require Import Prelude GoInt GoString Types Ranking Redis Store BidStore.
From Stdlib Require Import Ascii.
Open Scope string_scope.
Open Scope list_scope.
Open Scope Z_scope.

(** Closes a goal whose two sides compute to the same value. *)
Ltac by_compute := vm_compute; reflexivity.

(** ** An in-memory Redis *)

Record memory_db := mkMemoryDb {
  mem_hashes : gmap string (gmap string string);
  mem_sets : gmap string (gset string);
  mem_published : list (string * string)
}.

Definition mem_hash (d : memory_db) (k : string) : gmap string string := default ∅ (mem_hashes d !! k).
Definition mem_members (d : memory_db) (k : string) : gset string := default ∅ (mem_sets d !! k).

#[export, refine] Instance memory_redis : Redis := {
  redis_error := "i/o timeout";
  db := memory_db;
  hash := mem_hash;
  members := mem_members;
  published := mem_published;
  hset d k f v := {| d with mem_hashes := <[k := <[f := v]> (mem_hash d k)]> (mem_hashes d) |};
  hdel d k f := {| d with mem_hashes := <[k := delete f (mem_hash d k)]> (mem_hashes d) |};
  sadd d k m := {| d with mem_sets := <[k := {[m]} ∪ mem_members d k]> (mem_sets d) |};
  publish d c m := {| d with mem_published := mem_published d ++ [(c, m)] |}
}.
Proof.
  all: try done; intros; unfold mem_hash, mem_members; simpl; rewrite lookup_insert; by case_decide.
Defined.

Definition empty_db : @db memory_redis := mkMemoryDb ∅ ∅ [].

(** ** Sample data *)

Definition sample_store : RedisStore := mkRedisStore true "adserver".

Definition sample_bid (id : string) (revision price : Z) : Bid :=
  mkBid id revision "top" "campaign" "creative" "" "" price 0 "" 0 10000 [] [] 0 0.

Definition sample_request : AuctionRequest := mkAuctionRequest "top" "" "IN" "mobile" 0.

Definition Bid_wf_dec_prop rr b : Bid_validate rr b = None -> Bid_wf rr b := proj1 (Bid_validate_wf rr b).

(** Soundness of a concrete bid, by computation. *)
Definition Bid_soundb (b : Bid) : bool :=
  bool_decide (is_uint64 (bid_Revision b)) && bool_decide (is_int64 (bid_PriceMicros b))
  && bool_decide (is_int64 (bid_FloorMicros b)) && bool_decide (is_int64 (bid_Priority b))
  && bool_decide (is_int64 (bid_PacingBPS b)) && bool_decide (is_int64 (bid_ActiveFromUnix b))
  && bool_decide (is_int64 (bid_ActiveToUnix b)) && forallb valid_utf8 (Bid_strings b).

Lemma Bid_soundb_ok b : Bid_soundb b = true -> Bid_sound b.
Proof.
  unfold Bid_soundb. rewrite !andb_true_iff, !bool_decide_eq_true, forallb_forall. intros [[[[[[[? ?] ?] ?] ?] ?] ?] Hutf].
  split; [by constructor|].
  apply Forall_forall. intros x ?%list_elem_of_In. by apply Hutf.
Qed.

Lemma sample_stored b : Bid_validate true b = None -> Bid_soundb b = true -> stored_bid b.
Proof. intros Hv Hs. split; [by apply Bid_validate_wf|by apply Bid_soundb_ok]. Qed.

Lemma empty_Consistent : Consistent sample_store empty_db.
Proof. by constructor. Qed.

(** The database after a sequence of commands from the empty one. *)
Definition after_upserts (bs : list Bid) : @db memory_redis :=
  fold_left (fun d b => w_db (RedisStore_Upsert sample_store b (mkWorld d [])).1) bs empty_db.

Lemma after_upserts_Consistent bs :
  Forall (fun b => Bid_validate true b = None /\ Bid_soundb b = true) bs ->
  Consistent sample_store (after_upserts bs).
Proof.
  intros Hall. unfold after_upserts.
  assert (Hgen : forall d, Consistent sample_store d ->
    Consistent sample_store (fold_left (fun d b => w_db (RedisStore_Upsert sample_store b (mkWorld d [])).1) bs d)).
  { induction Hall as [|b bs [Hv Ht] _ IH]; intros d Hd; simpl; [done|]. apply IH.
    by apply Upsert_Consistent; [|apply sample_stored]. }
  apply Hgen, empty_Consistent.
Qed.

Lemma pair_result {A B} (r : A * B) (y : B) : r.2 = y -> r = (r.1, y).
Proof. intros <-. by destruct r. Qed.

Lemma triple_eta {A B C} (r : A * B * C) : r = (r.1.1, r.1.2, r.2).
Proof. by destruct r as [[]]. Qed.

Definition bid1 : Bid := sample_bid "b1" 1 100.
Definition bid1_new : Bid := sample_bid "b1" 2 150.
Definition bid2 : Bid := sample_bid "b2" 1 200.
Definition db_two : @db memory_redis := after_upserts [bid1; bid2].
Definition rough_net : list net := [Lost 1; Reply 0; Lost 1; Reply 2; Reply 1].

Lemma bid1_stored : stored_bid bid1.
Proof. apply sample_stored; by_compute. Qed.
Lemma bid1_new_stored : stored_bid bid1_new.
Proof. apply sample_stored; by_compute. Qed.

Lemma db_two_Consistent : Consistent sample_store db_two.
Proof. apply after_upserts_Consistent. repeat constructor; by_compute. Qed.

Definition db_deleted : @db memory_redis := w_db (RedisStore_Delete sample_store "top" "b1" 5 (mkWorld db_two [])).1.

Lemma db_deleted_Consistent : Consistent sample_store db_deleted.
Proof.
  apply (Delete_Consistent sample_store "top" "b1" 5 (mkWorld db_two [])); [apply db_two_Consistent|].
  split_and!; try done; vm_compute; discriminate.
Qed.

Lemma map_to_list_any_order : any_order map_to_list.
Proof. by intros m. Qed.

(** The registry behind the [BidStore] interface. *)
#[export] Instance sample_bid_store : BidStore World := redis_bid_store sample_store map_to_list.
#[export] Instance sample_bid_store_laws : BidStoreLaws World :=
  redis_bid_store_laws sample_store map_to_list map_to_list_any_order.
