(* ===== verification/StoreProps.v ===== *)
(** * Properties of the bid registry

    The registry promises versioned cells: an operation of internal/ads/store.go is
    one abstract write, under every network schedule; revisions only move forward
    for any interleaving of servers; a tombstone keeps old bids out; Fetch returns
    exactly the active bids, in one order. *)

From S2P Require Import Prelude GoInt Utf8 Json JsonCodec.
From S2P Require Import Prelude GoInt GoString Types Ranking Redis Store Samples.
From Stdlib Require Import Ascii.
Open Scope string_scope.
Open Scope list_scope.
Open Scope Z_scope.



Section properties.
  Context (R : Redis) (s : RedisStore).

(** The cell holds no revision beyond the integers a double represents exactly. *)
Definition small_revision (c : cell) : Prop :=
  match c with Some (r, _) => r <= 2 ^ 53 | None => True end.

Lemma small_revision_exact (d : db) p id rev :
  rev <= 2 ^ 53 -> small_revision (registry s d p id) ->
  forall r v, registry s d p id = Some (r, v) -> lua_compare rev r = exact_compare rev r.
Proof. intros Hrev Hs r v E. rewrite E in Hs. by apply lua_compare_exact. Qed.

(** What an upsert of a valid bid does. *)
Lemma Upsert_outcome b payload w w2 e :
  Consistent s (w_db w) -> stored_bid b -> json_Marshal b = Some payload ->
  bid_Revision b <= 2 ^ 53 -> small_revision (registry s (w_db w) (bid_PlacementID b) (bid_ID b)) ->
  RedisStore_Upsert s b w = (w2, e) ->
  mutation_outcome s exact_compare (bid_PlacementID b) (bid_ID b) (bid_Revision b) (Some payload) (w_db w) (w_db w2) e
  /\ (w_net w = [] ->
      e = match (spec_write exact_compare (registry s (w_db w) (bid_PlacementID b) (bid_ID b)) (bid_Revision b) (Some payload)).2 with
          | Stale => Some ErrStaleBidRevision | _ => None end).
Proof.
  intros Hc Hb Hm Hrev Hsm Hu. rewrite (Upsert_update s b payload) in Hu by (done || apply Hb).
  destruct (stored_writable b payload Hb Hm) as [Hval Hr].
  pose proof (small_revision_exact _ _ _ _ Hrev Hsm) as Hex. split.
  - eapply mutation_outcome_ext; [exact Hex|]. by eapply update_outcome.
  - destruct w as [d net]. cbn [w_db w_net] in *. intros ->.
    rewrite (update_no_fault s _ _ _ _ _ _ _ _ Hc Hr Hval Hu). unfold spec_write.
    destruct (registry s d _ _) as [[r v]|]; [|done]. by rewrite (Hex r v).
Qed.

(** C5: Upsert refines the abstract versioned registry. For revisions up to 2^53 and
    any schedule of lost, failed and repeated deliveries, an upsert of a valid bid
    performs at most the one abstract write of its cell and touches no other cell;
    when it returns nil the write took effect, was not stale and the placement was
    published; when it returns ErrStaleBidRevision the write was stale and the cell
    is unchanged; without faults it returns exactly that verdict. *)
Theorem Upsert_refines_registry b payload w w2 e :
  Consistent s (w_db w) -> stored_bid b -> json_Marshal b = Some payload ->
  bid_Revision b <= 2 ^ 53 -> small_revision (registry s (w_db w) (bid_PlacementID b) (bid_ID b)) ->
  RedisStore_Upsert s b w = (w2, e) ->
  mutation_outcome s exact_compare (bid_PlacementID b) (bid_ID b) (bid_Revision b) (Some payload) (w_db w) (w_db w2) e
  /\ (w_net w = [] ->
      e = match (spec_write exact_compare (registry s (w_db w) (bid_PlacementID b) (bid_ID b)) (bid_Revision b) (Some payload)).2 with
          | Stale => Some ErrStaleBidRevision | _ => None end).
Proof. apply Upsert_outcome. Qed.

(** What a delete does, arguments it refuses included. *)
Lemma Delete_outcome p id rev w w2 e :
  Consistent s (w_db w) -> is_uint64 rev ->
  RedisStore_Delete s p id rev w = (w2, e) ->
  (~ delete_accepts p id rev -> w2 = w /\ exists msg, e = Some (ErrMsg msg))
  /\ (delete_accepts p id rev -> rev <= 2 ^ 53 -> small_revision (registry s (w_db w) p id) ->
      mutation_outcome s exact_compare p id rev None (w_db w) (w_db w2) e
      /\ (w_net w = [] ->
          e = match (spec_write exact_compare (registry s (w_db w) p id) rev None).2 with
              | Stale => Some ErrStaleBidRevision | _ => None end)).
Proof.
  intros Hc Hu Hd. split.
  - intros Hna. unfold RedisStore_Delete in Hd. change (Z.shiftr MaxUint64 1) with MaxInt64 in Hd.
    case_test; [simplify_eq; eauto|]. exfalso. bool_hyps. apply Hna. unfold delete_accepts. unfold_int. split_and!; done || lia.
  - intros Ha Hrev Hsm. rewrite Delete_update in Hd by done.
    pose proof (small_revision_exact _ _ _ _ Hrev Hsm) as Hex. destruct Ha as (_ & _ & Hr). split.
    + eapply mutation_outcome_ext; [exact Hex|]. by eapply update_outcome.
    + destruct w as [d net]. cbn [w_db w_net] in *. intros ->.
      rewrite (update_no_fault s _ _ _ _ None _ _ _ Hc Hr I Hd). unfold spec_write.
      destruct (registry s d _ _) as [[r v]|]; [|done]. by rewrite (Hex r v).
Qed.

(** Delete refines the abstract versioned registry in the same way: its write
    stores the tombstone. Arguments the code refuses leave the database unchanged
    and return an error. *)
Theorem Delete_refines_registry p id rev w w2 e :
  Consistent s (w_db w) -> is_uint64 rev ->
  RedisStore_Delete s p id rev w = (w2, e) ->
  (~ delete_accepts p id rev -> w2 = w /\ exists msg, e = Some (ErrMsg msg))
  /\ (delete_accepts p id rev -> rev <= 2 ^ 53 -> small_revision (registry s (w_db w) p id) ->
      mutation_outcome s exact_compare p id rev None (w_db w) (w_db w2) e
      /\ (w_net w = [] ->
          e = match (spec_write exact_compare (registry s (w_db w) p id) rev None).2 with
              | Stale => Some ErrStaleBidRevision | _ => None end)).
Proof. apply Delete_outcome. Qed.

(** The database invariant. From an empty Redis, every interleaving of the
    commands of any number of servers keeps the registry consistent: version fields
    are positive int64 revisions, every active payload is a valid bid of its own
    placement and field with the revision of its version field, every placement with
    a version is in the index, and keys keep their Redis types. *)
Theorem registry_consistent d0 d :
  (forall k, hash d0 k = ∅ /\ members d0 k = ∅) -> rtc (store_step s) d0 d -> Consistent s d.
Proof.
  intros He Hr. apply (Consistent_rtc s d0 d Hr).
  constructor; intros *; rewrite ?(proj1 (He _)), ?(proj2 (He _)), ?lookup_empty; done.
Qed.

(** Revisions never go back. Whatever the interleaving and however the script's
    doubles round, the revision of a cell never decreases, and a cell that keeps its
    revision keeps its payload or its tombstone. *)
Theorem registry_never_rolls_back d d2 p id r v :
  Consistent s d -> rtc (store_step s) d d2 -> registry s d p id = Some (r, v) ->
  exists r2 v2, registry s d2 p id = Some (r2, v2) /\ r <= r2 /\ (r2 = r -> v2 = v).
Proof.
  intros Hc Hr Hv. pose proof (registry_rtc s d d2 p id Hr Hc) as Hle. rewrite Hv in Hle.
  destruct (registry s d2 p id) as [[r2 v2]|]; [|done]. simpl in Hle.
  exists r2, v2. split; [done|]. destruct Hle as [?|[-> ->]]; [|done]. split; lia.
Qed.

(** Every execution of Upsert, on any input and under any network schedule, is a
    sequence of store steps, so the registry invariants hold between and after the
    commands of concurrent servers; rejected bids leave Redis untouched. *)
Theorem Upsert_steps b w w2 e :
  Consistent s (w_db w) -> Bid_typed b -> Bid_utf8 b -> RedisStore_Upsert s b w = (w2, e) ->
  rtc (store_step s) (w_db w) (w_db w2) /\ Consistent s (w_db w2)
  /\ (Bid_Validate (Bid_Normalize b) <> None -> w2 = w /\ exists msg, e = Some (ErrMsg msg)).
Proof.
  intros Hc Ht Hs Hu. destruct (Bid_Validate (Bid_Normalize b)) as [msg|] eqn:Ev.
  - unfold RedisStore_Upsert in Hu. rewrite Ev in Hu. injection Hu as <- <-. eauto using rtc_refl.
  - assert (Hwf : Bid_wf true (Bid_Normalize b)) by (by apply Bid_validate_wf).
    destruct (Marshal_total (Bid_Normalize b)) as (payload & Hm).
    assert (Hu2 : RedisStore_Upsert s b w = RedisStore_Upsert s (Bid_Normalize b) w).
    { unfold RedisStore_Upsert. by rewrite Bid_Normalize_idemp. }
    rewrite Hu2, (Upsert_update s _ payload) in Hu by done.
    assert (Hb : stored_bid (Bid_Normalize b)).
    { split_and!; [done|by apply Bid_Normalize_typed|by apply Bid_Normalize_utf8]. }
    destruct (stored_writable _ payload Hb Hm) as [Hval Hr].
    pose proof (update_outcome s _ _ _ _ _ _ _ _ Hc Hr Hval Hu) as Ho. unfold mutation_outcome in Ho.
    destruct (spec_write _ _ _ _). destruct Ho as (Hrtc & _).
    split_and!; [done|by eapply Consistent_rtc|done].
Qed.

(** A tombstone keeps old bids out. When a bid was deleted at revision [r], an
    upsert of that bid with revision at most [r] never returns nil and leaves the
    tombstone in place, on any network; without faults the answer is
    ErrStaleBidRevision. This holds for every revision, rounding included. *)
Theorem tombstone_blocks_old_upsert b r w w2 e :
  Consistent s (w_db w) -> stored_bid b -> bid_Revision b <= r ->
  registry s (w_db w) (bid_PlacementID b) (bid_ID b) = Some (r, None) ->
  RedisStore_Upsert s b w = (w2, e) ->
  e <> None /\ registry s (w_db w2) (bid_PlacementID b) (bid_ID b) = Some (r, None)
  /\ (w_net w = [] -> e = Some ErrStaleBidRevision).
Proof.
  intros Hc Hb Hle Ht Hu. destruct (Marshal_total b) as (payload & Hm).
  rewrite (Upsert_update s b payload) in Hu by (done || apply Hb).
  destruct (stored_writable b payload Hb Hm) as [Hval Hr].
  assert (Hsp : spec_write lua_compare (Some (r, None)) (bid_Revision b) (Some payload) = (Some (r, None), Stale)).
  { unfold spec_write. pose proof (lua_compare_le _ _ Hle). by destruct (lua_compare (bid_Revision b) r). }
  pose proof (update_outcome s _ _ _ _ _ _ _ _ Hc Hr Hval Hu) as Ho. unfold mutation_outcome in Ho.
  rewrite Ht, Hsp in Ho. destruct Ho as (_ & _ & Hor & Hnone & _). split_and!.
  - intros He. by destruct (Hnone He) as (_ & ? & _).
  - by destruct Hor.
  - destruct w as [d net]. cbn [w_db w_net] in *. intros ->.
    by rewrite (update_no_fault s _ _ _ _ _ _ _ _ Hc Hr Hval Hu), Ht, Hsp.
Qed.

(** C35: Fetch returns exactly the active bids. On a consistent database, for any
    order of Go's map iteration and any network schedule, Fetch fails only with a
    Redis error (never on decoding), changes nothing, and otherwise returns the
    active bids of the placement, each once, sorted by priority, effective price and
    ID; that list is the same for every iteration order. *)
Theorem Fetch_exact range p w w2 r :
  Consistent s (w_db w) -> any_order range -> RedisStore_Fetch s range p w = (w2, r) ->
  w_db w2 = w_db w
  /\ (r = inl (ErrMsg redis_error) \/
      exists bids, r = inr bids /\ StronglySorted bid_le bids /\ NoDup (bid_ID <$> bids)
        /\ (forall b, b ∈ bids <-> active_bid s (w_db w) p b)
        /\ forall range', any_order range' ->
             RedisStore_Fetch s range' p (mkWorld (w_db w) []) = (mkWorld (w_db w) [], inr bids)).
Proof.
  intros Hc Hr Hf. destruct (Fetch_spec s _ p range w w2 r Hc Hr eq_refl Hf) as [Hd [->|(bids & -> & Hb)]];
    (split; [done|]); [by left|right].
  exists bids. split; [done|]. pose proof Hb as (Hs & Hn & Hin). split_and!; [done..|].
  intros range' Hr'. destruct (Fetch_no_fault s (w_db w) p range' Hc Hr') as (bids' & -> & Hb').
  by rewrite (fetched_unique s _ _ _ _ Hb Hb').
Qed.

(** Read your writes. After an upsert that returned nil, a fetch of the bid's
    placement from that state contains the bid as it was written. *)
Theorem Upsert_then_Fetch b range w w2 :
  Consistent s (w_db w) -> stored_bid b -> any_order range ->
  RedisStore_Upsert s b w = (w2, None) ->
  exists bids, RedisStore_Fetch s range (bid_PlacementID b) (mkWorld (w_db w2) []) = (mkWorld (w_db w2) [], inr bids)
    /\ b ∈ bids.
Proof.
  intros Hc Hb Hrg Hu. destruct (Marshal_total b) as (payload & Hm).
  rewrite (Upsert_update s b payload) in Hu by (done || apply Hb).
  destruct (stored_writable b payload Hb Hm) as [Hval Hr].
  pose proof (update_outcome s _ _ _ _ _ _ _ _ Hc Hr Hval Hu) as Ho. unfold mutation_outcome in Ho.
  pose proof (spec_write_stored (registry s (w_db w) (bid_PlacementID b) (bid_ID b)) (bid_Revision b) (Some payload)) as Hst.
  destruct (spec_write _ _ _ _) as [c' vd]. destruct Ho as (Hrtc & _ & _ & Hnone & _).
  destruct (Hnone eq_refl) as (Hreg & Hvd & _). destruct (Hst Hvd) as (r' & Hc' & _). simpl in Hc'. rewrite Hc' in Hreg.
  assert (Hc2 : Consistent s (w_db w2)) by (by eapply Consistent_rtc).
  destruct (Fetch_no_fault s (w_db w2) (bid_PlacementID b) range Hc2 Hrg) as (bids & Hf & _ & _ & Hin).
  exists bids. split; [done|]. apply Hin.
  assert (Hh : hash (w_db w2) (activeKey s (bid_PlacementID b)) !! bid_ID b = Some payload).
  { unfold registry, cell_of in Hreg. destruct (hash (w_db w2) (versionKey s _) !! _); [|done].
    destruct (ParseUint _); [|done]. by simplify_eq. }
  destruct (active_entry s _ _ _ _ Hc2 Hh) as (b' & (Hb' & _ & Hm') & _ & Ha).
  by assert (b = b') as <- by (by eapply Marshal_inj).
Qed.

(** C40: beyond 2^53 the scripts do not tell all revisions apart. A bid stored at
    revision 2^53 refuses its update to the strictly newer revision 2^53 + 1 with
    ErrStaleBidRevision, where the documented rule (compare revisions) accepts it. *)
Theorem newer_revision_rejected b v d w2 e :
  Consistent s d -> stored_bid b -> bid_Revision b = 2 ^ 53 + 1 ->
  registry s d (bid_PlacementID b) (bid_ID b) = Some (2 ^ 53, v) ->
  RedisStore_Upsert s b (mkWorld d []) = (w2, e) ->
  e = Some ErrStaleBidRevision
  /\ forall payload, (spec_write exact_compare (registry s d (bid_PlacementID b) (bid_ID b)) (bid_Revision b) payload).2 = Accepted.
Proof.
  intros Hc Hb Hrev Hreg Hu. split; [|intros payload; by rewrite Hreg, Hrev].
  destruct (Marshal_total b) as (payload & Hm).
  rewrite (Upsert_update s b payload) in Hu by (done || apply Hb).
  destruct (stored_writable b payload Hb Hm) as [Hval Hr].
  rewrite (update_no_fault s _ _ _ _ _ _ _ _ Hc Hr Hval Hu), Hreg, Hrev. unfold spec_write.
  change (lua_compare (2 ^ 53 + 1) (2 ^ 53)) with Eq. simpl. case_decide as Hv; [|done]. exfalso. subst v.
  assert (Hh : hash d (activeKey s (bid_PlacementID b)) !! bid_ID b = Some payload /\
               exists v, hash d (versionKey s (bid_PlacementID b)) !! bid_ID b = Some v /\ ParseUint v = Some (2 ^ 53)).
  { unfold registry, cell_of in Hreg. destruct (hash d (versionKey s _) !! _) as [v|]; [|done].
    destruct (ParseUint v) eqn:Ep; [|done]. simplify_eq. eauto. }
  destruct Hh as (Hh & v & Hver & Hp).
  destruct (cons_active s d Hc _ _ _ Hh) as (b' & Hb' & Hm' & _ & _ & Hv').
  assert (b = b') as <- by (by eapply Marshal_inj). rewrite Hver in Hv'. injection Hv' as ->.
  rewrite ParseUint_FormatUint in Hp by (apply (typed_Revision b), Hb). injection Hp as Hp. lia.
Qed.

(** One hash slot. Redis Cluster hashes only the text between the first opening
    brace of a key and the next closing brace, when that is not empty ([slot]). For
    a valid bid and a prefix without an opening brace, the active hash and the
    version hash of its placement are in the same slot, so the scripts may touch
    both keys. *)
Theorem one_hash_slot (slot crc : string -> Z) b :
  (forall before tag after, lacks "{" before -> lacks "}" tag -> tag <> "" ->
     slot (before +:+ "{" +:+ tag +:+ "}" +:+ after) = crc tag) ->
  lacks "{" (rs_prefix s) -> Bid_Validate b = None ->
  slot (activeKey s (bid_PlacementID b)) = slot (versionKey s (bid_PlacementID b)).
Proof.
  intros Hslot Hpre Hv. apply Bid_validate_wf in Hv as [].
  assert (Hk : forall name, lacks "{" name ->
    slot (key s [name; "{" +:+ bid_PlacementID b +:+ "}"]) = crc (bid_PlacementID b)).
  { intros name Hn. rewrite <- (Hslot (rs_prefix s +:+ ":" +:+ name +:+ ":") (bid_PlacementID b) ""); [|by rewrite !lacks_app|done..].
    f_equal. unfold key. simpl join_colon. by rewrite !string_app_assoc. }
  unfold activeKey, versionKey. by rewrite !Hk.
Qed.
End properties.

(** ** Evaluations

    Each theorem at concrete data: the in-memory Redis, a registry in cluster mode
    and schedules with lost replies and repeated deliveries. *)

Lemma Upsert_refines_registry_witness :
  let r := RedisStore_Upsert sample_store bid1_new (mkWorld db_two rough_net) in
  r.2 = None /\
  mutation_outcome sample_store exact_compare "top" "b1" 2 (json_Marshal bid1_new) db_two (w_db r.1) r.2.
Proof.
  split; [by_compute|].
  apply (Upsert_refines_registry memory_redis sample_store bid1_new _ (mkWorld db_two rough_net)).
  - apply db_two_Consistent.
  - apply bid1_new_stored.
  - reflexivity.
  - vm_compute. discriminate.
  - vm_compute. discriminate.
  - apply surjective_pairing.
Defined.

Lemma Delete_refines_registry_witness :
  let r := RedisStore_Delete sample_store "top" "b1" 5 (mkWorld db_two rough_net) in
  r.2 = None /\
  mutation_outcome sample_store exact_compare "top" "b1" 5 None db_two (w_db r.1) r.2.
Proof.
  split; [by_compute|].
  apply (Delete_refines_registry memory_redis sample_store "top" "b1" 5 (mkWorld db_two rough_net)).
  - apply db_two_Consistent.
  - split; vm_compute; discriminate.
  - apply surjective_pairing.
  - split_and!; try done; vm_compute; discriminate.
  - vm_compute. discriminate.
  - vm_compute. discriminate.
Defined.

Lemma registry_consistent_witness :
  Consistent sample_store (sadd (sadd empty_db (placementsKey sample_store) "top") (placementsKey sample_store) "side").
Proof.
  apply (registry_consistent memory_redis sample_store empty_db).
  - intros k. split; reflexivity.
  - eapply rtc_l; [apply step_sadd|]. eapply rtc_l; [apply step_sadd|]. apply rtc_refl.
Defined.

Lemma registry_never_rolls_back_witness :
  exists r2 v2, registry sample_store (publish db_two (eventsKey sample_store) "top") "top" "b1" = Some (r2, v2)
    /\ 1 <= r2 /\ (r2 = 1 -> v2 = json_Marshal bid1).
Proof.
  apply (registry_never_rolls_back memory_redis sample_store db_two).
  - apply db_two_Consistent.
  - eapply rtc_l; [apply step_publish|]. apply rtc_refl.
  - by_compute.
Defined.

Lemma Upsert_steps_witness :
  let r := RedisStore_Upsert sample_store zero_Bid (mkWorld db_two []) in
  rtc (store_step sample_store) db_two (w_db r.1) /\ Consistent sample_store (w_db r.1)
  /\ (Bid_Validate (Bid_Normalize zero_Bid) <> None -> r.1 = mkWorld db_two [] /\ exists msg, r.2 = Some (ErrMsg msg)).
Proof.
  apply (Upsert_steps memory_redis sample_store zero_Bid (mkWorld db_two [])).
  - apply db_two_Consistent.
  - apply Bid_soundb_ok. reflexivity.
  - apply Bid_soundb_ok. reflexivity.
  - apply surjective_pairing.
Defined.

Lemma tombstone_blocks_old_upsert_witness :
  let r := RedisStore_Upsert sample_store bid1_new (mkWorld db_deleted []) in
  r.2 <> None /\ registry sample_store (w_db r.1) "top" "b1" = Some (5, None)
  /\ ([] = @nil net -> r.2 = Some ErrStaleBidRevision).
Proof.
  apply (tombstone_blocks_old_upsert memory_redis sample_store bid1_new 5 (mkWorld db_deleted [])).
  - apply db_deleted_Consistent.
  - apply bid1_new_stored.
  - vm_compute. discriminate.
  - by_compute.
  - apply surjective_pairing.
Defined.

Lemma Fetch_exact_witness :
  let r := RedisStore_Fetch sample_store map_to_list "top" (mkWorld db_two [Lost 0]) in
  r.2 = inr [bid2; bid1] /\
  w_db r.1 = db_two
  /\ (r.2 = inl (ErrMsg redis_error) \/
      exists bids, r.2 = inr bids /\ StronglySorted bid_le bids /\ NoDup (bid_ID <$> bids)
        /\ (forall b, b ∈ bids <-> active_bid sample_store db_two "top" b)
        /\ forall range', any_order range' ->
             RedisStore_Fetch sample_store range' "top" (mkWorld db_two []) = (mkWorld db_two [], inr bids)).
Proof.
  split; [by_compute|].
  apply (Fetch_exact memory_redis sample_store map_to_list "top" (mkWorld db_two [Lost 0])).
  - apply db_two_Consistent.
  - apply map_to_list_any_order.
  - apply surjective_pairing.
Defined.

Lemma Upsert_then_Fetch_witness :
  let w2 := (RedisStore_Upsert sample_store bid1_new (mkWorld db_two rough_net)).1 in
  exists bids, RedisStore_Fetch sample_store map_to_list "top" (mkWorld (w_db w2) []) = (mkWorld (w_db w2) [], inr bids)
    /\ bid1_new ∈ bids.
Proof.
  apply (Upsert_then_Fetch memory_redis sample_store bid1_new map_to_list (mkWorld db_two rough_net)).
  - apply db_two_Consistent.
  - apply bid1_new_stored.
  - apply map_to_list_any_order.
  - apply pair_result. by_compute.
Defined.

Definition bid_at_limit : Bid := sample_bid "b1" (2 ^ 53) 100.
Definition bid_past_limit : Bid := sample_bid "b1" (2 ^ 53 + 1) 150.
Definition db_at_limit : @db memory_redis := after_upserts [bid_at_limit].

Lemma newer_revision_rejected_witness :
  let r := RedisStore_Upsert sample_store bid_past_limit (mkWorld db_at_limit []) in
  r.2 = Some ErrStaleBidRevision
  /\ forall payload, (spec_write exact_compare (registry sample_store db_at_limit "top" "b1") (2 ^ 53 + 1) payload).2 = Accepted.
Proof.
  apply (newer_revision_rejected memory_redis sample_store bid_past_limit
           (json_Marshal bid_at_limit) db_at_limit (RedisStore_Upsert sample_store bid_past_limit (mkWorld db_at_limit [])).1).
  - apply after_upserts_Consistent. repeat constructor; by_compute.
  - apply sample_stored; by_compute.
  - reflexivity.
  - by_compute.
  - apply surjective_pairing.
Defined.

(** A concrete slot function: the length of the hash tag. *)
Fixpoint until_close (k : string) : string :=
  match k with
  | String.EmptyString => ""
  | String.String c k => if Ascii.eqb "}" c then "" else String.String c (until_close k)
  end.

Fixpoint tag_of (k : string) : string :=
  match k with
  | String.EmptyString => ""
  | String.String c k => if Ascii.eqb "{" c then until_close k else tag_of k
  end.

Lemma tag_of_spec before tag after :
  lacks "{" before -> lacks "}" tag ->
  tag_of (before +:+ String.String "{" (tag +:+ String.String "}" after)) = tag.
Proof.
  unfold lacks. intros Hb Ht. induction before as [|c before IH]; cbn -[Ascii.eqb].
  - rewrite Ascii.eqb_refl. induction tag as [|c tag IHt]; [done|]. cbn -[Ascii.eqb] in *.
    apply andb_true_iff in Ht as [Hc Ht]. apply negb_true_iff in Hc. by rewrite Hc, IHt.
  - cbn -[Ascii.eqb] in Hb. apply andb_true_iff in Hb as [Hc Hb]. apply negb_true_iff in Hc. by rewrite Hc, IH.
Qed.

Lemma one_hash_slot_witness :
  (fun k => len (tag_of k)) (activeKey sample_store "top") = (fun k => len (tag_of k)) (versionKey sample_store "top").
Proof.
  apply (one_hash_slot sample_store (fun k => len (tag_of k)) len bid1).
  - intros before tag after Hb Ht _. f_equal. by apply tag_of_spec.
  - reflexivity.
  - reflexivity.
Defined.
