(* ===== verification/StoreRun.v ===== *)
(** * Concurrent writers of the registry (internal/ads/store.go)

    Any number of servers that upsert and delete bids over one Redis, at the grain of
    single commands. The network may lose, repeat and delay them: a command that was
    sent once can run at any later moment, also after its caller has given up. [Store]
    runs one operation at a time; its operations are executions here
    ([Upsert_is_execution], [Delete_is_execution]). *)

From S2P Require Import Prelude GoInt Utf8 Json JsonCodec.
From S2P Require Import Prelude GoInt GoString Types Ranking Redis Store Samples.
Open Scope string_scope.
Open Scope list_scope.
Open Scope Z_scope.

(** ** The clients *)

(** A write of [Upsert] (a payload) or [Delete] ([None]) whose arguments were accepted. *)
Record operation := mkOperation { op_placement : string; op_id : string; op_revision : Z; op_value : option string }.

#[export] Instance operation_eq_dec : EqDecision operation.
Proof. solve_decision. Defined.

(** The commands of an operation, and where its caller is: the command it waits for,
    in the first or the second attempt of [retryTopology], or what it returned. *)
Inductive command := Indexing | Writing | Publishing.
Inductive client := Calling (o : operation) (st : command) (retried : bool) | Returned (o : operation) (e : option error).

Definition operation_of (c : client) : operation := match c with Calling o _ _ | Returned o _ => o end.

Section cluster.
Context `{Redis} (s : RedisStore).

(** The part of [Upsert] and [Delete] before the first command. *)
Definition Upsert_operation (bid : Bid) : option operation :=
  let bid := Bid_Normalize bid in
  match Bid_Validate bid with
  | Some _ => None
  | None => payload ← json_Marshal bid; Some (mkOperation (bid_PlacementID bid) (bid_ID bid) (bid_Revision bid) (Some payload))
  end.

Definition Delete_operation (placement bidID : string) (revision : Z) : option operation :=
  if String.eqb placement "" || String.eqb bidID "" || (revision =? 0) || (Z.shiftr MaxUint64 1 <? revision)
  then None else Some (mkOperation placement bidID revision None).

(** Each command with its reply. *)
Definition run_command (o : operation) (st : command) (d : db) : db * option Z :=
  match st with
  | Indexing => let '(d, r) := SAdd (placementsKey s) (op_placement o) d in (d, (fun _ => 0) <$> r)
  | Writing =>
      match op_value o with
      | Some payload => upsertBidScript (activeKey s (op_placement o)) (versionKey s (op_placement o)) (op_id o) (FormatUint (op_revision o) 10) payload d
      | None => deleteBidScript (activeKey s (op_placement o)) (versionKey s (op_placement o)) (op_id o) (FormatUint (op_revision o) 10) d
      end
  | Publishing => let '(d, r) := Publish (eventsKey s) (op_placement o) d in (d, (fun _ => 0) <$> r)
  end.

Definition error_of (o : operation) (st : command) : error :=
  ErrMsg (match st with
          | Indexing => redis_error
          | Writing => match op_value o with Some _ => (wrapped "versioned bid upsert") | None => (wrapped "versioned bid delete") end
          | Publishing => (wrapped "publish bid invalidation")
          end).

(** [cl_sent]: the commands that were ever sent. History: [cl_ran], the scripts that
    ran, in order. *)
Record cluster := mkCluster {
  cl_db : db;
  cl_sent : list (operation * command);
  cl_clients : gmap nat client;
  cl_ran : list operation
}.

Definition send (i : nat) (o : operation) (st : command) (retried : bool) (c : cluster) : cluster :=
  {| c with cl_sent := (o, st) :: cl_sent c; cl_clients := <[i := Calling o st retried]> (cl_clients c) |}.

Definition return_ (i : nat) (o : operation) (e : option error) (c : cluster) : cluster :=
  {| c with cl_clients := <[i := Returned o e]> (cl_clients c) |}.

(** One run of a command. *)
Definition run_sent (o : operation) (st : command) (c : cluster) : cluster :=
  {| c with cl_db := (run_command o st (cl_db c)).1; cl_ran := match st with Writing => cl_ran c ++ [o] | _ => cl_ran c end |}.

(** What the caller does with a reply, and with an error of the attempt. *)
Definition replied (i : nat) (o : operation) (st : command) (result : Z) (c : cluster) : cluster :=
  match st with
  | Indexing => send i o Writing false c
  | Writing => if result =? 0 then return_ i o (Some ErrStaleBidRevision) c else send i o Publishing false c
  | Publishing => return_ i o None c
  end.

Definition attempt_failed (i : nat) (o : operation) (st : command) (retried : bool) (c : cluster) : cluster :=
  if rs_cluster s && negb retried then send i o st true c else return_ i o (Some (error_of o st)) c.

(** [NUpsert], [NDelete]: a call with accepted arguments; [NReply]: the command of
    client [i] runs and its reply arrives; [NError]: its attempt fails; [NDeliver]: the
    [k]-th command sent runs, with nobody waiting for it. *)
Inductive cluster_event :=
  | NUpsert (i : nat) (bid : Bid)
  | NDelete (i : nat) (placement bidID : string) (revision : Z)
  | NReply (i : nat)
  | NError (i : nat)
  | NDeliver (k : nat).

Definition begin (i : nat) (o : option operation) (c : cluster) : option cluster :=
  match cl_clients c !! i, o with None, Some o => Some (send i o Indexing false c) | _, _ => None end.

Definition cluster_exec (ev : cluster_event) (c : cluster) : option cluster :=
  match ev with
  | NUpsert i bid => begin i (Upsert_operation bid) c
  | NDelete i placement bidID revision => begin i (Delete_operation placement bidID revision) c
  | NReply i =>
      match cl_clients c !! i with
      | Some (Calling o st retried) =>
          match (run_command o st (cl_db c)).2 with
          | Some result => Some (replied i o st result (run_sent o st c))
          | None => Some (attempt_failed i o st retried (run_sent o st c))
          end
      | _ => None
      end
  | NError i => match cl_clients c !! i with Some (Calling o st retried) => Some (attempt_failed i o st retried c) | _ => None end
  | NDeliver k => '(o, st) ← cl_sent c !! k; Some (run_sent o st c)
  end.

Fixpoint cluster_exec_all (evs : list cluster_event) (c : cluster) : option cluster :=
  match evs with
  | [] => Some c
  | ev :: evs => c ← cluster_exec ev c; cluster_exec_all evs c
  end.

Definition quiet (d : db) : cluster := mkCluster d [] ∅ [].
End cluster.

Arguments cluster {_}.
Arguments mkCluster {_} _ _ _ _.

(** ** What the scripts that ran make of a cell *)

Definition on_cell (p id : string) (o : operation) : Prop := op_placement o = p /\ op_id o = id.

#[export] Instance on_cell_dec p id o : Decision (on_cell p id o).
Proof. unfold on_cell. apply _. Defined.

Definition effect (o : operation) (c : cell) : cell * verdict := spec_write lua_compare c (op_revision o) (op_value o).

Definition write_cell (p id : string) (c : cell) (o : operation) : cell := if decide (on_cell p id o) then (effect o c).1 else c.
Definition after (p id : string) (ran : list operation) (c : cell) : cell := fold_left (write_cell p id) ran c.

(** The cell holds the operation's value at its revision, or something newer. *)
Definition standing (o : operation) (c : cell) : Prop :=
  exists r v, c = Some (r, v)
  /\ (double_of_Z (op_revision o) < double_of_Z r \/ double_of_Z (op_revision o) = double_of_Z r /\ v = op_value o).

(** The cell holds something newer, or another value at the same revision. *)
Definition beaten (o : operation) (c : cell) : Prop :=
  exists r v, c = Some (r, v)
  /\ (double_of_Z (op_revision o) < double_of_Z r \/ double_of_Z (op_revision o) = double_of_Z r /\ v <> op_value o).

(** A cell changes only to a greater revision. *)
Definition overtakes (c c2 : cell) : Prop :=
  c2 = c \/ match c, c2 with
            | None, _ => True
            | Some (r, _), Some (r2, _) => double_of_Z r < double_of_Z r2
            | Some _, None => False
            end.

#[export] Instance overtakes_preorder : PreOrder overtakes.
Proof.
  split; [by left|]. intros [[r v]|] [[r2 v2]|] [[r3 v3]|] [H1|H1] [H2|H2]; simplify_eq; try (by left); try (by right); try done.
  right. lia.
Qed.

Lemma effect_overtakes o c : overtakes c (effect o c).1.
Proof.
  unfold effect, spec_write. destruct c as [[r v]|]; [|by right]. destruct (lua_compare (op_revision o) r) eqn:E; [by left..|right].
  unfold lua_compare in E. by apply Z.compare_gt_iff in E.
Qed.

Lemma after_overtakes p id ran c : overtakes c (after p id ran c).
Proof.
  revert c. induction ran as [|o ran IH]; intros c; [done|]. unfold after in *. cbn [fold_left]. etrans; [|apply IH].
  unfold write_cell. case_decide; [apply effect_overtakes|done].
Qed.

Lemma after_app p id l1 l2 c : after p id (l1 ++ l2) c = after p id l2 (after p id l1 c).
Proof. apply fold_left_app. Qed.

Lemma after_cons p id o l c : on_cell p id o -> after p id (o :: l) c = after p id l (effect o c).1.
Proof. intros Ho. unfold after, write_cell. cbn [fold_left]. by rewrite decide_True. Qed.

Lemma standing_overtaken o c c2 : standing o c -> overtakes c c2 -> standing o c2.
Proof.
  intros (r & v & -> & Hr) [->|Ho]; [by exists r, v|]. destruct c2 as [[r2 v2]|]; [|done]. exists r2, v2. split; [done|left; lia].
Qed.

Lemma beaten_overtaken o c c2 : beaten o c -> overtakes c c2 -> beaten o c2.
Proof.
  intros (r & v & -> & Hr) [->|Ho]; [by exists r, v|]. destruct c2 as [[r2 v2]|]; [|done]. exists r2, v2. split; [done|left; lia].
Qed.

Lemma effect_standing o c : (effect o c).2 <> Stale -> standing o (effect o c).1.
Proof.
  intros Hv. destruct (spec_write_stored _ _ _ Hv) as (r & Hc & Hr). exists r, (op_value o). split; [exact Hc|]. right. by rewrite Hr.
Qed.

Lemma effect_beaten o c : (effect o c).2 = Stale -> (effect o c).1 = c /\ beaten o c.
Proof.
  unfold effect, spec_write. destruct c as [[r v]|]; [|done]. destruct (lua_compare (op_revision o) r) eqn:E; unfold lua_compare in E; simpl; [|..|done].
  - apply Z.compare_eq_iff in E. case_decide as Hv; [done|]. intros _. split; [done|]. exists r, v. split; [done|]. by right.
  - intros _. apply Z.compare_lt_iff in E. split; [done|]. exists r, v. split; [done|]. by left.
Qed.

(** A script that meets a cell that is no older changes nothing. *)
Lemma no_older_kept o c r v : c = Some (r, v) -> double_of_Z (op_revision o) <= double_of_Z r -> (effect o c).2 <> Accepted /\ (effect o c).1 = c.
Proof.
  intros -> Hr. unfold effect, spec_write. destruct (lua_compare (op_revision o) r) eqn:E; [by case_decide|done|].
  unfold lua_compare in E. apply Z.compare_gt_iff in E. lia.
Qed.

(** After it ran, the cell is no older. *)
Lemma ran_no_older p id l1 o l2 c : on_cell p id o ->
  exists r v, after p id (l1 ++ o :: l2) c = Some (r, v) /\ double_of_Z (op_revision o) <= double_of_Z r.
Proof.
  intros Ho. rewrite after_app, after_cons by done. set (c1 := after p id l1 c).
  assert (Hx : exists r v, (effect o c1).1 = Some (r, v) /\ double_of_Z (op_revision o) <= double_of_Z r).
  { destruct (decide ((effect o c1).2 = Stale)) as [Hs|Hs].
    - destruct (effect_beaten _ _ Hs) as [-> (r & v & -> & Hr)]. exists r, v. split; [done|]. lia.
    - destruct (effect_standing _ _ Hs) as (r & v & -> & Hr). exists r, v. split; [done|]. lia. }
  destruct Hx as (r & v & He & Hr). pose proof (after_overtakes p id l2 (effect o c1).1) as Hov. rewrite He in *.
  destruct Hov as [->|Hov]; [by exists r, v|]. destruct (after p id l2 (Some (r, v))) as [[r2 v2]|]; [|done].
  exists r2, v2. split; [done|]. lia.
Qed.

(** What a cell holds was there, or a script that ran put it there. *)
Lemma after_origin p id ran c : after p id ran c = c \/ exists o, o ∈ ran /\ on_cell p id o /\ after p id ran c = Some (op_revision o, op_value o).
Proof.
  induction ran as [|o ran IH] using rev_ind; [by left|]. rewrite after_app.
  assert (Hstep : after p id [o] (after p id ran c) = after p id ran c
    \/ on_cell p id o /\ after p id [o] (after p id ran c) = Some (op_revision o, op_value o)).
  { change (after p id [o] (after p id ran c)) with (write_cell p id (after p id ran c) o).
    unfold write_cell. case_decide as Ho; [|by left].
    unfold effect, spec_write. destruct (after p id ran c) as [[r v]|]; [|by right].
    destruct (lua_compare (op_revision o) r); [by left..|by right]. }
  destruct Hstep as [->|[Ho ->]].
  - destruct IH as [->|(o' & Hin & Ho & ->)]; [by left|]. right. exists o'. split_and!; [|done|done]. set_solver.
  - right. exists o. split_and!; [set_solver|done|done].
Qed.

(** ** The invariant *)

Section facts.
Context `{Redis} (s : RedisStore).

Definition op_ok (o : operation) : Prop :=
  0 < op_revision o <= MaxInt64 /\ writable (op_placement o) (op_id o) (op_revision o) (op_value o).

(** The cell of an operation in the database. *)
Definition cell_for (o : operation) (d : db) : cell := registry s d (op_placement o) (op_id o).

(** The verdict of one of its scripts, when it ran. *)
Definition ran_with (d0 : db) (ran : list operation) (o : operation) (verdict_ok : verdict -> Prop) : Prop :=
  exists l1 l2, ran = l1 ++ o :: l2 /\ verdict_ok (effect o (after (op_placement o) (op_id o) l1 (cell_for o d0))).2.

Definition took_effect (d0 : db) (ran : list operation) (o : operation) : Prop := ran_with d0 ran o (fun v => v <> Stale).
Definition refused (d0 : db) (ran : list operation) (o : operation) : Prop := ran_with d0 ran o (fun v => v = Stale).
Definition announced (o : operation) (d : db) : Prop := (eventsKey s, op_placement o) ∈ published d.

Definition client_ok (d0 : db) (c : cluster) (x : client) : Prop :=
  match x with
  | Calling o st _ => (o, st) ∈ cl_sent c /\ match st with Publishing => took_effect d0 (cl_ran c) o | _ => True end
  | Returned o None => took_effect d0 (cl_ran c) o /\ announced o (cl_db c)
  | Returned o (Some ErrStaleBidRevision) => refused d0 (cl_ran c) o
  | Returned o (Some (ErrMsg _)) => True
  end.

Record cluster_ok (d0 : db) (c : cluster) : Prop := {
  co_consistent : Consistent s (cl_db c);
  co_sent o st : (o, st) ∈ cl_sent c -> op_ok o /\ (st = Indexing \/ op_placement o ∈ members (cl_db c) (placementsKey s));
  co_ran o : o ∈ cl_ran c -> (o, Writing) ∈ cl_sent c;
  co_cells p id : registry s (cl_db c) p id = after p id (cl_ran c) (registry s d0 p id);
  co_clients i x : cl_clients c !! i = Some x -> client_ok d0 c x;
  co_origin o st : (o, st) ∈ cl_sent c -> exists i x, cl_clients c !! i = Some x /\ operation_of x = o
}.

Lemma run_write o d : run_command s o Writing d = write_op s (op_placement o) (op_id o) (op_revision o) (op_value o) d.
Proof. unfold run_command, write_op. destruct (op_value o); [done|apply delete_versioned]. Qed.

(** A run of a command that was sent is a step of the store. *)
Lemma run_step o st d : op_ok o -> st = Indexing \/ op_placement o ∈ members d (placementsKey s) ->
  store_step s d (run_command s o st d).1.
Proof.
  intros [Hr Hw] Hin. destruct st; [apply step_sadd| |apply step_publish]. rewrite run_write.
  destruct Hin as [|Hin]; [done|]. by apply step_write.
Qed.

Lemma run_registry o st d p id : Consistent s d -> op_ok o ->
  registry s (run_command s o st d).1 p id = match st with Writing => write_cell p id (registry s d p id) o | _ => registry s d p id end.
Proof.
  intros Hc [Hr Hw]. destruct st.
  - unfold registry, cell_of. simpl. by rewrite !hash_sadd by apply Hc.
  - rewrite run_write. unfold write_cell. case_decide as Ho.
    + destruct Ho as [<- <-]. pose proof (write_op_spec s d (op_placement o) (op_id o) (op_revision o) (op_value o) Hc Hr) as Hs.
      unfold effect. destruct (spec_write _ _ _ _) as [c' vd]. apply Hs.
    + apply registry_write_other; [done|done|]. intros [= -> ->]. by apply Ho.
  - unfold registry, cell_of. simpl. by rewrite !hash_publish.
Qed.

Lemma run_reply o d : Consistent s d -> op_ok o -> (run_command s o Writing d).2 = Some (reply_of (effect o (cell_for o d)).2).
Proof.
  intros Hc [Hr Hw]. rewrite run_write.
  pose proof (write_op_spec s d (op_placement o) (op_id o) (op_revision o) (op_value o) Hc Hr) as Hs. unfold effect, cell_for.
  destruct (spec_write _ _ _ _) as [c' vd]. apply Hs.
Qed.

Lemma run_published o st d x : Consistent s d -> op_ok o -> x ∈ published d -> x ∈ published (run_command s o st d).1.
Proof.
  intros Hc [Hr Hw] Hx. destruct st; [by simpl; rewrite published_sadd| |simpl; rewrite published_publish; set_solver].
  rewrite run_write. pose proof (write_op_spec s d (op_placement o) (op_id o) (op_revision o) (op_value o) Hc Hr) as Hs.
  destruct (spec_write _ _ _ _) as [c' vd]. destruct Hs as (_ & _ & Hsame & Hacc).
  destruct (decide (vd = Accepted)) as [Hvd|Hvd]; [|by rewrite Hsame]. by rewrite (proj2 (proj2 (Hacc Hvd))).
Qed.

(** What clients know stays true. *)
Lemma ran_with_more d0 ran more o P : ran_with d0 ran o P -> ran_with d0 (ran ++ more) o P.
Proof. intros (l1 & l2 & -> & Hv). exists l1, (l2 ++ more). by rewrite <- app_assoc. Qed.

Lemma client_ok_later d0 c c2 x more : client_ok d0 c x ->
  (forall y, y ∈ cl_sent c -> y ∈ cl_sent c2) -> cl_ran c2 = cl_ran c ++ more -> (forall y, y ∈ published (cl_db c) -> y ∈ published (cl_db c2)) ->
  client_ok d0 c2 x.
Proof.
  intros Hx Hs Hr Hp. unfold client_ok, took_effect, refused, announced in *. rewrite Hr.
  destruct x as [o st retried|o [[|msg]|]]; [|by apply ran_with_more|done|].
  - destruct Hx as [Hin Hst]. split; [auto|]. destruct st; [done..|by apply ran_with_more].
  - destruct Hx. split; [by apply ran_with_more|auto].
Qed.

(** ** Its steps *)

Lemma run_sent_ok d0 c o st : cluster_ok d0 c -> (o, st) ∈ cl_sent c -> cluster_ok d0 (run_sent s o st c).
Proof.
  intros [Hc Hs Hr Hcell Hcl Hor] Hin. destruct (Hs o st Hin) as [Hok Hidx].
  pose proof (run_step o st (cl_db c) Hok Hidx) as Hstep. unfold run_sent. split; cbn [cl_db cl_sent cl_ran cl_clients].
  - by eapply Consistent_step.
  - intros o2 st2 Hin2. destruct (Hs _ _ Hin2) as [Hok2 Hidx2]. split; [done|].
    destruct Hidx2 as [|Hidx2]; [by left|right]. by eapply index_step.
  - intros o2. destruct st; [apply Hr| |apply Hr]. rewrite elem_of_app, list_elem_of_singleton. intros [Ho| ->]; [by apply Hr|done].
  - intros p id. rewrite (run_registry o st (cl_db c) p id Hc Hok), Hcell. destruct st; [done| |done]. by rewrite after_app.
  - intros i x Hx. apply (client_ok_later d0 c _ x (match st with Writing => [o] | _ => [] end)); [by eapply Hcl|done| |].
    + destruct st; cbn [cl_ran]; by rewrite ?app_nil_r.
    + intros y. by apply run_published.
  - exact Hor.
Qed.

(** Client [i] goes on to [x], which may have sent one more command. *)
Lemma client_goes_on d0 c i x sent : cluster_ok d0 c ->
  let c2 := mkCluster (cl_db c) (sent ++ cl_sent c) (<[i := x]> (cl_clients c)) (cl_ran c) in
  client_ok d0 c2 x ->
  (forall o st, (o, st) ∈ sent -> operation_of x = o /\ op_ok o /\ (st = Indexing \/ op_placement o ∈ members (cl_db c) (placementsKey s))) ->
  (forall y, cl_clients c !! i = Some y -> operation_of y = operation_of x) -> cluster_ok d0 c2.
Proof.
  intros [Hc Hs Hr Hcell Hcl Hor] c2 Hx Hsent Hsame. unfold c2. split; cbn [cl_db cl_sent cl_ran cl_clients].
  - done.
  - intros o st. rewrite elem_of_app. intros [Hin|Hin]; [apply Hsent, Hin|by apply Hs].
  - intros o Ho. rewrite elem_of_app. right. by apply Hr.
  - done.
  - intros j y. destruct (decide (j = i)) as [->|Hj]; [rewrite lookup_insert_eq; by intros [= <-]|rewrite lookup_insert_ne by done].
    intros Hy. apply (client_ok_later d0 c _ y []); [by eapply Hcl|set_solver|cbn; by rewrite app_nil_r|done].
  - intros o st. rewrite elem_of_app. intros [Hin|Hin]; [exists i, x; rewrite lookup_insert_eq; split; [done|]; by eapply Hsent|].
    destruct (Hor o st Hin) as (j & y & Hj & Hy). destruct (decide (j = i)) as [->|Hne].
    + exists i, x. rewrite lookup_insert_eq. split; [done|]. by rewrite <- (Hsame y Hj).
    + exists j, y. by rewrite lookup_insert_ne.
Qed.

Lemma send_ok d0 c i o st retried : cluster_ok d0 c -> op_ok o -> st = Indexing \/ op_placement o ∈ members (cl_db c) (placementsKey s) ->
  (st = Publishing -> took_effect d0 (cl_ran c) o) -> (forall y, cl_clients c !! i = Some y -> operation_of y = o) ->
  cluster_ok d0 (send i o st retried c).
Proof.
  intros Hc Hok Hidx Hpub Hsame. apply (client_goes_on d0 c i (Calling o st retried) [(o, st)] Hc); [|set_solver|done].
  split; [by left|]. by destruct st; [..|apply Hpub].
Qed.

Lemma return_ok d0 c i o e : cluster_ok d0 c -> client_ok d0 c (Returned o e) ->
  (forall y, cl_clients c !! i = Some y -> operation_of y = o) -> cluster_ok d0 (return_ i o e c).
Proof. intros Hc Hx Hsame. apply (client_goes_on d0 c i (Returned o e) [] Hc); [exact Hx|set_solver|done]. Qed.

(** What is known of a client that waits. *)
Lemma calling_ok d0 c i o st retried : cluster_ok d0 c -> cl_clients c !! i = Some (Calling o st retried) ->
  (o, st) ∈ cl_sent c /\ op_ok o /\ (st = Indexing \/ op_placement o ∈ members (cl_db c) (placementsKey s))
  /\ (st = Publishing -> took_effect d0 (cl_ran c) o) /\ (forall y, cl_clients c !! i = Some y -> operation_of y = o).
Proof.
  intros Hc Hi. destruct (co_clients _ _ Hc i _ Hi) as [Hin Hst]. destruct (co_sent _ _ Hc o st Hin) as [Hok Hidx].
  split_and!; [done..|by intros ->|]. rewrite Hi. by intros y [= <-].
Qed.

Lemma attempt_failed_ok d0 c i o st retried : cluster_ok d0 c -> cl_clients c !! i = Some (Calling o st retried) ->
  cluster_ok d0 (attempt_failed s i o st retried c).
Proof.
  intros Hc Hi. destruct (calling_ok _ _ _ _ _ _ Hc Hi) as (_ & Hok & Hidx & Hpub & Hsame). unfold attempt_failed.
  case_match; [by apply send_ok|by apply return_ok].
Qed.

Lemma replied_ok d0 c i o st retried result : cluster_ok d0 c -> cl_clients c !! i = Some (Calling o st retried) ->
  (run_command s o st (cl_db c)).2 = Some result -> cluster_ok d0 (replied i o st result (run_sent s o st c)).
Proof.
  intros Hc Hi Hrun. destruct (calling_ok _ _ _ _ _ _ Hc Hi) as (Hin & Hok & Hidx & Hpub & Hsame).
  pose proof (run_sent_ok d0 c o st Hc Hin) as Hd. unfold replied. destruct st.
  - apply send_ok; try done. right. simpl. rewrite members_sadd by apply Hc. rewrite decide_True by done. set_solver.
  - destruct Hidx as [|Hidx]; [done|]. pose proof (run_reply o (cl_db c) (co_consistent _ _ Hc) Hok) as Hrep. rewrite Hrun in Hrep.
    injection Hrep as ->. unfold cell_for in *. rewrite (co_cells _ _ Hc) in *.
    set (vd := (effect o (after _ _ (cl_ran c) _)).2).
    assert (Hran : ran_with d0 (cl_ran (run_sent s o Writing c)) o (fun v => v = vd)) by (exists (cl_ran c), []; done).
    destruct (Z.eqb_spec (reply_of vd) 0) as [Hz|Hz].
    + apply return_ok; [done| |done]. destruct Hran as (l1 & l2 & Hl & Hv). exists l1, l2. split; [done|]. rewrite Hv. by destruct vd.
    + apply send_ok; [done..|right; eapply index_step; [apply Hc|apply run_step; [done|by right]|done]| |done].
      intros _. destruct Hran as (l1 & l2 & Hl & Hv). exists l1, l2. split; [done|]. rewrite Hv. by intros Hs; rewrite Hs in Hz.
  - apply return_ok; [done| |done]. split; [by apply Hpub|]. unfold announced. simpl. rewrite published_publish. set_solver.
Qed.

(** The arguments a Go caller can pass. *)
Definition event_ok (ev : cluster_event) : Prop :=
  match ev with NUpsert _ b => Bid_typed b /\ Bid_utf8 b | NDelete _ _ _ revision => is_uint64 revision | _ => True end.

Lemma Upsert_operation_ok b o : Bid_typed b -> Bid_utf8 b -> Upsert_operation b = Some o -> op_ok o.
Proof.
  intros Ht Hu. unfold Upsert_operation. destruct (Bid_Validate (Bid_Normalize b)) eqn:Ev; [done|].
  destruct (json_Marshal (Bid_Normalize b)) as [payload|] eqn:Em; [|done]. intros [= <-].
  assert (Hb : stored_bid (Bid_Normalize b)).
  { split_and!; [by apply Bid_validate_wf|by apply Bid_Normalize_typed|by apply Bid_Normalize_utf8]. }
  destruct (stored_writable _ payload Hb Em). done.
Qed.

Lemma Delete_operation_ok p id rev o : is_uint64 rev -> Delete_operation p id rev = Some o -> op_ok o /\ delete_accepts p id rev.
Proof.
  intros Hu. unfold Delete_operation, delete_accepts. change (Z.shiftr MaxUint64 1) with MaxInt64.
  case_test; [done|]. bool_hyps. intros [= <-]. unfold op_ok. cbn. unfold_int. split_and!; done || lia.
Qed.

Lemma cluster_exec_ok d0 ev c c2 : cluster_ok d0 c -> event_ok ev -> cluster_exec s ev c = Some c2 -> cluster_ok d0 c2.
Proof.
  intros Hc Hev Hex.
  assert (Hbegin : forall i o, (forall o', o = Some o' -> op_ok o') -> begin i o c = Some c2 -> cluster_ok d0 c2).
  { intros i o Ho. unfold begin. destruct (cl_clients c !! i) eqn:Hi; [done|]. destruct o as [o|]; [|done]. intros [= <-].
    apply send_ok; [done|by apply Ho|by left|done|]. by rewrite Hi. }
  destruct ev as [i b|i p id rev|i|i|k]; simpl in Hex.
  - destruct Hev. eapply Hbegin; [|exact Hex]. intros o' Ho. by eapply Upsert_operation_ok.
  - eapply Hbegin; [|exact Hex]. intros o' Ho. by eapply Delete_operation_ok.
  - destruct (cl_clients c !! i) as [[o st retried|]|] eqn:Hi; [|done..].
    destruct (run_command s o st (cl_db c)).2 as [result|] eqn:Hrun; injection Hex as <-; [by eapply replied_ok|].
    apply attempt_failed_ok; [|done]. apply run_sent_ok; [done|]. by eapply calling_ok.
  - destruct (cl_clients c !! i) as [[o st retried|]|] eqn:Hi; [|done..]. injection Hex as <-. by apply attempt_failed_ok.
  - destruct (cl_sent c !! k) as [[o st]|] eqn:Hk; [|done]. injection Hex as <-. apply run_sent_ok; [done|].
    by eapply list_elem_of_lookup_2.
Qed.

Lemma cluster_run_ok d0 evs c c2 : cluster_ok d0 c -> Forall event_ok evs -> cluster_exec_all s evs c = Some c2 -> cluster_ok d0 c2.
Proof.
  intros Hc Hevs. revert c Hc. induction Hevs as [|ev evs Hev _ IH]; intros c Hc Hex; [by injection Hex as <-|].
  simpl in Hex. destruct (cluster_exec s ev c) as [c1|] eqn:E; [|done]. eapply IH; [|exact Hex]. by eapply cluster_exec_ok.
Qed.

Lemma quiet_ok d : Consistent s d -> cluster_ok d (quiet d).
Proof. intros Hc. split; simpl; (done || set_solver). Qed.

(** ** The store's operations are executions *)

Definition reaches (c c2 : cluster) : Prop := exists evs, Forall event_ok evs /\ cluster_exec_all s evs c = Some c2.

#[export] Instance reaches_preorder : PreOrder reaches.
Proof.
  split; [intros c; by exists []|]. intros c1 c2 c3 (l1 & H1 & E1) (l2 & H2 & E2). exists (l1 ++ l2).
  split; [by apply Forall_app|]. revert c1 E1. induction l1 as [|ev l1 IH]; intros c1 E1; [by injection E1 as ->|].
  apply Forall_cons in H1 as [_ H1]. simpl in *. destruct (cluster_exec s ev c1); [|done]. by apply IH.
Qed.

Lemma reaches_once ev c c2 : event_ok ev -> cluster_exec s ev c = Some c2 -> reaches c c2.
Proof. intros Hev Hex. exists [ev]. split; [by repeat constructor|]. simpl. by rewrite Hex. Qed.

(** Client [i] waits for a command, and the database is [d]. *)
Definition waits (i : nat) (o : operation) (st : command) (retried : bool) (d : db) (c : cluster) : Prop :=
  cl_clients c !! i = Some (Calling o st retried) /\ (o, st) ∈ cl_sent c /\ cl_db c = d.

Lemma send_waits i o st retried c : waits i o st retried (cl_db c) (send i o st retried c).
Proof. unfold waits, send. simpl. rewrite lookup_insert_eq. split_and!; [done|by left|done]. Qed.

Lemma run_sent_waits i o st retried d c : waits i o st retried d c -> waits i o st retried (run_command s o st d).1 (run_sent s o st c).
Proof. by intros (Hi & Hin & <-). Qed.

(** Repeated runs before the one that counts. *)
Lemma execute_reaches i o st retried d c n : waits i o st retried d c ->
  exists c2, reaches c c2 /\ waits i o st retried (execute (run_command s o st) n d) c2.
Proof.
  revert d c. induction n as [|n IH]; intros d c Hw; [by exists c|].
  destruct (IH _ _ (run_sent_waits _ _ _ _ _ _ Hw)) as (c2 & Hr & Hw2). exists c2. split; [|done]. etrans; [|exact Hr].
  destruct Hw as (_ & Hin & _). apply list_elem_of_lookup in Hin as [k Hk]. apply (reaches_once (NDeliver k)); [done|]. simpl. by rewrite Hk.
Qed.

Definition after_reply (i : nat) (o : operation) (st : command) (r : option Z) (on_error c : cluster) : cluster :=
  match r with Some result => replied i o st result c | None => on_error end.

Lemma call_reaches i o st retried d c net w r : waits i o st retried d c -> call (run_command s o st) (mkWorld d net) = (w, r) ->
  exists c2, waits i o st retried (w_db w) c2 /\ reaches c (after_reply i o st r (attempt_failed s i o st retried c2) c2).
Proof.
  intros Hw Hcall.
  assert (Hreply : forall n, (w_db w, r) = run_command s o st (execute (run_command s o st) n d) ->
    exists c2, waits i o st retried (w_db w) c2 /\ reaches c (after_reply i o st r (attempt_failed s i o st retried c2) c2)).
  { intros n Hrun. destruct (execute_reaches _ _ _ _ _ _ n Hw) as (c1 & Hr & Hw1).
    exists (run_sent s o st c1). pose proof (run_sent_waits _ _ _ _ _ _ Hw1) as Hw2. rewrite <- Hrun in Hw2. split; [done|].
    etrans; [exact Hr|]. apply (reaches_once (NReply i)); [done|]. simpl. destruct Hw1 as (-> & _ & ->). rewrite <- Hrun. by destruct r. }
  unfold call in Hcall. cbn [w_net w_db] in Hcall. destruct net as [|[n|n] net].
  - apply (Hreply O). simpl. destruct (run_command s o st d). by simplify_eq.
  - apply (Hreply n). destruct (run_command _ _ _ _). by simplify_eq.
  - injection Hcall as <- <-. destruct (execute_reaches _ _ _ _ _ _ n Hw) as (c1 & Hr & Hw1). exists c1. split; [done|].
    etrans; [exact Hr|]. apply (reaches_once (NError i)); [done|]. simpl. by destruct Hw1 as (-> & _).
Qed.

Lemma retry_reaches i o st d c net w r : waits i o st false d c -> retryTopology s (run_command s o st) (mkWorld d net) = (w, r) ->
  exists c2 retried, waits i o st retried (w_db w) c2 /\ reaches c (after_reply i o st r (return_ i o (Some (error_of o st)) c2) c2).
Proof.
  intros Hw Hretry. unfold retryTopology in Hretry. destruct (call _ _) as [w1 r1] eqn:Hcall.
  destruct (call_reaches _ _ _ _ _ _ _ _ _ Hw Hcall) as (c1 & Hw1 & Hr1). destruct r1 as [z|].
  { injection Hretry as <- <-. by exists c1, false. }
  simpl in Hr1. unfold attempt_failed in Hr1. destruct (rs_cluster s) eqn:Hs; simpl in Hr1; [|injection Hretry as <- <-; by exists c1, false].
  pose proof (send_waits i o st true c1) as Hw2. destruct Hw1 as (_ & _ & Hd). rewrite Hd in Hw2. destruct w1 as [d1 net1].
  destruct (call_reaches _ _ _ _ _ _ _ _ _ Hw2 Hretry) as (c2 & Hw3 & Hr2). exists c2, true. split; [done|]. etrans; [exact Hr1|].
  unfold attempt_failed in Hr2. by rewrite andb_false_r in Hr2.
Qed.

(** The replies the client does not look at. *)
Lemma retry_map {A B} (f : A -> B) (op : db -> db * option A) (op2 : db -> db * option B) w :
  (forall d, op2 d = ((op d).1, f <$> (op d).2)) ->
  retryTopology s op2 w = ((retryTopology s op w).1, f <$> (retryTopology s op w).2).
Proof.
  intros Hop. assert (Hex : forall n d, execute op2 n d = execute op n d).
  { induction n as [|n IH]; intros d; simpl; [done|]. by rewrite Hop, IH. }
  assert (Hcall : forall w, call op2 w = ((call op w).1, f <$> (call op w).2)).
  { intros [d net]. unfold call. cbn [w_net w_db]. destruct net as [|[n|n] net]; rewrite ?Hex, ?Hop; [..|done]; by destruct (op _). }
  unfold retryTopology. rewrite Hcall. destruct (call op w) as [w1 [a|]]; simpl; [done|]. destruct (rs_cluster s); [apply Hcall|done].
Qed.

Definition call_of (o : operation) : World -> World * option error :=
  update s (match op_value o with Some _ => (wrapped "versioned bid upsert") | None => (wrapped "versioned bid delete") end)
    (op_placement o) (op_id o) (op_revision o) (op_value o).

Definition ends (i : nat) (o : operation) (w : World) (e : option error) (c : cluster) : Prop :=
  cl_clients c !! i = Some (Returned o e) /\ cl_db c = w_db w.

Lemma return_ends i o w e c : cl_db c = w_db w -> ends i o w e (return_ i o e c).
Proof. intros Hd. split; [apply lookup_insert_eq|exact Hd]. Qed.

(** One command of a call: it fails for good, or the caller goes on. *)
Lemma one_command_reaches i o st d c net w r : waits i o st false d c -> retryTopology s (run_command s o st) (mkWorld d net) = (w, r) ->
  exists c2, cl_db c2 = w_db w /\ reaches c (after_reply i o st r (return_ i o (Some (error_of o st)) c2) c2).
Proof. intros Hw Hr. destruct (retry_reaches _ _ _ _ _ _ _ _ Hw Hr) as (c2 & retried & (_ & _ & Hd) & Hc). by exists c2. Qed.

Lemma update_is_execution i o c net w e : cl_clients c !! i = None -> call_of o (mkWorld (cl_db c) net) = (w, e) ->
  exists c2, reaches (send i o Indexing false c) c2 /\ ends i o w e c2.
Proof.
  intros Hi. unfold call_of, update. set (msg := match op_value o with Some _ => _ | None => _ end).
  assert (Hsadd : retryTopology s (run_command s o Indexing) (mkWorld (cl_db c) net) = _) by (by apply (retry_map (fun _ => 0) (SAdd (placementsKey s) (op_placement o)))).
  destruct (retryTopology s (SAdd _ _) _) as [[d1 net1] r1]. simpl in Hsadd.
  destruct (one_command_reaches _ _ _ _ _ _ _ _ (send_waits i o Indexing false c) Hsadd) as (c1 & Hd1 & Hr1).
  destruct r1 as [u|]; simpl in Hr1; [|intros [= <- <-]; eexists; split; [exact Hr1|by apply return_ends]].
  rewrite (retry_ext _ _ (run_command s o Writing)) by (intros; by rewrite run_write).
  destruct (retryTopology s (run_command s o Writing) _) as [[d2 net2] r2] eqn:Hwrite. cbn [w_db] in Hd1. rewrite <- Hd1 in Hwrite.
  destruct (one_command_reaches _ _ _ _ _ _ _ _ (send_waits i o Writing false c1) Hwrite) as (c2 & Hd2 & Hr2).
  pose proof (transitivity Hr1 Hr2) as Hr. destruct r2 as [result|]; simpl in Hr; [|intros [= <- <-]; eexists; split; [exact Hr|by apply return_ends]].
  destruct (result =? 0); [intros [= <- <-]; eexists; split; [exact Hr|by apply return_ends]|].
  assert (Hpub : retryTopology s (run_command s o Publishing) (mkWorld d2 net2) = _) by (by apply (retry_map (fun _ => 0) (Publish (eventsKey s) (op_placement o)))).
  destruct (retryTopology s (Publish _ _) _) as [[d3 net3] r3]. simpl in Hpub, Hd2. rewrite <- Hd2 in Hpub.
  destruct (one_command_reaches _ _ _ _ _ _ _ _ (send_waits i o Publishing false c2) Hpub) as (c3 & Hd3 & Hr3).
  pose proof (transitivity Hr Hr3) as Hr4.
  destruct r3 as [u3|]; simpl in Hr4; intros [= <- <-]; (eexists; split; [exact Hr4|by apply return_ends]).
Qed.

Lemma Upsert_call b o w : Upsert_operation b = Some o -> RedisStore_Upsert s b w = call_of o w.
Proof.
  unfold Upsert_operation. destruct (Bid_Validate (Bid_Normalize b)) eqn:Ev; [done|].
  destruct (json_Marshal (Bid_Normalize b)) as [payload|] eqn:Em; [|done]. intros [= <-].
  transitivity (RedisStore_Upsert s (Bid_Normalize b) w); [unfold RedisStore_Upsert; by rewrite Bid_Normalize_idemp|].
  apply Upsert_update; [by apply Bid_validate_wf|done].
Qed.

Lemma Delete_call p id rev o w : is_uint64 rev -> Delete_operation p id rev = Some o -> RedisStore_Delete s p id rev w = call_of o w.
Proof.
  intros Hu Ho. destruct (Delete_operation_ok _ _ _ _ Hu Ho) as [_ Ha]. rewrite Delete_update by done.
  unfold Delete_operation in Ho. case_match; [done|]. by injection Ho as <-.
Qed.

(** ** The registry of the writers *)

(** Whether the script of an operation of a client that got its verdict ran. *)
Lemma returned_ran d0 c i o e : cluster_ok d0 c -> cl_clients c !! i = Some (Returned o e) -> (forall msg, e <> Some (ErrMsg msg)) ->
  exists l1 l2, cl_ran c = l1 ++ o :: l2.
Proof.
  intros Hc Hi He. pose proof (co_clients _ _ Hc i _ Hi) as Hx. unfold client_ok in Hx. destruct e as [[|msg]|]; [|by destruct (He msg)|].
  - destruct Hx as (l1 & l2 & Hl & _). by exists l1, l2.
  - destruct Hx as [(l1 & l2 & Hl & _) _]. by exists l1, l2.
Qed.

Lemma cell_for_after d0 c o l1 l2 : cluster_ok d0 c -> cl_ran c = l1 ++ o :: l2 ->
  cell_for o (cl_db c) = after (op_placement o) (op_id o) l2 (effect o (after (op_placement o) (op_id o) l1 (cell_for o d0))).1.
Proof. intros Hc Hl. unfold cell_for. by rewrite (co_cells _ _ Hc), Hl, after_app, after_cons. Qed.

Lemma took_effect_standing d0 c o : cluster_ok d0 c -> took_effect d0 (cl_ran c) o -> standing o (cell_for o (cl_db c)).
Proof.
  intros Hc (l1 & l2 & Hl & Hv). rewrite (cell_for_after _ _ _ _ _ Hc Hl). eapply standing_overtaken; [by apply effect_standing|apply after_overtakes].
Qed.

Lemma refused_beaten d0 c o : cluster_ok d0 c -> refused d0 (cl_ran c) o -> beaten o (cell_for o (cl_db c)).
Proof.
  intros Hc (l1 & l2 & Hl & Hv). rewrite (cell_for_after _ _ _ _ _ Hc Hl). destruct (effect_beaten _ _ Hv) as [-> Hb].
  eapply beaten_overtaken; [exact Hb|apply after_overtakes].
Qed.

(** C6: Concurrent writers of one Redis linearize at their scripts. Any number of
    servers upsert and delete; the network loses, repeats and delays commands, also
    past the end of their call. At every moment the registry is consistent and each
    of its cells is what the scripts that ran, in their order, make of it one after
    the other. A call that returned nil had its write take effect and announced it,
    and the cell still holds the write or a newer one; a call that returned
    ErrStaleBidRevision was refused, and the cell holds a newer write or another
    value of the same revision. A script that runs again changes nothing. *)
Theorem writes_linearize d0 evs c :
  Consistent s d0 -> Forall event_ok evs -> cluster_exec_all s evs (quiet d0) = Some c ->
  Consistent s (cl_db c)
  /\ (forall p id, registry s (cl_db c) p id = after p id (cl_ran c) (registry s d0 p id))
  /\ (forall i o, cl_clients c !! i = Some (Returned o None) ->
       took_effect d0 (cl_ran c) o /\ standing o (cell_for o (cl_db c)) /\ announced o (cl_db c))
  /\ (forall i o, cl_clients c !! i = Some (Returned o (Some ErrStaleBidRevision)) ->
       refused d0 (cl_ran c) o /\ beaten o (cell_for o (cl_db c)))
  /\ (forall o l1 l2 l3, cl_ran c = l1 ++ o :: l2 ++ o :: l3 ->
       let before := after (op_placement o) (op_id o) (l1 ++ o :: l2) (cell_for o d0) in
       (effect o before).2 <> Accepted /\ (effect o before).1 = before).
Proof.
  intros Hc0 Hevs Hex. pose proof (cluster_run_ok _ _ _ _ (quiet_ok _ Hc0) Hevs Hex) as Hc. split_and!.
  - apply Hc.
  - apply Hc.
  - intros i o Hi. destruct (co_clients _ _ Hc i _ Hi) as [Ht Ha]. split_and!; [done|by eapply took_effect_standing|done].
  - intros i o Hi. pose proof (co_clients _ _ Hc i _ Hi) as Hr. split; [exact Hr|by eapply refused_beaten].
  - intros o l1 l2 l3 _ before. destruct (ran_no_older _ _ l1 o l2 (cell_for o d0) (conj eq_refl eq_refl)) as (r & v & Hb & Hr).
    by apply (no_older_kept o _ r v).
Qed.

(** C7: The newest write wins. Of all the upserts and deletes ever called on a bid, let
    one have the greatest revision, at most 2^53 and above what the registry held
    before. As soon as it has its verdict, that is nil, and from then on the registry
    holds its value, whatever the order in which commands ran and however late or
    often the others' run. *)
Theorem newest_write_wins d0 evs c i o e :
  Consistent s d0 -> Forall event_ok evs -> cluster_exec_all s evs (quiet d0) = Some c ->
  cl_clients c !! i = Some (Returned o e) -> (forall msg, e <> Some (ErrMsg msg)) ->
  op_revision o <= 2 ^ 53 ->
  match cell_for o d0 with Some (r, _) => r < op_revision o | None => True end ->
  (forall j x, cl_clients c !! j = Some x -> on_cell (op_placement o) (op_id o) (operation_of x) ->
     operation_of x = o \/ op_revision (operation_of x) < op_revision o) ->
  e = None /\ cell_for o (cl_db c) = Some (op_revision o, op_value o).
Proof.
  intros Hc0 Hevs Hex Hi He Hexact Hold Hgreatest. pose proof (cluster_run_ok _ _ _ _ (quiet_ok _ Hc0) Hevs Hex) as Hc.
  destruct (returned_ran _ _ _ _ _ Hc Hi He) as (l1 & l2 & Hl).
  destruct (ran_no_older (op_placement o) (op_id o) l1 o l2 (cell_for o d0) (conj eq_refl eq_refl)) as (r & v & Hr & Hle).
  rewrite <- Hl in Hr.
  assert (Hcell : cell_for o (cl_db c) = Some (op_revision o, op_value o)).
  { unfold cell_for. rewrite (co_cells _ _ Hc). fold (cell_for o d0). rewrite Hr. rewrite double_of_Z_exact in Hle by done.
    destruct (after_origin (op_placement o) (op_id o) (cl_ran c) (cell_for o d0)) as [Heq|(o2 & Hin & Hon & Heq)]; rewrite Hr in Heq.
    - rewrite <- Heq in Hold. rewrite double_of_Z_exact in Hle by lia. lia.
    - destruct (co_origin _ _ Hc o2 Writing (co_ran _ _ Hc _ Hin)) as (j & x & Hj & <-). injection Heq as -> ->.
      destruct (Hgreatest j x Hj Hon) as [->|Hlt]; [done|]. rewrite double_of_Z_exact in Hle by lia. lia. }
  split; [|exact Hcell]. pose proof (co_clients _ _ Hc i _ Hi) as Hx. destruct e as [[|msg]|]; [|by destruct (He msg)|done].
  destruct (refused_beaten _ _ _ Hc Hx) as (r2 & v2 & Heq & Hb). rewrite Hcell in Heq. injection Heq as <- <-.
  destruct Hb as [Hb|[_ Hb]]; [lia|done].
Qed.

(** C8: The store's operations are executions of the writers. From any state of the
    writers, an Upsert or a Delete with accepted arguments, on any network schedule,
    is a sequence of events of a fresh client: it ends with the same database and
    returns the same error. *)
Theorem store_calls_are_executions i o c net w e :
  cl_clients c !! i = None ->
  (exists b, Bid_typed b /\ Bid_utf8 b /\ Upsert_operation b = Some o /\ RedisStore_Upsert s b (mkWorld (cl_db c) net) = (w, e))
  \/ (exists p id rev, is_uint64 rev /\ Delete_operation p id rev = Some o /\ RedisStore_Delete s p id rev (mkWorld (cl_db c) net) = (w, e)) ->
  exists evs c2, Forall event_ok evs /\ cluster_exec_all s evs c = Some c2
    /\ cl_clients c2 !! i = Some (Returned o e) /\ cl_db c2 = w_db w.
Proof.
  intros Hi Hcall.
  assert (Hrun : call_of o (mkWorld (cl_db c) net) = (w, e) /\ reaches c (send i o Indexing false c)).
  { destruct Hcall as [(b & Ht & Hu & Ho & Hrun)|(p & id & rev & Hu & Ho & Hrun)].
    - rewrite (Upsert_call b o) in Hrun by done. split; [done|]. apply (reaches_once (NUpsert i b)); [done|].
      simpl. unfold begin. by rewrite Hi, Ho.
    - rewrite (Delete_call p id rev o) in Hrun by done. split; [done|]. apply (reaches_once (NDelete i p id rev)); [done|].
      simpl. unfold begin. by rewrite Hi, Ho. }
  destruct Hrun as [Hrun Hbegin]. destruct (update_is_execution _ _ _ _ _ _ Hi Hrun) as (c2 & Hr & Hends & Hd).
  destruct (transitivity Hbegin Hr) as (evs & Hevs & Hex). by exists evs, c2.
Qed.
End facts.

(** ** Evaluations

    Two servers race for one bid: client 1 loses the reply of its script and sends it
    again, client 0 runs its older script in between, and the first script of client 1
    runs once more when everybody has returned. *)

Definition race : list cluster_event :=
  [NUpsert 0 bid1; NUpsert 1 bid1_new; NReply 0; NReply 1; NDeliver 0; NError 1; NReply 0; NReply 1; NReply 1; NDeliver 1].

Definition race_end : @cluster memory_redis := default (quiet empty_db) (cluster_exec_all sample_store race (quiet empty_db)).
Definition newer : operation := mkOperation "top" "b1" 2 (json_Marshal bid1_new).
Definition older : operation := mkOperation "top" "b1" 1 (json_Marshal bid1).

Lemma race_ok : Forall event_ok race.
Proof. repeat constructor; by apply Bid_soundb_ok. Qed.

Lemma race_run : cluster_exec_all sample_store race (quiet empty_db) = Some race_end.
Proof.
  assert (Hs : match cluster_exec_all sample_store race (quiet empty_db) with Some _ => true | None => false end = true) by by_compute.
  unfold race_end. by destruct (cluster_exec_all _ _ _).
Qed.

Lemma writes_linearize_witness :
  cl_clients race_end !! 0%nat = Some (Returned older (Some ErrStaleBidRevision))
  /\ cl_clients race_end !! 1%nat = Some (Returned newer None)
  /\ cl_ran race_end = [newer; older; newer; newer]
  /\ registry sample_store (cl_db race_end) "top" "b1" = after "top" "b1" (cl_ran race_end) None
  /\ standing newer (cell_for sample_store newer (cl_db race_end))
  /\ beaten older (cell_for sample_store older (cl_db race_end)).
Proof.
  destruct (writes_linearize sample_store empty_db race race_end empty_Consistent race_ok race_run) as (_ & Hcells & Hnil & Hstale & _).
  split_and!; [by_compute..| |apply (Hnil 1%nat); by_compute|apply (Hstale 0%nat); by_compute].
  apply (Hcells "top" "b1").
Defined.

Lemma newest_write_wins_witness :
  None = @None error /\ cell_for sample_store newer (cl_db race_end) = Some (2, json_Marshal bid1_new).
Proof.
  apply (newest_write_wins sample_store empty_db race race_end 1%nat newer None empty_Consistent race_ok race_run).
  - by_compute.
  - done.
  - done.
  - done.
  - intros j x Hj _. destruct j as [|[|j]].
    + right. assert (Some x = Some (Returned older (Some ErrStaleBidRevision))) as [= ->]; [rewrite <- Hj; by_compute|done].
    + left. assert (Some x = Some (Returned newer None)) as [= ->]; [rewrite <- Hj; by_compute|done].
    + assert (Hn : forall j, j ∈ map_to_list (cl_clients race_end) -> (fst j < 2)%nat).
      { apply Forall_forall. vm_compute. repeat constructor. }
      apply elem_of_map_to_list, Hn in Hj. simpl in Hj. lia.
Defined.

Lemma store_calls_are_executions_witness :
  let r := RedisStore_Upsert sample_store bid1_new (mkWorld db_two rough_net) in
  exists evs c2, Forall event_ok evs /\ cluster_exec_all sample_store evs (quiet db_two) = Some c2
    /\ cl_clients c2 !! 0%nat = Some (Returned newer None) /\ cl_db c2 = w_db r.1.
Proof.
  apply (store_calls_are_executions sample_store 0%nat newer (quiet db_two) rough_net).
  - done.
  - left. exists bid1_new. split_and!; [by apply Bid_soundb_ok..|by_compute|apply pair_result; by_compute].
Defined.
