(* ===== verification/CacheProps.v ===== *)
(** * Properties of the snapshot cache

    What the cache guarantees to the auctions: sequentially against the interface of
    the store, end to end against the Redis registry, and in every interleaving of
    its goroutines. *)

From S2P Require Import Prelude GoInt Utf8 Json JsonCodec.
From S2P Require Import Prelude GoInt GoTime GoString Types Ranking Redis Store BidStore Samples Cache CacheRun.
Open Scope string_scope.
Open Scope list_scope.
Open Scope Z_scope.

(** ** Sequential behaviour *)

(** Reconciliation. If the store cannot list its placements, Reconcile reports
    that error and leaves every snapshot alone. Otherwise it refreshes the listed
    placements in order, each with the bids the store returned, until one refresh
    fails; every other snapshot is as it was, the counters record the refreshes and
    the failure, and no error means that all placements were refreshed. *)
Theorem Reconcile_refreshes {W} `{BidStoreLaws W} clock c w c2 w2 e :
  store_ok w -> cache_ok c -> Reconcile clock c w = (c2, w2, e) ->
  cache_ok c2 /\ store_ok w2
  /\ match (store_Placements w).2 with
     | inl err => e = Some err /\ bc_entries c2 = bc_entries c
         /\ bc_stats c2 = bc_stats (count_reconcile_failure (count_reconciliation c))
     | inr ps => reconciled clock 0 ps (count_reconciliation c) c2 e
     end.
Proof.
  intros Hw Hc Hr. destruct (Reconcile_ok _ _ _ _ _ _ Hw Hc Hr) as [Hw2 Hc2]. split_and!; [done..|].
  unfold Reconcile in Hr. destruct (store_Placements w) as [w1 [err|ps]] eqn:Ep; simpl.
  - by injection Hr as <- <- <-.
  - destruct (Placements_ok _ _ _ Hw Ep) as [Hw1 _].
    by destruct (refresh_each_spec _ _ _ _ _ _ _ _ Hw1 Hr) as (_ & _ & _ & _ & ?).
Qed.

(** Staleness. After a refresh of a placement at time [now], a reader at a later
    time (within the range of a Duration) finds exactly the refreshed list; the age
    is the elapsed time; the snapshot is stale from the first nanosecond after
    MaxSnapshotAge; and it is rejected only when it is stale under the no_bid
    policy. *)
Theorem Get_after_refresh {W} `{BidStoreLaws W} p now later c w c2 w2 bids st :
  store_ok w -> cache_ok c -> refresh p now c w = (c2, w2, None) ->
  is_int64 now -> now <= later <= now + MaxInt64 -> BidCache_Get p later c2 = (bids, st) ->
  valid_bids p bids /\ StronglySorted bid_le bids
  /\ ss_Found st = true /\ ss_Age st = later - now
  /\ (ss_Stale st = true <-> now + cp_MaxSnapshotAge (bc_policy c) < later)
  /\ (ss_RejectStale st = true <-> ss_Stale st = true /\ cp_StaleAction (bc_policy c) = NoBidOnStale).
Proof.
  intros Hw Hc Hr Hnow Hlater Hg.
  destruct (refresh_spec _ _ _ _ _ _ _ Hw Hr) as (_ & Hp & _ & _ & (l & Hl & Hf) & _).
  destruct (refreshed_ok _ _ _ Hf) as (Hv & Hs & _). destruct Hf as (w' & w2' & fb & _ & _ & ->).
  unfold BidCache_Get in Hg. rewrite Hl, Hp in Hg. injection Hg as <- <-. simpl in *.
  assert (Hage : time_Sub later (Unix_ns (UnixNano now)) = later - now).
  { unfold Unix_ns, UnixNano, time_Sub. rewrite int64_id by done. unfold_int. lia. }
  rewrite Hage. split_and!; [done..| |].
  - rewrite Z.ltb_lt. lia.
  - by rewrite andb_true_iff, String.eqb_eq.
Qed.

(** Policy. A cache never runs with an invalid policy: an invalid one is replaced
    by a 30 second default that serves stale snapshots. NewBidCache accepts every
    refresh interval of which twice the value is a Duration. *)
Theorem cache_policy_valid policy d :
  CachePolicy_Validate (bc_policy (NewBidCacheWithPolicy policy)) = true
  /\ (CachePolicy_Validate policy = true -> bc_policy (NewBidCacheWithPolicy policy) = policy)
  /\ (is_int64 d ->
      bc_policy (NewBidCache d) =
        if (0 <? d) && (d <=? Z.quot MaxInt64 2) then mkCachePolicy d (2 * d) ServeStale
        else mkCachePolicy (30 * Second) (60 * Second) ServeStale).
Proof.
  split_and!; [apply NewBidCacheWithPolicy_valid| |apply NewBidCache_policy].
  intros Hv. unfold NewBidCacheWithPolicy. by rewrite Hv.
Qed.

(** ** End to end with the registry *)

(** Warming without faults reads every placement of the index. *)
Lemma refresh_each_no_fault `{Redis} s range clock ps i c d :
  any_order range -> Consistent s d ->
  let _ := redis_bid_store s range in
  exists c2, refresh_each clock i ps c (mkWorld d []) = (c2, mkWorld d [], None)
    /\ (forall p, p ∉ ps -> bc_entries c2 !! p = bc_entries c !! p)
    /\ forall p, p ∈ ps -> exists bids k, fetched s d p bids
         /\ bc_entries c2 !! p = Some (Some (mkBidList bids (UnixNano (clock k)))).
Proof.
  intros Hrg Hc St. set (L := redis_bid_store_laws s range Hrg).
  revert i c. induction ps as [|p ps IH]; intros i c; simpl.
  { exists c. split_and!; try done. by intros p ?%elem_of_nil. }
  destruct (Fetch_no_fault s d p range Hc Hrg) as (bids & Hf & Hfd).
  unfold refresh at 1. simpl. rewrite Hf.
  set (l := mkBidList _ _). destruct (IH (S i) (store_list p l (load_or_store p (count_refresh c))))
    as (c2 & -> & Hout & Hin).
  assert (Hl : l = mkBidList bids (UnixNano (clock i))).
  { unfold l. f_equal. apply (snapshot_bids_sorted p); [|apply Hfd].
    by apply (@Fetch_ok _ _ L p (mkWorld d []) _ _ Hc Hf). }
  exists c2. split; [done|]. split.
  - intros q [Hne Hnin]%not_elem_of_cons. rewrite Hout, store_list_lookup, load_or_store_lookup by done.
    by rewrite !decide_False.
  - intros q Hq. destruct (decide (q ∈ ps)) as [Hd|Hd]; [by apply Hin|].
    apply elem_of_cons in Hq as [->|?]; [|done]. exists bids, i. split; [done|].
    by rewrite Hout, store_list_lookup, decide_True, Hl by done.
Qed.

(** Listing the placements without faults. *)
Lemma Placements_no_fault `{Redis} s d : exists ps, RedisStore_Placements s (mkWorld d []) = (mkWorld d [], inr ps)
  /\ ps ≡ₚ elements (members d (placementsKey s)).
Proof.
  unfold RedisStore_Placements. rewrite (call_no_fault s _ d (members d (placementsKey s))) by done.
  eexists. split; [done|]. apply merge_sort_Permutation.
Qed.

(** [Warm] on a reachable registry. *)
Lemma Warm_exact `{Redis} s range clock c d :
  any_order range -> Consistent s d ->
  let _ := redis_bid_store s range in
  exists c2, Warm clock c (mkWorld d []) = (c2, mkWorld d [], None)
  /\ (forall p now, p ∈ members d (placementsKey s) ->
        fetched s d p (BidCache_Get p now c2).1 /\ ss_Found (BidCache_Get p now c2).2 = true)
  /\ (forall b now, active_bid s d (bid_PlacementID b) b -> b ∈ (BidCache_Get (bid_PlacementID b) now c2).1).
Proof.
  intros Hrg Hc St. unfold Warm, Reconcile. simpl store_Placements.
  destruct (Placements_no_fault s d) as (ps & Hp & Hperm).
  destruct (refresh_each_no_fault s range clock ps 0 (count_reconciliation c) d Hrg Hc) as (c2 & Hr & _ & Hin).
  exists c2. rewrite Hp. split; [exact Hr|].
  assert (Hget : forall p now, p ∈ members d (placementsKey s) ->
    fetched s d p (BidCache_Get p now c2).1 /\ ss_Found (BidCache_Get p now c2).2 = true).
  { intros p now Hpin. destruct (Hin p) as (bids & k & Hf & He).
    { rewrite Hperm. by apply elem_of_elements. }
    unfold BidCache_Get. by rewrite He. }
  split; [done|]. intros b now Hb. destruct (active_bid_entry s d _ b Hb) as (payload & Hm & Hh).
  destruct (cons_active s d Hc _ _ _ Hh) as (b' & _ & _ & _ & _ & Hver).
  apply (Hget (bid_PlacementID b) now); [|done]. by eapply (cons_index s d Hc).
Qed.

(** Warmup. With Redis reachable, Warm succeeds and changes nothing in Redis,
    and afterwards the cache answers every indexed placement with exactly its active
    bids in ranking order. So every active bid of the registry is served. *)
Theorem Warm_serves_registry `{Redis} s range clock c d :
  any_order range -> Consistent s d ->
  let _ := redis_bid_store s range in
  exists c2, Warm clock c (mkWorld d []) = (c2, mkWorld d [], None)
  /\ (forall p now, p ∈ members d (placementsKey s) ->
        fetched s d p (BidCache_Get p now c2).1 /\ ss_Found (BidCache_Get p now c2).2 = true)
  /\ (forall b now, active_bid s d (bid_PlacementID b) b -> b ∈ (BidCache_Get (bid_PlacementID b) now c2).1).
Proof. apply Warm_exact. Qed.

(** ** Every interleaving *)

Section concurrent.
Context {W : Type} `{HL : BidStoreLaws W}.

(** C21: safety in every interleaving. From an empty cache, whatever the refreshes,
    reconciliations, invalidations, writes of other servers and failures of the
    store, every snapshot a reader finds holds valid bids of its placement in
    ranking order, each ID once, and is not from the future; and at most one
    background refresh per placement runs, exactly while its in-flight mark is set. *)
Theorem cache_runs_safe policy w now st :
  store_ok w -> is_int64 now -> rtc step (initial policy w now) st ->
  (forall p t bids ss, st_now st <= t -> BidCache_Get p t (st_cache st) = (bids, ss) -> ss_Found ss = true ->
     valid_bids p bids /\ StronglySorted bid_le bids /\ 0 <= ss_Age ss)
  /\ (forall p, p ∈ bc_inflight (st_cache st) <-> exists tid, holds async_of (st_threads st) tid p)
  /\ (forall p tid1 tid2, holds async_of (st_threads st) tid1 p -> holds async_of (st_threads st) tid2 p -> tid1 = tid2).
Proof.
  intros Hw Hn Hr. pose proof (reachable_ok _ _ _ _ Hw Hn Hr) as Hok.
  split_and!; [|apply run_flight, Hok|apply run_single, Hok].
  intros p t bids ss Ht Hg Hfound. unfold BidCache_Get in Hg.
  destruct (bc_entries (st_cache st) !! p) as [[l|]|] eqn:El; injection Hg as <- <-; try done.
  destruct (ok_entries _ (run_cache _ Hok) p l El) as (Hv & Hs & _). split_and!; [done..|]. simpl.
  pose proof (run_past _ Hok p l El). unfold time_Sub, Unix_ns. unfold_int. lia.
Qed.

(** Availability. No event makes a cache lose a snapshot: a placement a reader
    finds is found in every later state, so a failing store leaves a warm cache
    serving. *)
Theorem warm_snapshot_survives policy w now st st2 p t t2 :
  store_ok w -> is_int64 now -> rtc step (initial policy w now) st -> rtc step st st2 ->
  ss_Found (BidCache_Get p t (st_cache st)).2 = true -> ss_Found (BidCache_Get p t2 (st_cache st2)).2 = true.
Proof.
  intros Hw Hn Hr Hr2 Hf. pose proof (reachable_ok _ _ _ _ Hw Hn Hr) as Hok.
  assert (Hsnap : exists l, bc_entries (st_cache st) !! p = Some (Some l)).
  { unfold BidCache_Get in Hf. destruct (bc_entries (st_cache st) !! p) as [[l|]|]; [eauto|done..]. }
  enough (exists l, bc_entries (st_cache st2) !! p = Some (Some l)) as (l & Hl) by (unfold BidCache_Get; by rewrite Hl).
  clear Hr Hf. induction Hr2 as [|st st' st2 (ev & Hev & Hx) _ IH]; [done|]. destruct Hsnap as (l & Hl).
  apply IH; [by eapply exec_ok|by eapply exec_keeps_snapshot].
Qed.

(** The steps a background refresh still takes, at most. *)
Definition pc_left (at_ : pc) : nat :=
  match at_ with Begin => 4 | Fetched _ => 3 | Slotted _ => 2 | Returned _ => 1 end.

(** A background refresh terminates. In any state its next step is enabled,
    whatever the store answers; only its own steps move it; each brings it closer to
    its end, which is at most four steps away; and its last step releases the
    placement's in-flight mark, so later invalidations are not blocked. *)
Theorem async_refresh_terminates st tid p at_ :
  run_ok st -> st_threads st !! tid = Some (TAsync p at_) ->
  (pc_left at_ <= 4)%nat
  /\ (forall ev st2, ev <> ERun tid -> exec ev st = Some st2 -> st_threads st2 !! tid = Some (TAsync p at_))
  /\ exists st2, exec (ERun tid) st = Some st2
     /\ ((exists at2, st_threads st2 !! tid = Some (TAsync p at2) /\ (pc_left at2 < pc_left at_)%nat)
         \/ (st_threads st2 !! tid = None /\ p ∉ bc_inflight (st_cache st2))).
Proof.
  intros Hok Ht. split_and!.
  - by destruct at_; simpl; lia.
  - intros ev st2 Hne Hx. destruct ev as [b|q id rev| |tid' q|tid'| |tid'|t]; simpl in Hx; simplify_eq; try done.
    + destruct (decide (tid' = tid)) as [->|Hd]; [by rewrite Ht in Hx|].
      destruct (st_threads st !! tid'); [done|]. destruct (RefreshAsync q (st_cache st)) as [c go].
      injection Hx as <-. simpl. by rewrite set_thread_lookup, decide_False.
    + destruct (decide (tid' = tid)) as [->|Hd]; [by rewrite Ht in Hx|].
      destruct (st_threads st !! tid'); [done|]. injection Hx as <-. simpl. by rewrite set_thread_lookup, decide_False.
    + destruct (decide (tid' = tid)) as [->|Hd]; [done|].
      destruct (st_threads st !! tid') as [t'|]; [|done].
      destruct (thread_step _ t' _ _) as [[t2 c2] w2]. injection Hx as <-. simpl.
      by rewrite set_thread_lookup, decide_False.
    + destruct (st_now st <=? t); [|done]. by injection Hx as <-.
  - simpl. rewrite Ht.
    destruct at_ as [|[e|bids]|bids|e]; cbn -[store_Fetch set_thread];
      [destruct (store_Fetch p (st_world st)) as [w2 r]|..]; (eexists; split; [reflexivity|]);
      cbn [st_threads st_cache]; rewrite set_thread_lookup, decide_True by done;
      [left; eexists; split; [done|]; simpl; lia..|].
    right. split; [done|]. simpl. set_solver.
Qed.
End concurrent.

(** ** An invalidation that is lost *)

Definition top_v1 : Bid := sample_bid "b1" 1 100.
Definition top_v2 : Bid := sample_bid "b1" 2 150.

(** Another server's upsert is published while a refresh that has already read the
    registry is in flight; the refresh then stores what it read. *)
Definition lost_invalidation : list event :=
  [EUpsert top_v1; EInvalidate 0 "top"; ERun 0; EUpsert top_v2; EInvalidate 1 "top"; ERun 0; ERun 0; ERun 0].

Definition empty_run : state World :=
  initial (DefaultCachePolicy (30 * Second)) (mkWorld empty_db []) 0.

Definition after (evs : list event) (st : state World) : state World := default st (exec_all evs st).
Definition lost_state : state World := after lost_invalidation empty_run.
Definition repair : list event := [ETick 2; ERun 2; ERun 2; ERun 2; ERun 2; ERun 2].
Definition repaired_state : state World := after repair lost_state.

Lemma after_exec evs st : is_Some (exec_all evs st) -> exec_all evs st = Some (after evs st).
Proof. unfold after. by intros [st2 ->]. Qed.

(** A missed invalidation and its repair. A RefreshAsync for a placement whose
    refresh is in flight does nothing, even when that refresh has read the registry
    before the write being announced: all goroutines end, the registry holds
    revision 2, and the cache serves revision 1, as fresh. The next reconciliation
    of the refresh loop repairs it. *)
Theorem coalesced_invalidation_lost :
  exec_all lost_invalidation empty_run = Some lost_state
  /\ st_threads lost_state = ∅ /\ bc_inflight (st_cache lost_state) = ∅
  /\ (store_Fetch "top" (st_world lost_state)).2 = inr [top_v2]
  /\ (BidCache_Get "top" 0 (st_cache lost_state)).1 = [top_v1]
  /\ ss_Stale (BidCache_Get "top" 0 (st_cache lost_state)).2 = false
  /\ exec_all repair lost_state = Some repaired_state
  /\ st_threads repaired_state = ∅
  /\ (BidCache_Get "top" 0 (st_cache repaired_state)).1 = [top_v2].
Proof.
  split_and!; try (apply after_exec, is_Someb_ok; by_compute); by_compute.
Qed.

(** ** Evaluations *)

Definition sample_cache : BidCache := NewBidCacheWithPolicy (DefaultCachePolicy (30 * Second)).
Definition sample_clock (k : nat) : Time := 1000 + Z.of_nat k.
(** The listing works; the first refresh fails, also when retried. *)
Definition failing_world : World := mkWorld db_two [Reply 0; Lost 0; Lost 1].
Definition failed_reconcile := Reconcile sample_clock sample_cache failing_world.

Lemma sample_cache_ok : cache_ok sample_cache.
Proof.
  constructor; [apply NewBidCacheWithPolicy_valid|by intros p l|]. unfold sample_cache. simpl. set_solver.
Qed.

Lemma failing_world_ok : store_ok failing_world.
Proof. apply db_two_Consistent. Qed.

Lemma two_ok : store_ok (mkWorld db_two []).
Proof. apply db_two_Consistent. Qed.

Lemma triple_result {A B C} (r : A * B * C) (z : C) : r.2 = z -> r = (r.1.1, r.1.2, z).
Proof. intros <-. by destruct r as [[] ?]. Qed.

Lemma Reconcile_refreshes_witness :
  failed_reconcile.2 = Some (ErrMsg redis_error)
  /\ reconciled sample_clock 0 ["top"] (count_reconciliation sample_cache) failed_reconcile.1.1 failed_reconcile.2.
Proof.
  assert (He : failed_reconcile.2 = Some (ErrMsg redis_error)) by by_compute.
  split; [exact He|].
  destruct (Reconcile_refreshes sample_clock sample_cache failing_world _ _ _
    failing_world_ok sample_cache_ok (triple_result failed_reconcile _ He)) as (_ & _ & Hm).
  assert (Hpl : (store_Placements failing_world).2 = inr ["top"]) by by_compute.
  rewrite Hpl in Hm. rewrite He. exact Hm.
Defined.

Definition one_refresh := refresh "top" 1000 sample_cache (mkWorld db_two []).

Lemma Get_after_refresh_witness :
  (BidCache_Get "top" (1001 + 60 * Second) one_refresh.1.1).1 = [bid2; bid1]
  /\ ss_Stale (BidCache_Get "top" (1000 + 60 * Second) one_refresh.1.1).2 = false
  /\ ss_Stale (BidCache_Get "top" (1001 + 60 * Second) one_refresh.1.1).2 = true.
Proof.
  assert (He : one_refresh.2 = None) by by_compute.
  split; [by_compute|]. split; [by_compute|].
  pose proof (Get_after_refresh "top" 1000 (1001 + 60 * Second) sample_cache (mkWorld db_two []) _ _ _ _
    two_ok sample_cache_ok (triple_result one_refresh _ He) ltac:(unfold_int; lia)
    ltac:(vm_compute; split; discriminate) (surjective_pairing _)) as (_ & _ & _ & _ & Hs & _).
  apply Hs. by_compute.
Defined.

Lemma cache_policy_valid_witness :
  cp_MaxSnapshotAge (bc_policy (NewBidCache (5 * Second))) = 10 * Second
  /\ bc_policy (NewBidCache (2 ^ 62)) = mkCachePolicy (30 * Second) (60 * Second) ServeStale.
Proof.
  split; [by_compute|].
  rewrite (proj2 (proj2 (cache_policy_valid (DefaultCachePolicy 0) (2 ^ 62))) ltac:(unfold_int; lia)). by_compute.
Defined.

Lemma Warm_serves_registry_witness :
  exists c2, @Warm World sample_bid_store sample_clock sample_cache (mkWorld db_two []) = (c2, mkWorld db_two [], None)
  /\ bid1 ∈ (BidCache_Get "top" 0 c2).1.
Proof.
  destruct (Warm_serves_registry sample_store map_to_list sample_clock sample_cache db_two
    map_to_list_any_order db_two_Consistent) as (c2 & Hw & Hget & _).
  exists c2. split; [exact Hw|].
  destruct (Hget "top" 0) as [(_ & _ & Hin) _]; [apply (bool_decide_unpack _); by_compute|].
  apply Hin. assert (Ha : bool_decide (hash db_two (activeKey sample_store "top") !! "b1" = json_Marshal bid1) = true) by by_compute.
  apply bool_decide_eq_true in Ha.
  destruct (active_entry sample_store db_two "top" "b1" _ db_two_Consistent Ha) as (b' & (Hb & _ & Hm) & _ & Hact).
  replace bid1 with b'; [exact Hact|].
  exact (Marshal_inj b' bid1 _ Hb bid1_stored Hm eq_refl).
Defined.

(** Two states of the run above: the refresh that has fetched, and the end. *)
Definition half_state : state World := after (take 3 lost_invalidation) empty_run.

Lemma empty_world_ok : store_ok (mkWorld empty_db []).
Proof. apply empty_Consistent. Qed.

Definition event_okb (ev : event) : bool :=
  match ev with EUpsert b => Bid_soundb b | EDelete _ _ rev => bool_decide (is_uint64 rev)
  | ETime now => bool_decide (is_int64 now) | _ => true end.

Lemma event_okb_ok (ev : event) : event_okb ev = true -> event_ok ev.
Proof.
  destruct ev; simpl; intros H; bool_hyps; try done. by apply Bid_soundb_ok.
Qed.

(** An executed sequence of typed events is a sequence of steps. *)
Lemma exec_all_steps evs (st st2 : state World) :
  forallb event_okb evs = true -> exec_all evs st = Some st2 -> rtc step st st2.
Proof.
  revert st. induction evs as [|ev evs IH]; simpl; intros st He Hx; [simplify_eq; constructor|].
  bool_hyps. destruct (exec ev st) as [st1|] eqn:E; [|done].
  eapply rtc_l; [|by apply IH]. exists ev. split; [by apply event_okb_ok|done].
Qed.

Lemma half_reachable : rtc step empty_run half_state.
Proof. apply (exec_all_steps (take 3 lost_invalidation)); [by_compute|]. apply after_exec, is_Someb_ok. by_compute. Qed.

Lemma lost_reachable : rtc step empty_run lost_state.
Proof. apply (exec_all_steps lost_invalidation); [by_compute|]. apply after_exec, is_Someb_ok. by_compute. Qed.

Lemma repair_reachable : rtc step lost_state repaired_state.
Proof. apply (exec_all_steps repair); [by_compute|]. apply after_exec, is_Someb_ok. by_compute. Qed.

Lemma zero_int64 : is_int64 0.
Proof. by vm_compute. Qed.

Lemma cache_runs_safe_witness :
  holds async_of (st_threads half_state) 0 "top" /\ "top" ∈ bc_inflight (st_cache half_state)
  /\ valid_bids "top" (BidCache_Get "top" 5 (st_cache lost_state)).1.
Proof.
  split; [by_compute|]. split.
  - apply (proj1 (proj2 (cache_runs_safe _ _ _ half_state empty_world_ok zero_int64 half_reachable))).
    exists 0%nat. by_compute.
  - destruct (proj1 (cache_runs_safe _ _ _ lost_state empty_world_ok zero_int64 lost_reachable)
      "top" 5 _ _ ltac:(by vm_compute) (surjective_pairing _) ltac:(by_compute)) as [Hv _]. exact Hv.
Defined.

Lemma warm_snapshot_survives_witness :
  ss_Found (BidCache_Get "top" 0 (st_cache lost_state)).2 = true /\ ss_Found (BidCache_Get "top" 9 (st_cache repaired_state)).2 = true.
Proof.
  assert (Hf : ss_Found (BidCache_Get "top" 0 (st_cache lost_state)).2 = true) by by_compute.
  split; [exact Hf|].
  exact (warm_snapshot_survives _ _ _ _ _ "top" 0 9 empty_world_ok zero_int64 lost_reachable repair_reachable Hf).
Defined.

Definition half_pc : pc := Fetched (inr [top_v1]).

Lemma async_refresh_terminates_witness :
  st_threads half_state !! 0%nat = Some (TAsync "top" half_pc)
  /\ exists st2, exec (ERun 0) half_state = Some st2 /\ st_threads st2 !! 0%nat <> Some (TAsync "top" half_pc).
Proof.
  assert (Ht : st_threads half_state !! 0%nat = Some (TAsync "top" half_pc)) by by_compute.
  split; [exact Ht|].
  destruct (async_refresh_terminates half_state 0 "top" half_pc
    (reachable_ok _ _ _ _ empty_world_ok zero_int64 half_reachable) Ht) as (_ & _ & st2 & Hx & Hend).
  exists st2. split; [exact Hx|]. destruct Hend as [(at2 & -> & Hlt)|[-> _]]; intros [=].
  subst at2. revert Hlt. apply Nat.lt_irrefl.
Defined.
