(* ===== verification/CacheFresh.v ===== *)
(** * When a write becomes visible

    What the snapshots hold, compared with what the registry held while they were
    fetched. A refresh that had read the registry before a write can store its list
    after a later refresh did, and take the snapshot back; once no such refresh is
    left, every refresh and every reconciliation shows the write, for good. *)

From S2P Require Import Prelude GoInt Utf8 Json JsonCodec.
From S2P Require Import Prelude GoInt GoTime GoString Types Ranking Redis Store BidStore Samples StoreProps.
From S2P Require Import Cache CacheRun CacheProps.
Open Scope string_scope.
Open Scope list_scope.
Open Scope Z_scope.

(** The list a refresh has read and not stored yet. *)
Definition held (at_ : pc) : option (list Bid) :=
  match at_ with Fetched (inr bids) | Slotted bids => Some bids | _ => None end.

Definition read_by (t : thread) (p : string) (bids : list Bid) : Prop :=
  exists at_, thread_refresh t = Some (p, at_) /\ held at_ = Some bids.

Definition snapshot_of (c : BidCache) (p : string) : option (list Bid) :=
  match bc_entries c !! p with Some (Some l) => Some (bl_bids l) | _ => None end.

Lemma Get_snapshot c p now bids : snapshot_of c p = Some bids ->
  (BidCache_Get p now c).1 = bids /\ ss_Found (BidCache_Get p now c).2 = true.
Proof. unfold snapshot_of, BidCache_Get. destruct (bc_entries c !! p) as [[l|]|]; by intros [= <-]. Qed.

Lemma snapshot_of_load_or_store p q c : snapshot_of (load_or_store p c) q = snapshot_of c q.
Proof.
  unfold snapshot_of. rewrite load_or_store_lookup. case_decide as Hq; [subst q|done]. by destruct (bc_entries c !! p) as [[]|].
Qed.

Lemma snapshot_of_store_list p q l c : snapshot_of (store_list p l c) q = if decide (q = p) then Some (bl_bids l) else snapshot_of c q.
Proof. unfold snapshot_of. rewrite store_list_lookup. by case_decide. Qed.

Section fresh.
Context `{Redis} (s : RedisStore) (range : gmap string string -> list (string * string)).
Context (Hrange : any_order range).

Let HB : BidStore World := redis_bid_store s range.
#[local] Existing Instance HB.
Let HL : BidStoreLaws World := redis_bid_store_laws s range Hrange.
#[local] Existing Instance HL.

Definition db_of (st : state World) : db := w_db (st_world st).

(** [bids] is what the registry held at some moment from [d1] to [d2]. *)
Definition read_since (p : string) (d1 d2 : db) (bids : list Bid) : Prop :=
  exists d, rtc (store_step s) d1 d /\ rtc (store_step s) d d2 /\ fetched s d p bids.

Lemma read_since_later p d1 d2 d3 bids : read_since p d1 d2 bids -> rtc (store_step s) d2 d3 -> read_since p d1 d3 bids.
Proof. intros (d & H1 & H2 & Hf) H3. exists d. split_and!; [done|by etrans|done]. Qed.

(** ** One step *)

Lemma Delete_steps p id rev w w2 e :
  Consistent s (w_db w) -> is_uint64 rev -> RedisStore_Delete s p id rev w = (w2, e) -> rtc (store_step s) (w_db w) (w_db w2).
Proof.
  intros Hc Hu Hd. destruct (String.eqb p "" || String.eqb id "" || (rev =? 0) || (Z.shiftr MaxUint64 1 <? rev)) eqn:Et.
  - unfold RedisStore_Delete in Hd. rewrite Et in Hd. by injection Hd as <- <-.
  - assert (Ha : delete_accepts p id rev).
    { change (Z.shiftr MaxUint64 1) with MaxInt64 in Et. bool_hyps. unfold delete_accepts. unfold_int. split_and!; done || lia. }
    rewrite Delete_update in Hd by done. destruct Ha as (_ & _ & Hr).
    pose proof (update_outcome s _ _ _ _ None _ _ _ Hc Hr I Hd) as Ho. unfold mutation_outcome in Ho.
    destruct (spec_write _ _ _ _). apply Ho.
Qed.

Lemma fetched_snapshot d p bids : fetched s d p bids -> snapshot_bids bids = bids.
Proof.
  intros (Hs & Hn & Hin). apply (snapshot_bids_sorted p); [|done]. split; [|done].
  apply Forall_forall. intros b (Hb & Hp & _)%Hin. split_and!; [apply Hb|apply Hb|done].
Qed.

Lemma refresh_step_read p now at_ c w at2 c2 w2 :
  Consistent s (w_db w) -> refresh_step p now at_ c w = (at2, c2, w2) ->
  w_db w2 = w_db w
  /\ (forall bids, held at2 = Some bids -> fetched s (w_db w) p bids \/ exists bids0, held at_ = Some bids0 /\ bids = snapshot_bids bids0)
  /\ (forall q, snapshot_of c2 q = snapshot_of c q \/ (q = p /\ exists bids, at_ = Slotted bids /\ snapshot_of c2 q = Some bids)).
Proof.
  intros Hc Hs. unfold refresh_step in Hs. destruct at_ as [|[e|bids]|bids|e].
  - destruct (store_Fetch p w) as [w1 r] eqn:Ef. injection Hs as <- <- <-.
    destruct (Fetch_spec s _ p range w w1 r Hc Hrange eq_refl Ef) as [Hd Hr]. split_and!; [done| |by left].
    intros bids Hb. destruct r as [|bids']; [done|]. injection Hb as <-. left. destruct Hr as [|(l & [= <-] & Hf)]; done.
  - injection Hs as <- <- <-. split_and!; [done..|by left].
  - injection Hs as <- <- <-. split_and!; [done| |intros q; left; apply snapshot_of_load_or_store].
    intros bids2 [= <-]. right. by exists bids.
  - injection Hs as <- <- <-. split_and!; [done..|]. intros q. rewrite snapshot_of_store_list.
    case_decide as Hq; [right|by left]. split; [done|]. by exists bids.
  - injection Hs as <- <- <-. split_and!; [done|done|by left].
Qed.

Lemma thread_step_read now t c w t2 c2 w2 :
  Consistent s (w_db w) -> thread_step now t c w = (t2, c2, w2) ->
  w_db w2 = w_db w
  /\ (forall t' p bids, t2 = Some t' -> read_by t' p bids ->
        fetched s (w_db w) p bids \/ exists bids0, read_by t p bids0 /\ bids = snapshot_bids bids0)
  /\ (forall q, snapshot_of c2 q = snapshot_of c q \/ exists bids, thread_refresh t = Some (q, Slotted bids) /\ snapshot_of c2 q = Some bids).
Proof.
  intros Hc Hs.
  assert (Hgo : forall (mk : pc -> thread) p at_, (forall a, thread_refresh (mk a) = Some (p, a)) -> t = mk at_ ->
    forall at2 c3 w3, refresh_step p now at_ c w = (at2, c3, w3) -> t2 = Some (mk at2) -> c2 = c3 -> w2 = w3 ->
    w_db w2 = w_db w
    /\ (forall t' q bids, t2 = Some t' -> read_by t' q bids ->
          fetched s (w_db w) q bids \/ exists bids0, read_by t q bids0 /\ bids = snapshot_bids bids0)
    /\ (forall q, snapshot_of c2 q = snapshot_of c q \/ exists bids, thread_refresh t = Some (q, Slotted bids) /\ snapshot_of c2 q = Some bids)).
  { intros mk p at_ Hmk -> at2 c3 w3 Hr -> -> ->. destruct (refresh_step_read _ _ _ _ _ _ _ _ Hc Hr) as (Hd & Hh & He). split_and!; [done| |].
    - intros t' q bids [= <-] (a & Ha & Hheld). rewrite Hmk in Ha. injection Ha as <- <-.
      destruct (Hh bids Hheld) as [Hf|(bids0 & H0 & ->)]; [by left|right]. exists bids0. split; [|done]. exists at_. by rewrite Hmk.
    - intros q. destruct (He q) as [Hq|(-> & bids & -> & Hq)]; [by left|right]. exists bids. by rewrite Hmk. }
  assert (Hidle : forall ps t' q bids, reconcile_next ps = Some t' -> ~ read_by t' q bids).
  { intros [|x ps] t' q bids [= <-] (a & [= <- <-] & Ha). done. }
  destruct t as [p at_| |p at_ rest]; cbn [thread_step] in Hs.
  - destruct (returned at_) as [e|]; [injection Hs as <- <- <-; split_and!; [done..|by left]|].
    destruct (refresh_step p now at_ c w) as [[at2 c3] w3] eqn:Er. injection Hs as <- <- <-.
    by apply (Hgo (TAsync p) p at_ (fun _ => eq_refl) eq_refl at2 c3 w3).
  - destruct (store_Placements w) as [w3 r] eqn:Ep. destruct (Placements_spec s w w3 r Ep) as [Hd _].
    destruct r as [e|ps]; injection Hs as <- <- <-; (split; [done|]); (split; [|by left]); [done|].
    intros t' q bids Ht Hr. by destruct (Hidle _ _ q bids Ht).
  - destruct (returned at_) as [[e|]|].
    + injection Hs as <- <- <-. split_and!; [done..|by left].
    + injection Hs as <- <- <-. split; [done|]. split; [|by left]. intros t' q bids Ht Hr. by destruct (Hidle _ _ q bids Ht).
    + destruct (refresh_step p now at_ c w) as [[at2 c3] w3] eqn:Er. injection Hs as <- <- <-.
      by apply (Hgo (fun a => TReconcile p a rest) p at_ (fun _ => eq_refl) eq_refl at2 c3 w3).
Qed.

Definition carried (bids0 bids : list Bid) : Prop := bids = bids0 \/ bids = snapshot_bids bids0.

(** What the threads hold after a step, they held before or have just read. *)
Definition reads_step (st st2 : state World) : Prop :=
  forall tid t p bids, st_threads st2 !! tid = Some t -> read_by t p bids ->
    fetched s (db_of st) p bids \/ exists t0 bids0, st_threads st !! tid = Some t0 /\ read_by t0 p bids0 /\ carried bids0 bids.

(** What is served after a step was served before, or a thread has stored it. *)
Definition snapshots_step (st st2 : state World) : Prop :=
  forall p, snapshot_of (st_cache st2) p = snapshot_of (st_cache st) p
    \/ exists tid t bids, st_threads st !! tid = Some t /\ thread_refresh t = Some (p, Slotted bids) /\ snapshot_of (st_cache st2) p = Some bids.

Lemma reads_same st st2 : st_threads st2 = st_threads st -> reads_step st st2.
Proof. intros Ht tid t p bids Hl Hr. rewrite Ht in Hl. right. exists t, bids. split_and!; [done..|by left]. Qed.

Lemma reads_started st st2 tid new : st_threads st2 = set_thread tid new (st_threads st) ->
  (forall t p bids, new = Some t -> ~ read_by t p bids) -> reads_step st st2.
Proof.
  intros Ht Hnew tid' t p bids Hl Hr. rewrite Ht, set_thread_lookup in Hl. case_decide; [by destruct (Hnew t p bids)|].
  right. exists t, bids. split_and!; [done..|by left].
Qed.

Lemma snapshots_same st st2 : bc_entries (st_cache st2) = bc_entries (st_cache st) -> snapshots_step st st2.
Proof. intros He p. left. unfold snapshot_of. by rewrite He. Qed.

Lemma exec_read ev st st2 : Consistent s (db_of st) -> event_ok ev -> exec ev st = Some st2 ->
  rtc (store_step s) (db_of st) (db_of st2) /\ reads_step st st2 /\ snapshots_step st st2.
Proof.
  intros Hc Hev Hx. destruct ev as [b|p id rev| |tid p|tid| |tid|now]; simpl in Hx.
  - injection Hx as <-. split_and!; [|by apply reads_same|by apply snapshots_same]. unfold db_of. simpl.
    destruct (RedisStore_Upsert s b (st_world st)) as [w2 e] eqn:E. destruct Hev as [Ht Hu]. by eapply Upsert_steps.
  - injection Hx as <-. split_and!; [|by apply reads_same|by apply snapshots_same]. unfold db_of. simpl.
    destruct (RedisStore_Delete s p id rev (st_world st)) as [w2 e] eqn:E. by eapply Delete_steps.
  - injection Hx as <-. split_and!; [|by apply reads_same|by apply snapshots_same]. unfold db_of. simpl.
    destruct (RedisStore_Ping s (st_world st)) as [w2 e] eqn:E. simpl. by rewrite (Ping_spec s _ _ _ E).
  - destruct (st_threads st !! tid); [done|]. unfold RefreshAsync in Hx. unfold db_of.
    destruct (String.eqb p ""); [|case_decide]; injection Hx as <-; (split; [done|]); (split; [|by apply snapshots_same]);
      (eapply reads_started; [done|]); try done. intros t q bids [= <-] (a & [= <- <-] & Ha). done.
  - destruct (st_threads st !! tid); [done|]. injection Hx as <-. split_and!; [done| |by apply snapshots_same].
    eapply reads_started; [done|]. intros t q bids [= <-] (a & Ha & _). done.
  - injection Hx as <-. split_and!; [done|by apply reads_same|by apply snapshots_same].
  - destruct (st_threads st !! tid) as [t|] eqn:Et; [|done].
    destruct (thread_step (st_now st) t (st_cache st) (st_world st)) as [[t2 c2] w2] eqn:Es. injection Hx as <-.
    destruct (thread_step_read _ _ _ _ _ _ _ Hc Es) as (Hd & Hr & He). unfold db_of. simpl. rewrite Hd. split_and!; [done| |].
    + intros tid' t' p bids Hl Hrd. simpl in Hl. rewrite set_thread_lookup in Hl. case_decide as Htid; [subst tid'|].
      * destruct (Hr t' p bids Hl Hrd) as [Hf|(bids0 & H0 & ->)]; [by left|right]. exists t, bids0. split_and!; [done..|by right].
      * right. exists t', bids. split_and!; [done..|by left].
    + intros p. destruct (He p) as [Hq|(bids & Hp & Hq)]; [by left|right]. by exists tid, t, bids.
  - destruct (st_now st <=? now); [|done]. injection Hx as <-. split_and!; [done|by apply reads_same|by apply snapshots_same].
Qed.

(** ** Since a state *)

(** No refresh of [p] is between its reading and its storing. *)
Definition unread (st : state World) (p : string) : Prop :=
  forall tid t bids, st_threads st !! tid = Some t -> ~ read_by t p bids.

(** What is served for [p] was read since [st0]. *)
Definition fresh_since (st0 st : state World) (p : string) : Prop :=
  exists bids, snapshot_of (st_cache st) p = Some bids /\ read_since p (db_of st0) (db_of st) bids.

(** Where the reconciliation of thread [tid] is: what it has passed is fresh. *)
Definition reconciled_since (st0 st : state World) (tid : nat) (p : string) : Prop :=
  match st_threads st !! tid with
  | Some (TReconcile q at_ rest) => p ∈ rest \/ (p = q /\ returned at_ <> Some None) \/ fresh_since st0 st p
  | _ => True
  end.

Record since (st0 st : state World) : Prop := {
  sc_run : run_ok st;
  sc_db : rtc (store_step s) (db_of st0) (db_of st);
  sc_read p tid t bids : unread st0 p -> st_threads st !! tid = Some t -> read_by t p bids ->
    read_since p (db_of st0) (db_of st) bids
}.

Lemma since_refl st : run_ok st -> since st st.
Proof. intros Hok. split; [done|done|]. intros p tid t bids Hu Hl Hr. by destruct (Hu tid t bids). Qed.

Lemma carried_fetched d p bids0 bids : fetched s d p bids0 -> carried bids0 bids -> bids = bids0.
Proof. intros Hf [->| ->]; [done|by eapply fetched_snapshot]. Qed.

Lemma since_step st0 st st2 : since st0 st -> step st st2 -> since st0 st2.
Proof.
  intros [Hok Hdb Hrd] (ev & Hev & Hx). pose proof (run_store _ Hok) as Hc.
  destruct (exec_read ev st st2 Hc Hev Hx) as (Hd & Hr & _). split; [by eapply exec_ok|by etrans|].
  intros p tid t bids Hu Hl Hb. destruct (Hr tid t p bids Hl Hb) as [Hf|(t0 & bids0 & H0 & Hb0 & Hcar)].
  - by exists (db_of st).
  - destruct (Hrd p tid t0 bids0 Hu H0 Hb0) as (d & H1 & H2 & Hf). rewrite (carried_fetched d p bids0 bids Hf Hcar).
    exists d. split_and!; [done|by etrans|done].
Qed.

Lemma fresh_step st0 st st2 p : since st0 st -> unread st0 p -> fresh_since st0 st p -> step st st2 -> fresh_since st0 st2 p.
Proof.
  intros Hs Hu (bids & Hb & Hrd) (ev & Hev & Hx). destruct (exec_read ev st st2 (run_store _ (sc_run _ _ Hs)) Hev Hx) as (Hd & _ & Hsv).
  destruct (Hsv p) as [Heq|(tid & t & bids2 & Ht & Hr & Heq)].
  - exists bids. rewrite Heq. split; [done|by eapply read_since_later].
  - exists bids2. split; [done|]. eapply read_since_later; [|exact Hd]. apply (sc_read _ _ Hs p tid t bids2 Hu Ht). by exists (Slotted bids2).
Qed.

(** The step that stores. *)
Lemma run_stores st st2 tid t p bids : st_threads st !! tid = Some t -> thread_refresh t = Some (p, Slotted bids) ->
  exec (ERun tid) st = Some st2 -> snapshot_of (st_cache st2) p = Some bids.
Proof.
  intros Ht Hr Hx. simpl in Hx. rewrite Ht in Hx.
  destruct t as [q at_| |q at_ rest]; [injection Hr as -> ->|done|injection Hr as -> ->]; simpl in Hx; injection Hx as <-; simpl;
    rewrite snapshot_of_store_list; by rewrite decide_True.
Qed.

Lemma stored_fresh st0 st st2 tid t p bids : since st0 st -> unread st0 p -> st_threads st !! tid = Some t ->
  thread_refresh t = Some (p, Slotted bids) -> exec (ERun tid) st = Some st2 -> fresh_since st0 st2 p.
Proof.
  intros Hs Hu Ht Hr Hx. exists bids. split; [by eapply run_stores|].
  assert (Hrd : read_since p (db_of st0) (db_of st) bids) by (eapply (sc_read _ _ Hs); [done..|by exists (Slotted bids)]).
  eapply read_since_later; [exact Hrd|]. by eapply (exec_read (ERun tid)); [apply (run_store _ (sc_run _ _ Hs))|..].
Qed.

(** The other threads, and what a thread can start as. *)
Lemma exec_thread ev st st2 tid : exec ev st = Some st2 ->
  ev = ERun tid \/ st_threads st2 !! tid = st_threads st !! tid
  \/ match st_threads st2 !! tid with Some (TReconcile _ _ _) => False | _ => True end.
Proof.
  intros Hx. destruct ev as [b|q id rev| |tid' q|tid'| |tid'|now]; simpl in Hx; try (injection Hx as <-; by right; left).
  - destruct (st_threads st !! tid'); [done|]. destruct (RefreshAsync q (st_cache st)) as [c go]. injection Hx as <-. simpl.
    rewrite set_thread_lookup. right. case_decide; [right; by destruct go|by left].
  - destruct (st_threads st !! tid'); [done|]. injection Hx as <-. simpl. rewrite set_thread_lookup. right. case_decide; [by right|by left].
  - destruct (decide (tid' = tid)) as [->|Hne]; [by left|right; left].
    destruct (st_threads st !! tid'); [|done]. destruct (thread_step _ _ _ _) as [[t2 c2] w2]. injection Hx as <-. simpl.
    by rewrite set_thread_lookup, decide_False.
  - destruct (st_now st <=? now); [|done]. injection Hx as <-. by right; left.
Qed.

Lemma index_rtc d d2 p : rtc (store_step s) d d2 -> Consistent s d -> p ∈ members d (placementsKey s) -> p ∈ members d2 (placementsKey s).
Proof. induction 1 as [|d d1 d2 H1 _ IH]; intros Hc Hp; [done|]. apply IH; [by eapply Consistent_step|by eapply index_step]. Qed.

(** A refresh returns nil right after it stored. *)
Lemma refresh_step_nil q now at_ c w at2 c2 w2 : returned at_ = None -> refresh_step q now at_ c w = (at2, c2, w2) ->
  returned at2 = Some None -> exists bids, at_ = Slotted bids.
Proof.
  intros Hn Hs H2. destruct at_ as [|[e|bids]|bids|e]; simpl in *; [|by injection Hs as <- _ _..|eauto|done].
  destruct (RedisStore_Fetch _ _ _ _). by injection Hs as <- _ _.
Qed.

Lemma reconcile_next_since st0 st tid p ps : st_threads st !! tid = reconcile_next ps -> p ∈ ps -> reconciled_since st0 st tid p.
Proof.
  unfold reconciled_since. intros -> Hp. destruct ps as [|q rest]; [done|]. simpl.
  apply elem_of_cons in Hp as [->|Hp]; [right; by left|by left].
Qed.

Lemma fresh_reconciled st0 st tid p : fresh_since st0 st p -> reconciled_since st0 st tid p.
Proof. intros Hf. unfold reconciled_since. destruct (st_threads st !! tid) as [[]|]; auto. Qed.

Lemma reconciled_step st0 st st2 tid p : since st0 st -> unread st0 p -> Consistent s (db_of st0) -> p ∈ members (db_of st0) (placementsKey s) ->
  reconciled_since st0 st tid p -> step st st2 -> reconciled_since st0 st2 tid p.
Proof.
  intros Hs Hu Hc0 Hp Hrec Hst. pose proof (fun Hf => fresh_step st0 st st2 p Hs Hu Hf Hst) as Hfresh. pose proof Hst as (ev & Hev & Hx).
  destruct (exec_thread ev st st2 tid Hx) as [->|[Heq|Hnew]];
    [|unfold reconciled_since in *; rewrite Heq; destruct (st_threads st !! tid) as [[]|]; naive_solver
     |unfold reconciled_since; by destruct (st_threads st2 !! tid) as [[]|]].
  unfold reconciled_since in Hrec. pose proof Hx as Hrun. simpl in Hx. destruct (st_threads st !! tid) as [[q at_| |q at_ rest]|] eqn:Et; [..|done].
  - simpl in Hx. destruct (returned at_) as [e|]; [injection Hx as <-|destruct (refresh_step _ _ _ _ _) as [[a c] w]; injection Hx as <-];
      unfold reconciled_since; simpl; by rewrite set_thread_lookup, decide_True.
  - simpl in Hx. destruct (RedisStore_Placements s (st_world st)) as [w r] eqn:Ep.
    destruct (Placements_spec s _ _ _ Ep) as (_ & [->|(ps & -> & Hperm & _)]); injection Hx as <-.
    + unfold reconciled_since. simpl. by rewrite set_thread_lookup, decide_True.
    + apply (reconcile_next_since _ _ _ _ ps); [simpl; by rewrite set_thread_lookup, decide_True|].
      rewrite Hperm. apply elem_of_elements. by apply (index_rtc _ _ _ (sc_db _ _ Hs)).
  - destruct (returned at_) as [[e|]|] eqn:Ea; simpl in Hx; rewrite Ea in Hx.
    + injection Hx as <-. unfold reconciled_since. simpl. by rewrite set_thread_lookup, decide_True.
    + injection Hx as <-. destruct Hrec as [Hin|[[_ ?]|Hf]]; [|done|].
      * apply (reconcile_next_since _ _ _ _ rest); [simpl; by rewrite set_thread_lookup, decide_True|done].
      * by apply fresh_reconciled, Hfresh.
    + destruct (refresh_step q (st_now st) at_ (st_cache st) (st_world st)) as [[at2 c2] w2] eqn:Er. injection Hx as <-.
      unfold reconciled_since. cbn [st_threads]. rewrite set_thread_lookup, decide_True by done.
      destruct Hrec as [Hin|[[-> _]|Hf]]; [by left| |right; right; by apply Hfresh]. right.
      destruct (decide (returned at2 = Some None)) as [Hret|Hret]; [right|by left].
      destruct (refresh_step_nil _ _ _ _ _ _ _ _ Ea Er Hret) as (bids & ->).
      by apply (stored_fresh st0 st _ tid (TReconcile q (Slotted bids) rest) q bids).
Qed.

(** ** Visible *)

Definition reconciling (st : state World) (tid : nat) : bool :=
  match st_threads st !! tid with Some (TReconcile _ _ _) => true | _ => false end.

(** Since [st0], a refresh of [p] has stored, or a reconciliation has come to its
    successful end that had not listed the placements then. *)
Inductive refreshed (st0 : state World) (p : string) : state World -> Prop :=
  | refreshed_once st st2 tid t bids : rtc step st0 st -> st_threads st !! tid = Some t ->
      thread_refresh t = Some (p, Slotted bids) -> exec (ERun tid) st = Some st2 -> refreshed st0 p st2
  | refreshed_all st tid q : p ∈ members (db_of st0) (placementsKey s) -> reconciling st0 tid = false ->
      rtc step st0 st -> st_threads st !! tid = Some (TReconcile q (Returned None) []) -> refreshed st0 p st.

(** The list shows what a cell of its placement holds. *)
Definition shows (bids : list Bid) (id : string) (c : cell) : Prop :=
  match c with
  | Some (r, Some payload) => exists b, b ∈ bids /\ bid_ID b = id /\ bid_Revision b = r /\ json_Marshal b = Some payload
  | _ => forall b, b ∈ bids -> bid_ID b <> id
  end.

Lemma fetched_shows d p bids id : Consistent s d -> fetched s d p bids -> shows bids id (registry s d p id).
Proof.
  intros Hc (_ & _ & Hin). unfold shows. destruct (registry s d p id) as [[r [payload|]]|] eqn:Er.
  - assert (Hh : hash d (activeKey s p) !! id = Some payload).
    { unfold registry, cell_of in Er. destruct (hash d (versionKey s p) !! id); [|done]. by destruct (ParseUint _); simplify_eq. }
    destruct (active_entry s d p id payload Hc Hh) as (b & (_ & _ & Hm) & Hid & Ha). exists b. split_and!; [by apply Hin|done| |done].
    destruct Ha as (_ & _ & payload2 & _ & Hreg). rewrite Hid, Er in Hreg. by injection Hreg.
  - intros b (_ & _ & payload & _ & Hreg)%Hin <-. congruence.
  - intros b (_ & _ & payload & _ & Hreg)%Hin <-. congruence.
Qed.

(** For each bid of [p] the cache shows a state of its cell that is no older than the
    one in [d0], and no newer than the one in [d]. *)
Definition shows_since (p : string) (d0 d : db) (c : BidCache) : Prop :=
  exists bids, snapshot_of c p = Some bids /\ StronglySorted bid_le bids
  /\ forall id, exists shown, cell_le (registry s d0 p id) shown /\ cell_le shown (registry s d p id) /\ shows bids id shown.

Lemma fresh_shows st0 st p : Consistent s (db_of st0) -> fresh_since st0 st p -> shows_since p (db_of st0) (db_of st) (st_cache st).
Proof.
  intros Hc (bids & Hs & d & H1 & H2 & Hf). exists bids. split_and!; [done|apply Hf|]. intros id. exists (registry s d p id).
  assert (Hcd : Consistent s d) by (by eapply Consistent_rtc). split_and!; [by apply registry_rtc|by apply registry_rtc|by apply fetched_shows].
Qed.

Lemma since_rtc st0 st st2 : since st0 st -> rtc step st st2 -> since st0 st2.
Proof. intros Hs Hr. apply (rtc_invariant step (since st0)) with st; [|done..]. intros a b Ha Hab. by eapply since_step. Qed.

Lemma fresh_rtc st0 st st2 p : since st0 st -> unread st0 p -> fresh_since st0 st p -> rtc step st st2 -> fresh_since st0 st2 p.
Proof.
  intros Hs Hu Hf Hr. induction Hr as [|st st1 st2 H1 _ IH]; [done|]. apply IH; [by eapply since_step|by eapply fresh_step].
Qed.

Lemma reconciled_rtc st0 st st2 tid p : since st0 st -> unread st0 p -> Consistent s (db_of st0) -> p ∈ members (db_of st0) (placementsKey s) ->
  reconciled_since st0 st tid p -> rtc step st st2 -> reconciled_since st0 st2 tid p.
Proof.
  intros Hs Hu Hc Hp Hrec Hr. induction Hr as [|st st1 st2 H1 _ IH]; [done|]. apply IH; [by eapply since_step|by eapply reconciled_step].
Qed.

Lemma refreshed_fresh st0 st p : run_ok st0 -> unread st0 p -> refreshed st0 p st -> since st0 st /\ fresh_since st0 st p.
Proof.
  intros Hok Hu Href. pose proof (since_refl st0 Hok) as H0. destruct Href as [st st2 tid t bids Hr Ht Hp Hx|st tid q Hp Hn Hr Ht].
  - pose proof (since_rtc _ _ _ H0 Hr) as Hs. split; [|by eapply stored_fresh]. eapply since_step; [exact Hs|]. by exists (ERun tid).
  - pose proof (since_rtc _ _ _ H0 Hr) as Hs. split; [done|].
    assert (Hrec : reconciled_since st0 st0 tid p).
    { unfold reconciled_since, reconciling in *. by destruct (st_threads st0 !! tid) as [[]|]. }
    pose proof (reconciled_rtc _ _ _ _ _ H0 Hu (run_store _ Hok) Hp Hrec Hr) as Hend. unfold reconciled_since in Hend. rewrite Ht in Hend.
    destruct Hend as [Hin|[[_ Hne]|Hf]]; [by apply elem_of_nil in Hin|done|done].
Qed.

(** Writes become visible in the cache. Take a state in which no refresh of a placement
    is between its reading and its storing. After one refresh of it that stores, or one
    successful reconciliation that lists the placements after that, in any interleaving
    with other refreshes and with writes, the cache always shows every bid of the
    placement at least as new as the registry held it in that state. *)
Theorem refresh_shows_writes st0 st st2 p :
  run_ok st0 -> unread st0 p -> refreshed st0 p st -> rtc step st st2 ->
  shows_since p (db_of st0) (db_of st2) (st_cache st2).
Proof.
  intros Hok Hu Href Hr. destruct (refreshed_fresh _ _ _ Hok Hu Href) as [Hs Hf].
  apply fresh_shows; [apply (run_store _ Hok)|by eapply fresh_rtc].
Qed.
End fresh.

(** ** A refresh that takes a snapshot back *)

(** A refresh reads revision 1; revision 2 is written and announced, which the refresh
    in flight swallows; a reconciliation stores revision 2; the refresh stores
    revision 1. *)
Definition overtaken : list event :=
  [EUpsert top_v1; EInvalidate 0 "top"; ERun 0; EUpsert top_v2; EInvalidate 1 "top"; ETick 2; ERun 2; ERun 2; ERun 2; ERun 2; ERun 2].
Definition reconciled_state : state World := after overtaken empty_run.
Definition rolled_back : state World := after [ETime 1; ERun 0; ERun 0; ERun 0] reconciled_state.

(** The cache serves revision 2 after a reconciliation and revision 1 again later, with a
    later refresh time, while the registry holds revision 2 and nothing runs. *)
Theorem slow_refresh_rolls_back :
  exec_all overtaken empty_run = Some reconciled_state
  /\ (BidCache_Get "top" 0 (st_cache reconciled_state)).1 = [top_v2]
  /\ exec_all [ETime 1; ERun 0; ERun 0; ERun 0] reconciled_state = Some rolled_back
  /\ st_threads rolled_back = ∅ /\ bc_inflight (st_cache rolled_back) = ∅
  /\ (store_Fetch "top" (st_world rolled_back)).2 = inr [top_v2]
  /\ (BidCache_Get "top" 1 (st_cache rolled_back)).1 = [top_v1]
  /\ ss_Age (BidCache_Get "top" 1 (st_cache rolled_back)).2 = 0.
Proof. split_and!; try (apply after_exec, is_Someb_ok; by_compute); by_compute. Qed.
