(* ===== verification/LoopsProps.v ===== *)
(** * Properties of the background loops

    Messages arrive in order and none is lost before the context is done; the loops
    never stop while they have something to do, and keep their pace. *)

From S2P Require Import Prelude GoInt GoTime GoString Types Ranking Redis Store BidStore Samples.
From S2P Require Import Cache CacheRun Loops CacheProps.
Open Scope string_scope.
Open Scope list_scope.
Open Scope Z_scope.

(** ** An execution of the cache *)

Section facts.
Context {W : Type} `{HL : BidStoreLaws W}.

(** What a step of the loops is to the cache. *)
Definition cache_event (ev : loop_event) (l : loops W) : option event :=
  match ev, lp_subscriber l with
  | LRun ev, _ => Some ev
  | LSubscribed false, _ => Some EUnsubscribed
  | LReceive tid, SRange s => EInvalidate tid <$> head (sb_out s)
  | LTick tid, _ => Some (ETick tid)
  | _, _ => None
  end.

Lemma ranging_spec f (l l2 : loops W) : ranging f l = Some l2 ->
  exists s s2, lp_subscriber l = SRange s /\ f s = Some s2 /\ l2 = {| l with lp_subscriber := SRange s2 |}.
Proof. unfold ranging. destruct (lp_subscriber l); try done. intros (s2 & Hs & [= <-])%bind_Some. eauto. Qed.

Lemma running_spec ev (l l2 : loops W) : running ev l = Some l2 ->
  exists st, exec ev (lp_run l) = Some st /\ l2 = {| l with lp_run := st |}.
Proof. unfold running. intros (st & Hs & [= <-])%bind_Some. eauto. Qed.

Lemma receive_spec tid (l l2 : loops W) : receive tid l = Some l2 ->
  (exists s m rest st, lp_subscriber l = SRange s /\ sb_out s = m :: rest /\ exec (EInvalidate tid m) (lp_run l) = Some st
     /\ l2 = {| l with lp_subscriber := SRange {| s with sb_out := rest |}; lp_run := st |})
  \/ (exists s, lp_subscriber l = SRange s /\ sb_out s = [] /\ sb_forwarder s = FEnded /\ l2 = {| l with lp_subscriber := SCheck |}).
Proof.
  unfold receive. destruct (lp_subscriber l) as [| | |s|]; try done. destruct (sb_out s) as [|m rest] eqn:Eo.
  - destruct (sb_forwarder s) eqn:Ef; try done. intros [= <-]. right. by exists s.
  - intros (st & Hx & ->)%running_spec. left. by exists s, m, rest, st.
Qed.

(** Opens a step of the loops. *)
Ltac loop_step Hx :=
  cbn [loop_exec] in Hx;
  repeat match type of Hx with
         | (if ?b then _ else None) = Some _ => destruct b eqn:?; [|discriminate Hx]
         | (if ?b then None else _) = Some _ => destruct b eqn:?; [discriminate Hx|]
         end;
  lazymatch type of Hx with
  | ranging _ _ = Some _ => apply ranging_spec in Hx as (s & s2 & Hs & Hx & ->)
  | running _ _ = Some _ => apply running_spec in Hx as (st & Hx & ->)
  | receive _ _ = Some _ => apply receive_spec in Hx as [(s & m & rest & st & Hs & Ho & Hx & ->)|(s & Hs & Ho & He & ->)]
  | Some _ = Some _ => injection Hx as <-
  | _ => unfold check, subscribed, backoff_over, backoff_done, fire, tick, stop, reconciled in Hx; cbv zeta in Hx;
         repeat (lazymatch type of Hx with (match ?x with _ => _ end) = Some _ => destruct x eqn:?; try discriminate Hx end);
         lazymatch type of Hx with
         | running _ _ = Some _ => apply running_spec in Hx as (st & Hx & ->)
         | _ => injection Hx as <-
         end
  end.

Lemma loop_exec_cache ev (l l2 : loops W) : loop_exec ev l = Some l2 ->
  match cache_event ev l with
  | Some e => exec e (lp_run l) = Some (lp_run l2)
  | None => lp_run l2 = lp_run l
  end.
Proof.
  intros Hx. destruct ev; loop_step Hx; unfold cache_event; try done; try (by case_match); by rewrite Hs, Ho.
Qed.

Fixpoint cache_events (evs : list loop_event) (l : loops W) : list event :=
  match evs with
  | [] => []
  | ev :: evs => from_option (fun e => [e]) [] (cache_event ev l) ++ match loop_exec ev l with Some l => cache_events evs l | None => [] end
  end.

Lemma loop_exec_all_cache evs (l l2 : loops W) :
  loop_exec_all evs l = Some l2 -> exec_all (cache_events evs l) (lp_run l) = Some (lp_run l2).
Proof.
  revert l. induction evs as [|ev evs IH]; intros l Hx; cbn [loop_exec_all cache_events] in *; [by injection Hx as <-|].
  apply bind_Some in Hx as (l1 & H1 & Hx). rewrite H1. apply IH in Hx. pose proof (loop_exec_cache _ _ _ H1) as Hc.
  destruct (cache_event ev l) as [e|]; cbn [from_option app exec_all]; [by rewrite Hc|by rewrite <- Hc].
Qed.

(** ** The subscription is a queue *)

(** What is still to be received of the messages a subscription was given. *)
Definition pending_of (s : subscription) : list string :=
  sb_out s ++ match sb_forwarder s with FRange => sb_inbox s | FSend m => m :: sb_inbox s | FEnded => [] end.

Definition pending (l : loops W) : list string :=
  match lp_subscriber l with SRange s => pending_of s | _ => [] end.

Definition delivered (ev : loop_event) : list string := match ev with LDeliver m => [m] | _ => [] end.

(** The placement that a step hands to [RefreshAsync]. *)
Definition received (ev : loop_event) (l : loops W) : list string :=
  match ev, lp_subscriber l with
  | LReceive _, SRange s => take 1 (sb_out s)
  | _, _ => []
  end.

Fixpoint all_received (evs : list loop_event) (l : loops W) : list string :=
  match evs with
  | [] => []
  | ev :: evs => received ev l ++ match loop_exec ev l with Some l => all_received evs l | None => [] end
  end.

Definition subscription_ok (cancelled : bool) (s : subscription) : Prop :=
  (length (sb_out s) <= outCapacity)%nat
  /\ (sb_forwarder s = FEnded -> cancelled = true \/ (sb_hungup s = true /\ sb_inbox s = [])).

(** The subscription, the back-off and the ticker are in order. *)
Definition subscriber_ok (cancelled : bool) (now : Time) (sub : subscriber) : Prop :=
  match sub with
  | SRange s => subscription_ok cancelled s
  | SBackoff until => until <= now + Second
  | _ => True
  end.

Record loops_ok (l : loops W) : Prop := {
  lo_subscriber : subscriber_ok (lp_cancelled l) (now_of l) (lp_subscriber l);
  lo_period : 0 < refresh_every l;
  lo_next : lp_next l <= now_of l + refresh_every l
}.

Lemma running_time ev (l : loops W) st : exec ev (lp_run l) = Some st ->
  now_of l <= st_now st /\ cp_RefreshEvery (bc_policy (st_cache st)) = refresh_every l.
Proof. intros Hx. split; [by eapply exec_time|]. unfold refresh_every. by erewrite exec_policy. Qed.

Lemma subscriber_ok_mono c now c2 now2 sub :
  subscriber_ok c now sub -> now <= now2 -> (c = true -> c2 = true) -> subscriber_ok c2 now2 sub.
Proof. intros Hs Hn Hc. destruct sub as [| |until|s|]; simpl in *; [done|done|lia| |done]. destruct Hs as [? He]. split; naive_solver. Qed.

(** What each step of a subscription keeps, and does to what is pending. *)
Lemma forward_ok c s s2 : subscription_ok c s -> forward s = Some s2 ->
  subscription_ok c s2 /\ pending_of s2 = pending_of s /\ sb_forwarder s <> FEnded.
Proof.
  intros [Hl He]. unfold forward, pending_of. destruct (sb_forwarder s) eqn:Ef; [|destruct (Nat.ltb_spec (length (sb_out s)) outCapacity)|done].
  - destruct (sb_inbox s) as [|m rest] eqn:Ei; [destruct (sb_hungup s) eqn:Eh; [|done]|]; intros [= <-]; cbn; rewrite ?Ef, ?Ei;
      (split; [|done]); (split; [done|]); cbn; [by right|done].
  - intros [= <-]. cbn. rewrite <- app_assoc. split; [|done]. split; cbn; [rewrite length_app; simpl; lia|done].
  - done.
Qed.

Lemma give_up_ok s s2 : subscription_ok true s -> abandon s = Some s2 ->
  subscription_ok true s2 /\ sb_forwarder s2 = FEnded /\ pending_of s2 `prefix_of` pending_of s.
Proof.
  intros [Hl _]. unfold abandon, pending_of. destruct (sb_forwarder s) eqn:Ef; try done. intros [= <-]. cbn. split_and!; [|done|].
  - split; [done|by left].
  - rewrite app_nil_r. by apply prefix_app_r.
Qed.

Lemma deliver_ok c m s s2 : subscription_ok c s -> deliver m s = Some s2 ->
  subscription_ok c s2 /\ sb_forwarder s2 = sb_forwarder s
  /\ ((sb_forwarder s <> FEnded /\ pending_of s2 = pending_of s ++ [m]) \/ (c = true /\ sb_forwarder s = FEnded /\ pending_of s2 = pending_of s)).
Proof.
  intros [Hl He]. unfold deliver, pending_of. destruct (sb_hungup s) eqn:Eh; [done|]. intros [= <-]. cbn.
  destruct (sb_forwarder s) eqn:Ef; (split; [|split; [done|]]); try (by split).
  - left. by rewrite app_assoc.
  - left. by rewrite app_comm_cons, app_assoc.
  - destruct (He eq_refl) as [->|[? _]]; [|done]. split; [done|by left].
  - right. destruct (He eq_refl) as [->|[? _]]; done.
Qed.

Lemma hang_up_ok c s s2 : subscription_ok c s -> hang_up s = Some s2 ->
  subscription_ok c s2 /\ sb_forwarder s2 = sb_forwarder s /\ pending_of s2 = pending_of s.
Proof. intros [Hl He] [= <-]. split_and!; [|done|done]. split; [done|]. cbn. naive_solver. Qed.

Lemma receive_ok c s m rest : subscription_ok c s -> sb_out s = m :: rest ->
  subscription_ok c {| s with sb_out := rest |} /\ pending_of s = m :: pending_of {| s with sb_out := rest |}.
Proof. intros [Hl He] Ho. unfold pending_of. rewrite Ho in *. split; [|done]. split; [simpl in *; lia|done]. Qed.

Lemma loop_exec_ok ev (l l2 : loops W) : loops_ok l -> loop_exec ev l = Some l2 -> loops_ok l2.
Proof.
  intros [Hsub Hp Hn] Hx.
  destruct ev; loop_step Hx; try (apply running_time in Hx as [Ht Hpol]); try rewrite Hs in Hsub; simpl in Hsub;
    (split; unfold now_of, refresh_every in *; cbn [lp_run lp_subscriber lp_cancelled lp_next lp_refresher] in *; try lia).
  all: try (by eapply subscriber_ok_mono; [exact Hsub|simpl; lia|done]).
  all: try done.
  - by split; [simpl; lia|].
  - unfold time_Add. simpl. lia.
  - by eapply deliver_ok.
  - by eapply hang_up_ok.
  - by eapply forward_ok.
  - rewrite Heqb in *. by eapply give_up_ok.
  - by destruct (lp_cancelled l).
  - by eapply receive_ok.
  - set (p := cp_RefreshEvery _) in *. set (d := st_now (lp_run l) - lp_next l).
    pose proof (Z.mul_div_le d p Hp). assert (d = st_now (lp_run l) - lp_next l) by done. rewrite Z.mul_add_distr_l. lia.
Qed.

(** What a subscription was given and what the loop took of it since. *)
Definition ended (l : loops W) : Prop :=
  match lp_subscriber l with SRange s => sb_forwarder s = FEnded | _ => True end.

Definition log_ok (given taken : list string) (l : loops W) : Prop :=
  given = taken ++ pending l \/ (lp_cancelled l = true /\ ended l /\ taken ++ pending l `prefix_of` given).

Definition same_subscription (ev : loop_event) : bool := match ev with LSubscribed true => false | _ => true end.

Lemma loop_exec_log ev given taken (l l2 : loops W) :
  loops_ok l -> same_subscription ev = true -> log_ok given taken l -> loop_exec ev l = Some l2 ->
  log_ok (given ++ delivered ev) (taken ++ received ev l) l2.
Proof.
  intros [Hsub _ _] Hev Hlog Hx. unfold log_ok, ended, pending in *.
  destruct ev; loop_step Hx; cbn [delivered received lp_subscriber lp_cancelled] in *; try done; rewrite ?app_nil_r; try exact Hlog;
    try rewrite Hs in *; try rewrite Heqs in *; simpl in Hsub; try (by rewrite app_nil_r in Hlog).
  - destruct Hlog as [->|(? & ? & ?)]; [by left|by right].
  - destruct (deliver_ok _ _ _ _ Hsub Hx) as (_ & Hf & [[Hne Hp]|(Hc & He & Hp)]); rewrite Hf, Hp.
    + destruct Hlog as [->|(_ & ? & _)]; [|done]. left. by rewrite app_assoc.
    + right. split_and!; [done..|]. apply prefix_app_r. by destruct Hlog as [->|(_ & _ & ?)].
  - destruct (hang_up_ok _ _ _ Hsub Hx) as (_ & -> & ->). done.
  - destruct (forward_ok _ _ _ Hsub Hx) as (_ & -> & Hne). destruct Hlog as [->|(_ & ? & _)]; [by left|done].
  - rewrite Heqb in *. destruct (give_up_ok _ _ Hsub Hx) as (_ & -> & Hp). right. split_and!; [done..|].
    assert (Hpre : taken ++ pending_of s2 `prefix_of` taken ++ pending_of s) by (by apply prefix_app).
    destruct Hlog as [->|(_ & _ & ?)]; [done|by etrans].
  - destruct Hlog as [->|(? & _ & ?)]; [left|right]; by destruct (lp_cancelled l).
  - destruct (receive_ok _ _ _ _ Hsub Ho) as [_ Hp]. rewrite Ho, Hp in *. cbn [take]. rewrite <- app_assoc. exact Hlog.
  - rewrite Ho. cbn [take]. rewrite app_nil_r. unfold pending_of in Hlog. rewrite Ho, He, !app_nil_r in Hlog.
    destruct Hlog as [->|(? & _ & ?)]; [by left|by right].
Qed.

Lemma loop_exec_cancelled ev (l l2 : loops W) : loop_exec ev l = Some l2 -> lp_cancelled l2 = false -> lp_cancelled l = false.
Proof. intros Hx. destruct ev; loop_step Hx; cbn [lp_cancelled]; congruence. Qed.

Lemma loop_exec_all_ok evs (l l2 : loops W) : loops_ok l -> loop_exec_all evs l = Some l2 -> loops_ok l2.
Proof.
  revert l. induction evs as [|ev evs IH]; intros l Hl Hx; cbn [loop_exec_all] in Hx; [by injection Hx as <-|].
  apply bind_Some in Hx as (l1 & H1 & Hx). by eapply IH, Hx; eapply loop_exec_ok.
Qed.

Lemma loop_exec_all_log evs given taken (l l2 : loops W) :
  loops_ok l -> forallb same_subscription evs = true -> log_ok given taken l -> loop_exec_all evs l = Some l2 ->
  log_ok (given ++ (evs ≫= delivered)) (taken ++ all_received evs l) l2.
Proof.
  revert given taken l. induction evs as [|ev evs IH]; intros given taken l Hl Hev Hlog Hx; cbn [loop_exec_all all_received] in *.
  - injection Hx as <-. by rewrite !app_nil_r.
  - apply bind_Some in Hx as (l1 & H1 & Hx). apply andb_true_iff in Hev as [Hev Hevs]. rewrite H1.
    rewrite bind_cons, !app_assoc. apply (IH _ _ l1); [by eapply loop_exec_ok|done|by apply (loop_exec_log ev _ _ l)|done].
Qed.

Lemma loop_exec_all_app evs1 evs2 (l : loops W) : loop_exec_all (evs1 ++ evs2) l = l1 ← loop_exec_all evs1 l; loop_exec_all evs2 l1.
Proof. revert l. induction evs1 as [|ev evs1 IH]; intros l; [done|]. cbn [app loop_exec_all]. destruct (loop_exec ev l); [apply IH|done]. Qed.

Lemma Start_ok (st : state W) : CachePolicy_Validate (bc_policy (st_cache st)) = true -> loops_ok (Start st).
Proof.
  intros Hp. apply CachePolicy_Validate_spec in Hp as [Hp _]. split; unfold refresh_every, now_of; simpl; [done|done|lia].
Qed.

(** ** Progress *)

Definition of_subscriber (ev : loop_event) : bool :=
  match ev with LForward | LGiveUp | LCheck | LReceive _ | LBackoffOver | LBackoffDone => true | _ => false end.
Definition of_refresher (ev : loop_event) : bool := match ev with LTick _ | LStop | LReconciled => true | _ => false end.

(** The subscriber and its forwarder can only wait: for the store's answer, the timer
    of the back-off, or a message; or they have returned. *)
Definition subscriber_waits (l : loops W) : Prop :=
  match lp_subscriber l with
  | SCheck => False
  | SCall | SEnded => True
  | SBackoff until => now_of l < until /\ lp_cancelled l = false
  | SRange s => sb_out s = [] /\ sb_forwarder s = FRange /\ sb_inbox s = [] /\ sb_hungup s = false
  end.

Definition refresher_waits (l : loops W) : Prop :=
  match lp_refresher l with
  | RSelect => lp_tick l = false /\ lp_cancelled l = false
  | RReconcile tid => is_Some (st_threads (lp_run l) !! tid)
  | REnded => True
  end.

Definition enabled (kind : loop_event -> bool) (l : loops W) : Prop :=
  exists ev l2, kind ev = true /\ loop_exec ev l = Some l2.

(** A name for a new goroutine. *)
Lemma fresh_name (l : loops W) : exists tid, st_threads (lp_run l) !! tid = None /\ reserved tid l = false.
Proof.
  set (X := dom (st_threads (lp_run l)) ∪ (match lp_refresher l with RReconcile t => {[t]} | _ => ∅ end) : gset nat).
  pose proof (is_fresh X) as Hf. unfold X in Hf at 2. apply not_elem_of_union in Hf as [H1 H2]. exists (fresh X).
  split; [by apply not_elem_of_dom|]. unfold reserved. destruct (lp_refresher l) as [|t|]; try done.
  apply Nat.eqb_neq. set_solver.
Qed.

Lemma exec_invalidate tid p (st : state W) : st_threads st !! tid = None -> is_Some (exec (EInvalidate tid p) st).
Proof. intros Ht. simpl. rewrite Ht. destruct (RefreshAsync p (st_cache st)). by eexists. Qed.

Lemma subscriber_enabled (l : loops W) : loops_ok l -> enabled of_subscriber l <-> ~ subscriber_waits l.
Proof.
  intros [Hsub _ _]. split.
  - intros (ev & l2 & Hk & Hx) Hw. unfold subscriber_waits in Hw. destruct ev; try done; loop_step Hx; rewrite ?Hs, ?Heqs in Hw; try done.
    + destruct Hw as (_ & Hf & Hi & Hh). unfold forward in Hx. by rewrite Hf, Hi, Hh in Hx.
    + destruct Hw as (_ & Hf & _). unfold abandon in Hx. by rewrite Hf in Hx.
    + destruct Hw as (Hout & _). congruence.
    + destruct Hw as (_ & Hf & _). congruence.
    + apply Z.leb_le in Heqb. lia.
    + destruct Hw. congruence.
  - intros Hw. unfold subscriber_waits in Hw. destruct (fresh_name l) as (tid & Hfree & Hres). destruct (lp_subscriber l) as [| |until|s|] eqn:Es; try done.
    + exists LCheck. unfold loop_exec, check. rewrite Es. by eexists.
    + destruct (lp_cancelled l) eqn:Ec; [exists LBackoffDone|exists LBackoffOver]; unfold loop_exec, backoff_done, backoff_over; rewrite Es;
        rewrite ?Ec; [by eexists|]. rewrite (proj2 (Z.leb_le _ _)); [by eexists|]. destruct (Z.le_gt_cases until (now_of l)); [done|naive_solver].
    + destruct (sb_out s) as [|m rest] eqn:Eo.
      * destruct (sb_forwarder s) as [|m|] eqn:Ef.
        -- exists LForward. unfold loop_exec, ranging, forward. rewrite Es, Ef.
           destruct (sb_inbox s) as [|m rest] eqn:Ei; [|by eexists]. destruct (sb_hungup s) eqn:Eh; [by eexists|naive_solver].
        -- exists LForward. unfold loop_exec, ranging, forward. rewrite Es, Ef, Eo. by eexists.
        -- exists (LReceive tid). unfold loop_exec, receive. rewrite Hres, Es, Eo, Ef. by eexists.
      * exists (LReceive tid). unfold loop_exec, receive, running. rewrite Hres, Es, Eo.
        destruct (exec_invalidate tid m _ Hfree) as [st Hst]. cbn [lp_run]. rewrite Hst. by eexists.
Qed.

Lemma refresher_enabled (l : loops W) : enabled of_refresher l <-> ~ refresher_waits l.
Proof.
  split.
  - intros (ev & l2 & Hk & Hx) Hw. unfold refresher_waits in Hw. destruct ev; try done; loop_step Hx; rewrite ?Heqr in Hw;
      destruct Hw; congruence.
  - intros Hw. unfold refresher_waits in Hw. destruct (fresh_name l) as (tid & Hfree & _). destruct (lp_refresher l) as [|t|] eqn:Er; [| |done].
    + destruct (lp_tick l) eqn:Et.
      * exists (LTick tid). unfold loop_exec, tick, running. rewrite Er, Et. cbn [lp_run exec]. rewrite Hfree. by eexists.
      * exists LStop. unfold loop_exec, stop. rewrite Er. destruct (lp_cancelled l) eqn:Ec; [by eexists|naive_solver].
    + exists LReconciled. unfold loop_exec, reconciled. rewrite Er. destruct (_ !! t) eqn:Et; [|by eexists]. destruct Hw. by eexists.
Qed.

Definition llen {A} (l : list A) : Z := Z.of_nat (length l).

(** How many more steps the subscriber can take by itself. *)
Definition cost_of (s : subscription) : Z :=
  llen (sb_out s) + 2 + match sb_forwarder s with FRange => 1 + 3 * llen (sb_inbox s) | FSend _ => 3 + 3 * llen (sb_inbox s) | FEnded => 0 end.

Definition cost (l : loops W) : Z :=
  match lp_subscriber l with SCheck => 1 | SBackoff _ => 2 | SRange s => cost_of s | SCall | SEnded => 0 end.

(** What the surroundings may add. *)
Definition input (ev : loop_event) : Z := match ev with LDeliver _ | LSubscribed _ => 3 | _ => 0 end.

Lemma loop_exec_cost ev (l l2 : loops W) : loop_exec ev l = Some l2 ->
  (if of_subscriber ev then 1 else 0) + cost l2 <= cost l + input ev.
Proof.
  intros Hx. unfold cost.
  destruct ev; loop_step Hx; cbn [of_subscriber input lp_subscriber]; rewrite ?Hs, ?Heqs; try lia; unfold cost_of, llen in *.
  - cbn. lia.
  - unfold deliver in Hx. destruct (sb_hungup s); [done|]. injection Hx as <-. cbn. rewrite length_app. simpl. destruct (sb_forwarder s); lia.
  - injection Hx as <-. cbn. lia.
  - unfold forward in Hx. destruct (sb_forwarder s); [destruct (sb_inbox s) as [|m rest]; [destruct (sb_hungup s)|]|destruct (_ <? _)%nat|];
      try done; injection Hx as <-; cbn -[Z.mul Z.add]; rewrite ?length_app; simpl length; lia.
  - unfold abandon in Hx. destruct (sb_forwarder s); try done; injection Hx as <-; cbn -[Z.mul Z.add]. lia.
  - destruct (lp_cancelled l); lia.
  - rewrite Ho. cbn -[Z.mul Z.add]. destruct (sb_forwarder s); lia.
  - rewrite Ho, He. cbn. lia.
Qed.

Definition subscriber_steps (evs : list loop_event) : Z := Z.of_nat (length (List.filter of_subscriber evs)).
Definition inputs (evs : list loop_event) : Z := foldr (fun ev n => input ev + n) 0 evs.

Lemma loop_exec_all_cost evs (l l2 : loops W) : loop_exec_all evs l = Some l2 ->
  subscriber_steps evs + cost l2 <= cost l + inputs evs.
Proof.
  revert l. induction evs as [|ev evs IH]; intros l Hx; cbn [loop_exec_all] in Hx; [injection Hx as <-; unfold subscriber_steps, inputs; simpl; lia|].
  apply bind_Some in Hx as (l1 & H1 & Hx). apply IH in Hx. apply loop_exec_cost in H1. unfold subscriber_steps, inputs in *.
  cbn [foldr List.filter]. destruct (of_subscriber ev); cbn [length]; lia.
Qed.

(** ** Pace *)

Definition failed_subscription (ev : loop_event) : bool := match ev with LSubscribed false => true | _ => false end.
Definition ticked (ev : loop_event) : bool := match ev with LTick _ => true | _ => false end.
Definition count (f : loop_event -> bool) (evs : list loop_event) : Z := llen (List.filter f evs).

(** [failures] and [ticks] since time [t0], with the period [p]. *)
Record paced (t0 : Time) (p : Duration) (failures ticks : Z) (l : loops W) : Prop := {
  pa_failures : match lp_subscriber l with
                | SBackoff until => failures * Second <= until - t0
                | SEnded => failures * Second <= now_of l - t0 + Second
                | _ => failures * Second <= now_of l - t0
                end;
  pa_ticks : ticks * p + (if lp_tick l then p else 0) + t0 + p <= lp_next l;
  pa_period : refresh_every l = p
}.

Lemma loop_exec_paced ev t0 p f k (l l2 : loops W) : loops_ok l -> paced t0 p f k l -> loop_exec ev l = Some l2 ->
  paced t0 p (f + if failed_subscription ev then 1 else 0) (k + if ticked ev then 1 else 0) l2.
Proof.
  intros [Hsub Hp _] [Hf Hk Hpp] Hx. assert (Hsec : Second = 1000000000) by done. subst p.
  destruct ev; loop_step Hx; try (apply running_time in Hx as [Ht Hpol]); unfold now_of, refresh_every, time_Add in *;
    try rewrite Hs in *; try rewrite Heqs in *; cbn [lp_run] in *;
    (split; unfold now_of, refresh_every; cbn [lp_run lp_subscriber lp_next lp_tick lp_cancelled failed_subscription ticked] in *;
     rewrite ?Z.add_0_r in *; try assumption; try lia).
  - destruct (lp_subscriber l); lia.
  - destruct (lp_cancelled l); lia.
  - unfold subscriber_ok in Hsub. lia.
  - set (p := cp_RefreshEvery _) in *. set (d := (st_now (lp_run l) - lp_next l) / p). apply Z.leb_le in Heqb.
    assert (0 <= d) by (by apply Z.div_pos; lia). rewrite Z.mul_add_distr_l. pose proof (Z.mul_nonneg_nonneg p d). destruct (lp_tick l); lia.
  - destruct (lp_subscriber l); lia.
Qed.

Lemma loop_exec_all_paced evs t0 p f k (l l2 : loops W) : loops_ok l -> paced t0 p f k l -> loop_exec_all evs l = Some l2 ->
  paced t0 p (f + count failed_subscription evs) (k + count ticked evs) l2.
Proof.
  revert f k l. induction evs as [|ev evs IH]; intros f k l Hl Hp Hx; cbn [loop_exec_all] in Hx.
  - injection Hx as <-. cbn. by rewrite !Z.add_0_r.
  - apply bind_Some in Hx as (l1 & H1 & Hx). assert (Hcons : forall g, count g (ev :: evs) = (if g ev then 1 else 0) + count g evs).
    { intros g. unfold count, llen. cbn [List.filter]. destruct (g ev); cbn [length]; lia. }
    rewrite !Hcons, !Z.add_assoc. apply (IH _ _ l1); [by eapply loop_exec_ok|by apply (loop_exec_paced ev _ _ _ _ l)|done].
Qed.

Lemma Start_reaches evs (st : state W) l : CachePolicy_Validate (bc_policy (st_cache st)) = true ->
  loop_exec_all evs (Start st) = Some l -> loops_ok l.
Proof. intros Hp. apply loop_exec_all_ok. by apply Start_ok. Qed.

(** ** The loops *)

(** C17: invalidations. From the moment a subscription is open, whatever the loops, the
    forwarding goroutine and the rest of the process do: the placements handed to
    [RefreshAsync] are the messages delivered, in their order, none twice and none
    skipped; the ones still on their way are all there until the context is done, also
    when the library hangs up; the channel never holds more than its 128; and what
    the loops did is an execution of the cache. *)
Theorem messages_in_order (st : state W) evs1 evs2 l1 l2 :
  CachePolicy_Validate (bc_policy (st_cache st)) = true -> loop_exec_all evs1 (Start st) = Some l1 ->
  lp_subscriber l1 = SRange new_subscription -> forallb same_subscription evs2 = true -> loop_exec_all evs2 l1 = Some l2 ->
  all_received evs2 l1 `prefix_of` (evs2 ≫= delivered)
  /\ (lp_cancelled l2 = false -> (evs2 ≫= delivered) = all_received evs2 l1 ++ pending l2)
  /\ (forall s, lp_subscriber l2 = SRange s -> (length (sb_out s) <= 128)%nat)
  /\ exec_all (cache_events evs2 l1) (lp_run l1) = Some (lp_run l2).
Proof.
  intros Hp H1 Hs Hev H2. pose proof (Start_reaches _ _ _ Hp H1) as Hl1. pose proof (loop_exec_all_ok _ _ _ Hl1 H2) as Hl2.
  assert (Hlog : log_ok [] [] l1) by (left; unfold pending; by rewrite Hs).
  apply (loop_exec_all_log evs2 _ _ l1 l2 Hl1 Hev) in Hlog; [|done]. cbn [app] in Hlog. split_and!.
  - destruct Hlog as [->|(_ & _ & [k Hk])]; [by exists (pending l2)|]. rewrite <- app_assoc in Hk. by eexists.
  - intros Hc. destruct Hlog as [->|(Hc2 & _)]; [done|congruence].
  - intros s Hs2. pose proof (lo_subscriber _ Hl2) as Hsub. rewrite Hs2 in Hsub. apply Hsub.
  - by apply loop_exec_all_cache.
Qed.

(** C31: the loops do not get stuck. In every reachable state the subscriber and its
    forwarder have a step unless they wait for the store's answer, the back-off's
    timer, or a message that has not come (also after the context is done, which only
    the back-off and the forwarder's send notice); the refresher has one unless it
    waits for a tick or its reconciliation; and between two inputs the subscriber's
    steps are bounded by the messages on their way, so it comes to rest. *)
Theorem loops_progress (st : state W) evs1 evs2 l1 l2 :
  CachePolicy_Validate (bc_policy (st_cache st)) = true -> loop_exec_all evs1 (Start st) = Some l1 ->
  loop_exec_all evs2 l1 = Some l2 ->
  (enabled of_subscriber l1 <-> ~ subscriber_waits l1)
  /\ (enabled of_refresher l1 <-> ~ refresher_waits l1)
  /\ subscriber_steps evs2 + cost l2 <= cost l1 + inputs evs2.
Proof.
  intros Hp H1 H2. pose proof (Start_reaches _ _ _ Hp H1) as Hl1.
  split_and!; [by apply subscriber_enabled|apply refresher_enabled|by apply loop_exec_all_cost].
Qed.

(** C33: the pace of the loops. Since their start, subscriptions have failed at most
    once per second of the time passed, and once more; and reconciliations were
    started at most once per refresh interval passed, however late the ticks were
    taken and however long the store took. *)
Theorem loops_paced (st : state W) evs l :
  CachePolicy_Validate (bc_policy (st_cache st)) = true -> loop_exec_all evs (Start st) = Some l ->
  let elapsed := now_of l - st_now st in
  count failed_subscription evs * Second <= elapsed + Second
  /\ count ticked evs * cp_RefreshEvery (bc_policy (st_cache st)) <= elapsed.
Proof.
  intros Hp Hx elapsed. pose proof (Start_reaches _ _ _ Hp Hx) as [Hsub _ Hn].
  assert (H0 : paced (st_now st) (cp_RefreshEvery (bc_policy (st_cache st))) 0 0 (Start st)) by (split; unfold now_of, refresh_every; cbn; lia).
  destruct (loop_exec_all_paced _ _ _ _ _ _ _ (Start_ok st Hp) H0 Hx) as [Hf Hk Hpp]. rewrite !Z.add_0_l in *. split.
  - unfold elapsed. assert (Second = 1000000000) by done. destruct (lp_subscriber l); simpl in Hsub; lia.
  - unfold elapsed. pose proof (proj1 (CachePolicy_Validate_spec _) Hp) as [? _]. rewrite Hpp in Hn. destruct (lp_tick l); lia.
Qed.
End facts.

(** ** Evaluations *)

(** A subscription that fails once; then two messages and a tick; then the shutdown,
    with a third message on its way. *)
Definition open_events : list loop_event :=
  [LCheck; LSubscribed false; LRun (ETime Second); LBackoffOver; LCheck; LSubscribed true].
Definition message_events : list loop_event :=
  [LDeliver "top"; LForward; LDeliver "side"; LForward; LReceive 0; LForward; LForward; LRun (ERun 0); LReceive 1;
   LRun (ETime (30 * Second)); LFire; LTick 2; LRun (ERun 2); LDeliver "late"; LForward; LCancel].

Definition looped (evs : list loop_event) (l : loops World) : loops World := default l (loop_exec_all evs l).
Definition opened_loops : loops World := looped open_events (Start empty_run).
Definition rested_loops : loops World := looped message_events opened_loops.

Lemma looped_some evs (l : loops World) : is_Someb (loop_exec_all evs l) = true -> loop_exec_all evs l = Some (looped evs l).
Proof. unfold looped. by destruct (loop_exec_all evs l). Qed.

Lemma opened_exec : loop_exec_all open_events (Start empty_run) = Some opened_loops.
Proof. apply looped_some. by_compute. Qed.
Lemma opened_then evs (l : loops World) : loop_exec_all evs opened_loops = Some l -> loop_exec_all (open_events ++ evs) (Start empty_run) = Some l.
Proof. intros Hx. by rewrite loop_exec_all_app, opened_exec. Qed.
Lemma rested_exec : loop_exec_all message_events opened_loops = Some rested_loops.
Proof. apply looped_some. by_compute. Qed.

Lemma messages_in_order_witness :
  all_received message_events opened_loops = ["top"; "side"] /\ pending rested_loops = ["late"]
  /\ ["top"; "side"] `prefix_of` (message_events ≫= delivered).
Proof.
  assert (Hr : all_received message_events opened_loops = ["top"; "side"]) by by_compute.
  split; [exact Hr|]. split; [by_compute|].
  destruct (messages_in_order empty_run open_events message_events opened_loops rested_loops
    ltac:(by_compute) opened_exec ltac:(by_compute) ltac:(by_compute) rested_exec) as (Hp & _). rewrite Hr in Hp. exact Hp.
Defined.

(** Cancelled, without a message, the subscriber stays where it is. *)
Definition idle_loops : loops World := looped [LCancel] opened_loops.

Lemma loops_progress_witness :
  lp_cancelled idle_loops = true /\ subscriber_waits idle_loops /\ ~ enabled of_subscriber idle_loops
  /\ enabled of_refresher idle_loops.
Proof.
  assert (Hx : loop_exec_all (open_events ++ [LCancel]) (Start empty_run) = Some idle_loops).
  { apply opened_then, looped_some. by_compute. }
  destruct (loops_progress empty_run _ [] idle_loops idle_loops ltac:(by_compute) Hx eq_refl) as (Hs & Hr & _).
  assert (Hw : subscriber_waits idle_loops) by (vm_compute; repeat split).
  split; [by_compute|]. split; [exact Hw|]. split; [intros He; exact (proj1 Hs He Hw)|].
  apply Hr. vm_compute. intros [_ ?]. discriminate.
Defined.

Lemma loops_paced_witness :
  count failed_subscription (open_events ++ message_events) = 1 /\ count ticked (open_events ++ message_events) = 1
  /\ 1 * (30 * Second) <= now_of rested_loops - 0.
Proof.
  split; [by_compute|]. split; [by_compute|].
  assert (Hx : loop_exec_all (open_events ++ message_events) (Start empty_run) = Some rested_loops).
  { apply (opened_then message_events), rested_exec. }
  exact (proj2 (loops_paced empty_run _ rested_loops ltac:(by_compute) Hx)).
Defined.
