(* ===== verification/LoopsFresh.v ===== *)
(** * What the loops of the cache achieve (internal/ads/cache.go)

    Over a Redis that answers, a message that waits in a subscription and a due tick
    of the reconciliation have their effect: in a bounded number of steps of the loops
    and of the refreshes they start, every placement announced, or every placement of
    the index, is served as the registry holds it. *)

From S2P Require Import Prelude GoInt GoTime GoString Types Ranking Redis Store BidStore StoreProps.
From S2P Require Import Cache CacheRun CacheProps CacheFresh Loops LoopsProps.
Open Scope string_scope.
Open Scope list_scope.
Open Scope Z_scope.

(** What is counted of the reconciliations. *)
Definition attempts (c : BidCache) : Z * Z := (cc_reconciliations (bc_stats c), cc_reconcileFailures (bc_stats c)).

(** Nothing but the snapshots of [ps] and the refreshes has changed. *)
Record only (ps : list string) {W} (st st2 : state W) : Prop := {
  on_world : st_world st2 = st_world st;
  on_now : st_now st2 = st_now st;
  on_policy : bc_policy (st_cache st2) = bc_policy (st_cache st);
  on_attempts : attempts (st_cache st2) = attempts (st_cache st);
  on_entries q : q ∉ ps -> bc_entries (st_cache st2) !! q = bc_entries (st_cache st) !! q
}.

Lemma only_refl ps {W} (st : state W) : only ps st st.
Proof. by split. Qed.

Lemma only_trans ps ps2 {W} (st st1 st2 : state W) : only ps st st1 -> only ps2 st1 st2 -> only (ps ++ ps2) st st2.
Proof.
  intros [H1 H2 H3 H4 H5] [K1 K2 K3 K4 K5]. split; try congruence. intros q [Hp Hp2]%not_elem_of_app. by rewrite K5, H5.
Qed.

Lemma only_weaken ps ps2 {W} (st st2 : state W) : ps ⊆ ps2 -> only ps st st2 -> only ps2 st st2.
Proof. intros Hs [H1 H2 H3 H4 H5]. split; try done. intros q Hq. apply H5. set_solver. Qed.

Lemma set_thread_twice {A} tid (t t2 : option A) ts : set_thread tid t2 (set_thread tid t ts) = set_thread tid t2 ts.
Proof. apply partial_alter_partial_alter_eq. Qed.

Lemma exec_all_app {W} `{BidStore W} evs evs2 (st : state W) :
  exec_all (evs ++ evs2) st = match exec_all evs st with Some st2 => exec_all evs2 st2 | None => None end.
Proof. revert st. induction evs as [|ev evs IH]; intros st; [done|]. cbn [app exec_all]. by destruct (exec ev st). Qed.

Definition is_run (ev : event) : Prop := exists tid, ev = ERun tid.

Section fresh.
Context `{Redis} (s : RedisStore) (range : gmap string string -> list (string * string)).
Context (Hrange : any_order range).

Let HB : BidStore World := redis_bid_store s range.
#[local] Existing Instance HB.
Let HL : BidStoreLaws World := redis_bid_store_laws s range Hrange.
#[local] Existing Instance HL.

(** The snapshot of [p] is what [d] holds, read at [now]. *)
Definition serves (d : db) (now : Time) (c : BidCache) (p : string) : Prop :=
  exists bids, fetched s d p bids /\ bc_entries c !! p = Some (Some (mkBidList bids (UnixNano now))).

(** Readers find such a snapshot, fresh. *)
Lemma serves_Get d now c p : CachePolicy_Validate (bc_policy c) = true -> is_int64 now -> serves d now c p ->
  exists bids, fetched s d p bids /\ BidCache_Get p now c = (bids, mkSnapshotState true false false 0).
Proof.
  intros Hp Hn (bids & Hf & He). exists bids. split; [done|]. unfold BidCache_Get. rewrite He. simpl.
  apply CachePolicy_Validate_spec in Hp as (_ & Hm & _). unfold UnixNano, Unix_ns. rewrite (int64_id now) by done.
  assert (Ht : time_Sub now now = 0) by (unfold time_Sub; rewrite Z.sub_diag; unfold_int; lia). rewrite Ht.
  by rewrite (proj2 (Z.ltb_ge _ 0)) by lia.
Qed.

(** ** A refresh *)

(** A refresh that started in a Redis that answers. *)
Definition on_track (d : db) (now : Time) (p : string) (at_ : pc) (c : BidCache) : Prop :=
  match at_ with
  | Begin => True
  | Fetched (inr bids) | Slotted bids => fetched s d p bids
  | Returned None => serves d now c p
  | Fetched (inl _) | Returned (Some _) => False
  end.

Lemma refresh_step_quiet d now p at_ c at2 c2 w2 : Consistent s d -> returned at_ = None ->
  refresh_step p now at_ c (mkWorld d []) = (at2, c2, w2) ->
  w2 = mkWorld d [] /\ (pc_left at2 < pc_left at_)%nat /\ bc_inflight c2 = bc_inflight c /\ bc_policy c2 = bc_policy c
  /\ attempts c2 = attempts c /\ (forall q, q ∉ [p] -> bc_entries c2 !! q = bc_entries c !! q)
  /\ (on_track d now p at_ c -> on_track d now p at2 c2).
Proof.
  intros Hc Hn Hs. unfold refresh_step in Hs. destruct at_ as [|[e|bids]|bids|e]; [| | | |done].
  - destruct (Fetch_no_fault s d p range Hc Hrange) as (bids & Hf & Hfd). simpl in Hs. rewrite Hf in Hs.
    injection Hs as <- <- <-. split_and!; (done || simpl; lia).
  - injection Hs as <- <- <-. split_and!; (done || simpl; lia).
  - injection Hs as <- <- <-. destruct (load_or_store_rest p c) as (H1 & H2 & H3). split_and!; try done; [simpl; lia| | |].
    + unfold attempts. by rewrite H3.
    + intros q Hq%not_elem_of_cons. by rewrite load_or_store_lookup, decide_False by apply Hq.
    + intros Hf. simpl in Hf |- *. by rewrite (fetched_snapshot s d p).
  - injection Hs as <- <- <-. split_and!; try done; [simpl; lia| |].
    + intros q Hq%not_elem_of_cons. by rewrite store_list_lookup, decide_False by apply Hq.
    + intros Hf. exists bids. split; [done|]. by rewrite store_list_lookup, decide_True.
Qed.

(** One step of a thread. *)
Lemma exec_run tid t (st : state World) t2 c2 w2 : st_threads st !! tid = Some t ->
  thread_step (st_now st) t (st_cache st) (st_world st) = (t2, c2, w2) ->
  exec (ERun tid) st = Some (mkState c2 w2 (st_now st) (set_thread tid t2 (st_threads st))).
Proof. intros Ht Hs. simpl. by rewrite Ht, Hs. Qed.

(** The call of [refresh] that a thread is in returns. *)
Definition refreshes (p : string) (t : pc -> thread) : Prop :=
  forall now at_ c (w : World), returned at_ = None ->
    thread_step now (t at_) c w = let '(at2, c2, w2) := refresh_step p now at_ c w in (Some (t at2), c2, w2).

Lemma refresh_returns d tid p t at_ (st : state World) : refreshes p t -> Consistent s d -> st_world st = mkWorld d [] ->
  st_threads st !! tid = Some (t at_) ->
  exists k e st2, (k < pc_left at_)%nat /\ exec_all (replicate k (ERun tid)) st = Some st2
    /\ st_threads st2 = set_thread tid (Some (t (Returned e))) (st_threads st)
    /\ bc_inflight (st_cache st2) = bc_inflight (st_cache st) /\ only [p] st st2
    /\ (on_track d (st_now st) p at_ (st_cache st) -> on_track d (st_now st) p (Returned e) (st_cache st2)).
Proof.
  intros Ht Hc. remember (pc_left at_) as n eqn:Hn. revert at_ Hn st.
  induction n as [n IH] using lt_wf_ind. intros at_ -> st Hw Hl. destruct (returned at_) as [e|] eqn:Hr.
  - destruct at_ as [| | |e']; try done. exists 0%nat, e', st. split_and!; [simpl; lia|done| |done|apply only_refl|done].
    unfold set_thread. rewrite <- Hl. by rewrite partial_alter_self.
  - destruct (refresh_step p (st_now st) at_ (st_cache st) (st_world st)) as [[at2 c2] w2] eqn:Es.
    assert (Hx := exec_run tid (t at_) st (Some (t at2)) c2 w2 Hl ltac:(by rewrite Ht, Es)).
    rewrite Hw in Es. destruct (refresh_step_quiet _ _ _ _ _ _ _ _ Hc Hr Es) as (-> & Hlt & Hi & Hp & Ha & He & Ho).
    destruct (IH _ Hlt at2 eq_refl (mkState c2 (mkWorld d []) (st_now st) (set_thread tid (Some (t at2)) (st_threads st))) eq_refl)
      as (k & e & st2 & Hk & Hx2 & Ht2 & Hi2 & [O1 O2 O3 O4 O5] & Ho2).
    { simpl. by rewrite set_thread_lookup, decide_True. }
    exists (S k), e, st2. simpl in *. split_and!.
    + lia.
    + cbn [replicate exec_all]. by rewrite Hx.
    + rewrite Ht2. apply set_thread_twice.
    + congruence.
    + split; try congruence. intros q Hq. by rewrite O5, He.
    + intros H1. apply Ho2, Ho, H1.
Qed.

(** The goroutine of [RefreshAsync] ends and gives its mark back. *)
Lemma async_ends d tid p at_ (st : state World) : Consistent s d -> st_world st = mkWorld d [] ->
  st_threads st !! tid = Some (TAsync p at_) ->
  exists k st2, (k <= 4)%nat /\ exec_all (replicate k (ERun tid)) st = Some st2
    /\ st_threads st2 = set_thread tid None (st_threads st)
    /\ bc_inflight (st_cache st2) = bc_inflight (st_cache st) ∖ {[p]} /\ only [p] st st2
    /\ (on_track d (st_now st) p at_ (st_cache st) -> serves d (st_now st) (st_cache st2) p).
Proof.
  intros Hc Hw Hl. assert (Ht : refreshes p (TAsync p)) by (intros now a c w Hr; simpl; by rewrite Hr).
  destruct (refresh_returns d tid p (TAsync p) at_ st Ht Hc Hw Hl) as (k & e & st2 & Hk & Hx & Hts & Hi & Ho & Hon).
  assert (Hlk : st_threads st2 !! tid = Some (TAsync p (Returned e))) by (by rewrite Hts, set_thread_lookup, decide_True).
  exists (S k), (mkState (inflight_delete p (st_cache st2)) (st_world st2) (st_now st2) (set_thread tid None (st_threads st2))). split_and!.
  - destruct at_; simpl in Hk; lia.
  - replace (S k) with (k + 1)%nat by lia. rewrite replicate_add, exec_all_app, Hx. cbn [replicate exec_all].
    by rewrite (exec_run _ _ _ _ _ _ Hlk eq_refl).
  - simpl. by rewrite Hts, set_thread_twice.
  - simpl. by rewrite Hi.
  - destruct Ho. by split.
  - intros H1%Hon. destruct e as [e|]; [done|]. exact H1.
Qed.

(** ** A reconciliation *)

Lemma placement_ends d tid p rest (st : state World) : Consistent s d -> st_world st = mkWorld d [] ->
  st_threads st !! tid = Some (TReconcile p Begin rest) ->
  exists k st2, (k <= 4)%nat /\ exec_all (replicate k (ERun tid)) st = Some st2
    /\ st_threads st2 = set_thread tid (reconcile_next rest) (st_threads st)
    /\ only [p] st st2 /\ serves d (st_now st) (st_cache st2) p.
Proof.
  intros Hc Hw Hl. assert (Ht : refreshes p (fun a => TReconcile p a rest)) by (intros now a c w Hr; simpl; by rewrite Hr).
  destruct (refresh_returns d tid p _ Begin st Ht Hc Hw Hl) as (k & e & st2 & Hk & Hx & Hts & _ & Ho & Hon).
  specialize (Hon I). destruct e as [e|]; [done|].
  assert (Hlk : st_threads st2 !! tid = Some (TReconcile p (Returned None) rest)) by (by rewrite Hts, set_thread_lookup, decide_True).
  exists (S k), (mkState (st_cache st2) (st_world st2) (st_now st2) (set_thread tid (reconcile_next rest) (st_threads st2))). split_and!.
  - simpl in Hk. lia.
  - replace (S k) with (k + 1)%nat by lia. rewrite replicate_add, exec_all_app, Hx. cbn [replicate exec_all].
    by rewrite (exec_run _ _ _ _ _ _ Hlk eq_refl).
  - simpl. by rewrite Hts, set_thread_twice.
  - destruct Ho. by split.
  - exact Hon.
Qed.

Lemma placements_end d tid ps (st : state World) : Consistent s d -> st_world st = mkWorld d [] ->
  st_threads st !! tid = reconcile_next ps -> NoDup ps ->
  exists k st2, (k <= 4 * length ps)%nat /\ exec_all (replicate k (ERun tid)) st = Some st2
    /\ st_threads st2 !! tid = None /\ only ps st st2 /\ (forall p, p ∈ ps -> serves d (st_now st) (st_cache st2) p).
Proof.
  intros Hc. revert st. induction ps as [|p ps IH]; intros st Hw Hl Hnd.
  { exists 0%nat, st. split_and!; [simpl; lia|done|exact Hl|apply only_refl|by intros p ?%elem_of_nil]. }
  apply NoDup_cons in Hnd as [Hnin Hnd].
  destruct (placement_ends d tid p ps st Hc Hw Hl) as (k & st1 & Hk & Hx & Ht & Ho & Hs1).
  destruct (IH st1) as (k2 & st2 & Hk2 & Hx2 & Ht2 & Ho2 & Hs2); [by rewrite (on_world _ _ _ Ho)|by rewrite Ht, set_thread_lookup, decide_True|done|].
  rewrite (on_now _ _ _ Ho) in Hs2. exists (k + k2)%nat, st2. split_and!; [simpl; lia| |done|exact (only_trans [p] ps _ _ _ Ho Ho2)|].
  - by rewrite replicate_add, exec_all_app, Hx.
  - intros q [->|Hq]%elem_of_cons; [|by apply Hs2]. destruct Hs1 as (bids & Hf & He). exists bids. split; [done|].
    by rewrite (on_entries _ _ _ Ho2).
Qed.

(** A reconciliation that has just started. *)
Lemma listing_ends d tid (st : state World) : Consistent s d -> st_world st = mkWorld d [] ->
  st_threads st !! tid = Some TListing ->
  let ps := elements (members d (placementsKey s)) in
  exists k st2, (k <= 1 + 4 * length ps)%nat /\ exec_all (replicate k (ERun tid)) st = Some st2
    /\ st_threads st2 !! tid = None /\ only ps st st2 /\ (forall p, p ∈ ps -> serves d (st_now st) (st_cache st2) p).
Proof.
  intros Hc Hw Hl ps0. destruct (Placements_no_fault s d) as (ps & Hp & Hperm).
  assert (Hx : exec (ERun tid) st = Some (mkState (st_cache st) (mkWorld d []) (st_now st) (set_thread tid (reconcile_next ps) (st_threads st)))).
  { apply (exec_run tid TListing st); [done|]. simpl. by rewrite Hw, Hp. }
  destruct (placements_end d tid ps (mkState (st_cache st) (mkWorld d []) (st_now st) (set_thread tid (reconcile_next ps) (st_threads st)))
    Hc eq_refl) as (k & st2 & Hk & Hx2 & Ht & Ho & Hs).
  { simpl. by rewrite set_thread_lookup, decide_True. }
  { rewrite Hperm. apply NoDup_elements. }
  exists (S k), st2. split_and!.
  - rewrite Hperm in Hk. unfold ps0. lia.
  - cbn [replicate exec_all]. by rewrite Hx.
  - done.
  - destruct Ho as [O1 O2 O3 O4 O5]. split; [by rewrite O1|done..|]. intros q Hq. apply O5. by rewrite Hperm.
  - intros p Hin. apply Hs. by rewrite Hperm.
Qed.
(** ** The loops *)

(** The steps of the loops, and of the refreshes they start. *)
Definition working (ev : loop_event) : bool :=
  match ev with LRun (ERun _) | LForward | LReceive _ | LFire | LTick _ | LReconciled => true | _ => false end.

Lemma exec_runs tid k (l : loops World) st2 : exec_all (replicate k (ERun tid)) (lp_run l) = Some st2 ->
  loop_exec_all (replicate k (LRun (ERun tid))) l = Some {| l with lp_run := st2 |}.
Proof.
  revert l. induction k as [|k IH]; intros l Hx; [injection Hx as <-; by destruct l|].
  cbn [replicate exec_all loop_exec_all] in *. destruct (exec (ERun tid) (lp_run l)) as [st1|] eqn:E; [|done].
  unfold loop_exec, elsewhere, running. rewrite E. exact (IH {| l with lp_run := st1 |} Hx).
Qed.

Lemma working_runs k tid : forallb working (replicate k (LRun (ERun tid))) = true.
Proof. by induction k. Qed.

Lemma runs_ok k tid (st st2 : state World) : run_ok st -> exec_all (replicate k (ERun tid)) st = Some st2 -> run_ok st2.
Proof.
  revert st. induction k as [|k IH]; intros st Hok Hx; [by injection Hx as <-|]. cbn [replicate exec_all] in Hx.
  destruct (exec (ERun tid) st) as [st1|] eqn:E; [|done]. apply (IH st1); [|done]. by apply (exec_ok (ERun tid) st).
Qed.

(** A refresh of [p] that is in flight ends, so that the next announcement starts one. *)
Lemma mark_clears d p (st : state World) : Consistent s d -> run_ok st -> st_world st = mkWorld d [] ->
  exists k tid st2, (k <= 4)%nat /\ exec_all (replicate k (ERun tid)) st = Some st2 /\ run_ok st2
    /\ only [p] st st2 /\ p ∉ bc_inflight (st_cache st2).
Proof.
  intros Hc Hok Hw. destruct (decide (p ∈ bc_inflight (st_cache st))) as [Hin|Hnin].
  - apply (run_flight _ Hok) in Hin as (tid & Hh). unfold holds in Hh. apply bind_Some in Hh as (t & Ht & Ha).
    destruct t as [q at_| |]; [|done..]. injection Ha as ->.
    destruct (async_ends d tid p at_ st Hc Hw Ht) as (k & st2 & Hk & Hx & _ & Hi & Ho & _). exists k, tid, st2.
    split_and!; [done|done|by eapply runs_ok|done|]. rewrite Hi. set_solver.
  - exists 0%nat, 0%nat, st. split_and!; [lia|done|done|apply only_refl|done].
Qed.

(** The message at the head of the channel. *)
Lemma message_served d (l : loops World) sub m rest : Consistent s d -> run_ok (lp_run l) -> st_world (lp_run l) = mkWorld d [] ->
  lp_subscriber l = SRange sub -> sb_out sub = m :: rest ->
  exists evs st2, (length evs <= 9)%nat /\ forallb working evs = true
    /\ loop_exec_all evs l = Some {| l with lp_run := st2; lp_subscriber := SRange {| sub with sb_out := rest |} |}
    /\ run_ok st2 /\ only [m] (lp_run l) st2 /\ (m <> "" -> serves d (now_of l) (st_cache st2) m).
Proof.
  intros Hc Hok Hw Hs Ho. destruct (mark_clears d m (lp_run l) Hc Hok Hw) as (k & tid1 & st1 & Hk & Hx1 & Hok1 & Ho1 & Hn).
  destruct (fresh_name {| l with lp_run := st1 |}) as (tid & Ht & Hr). cbn [lp_run] in Ht.
  destruct (exec_invalidate tid m st1 Ht) as (st2 & Hx2). assert (Hok2 : run_ok st2) by (by apply (exec_ok (EInvalidate tid m) st1)).
  assert (Hrecv : loop_exec_all (replicate k (LRun (ERun tid1)) ++ [LReceive tid]) l
    = Some {| l with lp_run := st2; lp_subscriber := SRange {| sub with sb_out := rest |} |}).
  { rewrite loop_exec_all_app, (exec_runs _ _ _ _ Hx1). cbn [mbind option_bind loop_exec_all loop_exec]. rewrite Hr.
    unfold receive. cbn [lp_subscriber]. rewrite Hs, Ho. unfold running. cbn [lp_run]. by rewrite Hx2. }
  pose proof Hx2 as Hst2. simpl in Hst2. rewrite Ht in Hst2. unfold RefreshAsync in Hst2.
  destruct (String.eqb_spec m "") as [->|Hm]; [|rewrite decide_False in Hst2 by done]; injection Hst2 as <-.
  - eexists _, _. split_and!; [| |exact Hrecv|done| |done].
    + rewrite length_app, length_replicate. simpl. lia.
    + by rewrite forallb_app, working_runs.
    + destruct Ho1. by split.
  - match type of Hok2 with run_ok ?st => set (st2 := st) in * end.
    destruct (async_ends d tid m Begin st2 Hc) as (k3 & st3 & Hk3 & Hx3 & _ & _ & Ho3 & Hserve).
    { unfold st2. simpl. by rewrite (on_world _ _ _ Ho1). }
    { unfold st2. simpl. by rewrite set_thread_lookup, decide_True. }
    exists ((replicate k (LRun (ERun tid1)) ++ [LReceive tid]) ++ replicate k3 (LRun (ERun tid))), st3. split_and!.
    + rewrite !length_app, !length_replicate. simpl. lia.
    + by rewrite !forallb_app, !working_runs.
    + rewrite loop_exec_all_app, Hrecv. cbn [mbind option_bind]. by rewrite (exec_runs tid k3 _ st3).
    + by eapply runs_ok.
    + destruct Ho1 as [O1 O2 O3 O4 O5], Ho3 as [P1 P2 P3 P4 P5]. unfold st2, attempts in *. split; unfold attempts; simpl in *; try congruence.
      intros q Hq. by rewrite P5, O5.
    + intros _. specialize (Hserve I). unfold st2 in Hserve. simpl in Hserve. by rewrite (on_now _ _ _ Ho1) in Hserve.
Qed.

(** The steps that the messages of a subscription take, at most. *)
Definition work (sub : subscription) : nat :=
  9 * length (sb_out sub)
  + match sb_forwarder sub with FRange => 11 * length (sb_inbox sub) | FSend _ => 10 + 11 * length (sb_inbox sub) | FEnded => 0 end.

Lemma work_bound sub : (work sub <= 11 * length (pending_of sub))%nat.
Proof. unfold work, pending_of. rewrite length_app. destruct (sb_forwarder sub); simpl; lia. Qed.

Lemma serves_kept d now (c c2 : BidCache) p : bc_entries c2 !! p = bc_entries c !! p -> serves d now c p -> serves d now c2 p.
Proof. intros He (bids & Hf & Hl). exists bids. by rewrite He. Qed.

(** The messages that wait in [sub] are all received, and served. *)
Definition catches_up (d : db) (l : loops World) (sub : subscription) : Prop :=
  exists evs st2 sub2, (length evs <= work sub)%nat /\ forallb working evs = true
    /\ loop_exec_all evs l = Some {| l with lp_run := st2; lp_subscriber := SRange sub2 |}
    /\ pending_of sub2 = [] /\ only (pending_of sub) (lp_run l) st2
    /\ forall m, m ∈ pending_of sub -> m <> "" -> serves d (now_of l) (st_cache st2) m.

Lemma caught_up d (l : loops World) sub : lp_subscriber l = SRange sub -> pending_of sub = [] -> catches_up d l sub.
Proof.
  intros Hs Hp. exists [], (lp_run l), sub. rewrite Hp. split_and!; [simpl; lia|done| |done|apply only_refl|by intros m ?%elem_of_nil].
  destruct l. simpl in *. by rewrite Hs.
Qed.

Lemma forward_catches_up d (l : loops World) sub sub2 : lp_subscriber l = SRange sub -> forward sub = Some sub2 ->
  (work sub2 < work sub)%nat -> pending_of sub2 = pending_of sub ->
  catches_up d {| l with lp_subscriber := SRange sub2 |} sub2 -> catches_up d l sub.
Proof.
  intros Hs Hf Hlt Hp (evs & st2 & sub3 & Hlen & Hwk & Hx & Hp3 & Ho & Hserve). rewrite Hp in Ho, Hserve.
  exists (LForward :: evs), st2, sub3. split_and!; [simpl; lia|done| |done|exact Ho|exact Hserve].
  cbn [loop_exec_all loop_exec]. unfold ranging. rewrite Hs. cbn [mbind option_bind]. rewrite Hf. exact Hx.
Qed.

Lemma messages_served d (l : loops World) sub : Consistent s d -> run_ok (lp_run l) -> st_world (lp_run l) = mkWorld d [] ->
  lp_subscriber l = SRange sub -> catches_up d l sub.
Proof.
  intros Hc. remember (work sub) as n eqn:Hn. revert l sub Hn. induction n as [n IH] using lt_wf_ind. intros l sub -> Hok Hw Hs.
  destruct sub as [inbox hungup fwd out]. destruct out as [|m rest].
  - destruct fwd as [|m|]; [destruct inbox as [|m inbox]| |].
    + by apply caught_up.
    + apply (forward_catches_up d l _ (mkSubscription inbox hungup (FSend m) []) Hs eq_refl); [unfold work; simpl; lia|done|].
      eapply IH; [|reflexivity|..]; [unfold work; simpl; lia|done..].
    + apply (forward_catches_up d l _ (mkSubscription inbox hungup FRange [m]) Hs eq_refl); [unfold work; simpl; lia|done|].
      eapply IH; [|reflexivity|..]; [unfold work; simpl; lia|done..].
    + by apply caught_up.
  - destruct (message_served d l _ m rest Hc Hok Hw Hs eq_refl) as (evs & st1 & Hlen & Hwk & Hx & Hok1 & Ho1 & Hserve1).
    set (sub1 := mkSubscription inbox hungup fwd rest).
    change {| sb_inbox := _; sb_hungup := _; sb_forwarder := _; sb_out := rest |} with sub1 in Hx.
    assert (Hlt : (9 + work sub1 <= work (mkSubscription inbox hungup fwd (m :: rest)))%nat) by (unfold work, sub1; simpl; lia).
    destruct (IH (work sub1) ltac:(lia) {| l with lp_run := st1; lp_subscriber := SRange sub1 |} sub1 eq_refl Hok1
      ltac:(simpl; by rewrite (on_world _ _ _ Ho1)) eq_refl) as (evs2 & st2 & sub2 & Hlen2 & Hwk2 & Hx2 & Hp2 & Ho2 & Hserve2).
    exists (evs ++ evs2), st2, sub2. split_and!.
    + rewrite length_app. lia.
    + by rewrite forallb_app, Hwk.
    + rewrite loop_exec_all_app, Hx. exact Hx2.
    + done.
    + exact (only_trans [m] _ _ _ _ Ho1 Ho2).
    + unfold now_of in Hserve2. simpl in Hserve2. rewrite (on_now _ _ _ Ho1) in Hserve2.
      intros p Hp Hne. destruct (decide (p ∈ pending_of sub1)) as [Hin|Hnin]; [by apply Hserve2|].
      assert (p = m) as -> by (by apply elem_of_cons in Hp as [?|?]).
      apply (serves_kept _ _ (st_cache st1)); [by apply (on_entries _ _ _ Ho2)|by apply Hserve1].
Qed.

(** A tick that is there, or due. *)
Lemma tick_served d (l : loops World) : Consistent s d -> st_world (lp_run l) = mkWorld d [] ->
  lp_refresher l = RSelect -> lp_tick l = true \/ lp_next l <= now_of l ->
  let ps := elements (members d (placementsKey s)) in
  exists evs st2 next, (length evs <= 4 + 4 * length ps)%nat /\ forallb working evs = true
    /\ loop_exec_all evs l = Some {| l with lp_run := st2; lp_next := next; lp_tick := false |}
    /\ st_world st2 = mkWorld d [] /\ st_now st2 = now_of l /\ attempts (st_cache st2) = attempts (count_reconciliation (st_cache (lp_run l)))
    /\ bc_policy (st_cache st2) = bc_policy (st_cache (lp_run l))
    /\ (forall p, p ∈ ps -> serves d (now_of l) (st_cache st2) p).
Proof.
  intros Hc Hw Hr Hdue ps.
  assert (Hfire : exists evs next, (length evs <= 1)%nat /\ forallb working evs = true
    /\ loop_exec_all evs l = Some {| l with lp_next := next; lp_tick := true |}).
  { destruct Hdue as [Ht|Hn].
    - exists [], (lp_next l). split_and!; [simpl; lia|done|]. destruct l. simpl in *. by rewrite Ht.
    - eexists [LFire], _. split_and!; [simpl; lia|done|]. cbn [loop_exec_all loop_exec]. unfold fire. by rewrite (proj2 (Z.leb_le _ _) Hn). }
  destruct Hfire as (evs & next & Hlen & Hwk & Hx).
  destruct (fresh_name l) as (tid & Ht & _).
  set (st1 := mkState (count_reconciliation (st_cache (lp_run l))) (st_world (lp_run l)) (st_now (lp_run l)) (set_thread tid (Some TListing) (st_threads (lp_run l)))).
  assert (Htick : exec (ETick tid) (lp_run l) = Some st1) by (simpl; by rewrite Ht).
  destruct (listing_ends d tid st1 Hc Hw) as (k & st2 & Hk & Hx2 & Hend & Ho & Hserve).
  { unfold st1. simpl. by rewrite set_thread_lookup, decide_True. }
  exists (evs ++ LTick tid :: replicate k (LRun (ERun tid)) ++ [LReconciled]), st2, next. split_and!.
  - rewrite length_app. cbn [length]. rewrite length_app, length_replicate. simpl. unfold ps. lia.
  - rewrite forallb_app, Hwk. cbn [forallb working andb]. by rewrite forallb_app, working_runs.
  - rewrite loop_exec_all_app, Hx. cbn [mbind option_bind loop_exec_all loop_exec]. unfold tick. cbn [lp_refresher lp_tick]. rewrite Hr.
    unfold running. cbn [lp_run]. rewrite Htick. cbn [mbind option_bind]. rewrite loop_exec_all_app, (exec_runs tid k _ st2) by exact Hx2.
    cbn [mbind option_bind loop_exec_all loop_exec]. unfold reconciled. cbn [lp_refresher lp_run]. rewrite Hend. cbn [mbind option_bind].
    by rewrite <- Hr.
  - by rewrite (on_world _ _ _ Ho).
  - by rewrite (on_now _ _ _ Ho).
  - by rewrite (on_attempts _ _ _ Ho).
  - by rewrite (on_policy _ _ _ Ho).
  - exact Hserve.
Qed.
End fresh.
