(* ===== verification/AuctionProps.v ===== *)
(** * Properties of the auction

    The decision of [Auctioneer.run]: that it is the specified one on every branch,
    what it does not depend on, the bounds of the clearing price, and the auction
    over the bids of the registry. *)

From S2P Require Import Prelude GoInt GoTime GoString Types Ranking DynamicBids Redis Store BidStore Samples.
From S2P Require Import Cache Auction CacheProps.
Open Scope string_scope.
Open Scope list_scope.
Open Scope Z_scope.

Section properties.
Context (a : Auctioneer) (Ha : auctioneer_ok a).

(** [run] on every branch. *)
Lemma run_branches request dynamic cacheNow now c bids ss c2 go d :
  0 <= req_FloorMicros request ->
  BidCache_Get (req_PlacementID request) cacheNow c = (bids, ss) ->
  run a request dynamic cacheNow now c = (c2, go, d) ->
  (c2, go) = (if negb (ss_Found ss) || ss_Stale ss then RefreshAsync (req_PlacementID request) c else (c, false))
  /\ (ss_Found ss = false -> d = mkAuctionDecision None 0 0 0 "cold_cache" false 0 "")
  /\ (ss_Found ss = true -> ss_RejectStale ss = true ->
        d = mkAuctionDecision None 0 0 0 "stale_snapshot" false (ss_Age ss) "")
  /\ (ss_Found ss = true -> ss_RejectStale ss = false ->
        let E := eligible_candidates request (time_Unix now) (candidates_of bids dynamic) in
        auction_spec (au_policy a) request E ss d
        /\ forall d', auction_spec (au_policy a) request E ss d' -> d' = d).
Proof.
  intros Hfl Hg Hrun. destruct (ss_Found ss) eqn:Ef; simpl.
  - destruct (ss_RejectStale ss) eqn:Er.
    + assert (Hs : ss_Stale ss = true).
      { unfold BidCache_Get in Hg. destruct (bc_entries c !! _) as [[l|]|]; injection Hg as <- <-; try done.
        simpl in *. by apply andb_true_iff in Er as [Er _]. }
      unfold run in Hrun. rewrite Hg, Ef, Hs, Er in Hrun. simpl in Hrun. rewrite Hs.
      destruct (RefreshAsync (req_PlacementID request) c). by injection Hrun as <- <- <-.
    + destruct (run_spec a request dynamic cacheNow now c bids ss Ha Hfl Hg Ef Er) as (d' & Hd & Hs).
      rewrite Hd in Hrun. injection Hrun as Hc <-. rewrite Hc. split_and!; try done. intros _ _. split; [done|].
      intros d'' Hs'. by eapply auction_spec_unique.
  - unfold run in Hrun. rewrite Hg, Ef in Hrun. simpl in Hrun.
    destruct (RefreshAsync (req_PlacementID request) c). by injection Hrun as <- <- <-.
Qed.

(** C9: an auction decides as specified on every branch. Without a snapshot it
    answers cold_cache and asks for a refresh; with a rejected stale one it answers
    stale_snapshot and asks for a refresh; otherwise it returns the decision the
    specification determines from the eligible candidates (static bids and dynamic
    ones): the best of them at its clearing price, or no_eligible_bid exactly when
    there is none; it asks for a refresh exactly when the snapshot is stale, and
    changes nothing else in the cache. *)
Theorem run_refines_spec request dynamic cacheNow now c bids ss c2 go d :
  0 <= req_FloorMicros request ->
  BidCache_Get (req_PlacementID request) cacheNow c = (bids, ss) ->
  run a request dynamic cacheNow now c = (c2, go, d) ->
  (c2, go) = (if negb (ss_Found ss) || ss_Stale ss then RefreshAsync (req_PlacementID request) c else (c, false))
  /\ (ss_Found ss = false -> d = mkAuctionDecision None 0 0 0 "cold_cache" false 0 "")
  /\ (ss_Found ss = true -> ss_RejectStale ss = true ->
        d = mkAuctionDecision None 0 0 0 "stale_snapshot" false (ss_Age ss) "")
  /\ (ss_Found ss = true -> ss_RejectStale ss = false ->
        let E := eligible_candidates request (time_Unix now) (candidates_of bids dynamic) in
        auction_spec (au_policy a) request E ss d
        /\ forall d', auction_spec (au_policy a) request E ss d' -> d' = d).
Proof. apply run_branches. Qed.

(** The decision of a served snapshot, as a function of what the cache answers. *)
Lemma run_decision request dynamic cacheNow now c bids ss c2 go d :
  0 <= req_FloorMicros request ->
  BidCache_Get (req_PlacementID request) cacheNow c = (bids, ss) ->
  ss_Found ss = true -> ss_RejectStale ss = false ->
  run a request dynamic cacheNow now c = (c2, go, d) ->
  auction_spec (au_policy a) request
    (eligible_candidates request (time_Unix now) (candidates_of bids dynamic)) ss d.
Proof.
  intros Hfl Hg Hf Hr Hrun.
  destruct (run_spec a request dynamic cacheNow now c bids ss Ha Hfl Hg Hf Hr) as (d' & Hd & Hs).
  rewrite Hd in Hrun. by injection Hrun as _ <-.
Qed.

Lemma price_to_pay_perm p request w rest rest' :
  rest ≡ₚ rest' -> price_to_pay p request w rest = price_to_pay p request w rest'.
Proof.
  intros Hp. unfold price_to_pay. by rewrite (zmax_list_perm _ _ _ (prices_at_perm (bid_Priority w) _ _ Hp)).
Qed.

(** The order of the candidates does not matter. When no two eligible candidates
    have the same priority, effective price and ID, two auctions over permutations
    of the same candidates decide the same, whichever of them come from the snapshot
    and in whatever order the store and the DSPs delivered them. *)
Theorem order_irrelevant request dynamic dynamic' cacheNow now c c' bids bids' ss r r' :
  0 <= req_FloorMicros request ->
  BidCache_Get (req_PlacementID request) cacheNow c = (bids, ss) ->
  BidCache_Get (req_PlacementID request) cacheNow c' = (bids', ss) ->
  ss_Found ss = true -> ss_RejectStale ss = false ->
  candidates_of bids dynamic ≡ₚ candidates_of bids' dynamic' ->
  distinct_ranks (eligible_candidates request (time_Unix now) (candidates_of bids dynamic)) ->
  run a request dynamic cacheNow now c = r -> run a request dynamic' cacheNow now c' = r' ->
  r.2 = r'.2.
Proof.
  intros Hfl Hg Hg' Hf Hr Hperm Hd <- <-.
  destruct (run_spec a request dynamic cacheNow now c bids ss Ha Hfl Hg Hf Hr) as (d & -> & Hs).
  destruct (run_spec a request dynamic' cacheNow now c' bids' ss Ha Hfl Hg' Hf Hr) as (d' & -> & Hs'). simpl.
  set (E := eligible_candidates _ _ (candidates_of bids dynamic)) in *.
  set (E' := eligible_candidates _ _ (candidates_of bids' dynamic')) in *.
  assert (HE : E ≡ₚ E') by (unfold E, E', eligible_candidates; by rewrite Hperm).
  apply (auction_spec_unique (au_policy a) request E ss); [done|].
  destruct Hs' as (Hn & Hst & Hag & Hm). unfold auction_spec. rewrite Hn, HE. split_and!; [done..|].
  destruct (ad_Bid d') as [w'|] eqn:Ew.
  - destruct Hm as (rest' & Hw' & Hre & Hef & Hcl).
    destruct (wins_exists E) as (w & rest & Hw).
    { intros He. rewrite He in HE. apply Permutation_nil_l in HE. rewrite <- HE in Hw'. by apply wins_elem, elem_of_nil in Hw'. }
    destruct (wins_perm_eq _ _ _ _ _ _ HE Hd Hw Hw') as [-> Hrest].
    exists rest. split_and!; [done..|]. rewrite Hcl. symmetry. by apply price_to_pay_perm.
  - destruct Hm as (He & ?). rewrite He in HE. symmetry in HE. apply Permutation_nil_l in HE. done.
Qed.

(** Winners of the same candidates from a priority on are the same and pay the same. *)
Lemma wins_above k E E0 w w0 rest rest0 p request :
  k <= bid_Priority (fst w) -> k <= bid_Priority (fst w0) ->
  filter (fun x : candidate => k <= bid_Priority (fst x)) E = filter (fun x => k <= bid_Priority (fst x)) E0 ->
  wins E w rest -> wins E0 w0 rest0 ->
  w = w0 /\ price_to_pay p request (fst w) rest = price_to_pay p request (fst w0) rest0.
Proof.
  intros Hk Hk0 Hf Hw Hw0. pose proof (wins_filter _ _ _ k Hk Hw) as Hwf. pose proof (wins_filter _ _ _ k Hk0 Hw0) as Hwf0.
  rewrite Hf in Hwf. destruct (wins_unique _ _ _ _ _ Hwf Hwf0) as [<- Hrest]. split; [done|]. unfold price_to_pay.
  rewrite <- (prices_at_filter (bid_Priority (fst w)) k rest), <- (prices_at_filter (bid_Priority (fst w)) k rest0) by done.
  by rewrite Hrest.
Qed.

Lemma wins_priority E w rest x : wins E w rest -> x ∈ E -> bid_Priority (fst x) <= bid_Priority (fst w).
Proof.
  intros Hw Hx. rewrite (wins_perm _ _ _ Hw) in Hx. apply elem_of_cons in Hx as [->|Hin]; [done|].
  exact (ahead_priority _ _ (wins_rest _ _ _ _ Hw Hin)).
Qed.

(** Priorities are strict. Dropping every candidate of a priority below the
    winner's from the snapshot and from the dynamic bids leaves the winner, its
    effective price and its clearing price unchanged. *)
Theorem lower_priority_irrelevant request dynamic cacheNow now c c' bids ss w c2 go d c2' go' d' :
  0 <= req_FloorMicros request ->
  BidCache_Get (req_PlacementID request) cacheNow c = (bids, ss) ->
  ss_Found ss = true -> ss_RejectStale ss = false ->
  run a request dynamic cacheNow now c = (c2, go, d) -> ad_Bid d = Some w ->
  BidCache_Get (req_PlacementID request) cacheNow c' = (filter (fun b => bid_Priority w <= bid_Priority b) bids, ss) ->
  run a request (filter (fun x => bid_Priority w <= bid_Priority (dyn_Bid x)) dynamic) cacheNow now c' = (c2', go', d') ->
  ad_Bid d' = Some w /\ ad_ClearingPriceMicros d' = ad_ClearingPriceMicros d
  /\ ad_EffectivePriceMicros d' = ad_EffectivePriceMicros d /\ ad_DynamicBidderID d' = ad_DynamicBidderID d.
Proof.
  intros Hfl Hg Hf Hr Hrun Hw Hg' Hrun'.
  destruct (run_decision _ _ _ _ _ _ _ _ _ _ Hfl Hg Hf Hr Hrun) as (_ & _ & _ & Hm).
  destruct (run_decision _ _ _ _ _ _ _ _ _ _ Hfl Hg' Hf Hr Hrun') as (_ & _ & _ & Hm').
  rewrite Hw in Hm. destruct Hm as (rest & Hwins & _ & Hef & Hcl).
  set (P := fun x : candidate => bid_Priority w <= bid_Priority (fst x)).
  assert (HE : eligible_candidates request (time_Unix now)
      (candidates_of (filter (fun b => bid_Priority w <= bid_Priority b) bids)
         (filter (fun x => bid_Priority w <= bid_Priority (dyn_Bid x)) dynamic))
    = filter P (eligible_candidates request (time_Unix now) (candidates_of bids dynamic))).
  { unfold eligible_candidates, candidates_of. rewrite !list_filter_filter.
    assert (Hc : (static_candidate <$> filter (fun b => bid_Priority w <= bid_Priority b) bids)
        ++ (dynamic_candidate <$> filter (fun x => bid_Priority w <= bid_Priority (dyn_Bid x)) dynamic)
      = filter P ((static_candidate <$> bids) ++ (dynamic_candidate <$> dynamic))).
    { rewrite filter_app. f_equal; by apply filter_fmap_comm. }
    rewrite Hc, list_filter_filter. apply list_filter_iff. unfold P. tauto. }
  rewrite HE in Hm'. pose proof (wins_filter _ (w, ad_DynamicBidderID d) _ (bid_Priority w) (Z.le_refl _) Hwins) as Hwf. fold P in Hwf.
  destruct (ad_Bid d') as [w'|].
  - destruct Hm' as (rest' & Hwins' & _ & Hef' & Hcl').
    destruct (wins_unique _ _ _ _ _ Hwf Hwins') as [[= <- <-] <-]. split_and!; [done| |congruence|done].
    rewrite Hcl, Hcl'. unfold price_to_pay. unfold P. simpl fst. by rewrite (prices_at_filter (bid_Priority w) (bid_Priority w)) by lia.
  - destruct Hm' as (He & _). rewrite He in Hwf. by apply wins_elem, elem_of_nil in Hwf.
Qed.

(** What a winner pays, from the decision of a served snapshot. *)
Lemma winner_pays request dynamic cacheNow now c c2 go d w :
  0 <= req_FloorMicros request -> run a request dynamic cacheNow now c = (c2, go, d) -> ad_Bid d = Some w ->
  let pay := ad_ClearingPriceMicros d in
  let bids := (BidCache_Get (req_PlacementID request) cacheNow c).1 in
  eligible_for request (time_Unix now) (w, ad_DynamicBidderID d)
  /\ (w, ad_DynamicBidderID d) ∈ candidates_of bids dynamic
  /\ req_FloorMicros request <= pay /\ bid_FloorMicros w <= pay <= effectivePrice w
  /\ (pol_PricingModel (au_policy a) = FirstPrice -> pay = effectivePrice w)
  /\ (pol_PricingModel (au_policy a) <> FirstPrice ->
        (exists rest, wins (eligible_candidates request (time_Unix now) (candidates_of bids dynamic))
             (w, ad_DynamicBidderID d) rest
         /\ (forall x, x ∈ rest -> bid_Priority (fst x) = bid_Priority w -> effectivePrice (fst x) <= pay)
         /\ ((forall x, x ∈ rest -> bid_Priority (fst x) = bid_Priority w -> effectivePrice (fst x) <= 0) ->
             pay = price_floor request w))).
Proof.
  intros Hfl Hrun Hw. destruct (BidCache_Get (req_PlacementID request) cacheNow c) as [bids ss] eqn:Hg.
  assert (Hok : ss_Found ss = true /\ ss_RejectStale ss = false).
  { destruct (run_branches _ _ _ _ _ _ _ _ _ _ Hfl Hg Hrun) as (_ & Hc & Hst & _).
    destruct (ss_Found ss); [|by rewrite Hc in Hw]. split; [done|].
    destruct (ss_RejectStale ss); [|done]. by rewrite Hst in Hw. }
  destruct Hok as [Hf Hr]. destruct (run_decision _ _ _ _ _ _ _ _ _ _ Hfl Hg Hf Hr Hrun) as (_ & _ & _ & Hm).
  rewrite Hw in Hm. destruct Hm as (rest & Hwins & _ & _ & Hcl). simpl fst. simpl in *.
  pose proof (wins_elem _ _ _ Hwins) as Hin. apply eligible_candidates_elem in Hin as [He Hin].
  pose proof (eligible_floor _ _ _ _ He) as Hfloor. simpl in Hfloor.
  pose proof (wins_rivals_le _ _ _ Hwins) as Hrv. simpl in Hrv.
  assert (Hinc : 0 <= pol_SecondPriceIncrementMicros (au_policy a)) by (apply AuctionPolicy_Validate_spec, Ha).
  pose proof (zmax_list_le 0 _ (effectivePrice w) ltac:(lia) Hrv) as Hmax.
  rewrite Hcl. unfold price_to_pay. split_and!; [done|done|..].
  - unfold price_floor. repeat case_test; lia.
  - unfold price_floor. repeat case_test; lia.
  - unfold price_floor. repeat case_test; lia.
  - intros Hm. by rewrite Hm.
  - intros Hm. apply String.eqb_neq in Hm. rewrite Hm. exists rest. split; [done|]. split.
    + intros x Hx Hp. assert (Hxp : effectivePrice (fst x) ∈ prices_at (bid_Priority w) rest) by (apply prices_at_elem; eauto).
      pose proof (zmax_list_elem 0 _ _ Hxp). pose proof (Forall_elem _ _ _ Hrv Hxp) as Hle. cbv beta in Hle.
      unfold price_floor. case_test; bool_hyps; lia.
    + intros Hno. assert (Hz : zmax_list 0 (prices_at (bid_Priority w) rest) = 0); [|by rewrite Hz].
      apply Z.le_antisymm; [|auto with ads]. apply zmax_list_le; [done|]. apply Forall_forall. intros v Hv.
      apply prices_at_elem in Hv as (x & Hx & Hp & ->). by apply Hno.
Qed.

(** An auction without a winner says why, and carries no price and no bidder. *)
Lemma no_winner request dynamic cacheNow now c c2 go d :
  0 <= req_FloorMicros request -> run a request dynamic cacheNow now c = (c2, go, d) -> ad_Bid d = None ->
  ad_EffectivePriceMicros d = 0 /\ ad_ClearingPriceMicros d = 0 /\ ad_DynamicBidderID d = ""
  /\ ad_NoBidReason d ∈ ["cold_cache"; "stale_snapshot"; "no_eligible_bid"].
Proof.
  intros Hfl Hrun Hn. destruct (BidCache_Get (req_PlacementID request) cacheNow c) as [bids ss] eqn:Hg.
  destruct (run_branches _ _ _ _ _ _ _ _ _ _ Hfl Hg Hrun) as (_ & Hc & Hst & Hsp).
  destruct (ss_Found ss); [|rewrite (Hc eq_refl); split_and!; try done; set_solver].
  destruct (ss_RejectStale ss); [rewrite (Hst eq_refl eq_refl); split_and!; try done; set_solver|].
  destruct (Hsp eq_refl eq_refl) as [(_ & _ & _ & Hm) _]. rewrite Hn in Hm.
  destruct Hm as (_ & -> & -> & -> & ->). split_and!; try done. set_solver.
Qed.

(** A filled auction has no reason for not bidding, and its effective price is its bid's. *)
Lemma winner_price request dynamic cacheNow now c c2 go d w :
  0 <= req_FloorMicros request -> run a request dynamic cacheNow now c = (c2, go, d) -> ad_Bid d = Some w ->
  ad_NoBidReason d = "" /\ ad_EffectivePriceMicros d = effectivePrice w.
Proof.
  intros Hfl Hrun Hn. destruct (BidCache_Get (req_PlacementID request) cacheNow c) as [bids ss] eqn:Hg.
  destruct (run_branches _ _ _ _ _ _ _ _ _ _ Hfl Hg Hrun) as (_ & Hc & Hst & Hsp).
  destruct (ss_Found ss); [|by rewrite (Hc eq_refl) in Hn].
  destruct (ss_RejectStale ss); [by rewrite (Hst eq_refl eq_refl) in Hn|].
  destruct (Hsp eq_refl eq_refl) as [(_ & _ & _ & Hm) _]. rewrite Hn in Hm. by destruct Hm as (rest & _ & ? & ? & _).
Qed.

(** C25: clearing prices. A winner is eligible for the request; it pays at least the
    request's floor and its own floor, and at most its effective price, which is
    what it pays in a first-price auction. In a second-price auction it also pays at
    least what any rival of its priority offers, and when no rival of its priority
    offers a positive price, be there none or only ones at zero, it pays the floor. *)
Theorem clearing_price_bounds request dynamic cacheNow now c c2 go d w :
  0 <= req_FloorMicros request -> run a request dynamic cacheNow now c = (c2, go, d) -> ad_Bid d = Some w ->
  let pay := ad_ClearingPriceMicros d in
  let bids := (BidCache_Get (req_PlacementID request) cacheNow c).1 in
  eligible_for request (time_Unix now) (w, ad_DynamicBidderID d)
  /\ (w, ad_DynamicBidderID d) ∈ candidates_of bids dynamic
  /\ req_FloorMicros request <= pay /\ bid_FloorMicros w <= pay <= effectivePrice w
  /\ (pol_PricingModel (au_policy a) = FirstPrice -> pay = effectivePrice w)
  /\ (pol_PricingModel (au_policy a) <> FirstPrice ->
        (exists rest, wins (eligible_candidates request (time_Unix now) (candidates_of bids dynamic))
             (w, ad_DynamicBidderID d) rest
         /\ (forall x, x ∈ rest -> bid_Priority (fst x) = bid_Priority w -> effectivePrice (fst x) <= pay)
         /\ ((forall x, x ∈ rest -> bid_Priority (fst x) = bid_Priority w -> effectivePrice (fst x) <= 0) ->
             pay = price_floor request w))).
Proof. apply winner_pays. Qed.
End properties.

(** ** Auctions over the registry *)

(** The ranking decides between any two bids with different IDs. *)
Lemma ahead_decides w b : bid_ID b <> bid_ID w -> ahead b w = false -> ahead w b = true.
Proof.
  intros Hne Hf. destruct (ahead w b) eqn:E; [done|]. pose proof (ahead_total _ _ Hf E) as Hk.
  unfold rank_key in Hk. congruence.
Qed.

Lemma static_only bids : candidates_of bids [] = static_candidate <$> bids.
Proof. unfold candidates_of. simpl. by rewrite app_nil_r. Qed.

(** A snapshot is rejected when it is stale and the policy is no_bid. *)
Lemma rejected_stale p now c bids ss :
  BidCache_Get p now c = (bids, ss) -> ss_RejectStale ss = true ->
  cp_StaleAction (bc_policy c) = NoBidOnStale /\ ss_Stale ss = true.
Proof.
  unfold BidCache_Get. destruct (bc_entries c !! p) as [[l|]|]; intros [= <- <-]; simpl; [|done..].
  by intros [-> ->%String.eqb_eq]%andb_true_iff.
Qed.

(** C22: from Redis to the decision. On a cache warmed from a reachable registry, an
    auction without DSP bids for an indexed placement is won by the active eligible
    bid of the registry that ranks ahead of every other active eligible bid. There is
    no winner only if no active bid of the placement is eligible, or if the snapshot
    has become older than the maximal age under the policy no_bid, and then the
    reason given is stale_snapshot. *)
Theorem registry_auction `{Redis} s range clock c d a request cacheNow now c2 w2 e c3 go dec :
  any_order range -> Consistent s d -> auctioneer_ok a -> 0 <= req_FloorMicros request ->
  req_PlacementID request ∈ members d (placementsKey s) ->
  @Warm World (redis_bid_store s range) clock c (mkWorld d []) = (c2, w2, e) ->
  Run a request cacheNow now c2 = (c3, go, dec) ->
  let live b := active_bid s d (req_PlacementID request) b
    /\ eligible b request (time_Unix now) (effectivePrice b) = true in
  match ad_Bid dec with
  | Some w => live w /\ forall b, live b -> b <> w -> ahead w b = true
  | None => (forall b, ~ live b)
      \/ cp_StaleAction (bc_policy c2) = NoBidOnStale
         /\ ss_Stale (BidCache_Get (req_PlacementID request) cacheNow c2).2 = true
         /\ ad_NoBidReason dec = "stale_snapshot"
  end.
Proof.
  intros Hrg Hc Ha Hfl Hp Hwarm Hrun live.
  destruct (Warm_exact s range clock c d Hrg Hc) as (c2' & Hw & Hget & _).
  cbv zeta in Hw. rewrite Hwarm in Hw. injection Hw as -> _ _.
  destruct (Hget (req_PlacementID request) cacheNow Hp) as [(_ & Hnd & Hin) Hfound].
  destruct (BidCache_Get (req_PlacementID request) cacheNow c2') as [bids ss] eqn:Hg. simpl in *.
  destruct (ss_RejectStale ss) eqn:Hrej.
  { destruct (run_branches a Ha _ _ _ _ _ _ _ _ _ _ Hfl Hg Hrun) as (_ & _ & Hst & _).
    rewrite (Hst Hfound Hrej). right. destruct (rejected_stale _ _ _ _ _ Hg Hrej). by split_and!. }
  pose proof (run_decision a Ha _ _ _ _ _ _ _ _ _ _ Hfl Hg Hfound Hrej Hrun) as (_ & _ & _ & Hm).
  rewrite static_only in Hm.
  assert (Hlive : forall b, live b <-> (b, "") ∈ eligible_candidates request (time_Unix now) (static_candidate <$> bids)).
  { intros b. rewrite eligible_candidates_elem, list_elem_of_fmap. unfold live, eligible_for. simpl. rewrite <- Hin. split.
    - intros [? ?]. split; [done|]. by exists b.
    - intros [? (b' & [= <-] & ?)]. done. }
  destruct (ad_Bid dec) as [w|].
  - destruct Hm as (rest & Hwins & _).
    assert (Hbidder : ad_DynamicBidderID dec = "").
    { pose proof (wins_elem _ _ _ Hwins) as Hi. apply eligible_candidates_elem in Hi as [_ Hi].
      by apply list_elem_of_fmap in Hi as (b' & [= -> ->] & _). }
    rewrite Hbidder in Hwins. pose proof (wins_elem _ _ _ Hwins) as Hwe. apply Hlive in Hwe. split; [done|].
    intros b Hb Hne. assert (Hbr : (b, "") ∈ rest).
    { apply Hlive in Hb. rewrite (wins_perm _ _ _ Hwins) in Hb. apply elem_of_cons in Hb as [[= ->]|?]; done. }
    apply ahead_decides; [|by apply (wins_rest _ _ _ _ Hwins Hbr)]. intros Hid. apply Hne.
    apply list_elem_of_lookup in Hbr as [i Hi]. destruct Hb as [Hb _], Hwe as [Hwa _].
    apply Hin in Hb, Hwa. apply list_elem_of_lookup in Hb as [j Hj], Hwa as [k Hk].
    assert (j = k) as ->; [|congruence].
    apply (NoDup_lookup (bid_ID <$> bids) j k (bid_ID b)); [done|..]; rewrite list_lookup_fmap; [by rewrite Hj|by rewrite Hk, Hid].
  - destruct Hm as (He & _). left. intros b Hb. apply Hlive in Hb. rewrite He in Hb. by apply elem_of_nil in Hb.
Qed.

(** In a snapshot, sorted as the cache keeps it, the auction without DSP bids is
    decided by the first eligible bid. *)
Theorem first_eligible_wins a request cacheNow now c c2 go d bids ss :
  auctioneer_ok a -> cache_ok c -> 0 <= req_FloorMicros request ->
  BidCache_Get (req_PlacementID request) cacheNow c = (bids, ss) ->
  ss_Found ss = true -> ss_RejectStale ss = false ->
  Run a request cacheNow now c = (c2, go, d) ->
  ad_Bid d = List.find (fun b => eligible b request (time_Unix now) (effectivePrice b)) bids.
Proof.
  intros Ha Hc Hfl Hg Hf Hr Hrun.
  pose proof (run_decision a Ha _ _ _ _ _ _ _ _ _ _ Hfl Hg Hf Hr Hrun) as (_ & _ & _ & Hm).
  rewrite static_only in Hm.
  assert (Hsorted : StronglySorted bid_le bids).
  { unfold BidCache_Get in Hg. destruct (bc_entries c !! _) as [[l|]|] eqn:El; injection Hg as <- <-; try done.
    by destruct (ok_entries c Hc _ _ El) as (_ & ? & _). }
  assert (Hs : StronglySorted bid_le (fst <$> (static_candidate <$> bids))).
  { rewrite <- list_fmap_compose. by rewrite (list_fmap_id bids : (fst ∘ static_candidate) <$> bids = bids). }
  assert (Hfind : forall l, match eligible_candidates request (time_Unix now) (static_candidate <$> l) with
    | [] => List.find (fun b => eligible b request (time_Unix now) (effectivePrice b)) l = None
    | x :: _ => List.find (fun b => eligible b request (time_Unix now) (effectivePrice b)) l = Some (fst x)
    end).
  { induction l as [|b l IH]; [done|]. unfold eligible_candidates in *. rewrite fmap_cons, filter_cons. simpl List.find.
    case_decide as Hd; unfold eligible_for in Hd; simpl in Hd; [by rewrite Hd|].
    by rewrite (not_true_is_false _ Hd). }
  specialize (Hfind bids).
  pose proof (StronglySorted_filter_fst (eligible_for request (time_Unix now)) _ Hs) as Hse.
  fold (eligible_candidates request (time_Unix now) (static_candidate <$> bids)) in Hse.
  destruct (eligible_candidates request (time_Unix now) (static_candidate <$> bids)) as [|x E].
  - rewrite Hfind. destruct (ad_Bid d); [|done]. destruct Hm as (rest & Hw & _). by apply wins_elem, elem_of_nil in Hw.
  - rewrite Hfind. destruct (ad_Bid d) as [w|]; [|by destruct Hm].
    destruct Hm as (rest & Hw & _). by destruct (wins_unique _ _ _ _ _ Hw (wins_sorted_head x E Hse)) as [<- _].
Qed.

(** ** Evaluations *)

Definition second_price_auction : Auctioneer := NewAuctioneerWithPolicy (mkAuctionPolicy SecondPrice 1).

Lemma second_price_ok : auctioneer_ok second_price_auction.
Proof. apply NewAuctioneerWithPolicy_ok. split; vm_compute; discriminate. Qed.

(** A cache with a snapshot of [bids] for "top", taken at time 0. *)
Definition cache_with (bids : list Bid) : BidCache :=
  store_list "top" (mkBidList bids 0) sample_cache.

Definition deal_bid : Bid := {| (sample_bid "deal" 1 50) with bid_Priority := 7; bid_DealID := "d1" |}.
Definition dsp_bid (price : Z) : DynamicBid :=
  mkDynamicBid {| (sample_bid "alpha:1" 0 price) with bid_FloorMicros := 0 |} "alpha".

Definition open_auction := run second_price_auction sample_request [dsp_bid 120] 5 (7 * Second) (cache_with [bid2; bid1]).
Definition open_auction' := run second_price_auction sample_request [dsp_bid 120] 5 (7 * Second) (cache_with [bid1; bid2]).
Definition deal_auction := run second_price_auction sample_request [dsp_bid 120] 5 (7 * Second) (cache_with [deal_bid; bid2; bid1]).
Definition deal_only_auction := run second_price_auction sample_request [] 5 (7 * Second) (cache_with [deal_bid]).

Definition fresh_state : SnapshotState := mkSnapshotState true false false 5.

Lemma zero_floor : 0 <= req_FloorMicros sample_request.
Proof. by vm_compute. Qed.

Lemma run_refines_spec_witness :
  ad_ClearingPriceMicros open_auction.2 = 121
  /\ auction_spec (au_policy second_price_auction) sample_request
       (eligible_candidates sample_request 7 (candidates_of [bid2; bid1] [dsp_bid 120])) fresh_state open_auction.2.
Proof.
  split; [by_compute|].
  destruct (run_refines_spec second_price_auction second_price_ok sample_request [dsp_bid 120] 5 (7 * Second)
    (cache_with [bid2; bid1]) [bid2; bid1] fresh_state open_auction.1.1 open_auction.1.2 open_auction.2
    zero_floor ltac:(by_compute) ltac:(by_compute)) as (_ & _ & _ & Hs).
  exact (proj1 (Hs eq_refl eq_refl)).
Defined.

Lemma order_irrelevant_witness : open_auction.2 = open_auction'.2 /\ ad_Bid open_auction'.2 = Some bid2.
Proof.
  split; [|by_compute].
  refine (order_irrelevant second_price_auction second_price_ok sample_request [dsp_bid 120] [dsp_bid 120] 5 (7 * Second)
    (cache_with [bid2; bid1]) (cache_with [bid1; bid2]) [bid2; bid1] [bid1; bid2] fresh_state _ _
    zero_floor ltac:(by_compute) ltac:(by_compute) eq_refl eq_refl _ _ eq_refl eq_refl).
  - exact (perm_swap _ _ _).
  - apply (bool_decide_unpack _). by_compute.
Defined.

Lemma lower_priority_irrelevant_witness :
  ad_Bid deal_auction.2 = Some deal_bid /\ ad_ClearingPriceMicros deal_only_auction.2 = ad_ClearingPriceMicros deal_auction.2.
Proof.
  assert (Hb : ad_Bid deal_auction.2 = Some deal_bid) by by_compute.
  split; [exact Hb|].
  exact (proj1 (proj2 (lower_priority_irrelevant second_price_auction second_price_ok sample_request [dsp_bid 120] 5 (7 * Second)
    (cache_with [deal_bid; bid2; bid1]) (cache_with [deal_bid]) [deal_bid; bid2; bid1] fresh_state deal_bid
    deal_auction.1.1 deal_auction.1.2 deal_auction.2 deal_only_auction.1.1 deal_only_auction.1.2 deal_only_auction.2
    zero_floor ltac:(by_compute) eq_refl eq_refl ltac:(by_compute) Hb ltac:(by_compute) ltac:(by_compute)))).
Defined.

(** The only rival of the winner offers nothing. *)
Definition zero_rival_auction := run second_price_auction sample_request [dsp_bid 0] 5 (7 * Second) (cache_with [bid1]).

Lemma clearing_price_bounds_witness :
  (ad_Bid open_auction.2 = Some bid2 /\ 0 <= ad_ClearingPriceMicros open_auction.2 <= effectivePrice bid2)
  /\ ad_Bid zero_rival_auction.2 = Some bid1
  /\ ad_ClearingPriceMicros zero_rival_auction.2 = price_floor sample_request bid1.
Proof.
  assert (Hb : ad_Bid open_auction.2 = Some bid2) by by_compute.
  assert (Hz : ad_Bid zero_rival_auction.2 = Some bid1) by by_compute.
  split; [split; [exact Hb|]|split; [exact Hz|]].
  - destruct (clearing_price_bounds second_price_auction second_price_ok sample_request [dsp_bid 120] 5 (7 * Second)
      (cache_with [bid2; bid1]) open_auction.1.1 open_auction.1.2 open_auction.2 bid2
      zero_floor ltac:(by_compute) Hb) as (_ & _ & Hlo & [_ Hhi] & _).
    split; [exact Hlo|exact Hhi].
  - destruct (clearing_price_bounds second_price_auction second_price_ok sample_request [dsp_bid 0] 5 (7 * Second)
      (cache_with [bid1]) zero_rival_auction.1.1 zero_rival_auction.1.2 zero_rival_auction.2 bid1
      zero_floor ltac:(by_compute) Hz) as (_ & _ & _ & _ & _ & Hs).
    destruct (Hs ltac:(by vm_compute)) as (rest & Hw & _ & Hfl). apply Hfl. intros x Hx _.
    assert (HE : eligible_candidates sample_request 7 (candidates_of [bid1] [dsp_bid 0])
      = [(bid1, ""); dynamic_candidate (dsp_bid 0)]) by by_compute.
    pose proof (wins_perm _ _ _ Hw) as Hp. change (time_Unix (7 * Second)) with 7 in Hp.
    change (BidCache_Get _ _ _).1 with [bid1] in Hp. rewrite HE in Hp.
    change (ad_DynamicBidderID _) with "" in Hp. apply Permutation_cons_inv, Permutation_singleton_l in Hp as <-.
    apply list_elem_of_singleton in Hx as ->. by vm_compute.
Defined.

Definition warmed := @Warm World sample_bid_store sample_clock sample_cache (mkWorld db_two []).
Definition warmed_auction := Run second_price_auction sample_request 5 (7 * Second) warmed.1.1.

Lemma registry_auction_witness :
  ad_Bid warmed_auction.2 = Some bid2 /\ active_bid sample_store db_two "top" bid2.
Proof.
  assert (Hb : ad_Bid warmed_auction.2 = Some bid2) by by_compute.
  split; [exact Hb|].
  pose proof (registry_auction sample_store map_to_list sample_clock sample_cache db_two second_price_auction sample_request
    5 (7 * Second) warmed.1.1 warmed.1.2 warmed.2 warmed_auction.1.1 warmed_auction.1.2 warmed_auction.2
    map_to_list_any_order db_two_Consistent second_price_ok zero_floor
    ltac:(apply (bool_decide_unpack _); by_compute)
    (eq_trans (surjective_pairing warmed) (f_equal (fun x => (x, warmed.2)) (surjective_pairing warmed.1)))
    ltac:(by_compute)) as Hm.
  cbv zeta in Hm. rewrite Hb in Hm. exact (proj1 (proj1 Hm)).
Defined.

Lemma cache_with_ok bids : snapshot_ok "top" (mkBidList bids 0) -> cache_ok (cache_with bids).
Proof. intros H. apply store_list_ok; [done|apply sample_cache_ok]. Qed.

Lemma two_bids_ok : snapshot_ok "top" (mkBidList [bid2; bid1] 0).
Proof.
  split_and!; [split|..].
  - repeat constructor; try (by vm_compute);
      (apply Bid_wf_dec_prop || apply (fun b H => proj1 (Bid_soundb_ok b H))); by_compute.
  - apply (bool_decide_unpack _). by_compute.
  - repeat constructor; by vm_compute.
  - split; vm_compute; discriminate.
Qed.

Definition plain_auction := Run second_price_auction sample_request 5 (7 * Second) (cache_with [bid2; bid1]).

Lemma first_eligible_wins_witness : ad_Bid plain_auction.2 = Some bid2.
Proof.
  rewrite (first_eligible_wins second_price_auction sample_request 5 (7 * Second) (cache_with [bid2; bid1])
    plain_auction.1.1 plain_auction.1.2 plain_auction.2 [bid2; bid1] fresh_state second_price_ok
    (cache_with_ok _ two_bids_ok) zero_floor ltac:(by_compute) eq_refl eq_refl ltac:(by_compute)).
  by_compute.
Defined.
