(* ===== verification/EngineInv.v ===== *)
(** * The invariant of the bidder engine

    What every thread and every token of the engine satisfy, that each step of each
    goroutine preserves it, what the constructor establishes, and the measure of the
    steps a refresh has left. The properties are in [EngineProps]. *)

From S2P Require Import Prelude GoInt GoTime GoString Types DynamicBids Breaker Engine.
Open Scope string_scope.
Open Scope list_scope.
Open Scope Z_scope.

(** ** What a thread holds *)

Definition worker_bidder (w : worker) : nat := match w with Calling i | Reported i => i end.
Definition is_calling (w : worker) : Prop := match w with Calling _ => True | Reported _ => False end.

#[export] Instance is_calling_dec w : Decision (is_calling w).
Proof. destruct w; apply _. Defined.

Definition callings (ws : list worker) : Z := Z.of_nat (length (filter is_calling ws)).

Lemma callings_middle ws1 w ws2 :
  callings (ws1 ++ w :: ws2) = callings (ws1 ++ ws2) + if decide (is_calling w) then 1 else 0.
Proof. unfold callings. rewrite !filter_app, filter_cons, !length_app. case_decide; simpl; lia. Qed.

Definition in_phase_loop (p : phase) : bool :=
  match p with Launching _ | Checking _ _ | Waiting => true | _ => false end.

(** Its refresh slot, its tokens of bidder [i], and the key it marks. *)
Definition slot (r : refresher) : Z :=
  match rf_phase r with Missed | Marked | Skipping => 0 | _ => 1 end.

Definition worker_tokens (i : nat) (ws : list worker) : Z :=
  Z.of_nat (length (filter (fun w => worker_bidder w = i) ws)).

Definition tokens (i : nat) (r : refresher) : Z :=
  worker_tokens i (rf_workers r)
  + match rf_phase r with Checking j _ => if decide (j = i) then 1 else 0 | _ => 0 end.

Definition owner (r : refresher) : option string :=
  match rf_phase r with Missed | Releasing => None | _ => Some (rf_key r) end.

(** ** The invariant *)

(** The parts of an engine that never change. *)
Definition static (e : BidderEngine) : BidderEngineConfig * list (string * BidderConfig) :=
  (be_config e, (fun b => (rt_id b, rt_config b)) <$> be_bidders e).

Definition bidder_ids (e : BidderEngine) : list string := (static e).2.*1.

(** A bid some bidder of the engine may offer for [placement]. *)
Definition offered (ids : list string) (placement : string) (d : DynamicBid) : Prop :=
  exists id, id ∈ ids /\ sanitized id placement d.

Definition phase_bidders (p : phase) : list nat :=
  match p with Launching todo => todo | Checking i todo => i :: todo | _ => [] end.

Record thread_inv (config : BidderEngineConfig) (ids : list string) (r : refresher) : Prop := {
  ti_started : 0 <= rf_started r <= ec_MaxFanout config;
  ti_checking i todo : rf_phase r = Checking i todo -> rf_started r < ec_MaxFanout config;
  ti_results : Z.of_nat (length (rf_results r)) + callings (rf_workers r) = rf_started r;
  ti_workers : Z.of_nat (length (rf_workers r)) <= rf_started r;
  ti_idle : in_phase_loop (rf_phase r) = false -> rf_workers r = [];
  ti_index w : w ∈ rf_workers r -> (worker_bidder w < length ids)%nat;
  ti_todo i : i ∈ phase_bidders (rf_phase r) -> (i < length ids)%nat;
  ti_request : exists request, rf_key r = dynamicCacheKey request /\ rf_request r = dsp_request request;
  ti_offers res : res ∈ rf_results r -> Forall (offered ids (dsp_PlacementID (rf_request r))) (res_bids res)
}.

(** Every cached list consists of bids offered for a request with that key. *)
Record cache_inv (ids : list string) (c : DynamicBidCache) : Prop := {
  ci_ok : dynamic_cache_ok c;
  ci_offers key l : dc_entries c !! key = Some l ->
    exists request, key = dynamicCacheKey request /\ Forall (offered ids (req_PlacementID request)) (dl_bids l)
}.

Record engine_inv (st : engine_state) : Prop := {
  ei_config : BidderEngineConfig_Validate (be_config (en_engine st)) = None;
  ei_cache : cache_inv (bidder_ids (en_engine st)) (be_cache (en_engine st));
  ei_slots : be_refreshSlots (en_engine st) = map_sum slot (en_threads st)
    /\ be_refreshSlots (en_engine st) <= ec_MaxConcurrentRefreshes (be_config (en_engine st));
  ei_tokens i b : be_bidders (en_engine st) !! i = Some b ->
    rt_sem b = map_sum (tokens i) (en_threads st) /\ rt_sem b <= bcfg_MaxConcurrent (rt_config b);
  ei_threads tid r : en_threads st !! tid = Some r ->
    thread_inv (be_config (en_engine st)) (bidder_ids (en_engine st)) r;
  ei_marks : marks_ok owner (be_inflight (en_engine st)) (en_threads st)
}.

(** What one step of a thread does, in terms of the invariant. *)
Record local_step (r : refresher) (e : BidderEngine) (r2 : option refresher) (e2 : BidderEngine) : Prop := {
  ls_static : static e2 = static e;
  ls_cache : cache_inv (bidder_ids e) (be_cache e) ->
    cache_inv (bidder_ids e) (be_cache e2) /\ dc_maxKeys (be_cache e2) = dc_maxKeys (be_cache e);
  ls_slots : be_refreshSlots e2 = be_refreshSlots e - slot r + from_option slot 0 r2;
  ls_slots_bound : be_refreshSlots e <= ec_MaxConcurrentRefreshes (be_config e) ->
    be_refreshSlots e2 <= ec_MaxConcurrentRefreshes (be_config e);
  ls_tokens i b b2 : be_bidders e !! i = Some b -> be_bidders e2 !! i = Some b2 ->
    rt_sem b2 = rt_sem b - tokens i r + from_option (tokens i) 0 r2
    /\ (rt_sem b <= bcfg_MaxConcurrent (rt_config b) -> rt_sem b2 <= bcfg_MaxConcurrent (rt_config b));
  ls_thread r' : r2 = Some r' -> thread_inv (be_config e) (bidder_ids e) r';
  ls_marks : ((r2 ≫= owner) = owner r /\ be_inflight e2 = be_inflight e)
    \/ (exists k, owner r = Some k /\ (r2 ≫= owner) = None /\ be_inflight e2 = be_inflight e ∖ {[k]})
    \/ (exists k, owner r = None /\ (r2 ≫= owner) = Some k /\ (k ∉ be_inflight e) /\ be_inflight e2 = {[k]} ∪ be_inflight e)
}.

Lemma static_config e e2 : static e2 = static e -> be_config e2 = be_config e.
Proof. by intros [= ? _]. Qed.

Lemma static_bidder e e2 i b2 :
  static e2 = static e -> be_bidders e2 !! i = Some b2 ->
  exists b, be_bidders e !! i = Some b /\ rt_id b2 = rt_id b /\ rt_config b2 = rt_config b.
Proof.
  intros [= _ Hs] Hb. assert (Hl : ((fun b => (rt_id b, rt_config b)) <$> be_bidders e2) !! i = Some (rt_id b2, rt_config b2))
    by (by rewrite list_lookup_fmap, Hb).
  rewrite Hs, list_lookup_fmap in Hl. destruct (be_bidders e !! i) as [b|]; [|done]. injection Hl as ? ?. eauto.
Qed.

(** A local step of a thread preserves the invariant of the whole. *)
Lemma local_step_inv st tid r r2 e2 :
  engine_inv st -> en_threads st !! tid = Some r -> local_step r (en_engine st) r2 e2 ->
  engine_inv (mkEngineState e2 (en_now st) (partial_alter (fun _ => r2) tid (en_threads st))).
Proof.
  intros [Hcfg Hcache [Hslots Hmax] Htok Hthr Hmarks] Hr Hls. pose proof Hls as [Hs Hc Hsl Hsb Htk Hth Hmk].
  assert (Hids : bidder_ids e2 = bidder_ids (en_engine st)) by (unfold bidder_ids; by rewrite Hs).
  constructor; simpl; rewrite ?Hids, ?(static_config _ _ Hs); [done|by apply Hc|..].
  - split; [|auto]. by rewrite (map_sum_alter _ _ _ _ _ Hr), Hsl, Hslots.
  - intros i b2 Hb2. destruct (static_bidder _ _ _ _ Hs Hb2) as (b & Hb & _ & Hcf).
    destruct (Htok i b Hb) as [He Hle]. destruct (Htk i b b2 Hb Hb2) as [He2 Hle2].
    rewrite Hcf, (map_sum_alter _ _ _ _ _ Hr), He2, He. split; [done|]. rewrite <- He, <- He2. auto.
  - intros tid' r' Hl. destruct (decide (tid' = tid)) as [->|Hne].
    + rewrite lookup_partial_alter_eq in Hl. auto.
    + rewrite lookup_partial_alter_ne in Hl by done. eauto.
  - fold (set_thread tid r2 (en_threads st)). destruct Hmk as [[Ho ->]|[(k & Hk & Ho & ->)|(k & Hk & Ho & Hn & ->)]].
    + apply marks_keep; [done|]. by rewrite Hr.
    + apply marks_release; [done| |done]. unfold holds. by rewrite Hr.
    + apply marks_acquire; [done|done| |done]. by rewrite Hr.
Qed.

(** ** Steps that leave the bidders alone *)

Lemma tokens_same i r r' :
  rf_workers r' = rf_workers r -> (forall j todo, rf_phase r <> Checking j todo) ->
  (forall j todo, rf_phase r' <> Checking j todo) -> tokens i r' = tokens i r.
Proof.
  intros Hw Hp Hp'. unfold tokens. rewrite Hw. f_equal.
  destruct (rf_phase r) eqn:E, (rf_phase r') eqn:E'; naive_solver.
Qed.

Lemma tokens_idle i r config ids :
  thread_inv config ids r -> in_phase_loop (rf_phase r) = false -> tokens i r = 0.
Proof.
  intros Hi Hp. unfold tokens. rewrite (ti_idle _ _ _ Hi Hp). by destruct (rf_phase r).
Qed.

(** A change of phase only. *)
Lemma thread_inv_phase config ids r p :
  thread_inv config ids r ->
  (forall i todo, p = Checking i todo -> rf_started r < ec_MaxFanout config) ->
  (in_phase_loop p = false -> rf_workers r = []) ->
  (forall i, i ∈ phase_bidders p -> (i < length ids)%nat) ->
  thread_inv config ids {| r with rf_phase := p |}.
Proof. intros [] Hc Hi Ht. by constructor. Qed.

(** A step that leaves the bidders and the cache alone. *)
Lemma local_step_plain r e r2 e2 :
  be_config e2 = be_config e -> be_bidders e2 = be_bidders e -> be_cache e2 = be_cache e ->
  (forall i, from_option (tokens i) 0 r2 = tokens i r) ->
  be_refreshSlots e2 = be_refreshSlots e - slot r + from_option slot 0 r2 ->
  (be_refreshSlots e <= ec_MaxConcurrentRefreshes (be_config e) ->
   be_refreshSlots e2 <= ec_MaxConcurrentRefreshes (be_config e)) ->
  (forall r', r2 = Some r' -> thread_inv (be_config e) (bidder_ids e) r') ->
  ((r2 ≫= owner) = owner r /\ be_inflight e2 = be_inflight e)
    \/ (exists k, owner r = Some k /\ (r2 ≫= owner) = None /\ be_inflight e2 = be_inflight e ∖ {[k]})
    \/ (exists k, owner r = None /\ (r2 ≫= owner) = Some k /\ (k ∉ be_inflight e) /\ be_inflight e2 = {[k]} ∪ be_inflight e) ->
  local_step r e r2 e2.
Proof.
  intros Hc Hb Hca Ht Hs Hsb Hth Hm. constructor; try done.
  - unfold static. by rewrite Hc, Hb.
  - by rewrite Hca.
  - intros i b b2 H1 H2. rewrite Hb, H1 in H2. injection H2 as <-. rewrite Ht. split; [lia|done].
Qed.

(** A step that replaces the breaker and the token count of bidder [i], keeps the
    slot and the mark, and may count in the statistics. *)
Lemma local_step_bidder r e r2 e2 i bidder breaker sem :
  be_bidders e !! i = Some bidder ->
  be_config e2 = be_config e -> be_cache e2 = be_cache e -> be_refreshSlots e2 = be_refreshSlots e ->
  be_inflight e2 = be_inflight e ->
  be_bidders e2 = <[i := {| bidder with rt_breaker := breaker; rt_sem := sem |}]> (be_bidders e) ->
  slot r2 = slot r -> owner r2 = owner r ->
  (forall j, tokens j r2 = tokens j r + (if decide (j = i) then sem - rt_sem bidder else 0)) ->
  sem <= Z.max (rt_sem bidder) (bcfg_MaxConcurrent (rt_config bidder)) ->
  thread_inv (be_config e) (bidder_ids e) r2 ->
  local_step r e (Some r2) e2.
Proof.
  intros Hi Hc Hca Hsl Hin Hb Hslot Hown Htok Hsem Hth. constructor; simpl.
  - unfold static. rewrite Hc, Hb, list_fmap_insert. f_equal.
    apply list_insert_id. by rewrite list_lookup_fmap, Hi.
  - by rewrite Hca.
  - rewrite Hsl, Hslot. lia.
  - by rewrite Hsl.
  - intros j b b2 Hj Hj2. rewrite Hb in Hj2. rewrite Htok. destruct (decide (j = i)) as [->|Hne].
    + rewrite list_lookup_insert_eq in Hj2 by (by eapply lookup_lt_Some). rewrite Hi in Hj. simplify_eq. simpl. lia.
    + rewrite list_lookup_insert_ne, Hj in Hj2 by done. injection Hj2 as <-. split; [lia|done].
  - by intros r' [= <-].
  - left. by rewrite Hown, Hin.
Qed.

Lemma trigger_step_local r e r2 e2 :
  thread_inv (be_config e) (bidder_ids e) r -> trigger_step r e = Some (r2, e2) -> local_step r e r2 e2.
Proof.
  intros Hi Hs. pose proof (fun i Hp => tokens_idle i r _ _ Hi Hp) as Ht. pose proof (ti_idle _ _ _ Hi) as Hw.
  unfold trigger_step in Hs. destruct (rf_phase r) eqn:Ep; try done; simpl in Ht, Hw.
  - case_decide as Hd; injection Hs as <- <-; apply local_step_plain; try done; simpl.
    + intros i. by rewrite Ht.
    + unfold slot. rewrite Ep. lia.
    + left. unfold owner. by rewrite Ep.
    + intros i. by rewrite (tokens_same i r) by (simpl; congruence).
    + unfold slot. rewrite Ep. simpl. lia.
    + intros r' [= <-]. apply thread_inv_phase; simpl; try done; auto; by intros i ?%elem_of_nil.
    + right; right. exists (rf_key r). unfold owner. by rewrite Ep.
  - case_test; bool_hyps; injection Hs as <- <-; apply local_step_plain; try done; simpl.
    + intros i. by rewrite (tokens_same i r) by (simpl; congruence).
    + unfold slot. rewrite Ep. simpl. lia.
    + lia.
    + intros r' [= <-]. apply thread_inv_phase; simpl; try done; auto; by intros i ?%elem_of_nil.
    + left. unfold owner. by rewrite Ep.
    + intros i. by rewrite (tokens_same i r) by (simpl; congruence).
    + unfold slot. rewrite Ep. simpl. lia.
    + intros r' [= <-]. apply thread_inv_phase; simpl; try done; auto; by intros i ?%elem_of_nil.
    + left. unfold owner. by rewrite Ep.
  - injection Hs as <- <-. apply local_step_plain; try done; simpl.
    + intros i. by rewrite Ht.
    + unfold slot. rewrite Ep. lia.
    + right; left. exists (rf_key r). unfold owner. by rewrite Ep.
Qed.

Lemma finish_local r e r2 e2 :
  thread_inv (be_config e) (bidder_ids e) r -> finish r e = Some (r2, e2) -> local_step r e r2 e2.
Proof.
  intros Hi Hs. pose proof (fun i Hp => tokens_idle i r _ _ Hi Hp) as Ht. pose proof (ti_idle _ _ _ Hi) as Hw.
  unfold finish in Hs. destruct (rf_phase r) eqn:Ep; try done; simpl in Ht, Hw;
    injection Hs as <- <-; apply local_step_plain; try done; simpl.
  - intros i. by rewrite (tokens_same i r) by (simpl; congruence).
  - unfold slot. rewrite Ep. simpl. lia.
  - intros r' [= <-]. apply thread_inv_phase; simpl; try done; auto; by intros i ?%elem_of_nil.
  - right; left. exists (rf_key r). unfold owner. by rewrite Ep.
  - intros i. by rewrite Ht.
  - unfold slot. rewrite Ep. lia.
  - lia.
  - left. unfold owner. by rewrite Ep.
Qed.

Lemma length_bidder_ids e : length (bidder_ids e) = length (be_bidders e).
Proof. unfold bidder_ids, static. simpl. by rewrite !length_fmap. Qed.

(** A change of phase of a refresh that holds its slot and its mark. *)
Definition holds_slot (p : phase) : bool :=
  match p with Missed | Marked | Skipping | Releasing => false | _ => true end.

Lemma slot_phase r p : holds_slot (rf_phase r) = true -> holds_slot p = true ->
  slot {| r with rf_phase := p |} = slot r /\ owner {| r with rf_phase := p |} = owner r.
Proof. unfold slot, owner. simpl. by destruct (rf_phase r), p. Qed.

Lemma phase_local r e p e2 :
  thread_inv (be_config e) (bidder_ids e) r ->
  holds_slot (rf_phase r) = true -> holds_slot p = true ->
  (forall j todo, rf_phase r <> Checking j todo) -> (forall j todo, p <> Checking j todo) ->
  (in_phase_loop p = false -> rf_workers r = []) ->
  (forall i, i ∈ phase_bidders p -> (i < length (bidder_ids e))%nat) ->
  be_config e2 = be_config e -> be_bidders e2 = be_bidders e -> be_cache e2 = be_cache e ->
  be_refreshSlots e2 = be_refreshSlots e -> be_inflight e2 = be_inflight e ->
  local_step r e (Some {| r with rf_phase := p |}) e2.
Proof.
  intros Hi Hp1 Hp2 Hc1 Hc2 Hw Ht Hcfg Hb Hca Hs Hin. destruct (slot_phase r p Hp1 Hp2) as [Hsl Hown].
  apply local_step_plain; simpl; try done.
  - intros i. by apply tokens_same.
  - rewrite Hs, Hsl. lia.
  - by rewrite Hs.
  - intros r' [= <-]. apply thread_inv_phase; auto. intros i todo ->. by destruct (Hc2 i todo).
  - left. by rewrite Hown, Hin.
Qed.

Lemma worker_tokens_app i ws ws2 : worker_tokens i (ws ++ ws2) = worker_tokens i ws + worker_tokens i ws2.
Proof. unfold worker_tokens. rewrite filter_app, length_app. lia. Qed.

Lemma worker_tokens_single i w : worker_tokens i [w] = if decide (i = worker_bidder w) then 1 else 0.
Proof. unfold worker_tokens. rewrite filter_cons. repeat case_decide; simplify_eq; done. Qed.

Lemma try_token_local i todo r e r2 e2 :
  thread_inv (be_config e) (bidder_ids e) r -> rf_phase r = Launching (i :: todo) ->
  rf_started r <> ec_MaxFanout (be_config e) ->
  try_token i todo r e = Some (r2, e2) -> local_step r e (Some r2) e2.
Proof.
  intros Hi Hp Hne Hs. unfold try_token in Hs. destruct (be_bidders e !! i) as [b|] eqn:Hb; [|done].
  pose proof (ti_started _ _ _ Hi) as Hst. pose proof (ti_todo _ _ _ Hi) as Htodo. rewrite Hp in Htodo. simpl in Htodo.
  case_test; bool_hyps; injection Hs as <- <-.
  - apply (local_step_bidder _ _ _ _ i b (rt_breaker b) (rt_sem b + 1)); simpl; try done; try lia.
    + unfold slot. by rewrite Hp.
    + unfold owner. by rewrite Hp.
    + intros j. unfold tokens. simpl. rewrite Hp. repeat case_decide; subst; try done; lia.
    + apply thread_inv_phase; simpl; try done. intros _ _ _. lia.
  - apply phase_local; try done; try (by rewrite Hp). intros j Hj. apply Htodo. by right.
Qed.

Lemma launch_local i todo now r e r2 e2 :
  BidderEngineConfig_Validate (be_config e) = None ->
  thread_inv (be_config e) (bidder_ids e) r -> rf_phase r = Checking i todo ->
  launch i todo now r e = Some (r2, e2) -> local_step r e (Some r2) e2.
Proof.
  intros Hcfg Hi Hp Hs. unfold launch in Hs. destruct (be_bidders e !! i) as [b|] eqn:Hb; [|done].
  pose proof (ti_started _ _ _ Hi) as Hst. pose proof (ti_todo _ _ _ Hi) as Htodo. rewrite Hp in Htodo. simpl in Htodo.
  pose proof (ti_checking _ _ _ Hi i todo Hp) as Hlt.
  assert (Hfan : ec_MaxFanout (be_config e) <= 64).
  { unfold BidderEngineConfig_Validate in Hcfg. case_test; [done|]. bool_hyps. lia. }
  destruct (Allow now (rt_breaker b)) as [breaker []]; simpl in Hs; injection Hs as <- <-.
  - apply (local_step_bidder _ _ _ _ i b breaker (rt_sem b)); simpl; try done; try lia.
    + unfold slot. by rewrite Hp.
    + unfold owner. by rewrite Hp.
    + intros j. unfold tokens. simpl. rewrite Hp, worker_tokens_app, worker_tokens_single. simpl.
      repeat case_decide; subst; try done; lia.
    + destruct Hi as [H1 H2 H3 H4 H5 H6 H7 H8 H9]. rewrite int64_id by (unfold_int; lia).
      constructor; simpl; try done; try lia.
      * rewrite callings_middle, app_nil_r. simpl. lia.
      * rewrite length_app. simpl. lia.
      * intros w [?|Hw%list_elem_of_singleton]%elem_of_app; [auto|]. subst w. apply Htodo. by left.
      * intros j Hj. apply Htodo. by right.
  - apply (local_step_bidder _ _ _ _ i b breaker (rt_sem b - 1)); simpl; try done; try lia.
    + unfold slot. by rewrite Hp.
    + unfold owner. by rewrite Hp.
    + intros j. unfold tokens. simpl. rewrite Hp. repeat case_decide; subst; try done; lia.
    + apply thread_inv_phase; simpl; try done. intros j Hj. apply Htodo. by right.
Qed.

Lemma advance_local now r e r2 e2 :
  BidderEngineConfig_Validate (be_config e) = None ->
  thread_inv (be_config e) (bidder_ids e) r -> advance now r e = Some (r2, e2) -> local_step r e (Some r2) e2.
Proof.
  intros Hcfg Hi Hs. unfold advance in Hs. destruct (rf_phase r) as [| | | |[|i todo]|i todo| | |] eqn:Hp; try done.
  - injection Hs as <- <-. apply phase_local; try done; try (by rewrite Hp).
    intros i Hin. simpl in Hin. apply elem_of_seq in Hin. rewrite length_bidder_ids. lia.
  - injection Hs as <- <-. apply phase_local; try done; try (by rewrite Hp). by intros i ?%elem_of_nil.
  - destruct (Z.eqb_spec (rf_started r) (ec_MaxFanout (be_config e))) as [He|Hne].
    + injection Hs as <- <-. apply phase_local; try done; try (by rewrite Hp). by intros j ?%elem_of_nil.
    + by eapply try_token_local.
  - by eapply launch_local.
Qed.

(** ** Steps of the workers *)

Lemma worker_split ws n (w : worker) :
  ws !! n = Some w -> exists ws1 ws2, ws = ws1 ++ w :: ws2 /\ (forall w', <[n:=w']> ws = ws1 ++ w' :: ws2)
    /\ delete n ws = ws1 ++ ws2.
Proof.
  intros Hw. exists (take n ws), (drop (S n) ws). split_and!.
  - symmetry. by apply take_drop_middle.
  - intros w'. apply insert_take_drop. by eapply lookup_lt_Some.
  - apply delete_take_drop.
Qed.

Lemma worker_phase config ids r n w :
  thread_inv config ids r -> rf_workers r !! n = Some w -> in_phase_loop (rf_phase r) = true.
Proof.
  intros Hi Hw. destruct (in_phase_loop (rf_phase r)) eqn:E; [done|].
  by rewrite (ti_idle _ _ _ Hi E) in Hw.
Qed.

(** A change of the workers and the results of a refresh in its loop. *)
Lemma slot_owner_loop r ws res :
  slot {| r with rf_workers := ws; rf_results := res |} = slot r
  /\ owner {| r with rf_workers := ws; rf_results := res |} = owner r.
Proof. done. Qed.

Lemma report_local n outcome now r e r2 e2 :
  thread_inv (be_config e) (bidder_ids e) r -> report n outcome now r e = Some (r2, e2) -> local_step r e (Some r2) e2.
Proof.
  intros Hi Hs. unfold report in Hs. destruct (rf_workers r !! n) as [[i|i]|] eqn:Hw; try done.
  destruct (be_bidders e !! i) as [b|] eqn:Hb; [|done]. case_test; [done|].
  pose proof (worker_phase _ _ _ _ _ Hi Hw) as Hph.
  destruct (worker_split _ _ _ Hw) as (ws1 & ws2 & Hws & Hins & _).
  assert (Hgo : forall breaker result e3,
    be_config e3 = be_config e -> be_bidders e3 = be_bidders e -> be_cache e3 = be_cache e ->
    be_refreshSlots e3 = be_refreshSlots e -> be_inflight e3 = be_inflight e ->
    Forall (offered (bidder_ids e) (dsp_PlacementID (rf_request r))) (res_bids result) ->
    local_step r e (Some {| r with rf_workers := <[n:=Reported i]> (rf_workers r); rf_results := rf_results r ++ [result] |})
      (set_bidder i b breaker (rt_sem b) e3)).
  { intros breaker result e3 Hc Hbb Hca Hsl Hinf Hoff.
    apply (local_step_bidder _ _ _ _ i b breaker (rt_sem b)); simpl; try done; try lia.
    - by rewrite Hbb.
    - intros j. unfold tokens. simpl. rewrite Hins, Hws. change (Reported i :: ws2) with ([Reported i] ++ ws2).
      change (Calling i :: ws2) with ([Calling i] ++ ws2). rewrite !worker_tokens_app, !worker_tokens_single. simpl.
      case_decide; lia.
    - destruct Hi as [H1 H2 H3 H4 H5 H6 H7 H8 H9]. constructor; simpl; try done.
      + rewrite length_app, Hins. rewrite Hws in H3. rewrite !callings_middle in *. simpl in *. lia.
      + by rewrite length_insert.
      + by rewrite Hph.
      + intros w Hin. rewrite Hins in Hin. rewrite Hws in H6.
        apply elem_of_app in Hin as [?|[Hw0|?]%elem_of_cons]; [apply H6; set_solver| |apply H6; set_solver].
        subst w. apply (H6 (Calling i)). set_solver.
      + intros res [?|Hr%list_elem_of_singleton]%elem_of_app; [auto|by subst res]. }
  destruct outcome as [deadline|bids]; injection Hs as <- <-; [by apply Hgo|]. apply Hgo; try done. simpl.
  eapply Forall_impl; [apply sanitizeDynamicBids_ok|]. intros d Hd. exists (rt_id b). split; [|done].
  unfold bidder_ids, static. simpl. apply list_elem_of_fmap. exists (rt_id b, rt_config b). split; [done|].
  apply list_elem_of_fmap. exists b. split; [done|]. by eapply list_elem_of_lookup_2.
Qed.

Lemma release_local n r e r2 e2 :
  thread_inv (be_config e) (bidder_ids e) r -> release n r e = Some (r2, e2) -> local_step r e (Some r2) e2.
Proof.
  intros Hi Hs. unfold release in Hs. destruct (rf_workers r !! n) as [[i|i]|] eqn:Hw; try done.
  destruct (be_bidders e !! i) as [b|] eqn:Hb; [|done]. injection Hs as <- <-.
  pose proof (worker_phase _ _ _ _ _ Hi Hw) as Hph.
  destruct (worker_split _ _ _ Hw) as (ws1 & ws2 & Hws & _ & Hdel).
  apply (local_step_bidder _ _ _ _ i b (rt_breaker b) (rt_sem b - 1)); simpl; try done; try lia.
  - intros j. unfold tokens. simpl. rewrite Hdel, Hws. change (Reported i :: ws2) with ([Reported i] ++ ws2).
    rewrite !worker_tokens_app, !worker_tokens_single. simpl. repeat case_decide; lia.
  - destruct Hi as [H1 H2 H3 H4 H5 H6 H7 H8 H9]. constructor; simpl; try done.
    + rewrite Hdel. rewrite Hws, callings_middle in H3. simpl in H3. lia.
    + rewrite Hdel. rewrite Hws in H4. rewrite length_app in *. simpl in H4. lia.
    + by rewrite Hph.
    + intros w Hin. rewrite Hdel in Hin. apply H6. rewrite Hws. set_solver.
Qed.

Lemma gathered_offers ids placement results :
  (forall res, res ∈ results -> Forall (offered ids placement) (res_bids res)) ->
  Forall (offered ids placement) (gathered results).
Proof.
  intros Hall. unfold gathered. apply Forall_bind. apply Forall_forall. intros res Hres.
  simpl. destruct (res_success res); [by apply Hall|constructor].
Qed.

Lemma store_local range now later r e r2 e2 :
  any_entry_order range -> thread_inv (be_config e) (bidder_ids e) r ->
  store_results range now later r e = Some (r2, e2) -> local_step r e (Some r2) e2.
Proof.
  intros Hrg Hi Hs. unfold store_results in Hs. destruct (rf_phase r) eqn:Hp; try done.
  destruct (rf_workers r) eqn:Hw; [|done].
  destruct (DynamicBidCache_Put _ _ _ _ _ _ _) as [cache ok] eqn:Hput. injection Hs as <- <-. rewrite <- Hw.
  destruct (ti_request _ _ _ Hi) as (request & Hkey & Hreq).
  assert (Hcache : cache_inv (bidder_ids e) (be_cache e) ->
    cache_inv (bidder_ids e) cache /\ dc_maxKeys cache = dc_maxKeys (be_cache e)).
  { intros [Hok Hoff]. destruct (Put_spec _ _ _ _ _ _ _ _ _ Hok Hrg Hput) as (Hok2 & Hmk & _).
    split; [|exact Hmk]. constructor; [done|].
    intros key l Hl. destruct (Put_entries _ _ _ _ _ _ _ _ _ _ _ Hok Hrg Hput Hl) as [[-> ->]|?]; [|auto].
    exists request. split; [done|]. simpl. apply gathered_offers. intros res Hres.
    pose proof (ti_offers _ _ _ Hi res Hres) as Ho. by rewrite Hreq in Ho. }
  set (r2 := {| r with rf_phase := Unmarking |}).
  assert (Hth : thread_inv (be_config e) (bidder_ids e) r2).
  { apply thread_inv_phase; try done. by intros i ?%elem_of_nil. }
  assert (Ht : forall i, tokens i r2 = tokens i r) by (intros i; apply tokens_same; simpl; congruence).
  assert (Hso : slot r2 = slot r /\ owner r2 = owner r) by (apply slot_phase; by rewrite ?Hp).
  destruct Hso as [Hsl Hown]. clearbody r2.
  destruct ok; (constructor; simpl;
    [done|done|lia|done
    |intros i b b2 Hb Hb2; rewrite Ht; rewrite Hb in Hb2; injection Hb2 as <-; split; [lia|done]
    |by intros r' [= <-]
    |left; by rewrite Hown]).
Qed.

(** ** Every event preserves the invariant *)

Definition engine_event_ok (ev : engine_event) : Prop :=
  match ev with XStore _ range _ => any_entry_order range | _ => True end.

Definition engine_step (st st2 : engine_state) : Prop :=
  exists ev, engine_event_ok ev /\ engine_exec ev st = Some st2.

Lemma thread_does_inv st tid f st2 :
  engine_inv st ->
  (forall r r2 e2, thread_inv (be_config (en_engine st)) (bidder_ids (en_engine st)) r ->
     f r (en_engine st) = Some (r2, e2) -> local_step r (en_engine st) r2 e2) ->
  thread_does tid f st = Some st2 -> engine_inv st2.
Proof.
  intros Hinv Hf Hx. unfold thread_does in Hx. destruct (en_threads st !! tid) as [r|] eqn:Hr; [|done].
  destruct (f r (en_engine st)) as [[r2 e2]|] eqn:Ef; [|done]. injection Hx as <-.
  apply (local_step_inv st tid r r2 e2 Hinv Hr), Hf; [by apply (ei_threads _ Hinv tid)|done].
Qed.

Lemma keep_some f r e r2 e2 : keep f r e = Some (r2, e2) -> exists r', r2 = Some r' /\ f r e = Some (r', e2).
Proof. unfold keep. destruct (f r e) as [[r' e']|]; [|done]. intros [= <- <-]. eauto. Qed.

(** An event that leaves the threads, the cache, the bidders and the limits alone. *)
Lemma engine_inv_same st e now :
  engine_inv st -> be_config e = be_config (en_engine st) -> be_bidders e = be_bidders (en_engine st) ->
  be_cache e = be_cache (en_engine st) -> be_refreshSlots e = be_refreshSlots (en_engine st) ->
  be_inflight e = be_inflight (en_engine st) -> engine_inv (mkEngineState e now (en_threads st)).
Proof.
  intros [H1 H2 H3 H4 H5 H6] Hc Hb Hca Hs Hi.
  assert (Hids : bidder_ids e = bidder_ids (en_engine st)) by (unfold bidder_ids, static; simpl; by rewrite Hb).
  constructor; simpl; rewrite ?Hids, ?Hc, ?Hb, ?Hca, ?Hs, ?Hi; done.
Qed.

Lemma new_refresher_inv config ids request :
  BidderEngineConfig_Validate config = None -> thread_inv config ids (new_refresher request).
Proof.
  intros Hc. unfold BidderEngineConfig_Validate in Hc. case_test; [done|]. bool_hyps.
  constructor; simpl; try done; try lia; [by intros w ?%elem_of_nil|by intros w ?%elem_of_nil|eauto|by intros w ?%elem_of_nil].
Qed.

Lemma engine_exec_inv ev st st2 :
  engine_inv st -> engine_event_ok ev -> engine_exec ev st = Some st2 -> engine_inv st2.
Proof.
  intros Hinv Hev Hx. pose proof (ei_config _ Hinv) as Hcfg.
  destruct ev as [request|tid request|tid|tid|tid n outcome|tid n|tid range later|tid| |now]; simpl in Hx.
  - injection Hx as <-. unfold Lookup. destruct (DynamicBidCache_Get _ _ _); by apply engine_inv_same.
  - destruct (en_threads st !! tid) eqn:Hn; [done|]. case_test; [|by injection Hx as <-]. injection Hx as <-.
    destruct Hinv as [H1 H2 [H3 H3'] H4 H5 H6]. constructor; simpl; try done.
    + by rewrite map_sum_insert.
    + intros i b Hb. rewrite map_sum_insert by done. destruct (H4 i b Hb) as [-> ?]. split; [|done].
      unfold tokens at 2. simpl. unfold worker_tokens. simpl. lia.
    + intros tid' r. rewrite lookup_insert. case_decide; [intros [= <-]; by apply new_refresher_inv|by apply H5].
    + change (marks_ok owner (be_inflight (en_engine st)) (set_thread tid (Some (new_refresher request)) (en_threads st))).
      apply marks_keep; [done|]. by rewrite Hn.
  - refine (thread_does_inv st tid _ st2 Hinv _ Hx). intros r r2 e2 Hi Hs. by apply trigger_step_local.
  - refine (thread_does_inv st tid _ st2 Hinv _ Hx). intros r r2 e2 Hi (r' & -> & Hs)%keep_some. by eapply advance_local.
  - refine (thread_does_inv st tid _ st2 Hinv _ Hx). intros r r2 e2 Hi (r' & -> & Hs)%keep_some. by eapply report_local.
  - refine (thread_does_inv st tid _ st2 Hinv _ Hx). intros r r2 e2 Hi (r' & -> & Hs)%keep_some. by eapply release_local.
  - refine (thread_does_inv st tid _ st2 Hinv _ Hx). intros r r2 e2 Hi (r' & -> & Hs)%keep_some. by eapply store_local.
  - refine (thread_does_inv st tid _ st2 Hinv _ Hx). intros r r2 e2 Hi Hs. by apply finish_local.
  - injection Hx as <-. by apply engine_inv_same.
  - case_test; [|done]. injection Hx as <-. by apply engine_inv_same.
Qed.

(** No event changes the limits and the bidders; only time passes the clock on. *)
Lemma engine_exec_frame ev st st2 :
  engine_inv st -> engine_event_ok ev -> engine_exec ev st = Some st2 ->
  static (en_engine st2) = static (en_engine st)
  /\ (match ev with XTime _ => True | _ => en_now st2 = en_now st end)
  /\ dc_maxKeys (be_cache (en_engine st2)) = dc_maxKeys (be_cache (en_engine st)).
Proof.
  intros Hinv Hev Hx. pose proof (ei_config _ Hinv) as Hcfg.
  assert (Hdoes : forall tid f, thread_does tid f st = Some st2 ->
    (forall r r2 e2, thread_inv (be_config (en_engine st)) (bidder_ids (en_engine st)) r ->
       f r (en_engine st) = Some (r2, e2) -> local_step r (en_engine st) r2 e2) ->
    static (en_engine st2) = static (en_engine st) /\ en_now st2 = en_now st
    /\ dc_maxKeys (be_cache (en_engine st2)) = dc_maxKeys (be_cache (en_engine st))).
  { intros tid f Hd Hf. unfold thread_does in Hd. destruct (en_threads st !! tid) as [r|] eqn:Hr; [|done].
    destruct (f r (en_engine st)) as [[r2 e2]|] eqn:Ef; [|done]. injection Hd as <-.
    destruct (Hf r r2 e2 (ei_threads _ Hinv tid r Hr) Ef) as [Hs Hc _ _ _ _ _]. split_and!; [done|done|].
    by apply Hc, (ei_cache _ Hinv). }
  destruct ev as [request|tid request|tid|tid|tid n outcome|tid n|tid range later|tid| |now]; simpl in Hx.
  - injection Hx as <-. unfold Lookup. by destruct (DynamicBidCache_Get _ _ _).
  - destruct (en_threads st !! tid); [done|]. case_test; by injection Hx as <-.
  - apply (Hdoes _ _ Hx). intros r r2 e2 Hi Hs. by apply trigger_step_local.
  - apply (Hdoes _ _ Hx). intros r r2 e2 Hi (r' & -> & Hs)%keep_some. by eapply advance_local.
  - apply (Hdoes _ _ Hx). intros r r2 e2 Hi (r' & -> & Hs)%keep_some. by eapply report_local.
  - apply (Hdoes _ _ Hx). intros r r2 e2 Hi (r' & -> & Hs)%keep_some. by eapply release_local.
  - apply (Hdoes _ _ Hx). intros r r2 e2 Hi (r' & -> & Hs)%keep_some. by eapply store_local.
  - apply (Hdoes _ _ Hx). intros r r2 e2 Hi Hs. by apply finish_local.
  - by injection Hx as <-.
  - case_test; [|done]. by injection Hx as <-.
Qed.

(** ** Construction *)

(** What the constructor guarantees of each bidder: a valid ID, limits in range, no
    token taken and a closed breaker. *)
Record fresh_runtime (b : bidderRuntime) : Prop := {
  fr_id : validBidderID (rt_id b) = true;
  fr_timeout : 0 < bcfg_Timeout (rt_config b) <= 10 * Second;
  fr_concurrent : 1 <= bcfg_MaxConcurrent (rt_config b) <= 1024;
  fr_sem : rt_sem b = 0;
  fr_breaker : rt_breaker b = newCircuitBreaker (bcfg_FailureThreshold (rt_config b)) (bcfg_CircuitOpenFor (rt_config b))
}.

Lemma new_runtime_ok seen c b :
  new_runtime seen c = inr b -> fresh_runtime b /\ (rt_id b ∉ seen) /\ bcfg_Adapter c = Some (rt_id b).
Proof.
  unfold new_runtime. intros H. destruct (bcfg_Adapter c) as [id|] eqn:Ea; [|done].
  destruct (validBidderID id) eqn:Ev; [|done]. cbn [negb] in H. case_decide as Hd; [done|].
  change (60 *i Millisecond)%go with (60 * Millisecond) in H. change (10 *i Second)%go with (10 * Second) in H.
  set (c1 := if bcfg_Timeout c <=? 0 then _ else c) in H.
  set (c2 := if bcfg_MaxConcurrent c1 <? 1 then _ else c1) in H.
  assert (Ht : bcfg_Timeout c2 = bcfg_Timeout c1) by (unfold c2; by case_test).
  assert (Hpos : 0 < bcfg_Timeout c1) by (unfold c1; case_test; simpl; bool_hyps; [by vm_compute|lia]).
  assert (Hcon : 1 <= bcfg_MaxConcurrent c2) by (unfold c2; case_test; simpl; bool_hyps; lia).
  destruct ((10 * Second <? bcfg_Timeout c2) || _ || _ || _) eqn:El; [done|]. injection H as <-. bool_hyps.
  split_and!; [constructor; simpl; try done; lia|done|done].
Qed.

Lemma new_runtimes_ok seen cs bs :
  new_runtimes seen cs = inr bs ->
  Forall fresh_runtime bs /\ NoDup (rt_id <$> bs) /\ (forall b, b ∈ bs -> rt_id b ∉ seen).
Proof.
  revert seen bs. induction cs as [|c cs IH]; intros seen bs H; simpl in H.
  { injection H as <-. split_and!; [done|constructor|by intros b ?%elem_of_nil]. }
  destruct (new_runtime seen c) as [|b] eqn:Eb; [done|]. destruct (new_runtimes _ cs) as [|bs'] eqn:Ebs; [done|].
  injection H as <-. destruct (new_runtime_ok _ _ _ Eb) as (Hf & Hn & _). destruct (IH _ _ Ebs) as (Hfs & Hnd & Hns).
  split_and!; [by constructor| |].
  - rewrite fmap_cons. apply NoDup_cons. split; [|done]. intros (b' & Hid & Hin)%list_elem_of_fmap.
    apply (Hns b' Hin). rewrite <- Hid. set_solver.
  - intros b' [->|Hin]%elem_of_cons; [done|]. specialize (Hns b' Hin). set_solver.
Qed.

Lemma NewBidderEngine_ok config cs e :
  NewBidderEngine true config cs = inr e ->
  be_config e = engine_defaults config /\ BidderEngineConfig_Validate (be_config e) = None
  /\ Forall fresh_runtime (be_bidders e) /\ NoDup (bidder_ids e)
  /\ be_cache e = NewDynamicBidCache (ec_MaxKeys (be_config e)) /\ be_refreshSlots e = 0 /\ be_inflight e = ∅.
Proof.
  unfold NewBidderEngine. simpl. intros H. destruct (BidderEngineConfig_Validate _) eqn:Ev; [done|].
  destruct (new_runtimes ∅ cs) as [|bs] eqn:Eb; [done|]. injection H as <-. simpl.
  destruct (new_runtimes_ok _ _ _ Eb) as (Hf & Hn & _). split_and!; try done.
  unfold bidder_ids, static. simpl. by rewrite <- list_fmap_compose.
Qed.

Lemma new_engine_inv config cs e now :
  NewBidderEngine true config cs = inr e -> engine_inv (mkEngineState e now ∅).
Proof.
  intros H. destruct (NewBidderEngine_ok _ _ _ H) as (_ & Hv & Hf & _ & Hc & Hs & Hi).
  pose proof Hv as Hlim. unfold BidderEngineConfig_Validate in Hlim. case_test; [done|]. case_test; [done|]. bool_hyps.
  constructor; simpl; try done.
  - rewrite Hc. constructor; [apply new_cache_ok; unfold_int; lia|]. intros key l. unfold NewDynamicBidCache. simpl. by rewrite lookup_empty.
  - rewrite Hs. split; [done|lia].
  - intros i b Hb. apply list_elem_of_lookup_2 in Hb. destruct (Forall_elem _ _ _ Hf Hb) as [_ _ ? -> _].
    split; [done|lia].
  - rewrite Hi. split; [|by intros k t1 t2]. intros k. split; [set_solver|]. intros (tid & Hh). by unfold holds in Hh.
Qed.

Lemma engine_reachable_inv config cs e now st :
  NewBidderEngine true config cs = inr e -> rtc engine_step (mkEngineState e now ∅) st -> engine_inv st.
Proof.
  intros H Hr. apply (rtc_invariant engine_step engine_inv) with (mkEngineState e now ∅);
    [|done|by eapply new_engine_inv].
  intros s s2 Hinv (ev & Hev & Hx). by eapply engine_exec_inv.
Qed.

(** ** Termination *)

(** The steps a thread and its workers still take, at most. *)
Definition phase_left (nb : nat) (p : phase) : nat :=
  match p with
  | Missed => 4 * nb + 7 | Marked => 4 * nb + 6 | Skipping => 1 | Starting => 4 * nb + 5
  | Launching todo => 4 * length todo + 4 | Checking _ todo => 4 * length todo + 7
  | Waiting => 3 | Unmarking => 2 | Releasing => 1
  end.

Definition worker_left (w : worker) : nat := match w with Calling _ => 2 | Reported _ => 1 end.

Definition steps_left (nb : nat) (r : refresher) : nat :=
  phase_left nb (rf_phase r) + sum_list_with worker_left (rf_workers r).

Lemma workers_left_middle ws1 w ws2 :
  sum_list_with worker_left (ws1 ++ w :: ws2) = (sum_list_with worker_left (ws1 ++ ws2) + worker_left w)%nat.
Proof. rewrite !sum_list_with_app. simpl. lia. Qed.

(** The events that are steps of thread [tid]. *)
Definition is_step_of (tid : nat) (ev : engine_event) : bool :=
  match ev with
  | XMark t | XAdvance t | XReport t _ _ | XRelease t _ | XStore t _ _ | XFinish t => bool_decide (t = tid)
  | _ => false
  end.

(** ** The steps of a trigger *)

Definition still_triggering (o : option refresher) : bool :=
  match o with Some r => match rf_phase r with Missed | Marked | Skipping => true | _ => false end | None => false end.

(** The steps of one trigger, one after the other. *)
Inductive trigger_path : nat -> option refresher -> BidderEngine -> option refresher -> BidderEngine -> Prop :=
  | path_end o e : still_triggering o = false -> trigger_path 0 o e o e
  | path_step n r e o e2 o3 e3 :
      still_triggering (Some r) = true -> trigger_step r e = Some (o, e2) -> trigger_path n o e2 o3 e3 ->
      trigger_path (S n) (Some r) e o3 e3.

Lemma trigger_hits request now e : trigger_misses request now e = false -> Trigger request now e = (e, false).
Proof.
  unfold trigger_misses, Trigger. destruct (bool_decide (be_bidders e = []) || be_cancelled e); [done|].
  by destruct (DynamicBidCache_Get _ now (be_cache e)).
Qed.

(** They do what [Trigger] does. *)
Lemma trigger_misses_path request now e : trigger_misses request now e = true ->
  exists n, (n <= 3)%nat /\ trigger_path n (Some (new_refresher request)) e
    (if (Trigger request now e).2 then Some {| (new_refresher request) with rf_phase := Starting |} else None) (Trigger request now e).1.
Proof.
  unfold trigger_misses, Trigger. destruct (bool_decide (be_bidders e = []) || be_cancelled e); [done|].
  destruct (DynamicBidCache_Get _ now (be_cache e)); [done|]. intros _. case_decide as Hd.
  { exists 1%nat. split; [lia|]. eapply path_step; [done| |by apply path_end]. unfold trigger_step. simpl. by rewrite decide_True. }
  set (e1 := {| e with be_inflight := {[dynamicCacheKey request]} ∪ be_inflight e |}).
  assert (Hmark : forall n o e2, trigger_path n (Some {| (new_refresher request) with rf_phase := Marked |}) e1 o e2 ->
    trigger_path (S n) (Some (new_refresher request)) e o e2).
  { intros n o e2. apply path_step; [done|]. unfold trigger_step. simpl. by rewrite decide_False. }
  simpl. destruct (be_refreshSlots e <? ec_MaxConcurrentRefreshes (be_config e)) eqn:Es; [exists 2%nat|exists 3%nat]; (split; [lia|]);
    apply Hmark; (eapply path_step; [done|unfold trigger_step; simpl; by rewrite Es|]); [by apply path_end|].
  eapply path_step; [done|reflexivity|by apply path_end].
Qed.

Lemma trigger_step_left nb r e r2 e2 :
  trigger_step r e = Some (Some r2, e2) -> (steps_left nb r2 < steps_left nb r)%nat.
Proof.
  unfold trigger_step, steps_left. destruct (rf_phase r) eqn:Hp; try done; [case_decide; [done|]|case_test];
    intros [= <- <-]; simpl; lia.
Qed.

Lemma advance_left now r e r2 e2 :
  advance now r e = Some (r2, e2) -> (steps_left (length (be_bidders e)) r2 < steps_left (length (be_bidders e)) r)%nat.
Proof.
  unfold advance, steps_left. destruct (rf_phase r) as [| | | |[|i todo]|i todo| | |] eqn:Hp; try done; intros H.
  - injection H as <- <-. simpl. rewrite length_seq. lia.
  - injection H as <- <-. simpl. lia.
  - case_test; [injection H as <- <-; simpl; lia|]. unfold try_token in H.
    destruct (be_bidders e !! i); [|done]. case_test; injection H as <- <-; simpl; lia.
  - unfold launch in H. destruct (be_bidders e !! i) as [b|]; [|done].
    destruct (Allow now (rt_breaker b)) as [br []]; simpl in H; injection H as <- <-; simpl; [|lia].
    rewrite sum_list_with_app. simpl. lia.
Qed.

Lemma report_left nb n outcome now r e r2 e2 :
  report n outcome now r e = Some (r2, e2) -> (steps_left nb r2 < steps_left nb r)%nat.
Proof.
  unfold report, steps_left. intros H. destruct (rf_workers r !! n) as [[i|i]|] eqn:Hw; try done.
  destruct (worker_split _ _ _ Hw) as (ws1 & ws2 & Hws & Hins & _).
  destruct (be_bidders e !! i); [|done]. case_test; [done|].
  destruct outcome; injection H as <- <-; cbn [rf_phase rf_workers]; rewrite Hins, Hws, !workers_left_middle; simpl; lia.
Qed.

Lemma release_left nb n r e r2 e2 :
  release n r e = Some (r2, e2) -> (steps_left nb r2 < steps_left nb r)%nat.
Proof.
  unfold release, steps_left. intros H. destruct (rf_workers r !! n) as [[i|i]|] eqn:Hw; try done.
  destruct (worker_split _ _ _ Hw) as (ws1 & ws2 & Hws & _ & Hdel).
  destruct (be_bidders e !! i); [|done]. injection H as <- <-. cbn [rf_phase rf_workers].
  rewrite Hdel, Hws, workers_left_middle. simpl. lia.
Qed.

Lemma store_left nb range now later r e r2 e2 :
  store_results range now later r e = Some (r2, e2) -> (steps_left nb r2 < steps_left nb r)%nat.
Proof.
  unfold store_results, steps_left. intros H. destruct (rf_phase r); try done. destruct (rf_workers r); [|done].
  destruct (DynamicBidCache_Put _ _ _ _ _ _ _). injection H as <- <-. simpl. lia.
Qed.

Lemma finish_left nb r e r2 e2 :
  finish r e = Some (Some r2, e2) -> (steps_left nb r2 < steps_left nb r)%nat.
Proof.
  unfold finish, steps_left. intros H. destruct (rf_phase r); try done. injection H as <- <-. simpl. lia.
Qed.

(** A step of a thread ends it or brings it closer to its end. *)
Lemma thread_does_left tid f st st2 r nb :
  (forall r2 e2, f r (en_engine st) = Some (Some r2, e2) -> (steps_left nb r2 < steps_left nb r)%nat) ->
  en_threads st !! tid = Some r -> thread_does tid f st = Some st2 ->
  en_threads st2 !! tid = None \/ exists r2, en_threads st2 !! tid = Some r2 /\ (steps_left nb r2 < steps_left nb r)%nat.
Proof.
  intros Hf Hr Hx. unfold thread_does in Hx. rewrite Hr in Hx.
  destruct (f r (en_engine st)) as [[[r2|] e2]|] eqn:Ef; [| |done]; injection Hx as <-; simpl; rewrite lookup_partial_alter_eq; eauto.
Qed.

Lemma thread_does_other tid tid' f st st2 :
  tid' <> tid -> thread_does tid f st = Some st2 -> en_threads st2 !! tid' = en_threads st !! tid'.
Proof.
  intros Hne Hx. unfold thread_does in Hx. destruct (en_threads st !! tid) as [r|]; [|done].
  destruct (f r (en_engine st)) as [[r2 e2]|]; [|done]. injection Hx as <-. simpl. by rewrite lookup_partial_alter_ne.
Qed.

Lemma own_step_left tid ev st st2 r :
  en_threads st !! tid = Some r -> is_step_of tid ev = true -> engine_exec ev st = Some st2 ->
  en_threads st2 !! tid = None
  \/ exists r2, en_threads st2 !! tid = Some r2
       /\ (steps_left (length (be_bidders (en_engine st))) r2 < steps_left (length (be_bidders (en_engine st))) r)%nat.
Proof.
  intros Hr Hs Hx. destruct ev; simpl in Hs, Hx; try done; apply bool_decide_eq_true in Hs; subst;
    (eapply thread_does_left; [|done|exact Hx]); intros r2 e2 Hf; try (apply keep_some in Hf as (r' & [= ->] & Hf));
    eauto using trigger_step_left, advance_left, report_left, release_left, store_left, finish_left.
Qed.

Lemma other_step_frame tid ev st st2 r :
  en_threads st !! tid = Some r -> is_step_of tid ev = false -> engine_exec ev st = Some st2 ->
  en_threads st2 !! tid = Some r.
Proof.
  intros Hr Hs Hx. destruct ev as [request|t request|t|t|t n outcome|t n|t range later|t| |now]; simpl in Hs, Hx;
    try (apply bool_decide_eq_false in Hs; rewrite (thread_does_other t tid _ _ _ (not_eq_sym Hs) Hx); done).
  - by injection Hx as <-.
  - destruct (decide (t = tid)) as [->|Hne]; [by rewrite Hr in Hx|]. destruct (en_threads st !! t); [done|].
    case_test; injection Hx as <-; simpl; [|done]. by rewrite lookup_insert_ne.
  - by injection Hx as <-.
  - case_test; [|done]. by injection Hx as <-.
Qed.

(** ** No thread is stuck *)

Lemma bidder_index st i :
  (i < length (bidder_ids (en_engine st)))%nat -> exists b, be_bidders (en_engine st) !! i = Some b.
Proof. rewrite length_bidder_ids. intros Hi. by apply lookup_lt_is_Some_2. Qed.

Lemma report_enabled st r n i outcome now :
  engine_inv st -> thread_inv (be_config (en_engine st)) (bidder_ids (en_engine st)) r ->
  rf_workers r !! n = Some (Calling i) -> is_Some (report n outcome now r (en_engine st)).
Proof.
  intros Hinv Hi Hw. unfold report. rewrite Hw.
  destruct (bidder_index st i) as (b & ->); [apply (ti_index _ _ _ Hi (Calling i)); by eapply list_elem_of_lookup_2|].
  destruct (worker_split _ _ _ Hw) as (ws1 & ws2 & Hws & _).
  pose proof (ti_results _ _ _ Hi) as Hres. rewrite Hws, callings_middle in Hres. simpl in Hres.
  pose proof (ti_started _ _ _ Hi). assert (0 <= callings (ws1 ++ ws2)) by (unfold callings; lia).
  destruct (Z.leb_spec (ec_MaxFanout (be_config (en_engine st))) (Z.of_nat (length (rf_results r)))); [lia|].
  destruct outcome; eauto.
Qed.

Lemma release_enabled st r n i :
  thread_inv (be_config (en_engine st)) (bidder_ids (en_engine st)) r ->
  rf_workers r !! n = Some (Reported i) -> is_Some (release n r (en_engine st)).
Proof.
  intros Hi Hw. unfold release. rewrite Hw.
  destruct (bidder_index st i) as (b & ->); [|eauto]. apply (ti_index _ _ _ Hi (Reported i)). by eapply list_elem_of_lookup_2.
Qed.

Lemma thread_does_enabled tid f st r :
  en_threads st !! tid = Some r -> is_Some (f r (en_engine st)) -> is_Some (thread_does tid f st).
Proof. intros Hr [[r2 e2] Hf]. unfold thread_does. rewrite Hr, Hf. eauto. Qed.

Lemma keep_enabled f r e : is_Some (f r e) -> is_Some (keep f r e).
Proof. unfold keep. intros [[r2 e2] ->]. eauto. Qed.

Lemma advance_enabled st r now :
  thread_inv (be_config (en_engine st)) (bidder_ids (en_engine st)) r ->
  match rf_phase r with Starting | Launching _ | Checking _ _ => True | _ => False end ->
  is_Some (advance now r (en_engine st)).
Proof.
  intros Hi Hp. pose proof (ti_todo _ _ _ Hi) as Ht. unfold advance.
  destruct (rf_phase r) as [| | | |[|i todo]|i todo| | |]; try done; try (by eauto).
  - case_test; [eauto|]. unfold try_token. destruct (bidder_index st i) as (b & ->); [apply Ht; by left|]. case_test; eauto.
  - unfold launch. destruct (bidder_index st i) as (b & ->); [apply Ht; by left|].
    destruct (Allow now (rt_breaker b)) as [br []]; simpl; eauto.
Qed.

(** Some step of the thread is enabled, whatever the DSP it waits for answers. *)
Lemma own_step_enabled st tid r outcome :
  engine_inv st -> en_threads st !! tid = Some r ->
  exists ev, is_step_of tid ev = true /\ engine_event_ok ev /\ is_Some (engine_exec ev st)
  /\ (forall t n o, ev = XReport t n o -> o = outcome).
Proof.
  intros Hinv Hr. pose proof (ei_threads _ Hinv _ _ Hr) as Hi.
  destruct (rf_phase r) eqn:Hp.
  1-3: exists (XMark tid); simpl; rewrite bool_decide_true by done; split_and!; try done;
    eapply thread_does_enabled; [done|]; unfold trigger_step; rewrite Hp; try case_decide; try case_test; eauto.
  1-3: exists (XAdvance tid); simpl; rewrite bool_decide_true by done; split_and!; try done;
    eapply thread_does_enabled; [done|]; apply keep_enabled, advance_enabled; [done|by rewrite Hp].
  - destruct (rf_workers r) as [|[i|i] ws] eqn:Hw.
    + exists (XStore tid map_to_list (en_now st)). simpl. rewrite bool_decide_true by done. split_and!; try done; [by intros m|].
      eapply thread_does_enabled; [done|]. apply keep_enabled. unfold store_results. rewrite Hp, Hw.
      destruct (DynamicBidCache_Put _ _ _ _ _ _ _). eauto.
    + exists (XReport tid 0 outcome). simpl. rewrite bool_decide_true by done. split_and!; try done; [|by intros ? ? ? [= _ _ <-]].
      eapply thread_does_enabled; [done|]. apply keep_enabled. eapply report_enabled; [done..|]. by rewrite Hw.
    + exists (XRelease tid 0). simpl. rewrite bool_decide_true by done. split_and!; try done.
      eapply thread_does_enabled; [done|]. apply keep_enabled. eapply release_enabled; [done|]. by rewrite Hw.
  - exists (XFinish tid). simpl. rewrite bool_decide_true by done. split_and!; try done.
    eapply thread_does_enabled; [done|]. unfold finish. rewrite Hp. eauto.
  - exists (XFinish tid). simpl. rewrite bool_decide_true by done. split_and!; try done.
    eapply thread_does_enabled; [done|]. unfold finish. rewrite Hp. eauto.
Qed.
