(* ===== verification/EngineHistory.v ===== *)
(** * Histories of the bidder engine

    What an execution of the engine keeps and what it says of its past: the limits
    stay those the engine was built with, a refresh left to run ends and gives back
    what it holds, and every bid in the cache goes back to an answer of a DSP. *)

From S2P Require Import Prelude GoInt GoTime GoString Types DynamicBids Breaker Engine EngineInv.
Open Scope string_scope.
Open Scope list_scope.
Open Scope Z_scope.

(** ** Executions *)

Lemma engine_exec_all_app evs evs2 st :
  engine_exec_all (evs ++ evs2) st
  = match engine_exec_all evs st with Some st1 => engine_exec_all evs2 st1 | None => None end.
Proof. revert st. induction evs as [|ev evs IH]; intros st; simpl; [done|]. by destruct (engine_exec ev st). Qed.

Lemma engine_exec_all_steps evs st st2 :
  Forall engine_event_ok evs -> engine_exec_all evs st = Some st2 -> rtc engine_step st st2.
Proof.
  revert st. induction evs as [|ev evs IH]; simpl; intros st He Hx; [simplify_eq; constructor|].
  apply Forall_cons in He as [Hev He]. destruct (engine_exec ev st) as [st1|] eqn:E; [|done].
  eapply rtc_l; [|by apply IH]. by exists ev.
Qed.

(** ** The limits *)

(** The calls of one bidder that a configuration allows at a time. *)
Definition call_limit (c : BidderConfig) : Z := if bcfg_MaxConcurrent c <? 1 then 32 else bcfg_MaxConcurrent c.

Definition runtime_of (c : BidderConfig) (b : string * BidderConfig) : Prop :=
  bcfg_Adapter c = Some b.1 /\ bcfg_MaxConcurrent b.2 = call_limit c /\ call_limit c <= 1024.

Lemma new_runtime_limit seen c b : new_runtime seen c = inr b -> runtime_of c (rt_id b, rt_config b).
Proof.
  unfold new_runtime, runtime_of, call_limit. intros H. destruct (bcfg_Adapter c) as [id|]; [|done].
  destruct (validBidderID id); [|done]. cbn [negb] in H. case_decide; [done|].
  set (c1 := if bcfg_Timeout c <=? 0 then _ else c) in H.
  assert (Hc1 : bcfg_MaxConcurrent c1 = bcfg_MaxConcurrent c) by (unfold c1; by case_test).
  rewrite Hc1 in H. destruct (bcfg_MaxConcurrent c <? 1); case_test; try done; bool_hyps; injection H as <-; simpl in *;
    split_and!; done || lia.
Qed.

Lemma new_runtimes_limits seen cs bs :
  new_runtimes seen cs = inr bs -> Forall2 runtime_of cs ((fun b => (rt_id b, rt_config b)) <$> bs).
Proof.
  revert seen bs. induction cs as [|c cs IH]; intros seen bs H; simpl in H; [by injection H as <-|].
  destruct (new_runtime seen c) as [|b] eqn:Eb; [done|]. destruct (new_runtimes _ cs) as [|bs'] eqn:Ebs; [done|].
  injection H as <-. constructor; [by eapply new_runtime_limit|by eapply IH].
Qed.

Lemma NewBidderEngine_limits config cs e :
  NewBidderEngine true config cs = inr e -> Forall2 runtime_of cs (static e).2.
Proof.
  unfold NewBidderEngine. simpl. intros H. destruct (BidderEngineConfig_Validate _); [done|].
  destruct (new_runtimes ∅ cs) as [|bs] eqn:Eb; [done|]. injection H as <-. by eapply new_runtimes_limits.
Qed.

Lemma engine_reachable_frame config cs e now st :
  NewBidderEngine true config cs = inr e -> rtc engine_step (mkEngineState e now ∅) st ->
  engine_inv st /\ static (en_engine st) = static e
  /\ dc_maxKeys (be_cache (en_engine st)) = ec_MaxKeys (engine_defaults config).
Proof.
  intros Hnew Hr. apply (rtc_invariant engine_step (fun st => engine_inv st /\ static (en_engine st) = static e
    /\ dc_maxKeys (be_cache (en_engine st)) = ec_MaxKeys (engine_defaults config))) with (mkEngineState e now ∅); [|done|].
  - intros s s2 (Hinv & Hs & Hk) (ev & Hev & Hx). destruct (engine_exec_frame _ _ _ Hinv Hev Hx) as (Hs2 & _ & Hk2).
    split_and!; [by eapply engine_exec_inv|congruence|congruence].
  - split_and!; [by eapply new_engine_inv|done|]. destruct (NewBidderEngine_ok _ _ _ Hnew) as (Hc & Hv & _ & _ & Hk & _).
    rewrite Hc in Hv. unfold BidderEngineConfig_Validate in Hv. case_test; [done|]. case_test; [done|]. bool_hyps.
    cbn [en_engine]. rewrite Hk, Hc. unfold NewDynamicBidCache. cbn [dc_maxKeys]. by rewrite (proj2 (Z.ltb_ge _ _)) by lia.
Qed.

(** The bidder with index [i], at any time. *)
Lemma reachable_bidder config cs e now st i b :
  NewBidderEngine true config cs = inr e -> rtc engine_step (mkEngineState e now ∅) st ->
  be_bidders (en_engine st) !! i = Some b -> exists c, cs !! i = Some c /\ runtime_of c (rt_id b, rt_config b).
Proof.
  intros Hnew Hr Hb. destruct (engine_reachable_frame _ _ _ _ _ Hnew Hr) as (_ & Hs & _).
  pose proof (NewBidderEngine_limits _ _ _ Hnew) as Hl. rewrite <- Hs in Hl.
  apply (Forall2_lookup_r _ _ _ i (rt_id b, rt_config b)) in Hl as (c & Hc & Hrt); [eauto|].
  unfold static. simpl. by rewrite list_lookup_fmap, Hb.
Qed.

(** ** Running a refresh to its end *)

Lemma static_length e e2 : static e2 = static e -> length (be_bidders e2) = length (be_bidders e).
Proof. intros Hs. rewrite <- !length_bidder_ids. unfold bidder_ids. by rewrite Hs. Qed.

Lemma own_step_threads tid ev st st2 :
  is_step_of tid ev = true -> engine_exec ev st = Some st2 ->
  exists o, en_threads st2 = partial_alter (fun _ => o) tid (en_threads st).
Proof.
  intros Hs Hx. assert (Hdoes : exists f, thread_does tid f st = Some st2).
  { destruct ev; simpl in Hs; try done; apply bool_decide_eq_true in Hs; subst; simpl in Hx; eauto. }
  destruct Hdoes as [f Hd]. unfold thread_does in Hd. destruct (en_threads st !! tid); [|done].
  destruct (f _ _) as [[o e]|]; [|done]. injection Hd as <-. by exists o.
Qed.

Lemma run_to_end tid st r (answer : nat -> fetch_outcome) :
  engine_inv st -> en_threads st !! tid = Some r ->
  exists evs st2, Forall (fun ev => is_step_of tid ev = true /\ engine_event_ok ev) evs
  /\ (length evs <= steps_left (length (be_bidders (en_engine st))) r)%nat
  /\ (forall k t n o, evs !! k = Some (XReport t n o) -> o = answer k)
  /\ engine_exec_all evs st = Some st2 /\ engine_inv st2
  /\ en_threads st2 = delete tid (en_threads st) /\ static (en_engine st2) = static (en_engine st).
Proof.
  remember (steps_left (length (be_bidders (en_engine st))) r) as fuel eqn:Hfuel.
  assert (Hle : (steps_left (length (be_bidders (en_engine st))) r <= fuel)%nat) by lia. clear Hfuel.
  revert st r answer Hle. induction fuel as [fuel IH] using lt_wf_ind. intros st r answer Hle Hinv Hr.
  destruct (own_step_enabled st tid r (answer 0%nat) Hinv Hr) as (ev & Hs & Hok & [st1 Hx] & Ha).
  pose proof (engine_exec_inv _ _ _ Hinv Hok Hx) as Hinv1.
  destruct (engine_exec_frame _ _ _ Hinv Hok Hx) as (Hst & _). pose proof (static_length _ _ Hst) as Hlen.
  destruct (own_step_threads _ _ _ _ Hs Hx) as [o Ho].
  assert (Hdel : delete tid (en_threads st1) = delete tid (en_threads st)).
  { rewrite Ho. apply map_eq. intros j. rewrite !lookup_delete. case_decide; [done|]. by rewrite lookup_partial_alter_ne. }
  destruct (own_step_left tid ev st st1 r Hr Hs Hx) as [Hend|(r1 & Hr1 & Hlt)].
  - exists [ev], st1. split_and!; try done; [by repeat constructor|destruct (steps_left _ r) eqn:E; simpl; [|lia]| |by simpl; rewrite Hx|].
    + exfalso. unfold steps_left, phase_left in E. destruct (rf_phase r); lia.
    + intros [|k] t n oc; simpl; [|done]. intros [= ->]. by eapply Ha.
    + rewrite <- Hdel. symmetry. by apply delete_id.
  - destruct (IH (steps_left (length (be_bidders (en_engine st1))) r1) ltac:(rewrite Hlen; lia) st1 r1 (fun k => answer (S k)) ltac:(lia) Hinv1 Hr1)
      as (evs & st2 & Hf & Hn & Han & Hx2 & Hinv2 & Ht2 & Hs2).
    exists (ev :: evs), st2. split_and!; try done; [by constructor|simpl; rewrite Hlen in Hn; lia| |by simpl; rewrite Hx|congruence|congruence].
    intros [|k] t n oc; simpl; [|by apply Han]. intros [= ->]. by eapply Ha.
Qed.

(** What a thread that is gone held is free again. *)
Lemma given_back st st2 tid r :
  engine_inv st -> engine_inv st2 -> en_threads st !! tid = Some r ->
  en_threads st2 = delete tid (en_threads st) -> static (en_engine st2) = static (en_engine st) ->
  be_refreshSlots (en_engine st2) = be_refreshSlots (en_engine st) - slot r
  /\ (forall i b, be_bidders (en_engine st) !! i = Some b ->
        exists b2, be_bidders (en_engine st2) !! i = Some b2 /\ rt_sem b2 = rt_sem b - tokens i r)
  /\ be_inflight (en_engine st2) = be_inflight (en_engine st) ∖ from_option singleton ∅ (owner r).
Proof.
  intros Hi Hi2 Hr Ht Hs.
  assert (Hsum : forall f, map_sum f (en_threads st2) = map_sum f (en_threads st) - f r).
  { intros f. rewrite Ht. change (delete tid (en_threads st)) with (partial_alter (fun _ => @None refresher) tid (en_threads st)).
    rewrite (map_sum_alter f _ tid r None Hr). simpl. lia. }
  split_and!.
  - destruct (ei_slots _ Hi) as [-> _], (ei_slots _ Hi2) as [-> _]. apply Hsum.
  - intros i b Hb. pose proof (lookup_lt_Some _ _ _ Hb) as Hlt. rewrite <- (static_length _ _ Hs) in Hlt.
    apply lookup_lt_is_Some_2 in Hlt as [b2 Hb2]. exists b2. split; [done|].
    destruct (ei_tokens _ Hi i b Hb) as [-> _], (ei_tokens _ Hi2 i b2 Hb2) as [-> _]. apply Hsum.
  - destruct (ei_marks _ Hi) as [Hf Hu], (ei_marks _ Hi2) as [Hf2 _]. apply set_eq. intros k.
    rewrite elem_of_difference, Hf, Hf2. unfold holds. rewrite Ht.
    assert (Hown : k ∈ (from_option singleton ∅ (owner r) : gset string) <-> owner r = Some k).
    { destruct (owner r); simpl; [rewrite elem_of_singleton|]; set_solver. }
    rewrite Hown. split.
    + intros [tid' Hh]. destruct (decide (tid' = tid)) as [->|Hne]; [by rewrite lookup_delete_eq in Hh|].
      rewrite lookup_delete_ne in Hh by done. split; [by exists tid'|]. intros Ho.
      apply Hne, (Hu k); unfold holds; [done|by rewrite Hr].
    + intros [[tid' Hh] Ho]. exists tid'. rewrite lookup_delete_ne; [done|]. intros ->. rewrite Hr in Hh. by apply Ho.
Qed.

Lemma idle_engine st :
  engine_inv st -> en_threads st = ∅ ->
  be_refreshSlots (en_engine st) = 0 /\ Forall (fun b => rt_sem b = 0) (be_bidders (en_engine st))
  /\ be_inflight (en_engine st) = ∅.
Proof.
  intros Hi Ht. split_and!.
  - destruct (ei_slots _ Hi) as [-> _]. by rewrite Ht.
  - apply Forall_lookup. intros i b Hb. destruct (ei_tokens _ Hi i b Hb) as [-> _]. by rewrite Ht.
  - apply set_eq. intros k. destruct (ei_marks _ Hi) as [-> _]. rewrite Ht. unfold holds.
    split; [intros [tid Hh]; by rewrite lookup_empty in Hh|set_solver].
Qed.

(** ** Where a looked-up bid comes from *)

(** In the history [evs] from [st0], some trigger for [request] started a refresh
    that called the bidder [id], which answered the call with [raw]. *)
Definition dsp_answered (st0 : engine_state) (evs : list engine_event) (request : AuctionRequest)
    (id : string) (raw : list Bid) : Prop :=
  exists evs1 evs2 t n i st1 r b,
    evs = evs1 ++ XReport t n (FetchBids raw) :: evs2 /\ XTrigger t request ∈ evs1
    /\ engine_exec_all evs1 st0 = Some st1 /\ en_threads st1 !! t = Some r
    /\ rf_request r = dsp_request request /\ rf_workers r !! n = Some (Calling i)
    /\ be_bidders (en_engine st1) !! i = Some b /\ rt_id b = id.

(** [d] is what the sanitizer made of a bid in such an answer. *)
Definition answered_bid st0 evs request (d : DynamicBid) : Prop :=
  exists id raw, dsp_answered st0 evs request id raw /\ d ∈ sanitizeDynamicBids id (dsp_request request) raw.

(** A refresh stored [l] at the time [at_time], to be kept for [ttl]; a list with bids
    is kept for the cache's TTL. *)
Definition stored_at st0 evs (l : dynamicBidList) (at_time : Time) (ttl : Duration) : Prop :=
  exists evs1 evs2 t range later st1,
    evs = evs1 ++ XStore t range later :: evs2 /\ engine_exec_all evs1 st0 = Some st1 /\ en_now st1 = at_time
    /\ dl_expiresNS l = UnixNano (time_Add at_time ttl)
    /\ ttl ∈ [ec_CacheTTL (be_config (en_engine st1)); ec_FailureTTL (be_config (en_engine st1))]
    /\ (dl_bids l <> [] -> ttl = ec_CacheTTL (be_config (en_engine st1))).

Record thread_history st0 evs (tid : nat) (r : refresher) (request : AuctionRequest) : Prop := {
  th_trigger : XTrigger tid request ∈ evs;
  th_key : rf_key r = dynamicCacheKey request;
  th_request : rf_request r = dsp_request request;
  th_results res d : res ∈ rf_results r -> d ∈ res_bids res -> answered_bid st0 evs request d
}.

Record entry_history st0 evs (key : string) (l : dynamicBidList) (request : AuctionRequest) : Prop := {
  eh_key : key = dynamicCacheKey request;
  eh_bids d : d ∈ dl_bids l -> answered_bid st0 evs request d;
  eh_stored : exists at_time ttl, stored_at st0 evs l at_time ttl
}.

Record history_inv st0 evs (st : engine_state) : Prop := {
  hi_threads tid r : en_threads st !! tid = Some r -> exists request, thread_history st0 evs tid r request;
  hi_entries key l : dc_entries (be_cache (en_engine st)) !! key = Some l -> exists request, entry_history st0 evs key l request
}.

Section history.
Context (st0 : engine_state).

(** The past only grows. *)
Lemma answered_bid_grows evs evs2 request d : answered_bid st0 evs request d -> answered_bid st0 (evs ++ evs2) request d.
Proof.
  intros (id & raw & (evs1 & evs3 & t & n & i & st1 & r & b & -> & Hrest) & Hd). exists id, raw. split; [|done].
  exists evs1, (evs3 ++ evs2), t, n, i, st1, r, b. split; [by rewrite <- app_assoc|done].
Qed.

Lemma stored_at_grows evs evs2 l at_time ttl : stored_at st0 evs l at_time ttl -> stored_at st0 (evs ++ evs2) l at_time ttl.
Proof.
  intros (evs1 & evs3 & t & range & later & st1 & -> & Hrest). exists evs1, (evs3 ++ evs2), t, range, later, st1.
  split; [by rewrite <- app_assoc|done].
Qed.

Lemma thread_history_grows evs evs2 tid r request :
  thread_history st0 evs tid r request -> thread_history st0 (evs ++ evs2) tid r request.
Proof.
  intros []. constructor; [apply elem_of_app; by left|done|done|]. eauto using answered_bid_grows.
Qed.

Lemma entry_history_grows evs evs2 key l request :
  entry_history st0 evs key l request -> entry_history st0 (evs ++ evs2) key l request.
Proof.
  intros [? ? (t & ttl & ?)]. constructor; [done|eauto using answered_bid_grows|]. exists t, ttl. by apply stored_at_grows.
Qed.

(** A step of a thread that keeps its request, and whose results and entries have a past. *)
Lemma history_thread_step evs ev st tid r o e :
  history_inv st0 evs st -> en_threads st !! tid = Some r ->
  (forall r2 request, o = Some r2 -> thread_history st0 evs tid r request -> thread_history st0 (evs ++ [ev]) tid r2 request) ->
  (forall key l request, dc_entries (be_cache e) !! key = Some l -> thread_history st0 evs tid r request ->
     dc_entries (be_cache (en_engine st)) !! key = Some l \/ entry_history st0 (evs ++ [ev]) key l request) ->
  history_inv st0 (evs ++ [ev]) (mkEngineState e (en_now st) (partial_alter (fun _ => o) tid (en_threads st))).
Proof.
  intros [Ht He] Hr Hthr Hent. destruct (Ht tid r Hr) as [q Hq]. constructor; simpl.
  - intros tid' r' Hl. destruct (decide (tid' = tid)) as [->|Hne].
    + rewrite lookup_partial_alter_eq in Hl. exists q. by apply Hthr.
    + rewrite lookup_partial_alter_ne in Hl by done. destruct (Ht tid' r' Hl) as [q' Hq']. exists q'. by apply thread_history_grows.
  - intros key l Hl. destruct (Hent key l q Hl Hq) as [Hold|Hnew]; [|by exists q].
    destruct (He key l Hold) as [q' Hq']. exists q'. by apply entry_history_grows.
Qed.

Lemma same_data_history evs ev tid r r2 request :
  rf_key r2 = rf_key r -> rf_request r2 = rf_request r -> rf_results r2 = rf_results r ->
  thread_history st0 evs tid r request -> thread_history st0 (evs ++ [ev]) tid r2 request.
Proof.
  intros Hk Hq Hres Hr. apply thread_history_grows with (evs2 := [ev]) in Hr as [H1 H2 H3 H4].
  constructor; [done|congruence|congruence|]. intros res d. rewrite Hres. apply H4.
Qed.

Definition same_data (r : refresher) (e : BidderEngine) (o : option refresher) (e2 : BidderEngine) : Prop :=
  be_cache e2 = be_cache e
  /\ (forall r2, o = Some r2 -> rf_key r2 = rf_key r /\ rf_request r2 = rf_request r /\ rf_results r2 = rf_results r).

Lemma trigger_step_data r e o e2 : trigger_step r e = Some (o, e2) -> same_data r e o e2.
Proof.
  unfold trigger_step. destruct (rf_phase r); try done; [case_decide|case_test|]; intros [= <- <-];
    (split; [done|]); by intros r2 [= <-].
Qed.

Lemma finish_data r e o e2 : finish r e = Some (o, e2) -> same_data r e o e2.
Proof. unfold finish. destruct (rf_phase r); try done; intros [= <- <-]; (split; [done|]); by intros r2 [= <-]. Qed.

Lemma advance_data now r e r2 e2 : advance now r e = Some (r2, e2) -> same_data r e (Some r2) e2.
Proof.
  unfold advance, try_token, launch. destruct (rf_phase r) as [| | | |[|i todo]|i todo| | |]; try done;
    [..|case_test; [|destruct (be_bidders e !! i) as [b|]; [case_test|done]]
       |destruct (be_bidders e !! i) as [b|]; [destruct (Allow now (rt_breaker b)) as [br []]; simpl|done]];
    intros [= <- <-]; (split; [done|]); by intros r3 [= <-].
Qed.

Lemma release_data n r e r2 e2 : release n r e = Some (r2, e2) -> same_data r e (Some r2) e2.
Proof.
  unfold release. destruct (rf_workers r !! n) as [[i|i]|]; try done. destruct (be_bidders e !! i); [|done].
  intros [= <- <-]. split; [done|]. by intros r3 [= <-].
Qed.

Lemma same_data_step evs ev st tid r o e :
  history_inv st0 evs st -> en_threads st !! tid = Some r -> same_data r (en_engine st) o e ->
  history_inv st0 (evs ++ [ev]) (mkEngineState e (en_now st) (partial_alter (fun _ => o) tid (en_threads st))).
Proof.
  intros Hh Hr [Hc Hd]. eapply history_thread_step; [done..| |].
  - intros r2 request Ho. destruct (Hd r2 Ho) as (? & ? & ?). by apply same_data_history.
  - intros key l request Hl _. left. by rewrite Hc in Hl.
Qed.

Lemma report_history evs st tid n outcome r r2 e2 :
  engine_exec_all evs st0 = Some st -> history_inv st0 evs st -> en_threads st !! tid = Some r ->
  report n outcome (en_now st) r (en_engine st) = Some (r2, e2) ->
  history_inv st0 (evs ++ [XReport tid n outcome])
    (mkEngineState e2 (en_now st) (partial_alter (fun _ => Some r2) tid (en_threads st))).
Proof.
  intros Hx Hh Hr Hs. unfold report in Hs. destruct (rf_workers r !! n) as [[i|i]|] eqn:Hw; try done.
  destruct (be_bidders (en_engine st) !! i) as [b|] eqn:Hb; [|done]. case_test; [done|].
  assert (Hgo : forall breaker result e3,
    be_cache e3 = be_cache (en_engine st) ->
    (forall request d, thread_history st0 evs tid r request -> d ∈ res_bids result ->
       answered_bid st0 (evs ++ [XReport tid n outcome]) request d) ->
    history_inv st0 (evs ++ [XReport tid n outcome]) (mkEngineState (set_bidder i b breaker (rt_sem b) e3) (en_now st)
      (partial_alter (fun _ => Some {| r with rf_workers := <[n:=Reported i]> (rf_workers r); rf_results := rf_results r ++ [result] |})
         tid (en_threads st)))).
  { intros breaker result e3 Hc Hd. eapply history_thread_step; [done..| |].
    - intros r3 request [= <-] Hrh. pose proof (thread_history_grows _ [XReport tid n outcome] _ _ _ Hrh) as [H1 H2 H3 H4].
      constructor; [done..|]. simpl. intros res d [Hin|Hin%list_elem_of_singleton]%elem_of_app Hd'; [by eapply H4|].
      subst res. by apply Hd.
    - intros key l request Hl _. left. simpl in Hl. by rewrite Hc in Hl. }
  destruct outcome as [deadline|bids]; injection Hs as <- <-; apply Hgo; try done.
  - intros request d _ Hd. simpl in Hd. by apply elem_of_nil in Hd.
  - intros request d [Htr _ Hrq _] Hd. simpl in Hd. rewrite Hrq in Hd. exists (rt_id b), bids. split; [|done].
    exists evs, [], tid, n, i, st, r, b. by split_and!.
Qed.

Lemma gathered_elem results d : d ∈ gathered results -> exists res, res ∈ results /\ res_success res = true /\ d ∈ res_bids res.
Proof.
  unfold gathered. intros (res & Hd & Hres)%list_elem_of_bind. exists res. destruct (res_success res); [done|].
  by apply elem_of_nil in Hd.
Qed.

Lemma gathered_success results : gathered results <> [] -> existsb res_success results = true.
Proof.
  induction results as [|res results IH]; [done|]. unfold gathered. simpl. destruct (res_success res); [done|]. exact IH.
Qed.

Lemma store_history evs st tid range later r r2 e2 :
  engine_inv st -> any_entry_order range ->
  engine_exec_all evs st0 = Some st -> history_inv st0 evs st -> en_threads st !! tid = Some r ->
  store_results range (en_now st) later r (en_engine st) = Some (r2, e2) ->
  history_inv st0 (evs ++ [XStore tid range later])
    (mkEngineState e2 (en_now st) (partial_alter (fun _ => Some r2) tid (en_threads st))).
Proof.
  intros Hinv Hrg Hx Hh Hr Hs. unfold store_results in Hs. destruct (rf_phase r); try done. destruct (rf_workers r); [|done].
  destruct (DynamicBidCache_Put _ _ _ _ _ _ _) as [cache ok] eqn:Hput. injection Hs as <- <-.
  eapply history_thread_step; [done..| |].
  - intros r3 request [= <-]. by apply same_data_history.
  - intros key l request Hl Hrh. assert (Hc : dc_entries cache !! key = Some l) by (by destruct ok).
    destruct (Put_entries _ _ _ _ _ _ _ _ _ _ _ (ci_ok _ _ (ei_cache _ Hinv)) Hrg Hput Hc) as [[-> ->]|?]; [right|by left].
    destruct Hrh as [_ Hk _ Hres]. constructor; simpl; [done| |].
    + intros d (res & Hin & _ & Hd)%gathered_elem. apply answered_bid_grows. by eapply Hres.
    + eexists (en_now st), _. exists evs, [], tid, range, later, st. split_and!; [done..| |].
      * destruct (existsb _ _); set_solver.
      * simpl. intros Hne. by rewrite (gathered_success _ Hne).
Qed.

Lemma engine_exec_history evs ev st st2 :
  engine_inv st -> engine_event_ok ev -> engine_exec_all evs st0 = Some st -> history_inv st0 evs st ->
  engine_exec ev st = Some st2 -> history_inv st0 (evs ++ [ev]) st2.
Proof.
  intros Hinv Hev Hx0 Hh Hx.
  assert (Hsame : forall e now, be_cache e = be_cache (en_engine st) ->
    history_inv st0 (evs ++ [ev]) (mkEngineState e now (en_threads st))).
  { intros e now Hc. destruct Hh as [Ht He]. constructor; simpl; [|rewrite Hc].
    - intros tid r Hr. destruct (Ht tid r Hr) as [q ?]. exists q. by apply thread_history_grows.
    - intros key l Hl. destruct (He key l Hl) as [q ?]. exists q. by apply entry_history_grows. }
  assert (Hdoes : forall tid f, thread_does tid f st = Some st2 ->
    (forall r o e, en_threads st !! tid = Some r -> f r (en_engine st) = Some (o, e) ->
       history_inv st0 (evs ++ [ev]) (mkEngineState e (en_now st) (partial_alter (fun _ => o) tid (en_threads st)))) ->
    history_inv st0 (evs ++ [ev]) st2).
  { intros tid f Hd Hf. unfold thread_does in Hd. destruct (en_threads st !! tid) as [r|] eqn:Hr; [|done].
    destruct (f r (en_engine st)) as [[o e]|] eqn:Ef; [|done]. injection Hd as <-. by apply (Hf r). }
  destruct ev as [request|tid request|tid|tid|tid n outcome|tid n|tid range later|tid| |now]; simpl in Hx.
  - injection Hx as <-. apply Hsame. unfold Lookup. by destruct (DynamicBidCache_Get _ _ _).
  - destruct (en_threads st !! tid) eqn:Hn; [done|]. case_test; injection Hx as <-; [|by destruct st; apply Hsame].
    destruct (Hsame (en_engine st) (en_now st) eq_refl) as [Ht He]. constructor; simpl in *; [|done].
    intros tid' r. rewrite lookup_insert. case_decide as Hd; [|apply Ht]. intros [= <-]. subst tid'. exists request.
    constructor; simpl; [apply elem_of_app; right; by left|done|done|by intros ? ? ?%elem_of_nil].
  - apply (Hdoes _ _ Hx). intros r o e Hr Hf. eapply same_data_step; [done..|]. by eapply trigger_step_data.
  - apply (Hdoes _ _ Hx). intros r o e Hr (r' & -> & Hf)%keep_some. eapply same_data_step; [done..|]. by eapply advance_data.
  - apply (Hdoes _ _ Hx). intros r o e Hr (r' & -> & Hf)%keep_some. by eapply report_history.
  - apply (Hdoes _ _ Hx). intros r o e Hr (r' & -> & Hf)%keep_some. eapply same_data_step; [done..|]. by eapply release_data.
  - apply (Hdoes _ _ Hx). intros r o e Hr (r' & -> & Hf)%keep_some. by eapply store_history.
  - apply (Hdoes _ _ Hx). intros r o e Hr Hf. eapply same_data_step; [done..|]. by eapply finish_data.
  - injection Hx as <-. by apply Hsame.
  - case_test; [|done]. injection Hx as <-. by apply Hsame.
Qed.
End history.

(** Every execution from a new engine keeps the history. *)
Lemma engine_history config cs e now evs st :
  NewBidderEngine true config cs = inr e -> Forall engine_event_ok evs ->
  engine_exec_all evs (mkEngineState e now ∅) = Some st ->
  engine_inv st /\ history_inv (mkEngineState e now ∅) evs st.
Proof.
  intros Hnew. revert st. induction evs as [|ev evs IH] using rev_ind; intros st Hok Hx.
  - injection Hx as <-. split; [by eapply new_engine_inv|].
    destruct (NewBidderEngine_ok _ _ _ Hnew) as (_ & _ & _ & _ & Hc & _).
    constructor; simpl; [|rewrite Hc; unfold NewDynamicBidCache; simpl]; by intros ? ? ?%lookup_empty_Some.
  - apply Forall_app in Hok as [Hok [Hev _]%Forall_cons]. rewrite engine_exec_all_app in Hx.
    destruct (engine_exec_all evs _) as [st1|] eqn:E1; [|done]. simpl in Hx.
    destruct (engine_exec ev st1) as [st2|] eqn:E2; [|done]. injection Hx as <-. destruct (IH st1 Hok eq_refl) as [Hi Hh].
    split; [by eapply engine_exec_inv|by eapply engine_exec_history].
Qed.
