(* ===== verification/EngineProps.v ===== *)
(** * Properties of the bidder engine

    The bounds of its concurrency, the soundness of what it caches and offers to
    auctions, and the termination of its refreshes, in every interleaving. *)

From S2P Require Import Prelude GoInt GoTime GoString Types Ranking DynamicBids Breaker Engine EngineInv EngineHistory.
From S2P Require Import Redis Store BidStore Samples Cache Auction CacheProps AuctionProps.
Open Scope string_scope.
Open Scope list_scope.
Open Scope Z_scope.

(** ** Bounds *)

(** The calls to DSPs a refresh has under way. *)
Definition refresh_calls (r : refresher) : Z := Z.of_nat (length (rf_workers r)).

Lemma refresh_calls_bound config ids r :
  0 <= ec_MaxFanout config -> thread_inv config ids r -> refresh_calls r <= ec_MaxFanout config * slot r.
Proof.
  intros Hf Hi. unfold refresh_calls, slot. pose proof (ti_workers _ _ _ Hi). pose proof (ti_started _ _ _ Hi).
  pose proof (ti_idle _ _ _ Hi) as Hidle.
  destruct (rf_phase r); try (rewrite Hidle by done; simpl; lia); lia.
Qed.

Lemma worker_tokens_nonneg i ws : 0 <= worker_tokens i ws.
Proof. unfold worker_tokens. lia. Qed.

(** C10: bounded concurrency. In every reachable state of an engine, whatever the
    requests, the answers of the DSPs and the interleaving, the limits the engine was
    built with hold, and they are valid ones: at most MaxConcurrentRefreshes refreshes
    hold a slot; a bidder is the configured one of its position, and at most its
    MaxConcurrent calls are under way (32 if that is not set), which is at most 1024;
    a refresh has at most MaxFanout calls; so at most MaxConcurrentRefreshes *
    MaxFanout calls in all; and the cache of dynamic bids never exceeds the configured
    MaxKeys entries. *)
Theorem engine_bounds config cs e now st :
  NewBidderEngine true config cs = inr e -> rtc engine_step (mkEngineState e now ∅) st ->
  let limits := engine_defaults config in
  BidderEngineConfig_Validate limits = None
  /\ map_sum slot (en_threads st) <= ec_MaxConcurrentRefreshes limits
  /\ (forall i b, be_bidders (en_engine st) !! i = Some b ->
        exists c, cs !! i = Some c /\ bcfg_Adapter c = Some (rt_id b)
        /\ map_sum (fun r => worker_tokens i (rf_workers r)) (en_threads st) <= call_limit c <= 1024)
  /\ (forall tid r, en_threads st !! tid = Some r -> refresh_calls r <= ec_MaxFanout limits)
  /\ map_sum refresh_calls (en_threads st) <= ec_MaxFanout limits * ec_MaxConcurrentRefreshes limits
  /\ Z.of_nat (size (dc_entries (be_cache (en_engine st)))) <= ec_MaxKeys limits.
Proof.
  intros Hnew Hr. destruct (engine_reachable_frame _ _ _ _ _ Hnew Hr) as (Hinv & Hst & Hkeys). cbv zeta.
  destruct (NewBidderEngine_ok _ _ _ Hnew) as (Hc & Hv & _). rewrite Hc in Hv.
  assert (Hcfg : be_config (en_engine st) = engine_defaults config) by (by rewrite (static_config _ _ Hst)).
  destruct (ei_slots _ Hinv) as [Hs Hle]. rewrite Hs, Hcfg in Hle.
  assert (Hfan : 0 <= ec_MaxFanout (engine_defaults config)).
  { revert Hv. unfold BidderEngineConfig_Validate. case_test; [done|]. bool_hyps. lia. }
  split_and!; [done|done| | | |].
  - intros i b Hb. destruct (reachable_bidder _ _ _ _ _ i b Hnew Hr Hb) as (c & Hci & Had & Hlim & Hmax).
    exists c. split_and!; [done|done| |done]. destruct (ei_tokens _ Hinv i b Hb) as [Ht Hm]. simpl in Hlim. rewrite Ht, Hlim in Hm.
    etrans; [|exact Hm]. apply map_sum_le. intros tid r _. unfold tokens. destruct (rf_phase r); try case_decide; lia.
  - intros tid r Hrt. pose proof (ei_threads _ Hinv _ _ Hrt) as Hi. unfold refresh_calls. rewrite Hcfg in Hi.
    pose proof (ti_workers _ _ _ Hi). pose proof (ti_started _ _ _ Hi). lia.
  - etrans; [apply (map_sum_le _ (fun r => ec_MaxFanout (engine_defaults config) * slot r))|].
    + intros tid r Hrt. eapply refresh_calls_bound; [done|]. rewrite <- Hcfg. by apply (ei_threads _ Hinv tid).
    + rewrite map_sum_scale. by apply Z.mul_le_mono_nonneg_l.
  - destruct (ci_ok _ _ (ei_cache _ Hinv)) as [Hcnt Hb _]. lia.
Qed.

(** One refresh per key. In every reachable state a key is marked as in flight
    exactly while some thread owns it, and two threads never own the same key. *)
Theorem engine_single_flight config cs e now st :
  NewBidderEngine true config cs = inr e -> rtc engine_step (mkEngineState e now ∅) st ->
  marks_ok owner (be_inflight (en_engine st)) (en_threads st).
Proof. intros Hnew Hr. apply ei_marks. by eapply engine_reachable_inv. Qed.

(** ** Termination *)

(** C36: refreshes terminate and do not leak. In every reachable state, whatever the
    DSP a worker waits for answers, a thread of the engine has an enabled step (no
    worker blocks on the result channel); no event but its own steps changes it; and
    each of its steps ends it or decreases its measure, which for a new thread is
    four steps per bidder and seven. Left to run, whatever its calls are answered, it
    ends within its measure, and then the slot, the tokens of each bidder and the mark
    it held are given back and nothing else has changed hands. An engine without
    threads has every slot and token free and no key marked. *)
Theorem engine_refresh_terminates config cs e now st :
  NewBidderEngine true config cs = inr e -> rtc engine_step (mkEngineState e now ∅) st ->
  let nb := length (be_bidders (en_engine st)) in
  (forall tid r, en_threads st !! tid = Some r ->
     (forall outcome, exists ev, is_step_of tid ev = true /\ engine_event_ok ev /\ is_Some (engine_exec ev st)
        /\ (forall t n o, ev = XReport t n o -> o = outcome))
     /\ (forall ev st2, is_step_of tid ev = false -> engine_exec ev st = Some st2 -> en_threads st2 !! tid = Some r)
     /\ (forall ev st2, is_step_of tid ev = true -> engine_exec ev st = Some st2 ->
           en_threads st2 !! tid = None
           \/ exists r2, en_threads st2 !! tid = Some r2 /\ (steps_left nb r2 < steps_left nb r)%nat)
     /\ (forall answer : nat -> fetch_outcome, exists evs st2,
           Forall (fun ev => is_step_of tid ev = true /\ engine_event_ok ev) evs /\ (length evs <= steps_left nb r)%nat
           /\ (forall k t n o, evs !! k = Some (XReport t n o) -> o = answer k)
           /\ engine_exec_all evs st = Some st2 /\ en_threads st2 = delete tid (en_threads st)
           /\ be_refreshSlots (en_engine st2) = be_refreshSlots (en_engine st) - slot r
           /\ (forall i b, be_bidders (en_engine st) !! i = Some b ->
                 exists b2, be_bidders (en_engine st2) !! i = Some b2 /\ rt_sem b2 = rt_sem b - tokens i r)
           /\ be_inflight (en_engine st2) = be_inflight (en_engine st) ∖ from_option singleton ∅ (owner r)))
  /\ (forall request, steps_left nb (new_refresher request) = 4 * nb + 7)%nat
  /\ (en_threads st = ∅ ->
        be_refreshSlots (en_engine st) = 0 /\ Forall (fun b => rt_sem b = 0) (be_bidders (en_engine st))
        /\ be_inflight (en_engine st) = ∅).
Proof.
  intros Hnew Hr nb. pose proof (engine_reachable_inv _ _ _ _ _ Hnew Hr) as Hinv. split_and!.
  - intros tid r Ht. split_and!.
    + intros outcome. by eapply own_step_enabled.
    + intros ev st2 Hs Hx. by eapply other_step_frame.
    + intros ev st2 Hs Hx. by eapply own_step_left.
    + intros answer. destruct (run_to_end tid st r answer Hinv Ht) as (evs & st2 & Hf & Hn & Ha & Hx & Hinv2 & Hd & Hs).
      exists evs, st2. destruct (given_back _ _ _ _ Hinv Hinv2 Ht Hd Hs) as (? & ? & ?). by split_and!.
  - intros request. unfold steps_left. simpl. lia.
  - by apply idle_engine.
Qed.

(** ** What auctions are offered *)

Lemma Lookup_some request now e e2 bids :
  Lookup request now e = (e2, Some bids) ->
  exists l, dc_entries (be_cache e) !! dynamicCacheKey request = Some l /\ dl_bids l = bids
    /\ UnixNano now < dl_expiresNS l.
Proof.
  unfold Lookup, DynamicBidCache_Get. destruct (dc_entries (be_cache e) !! _) as [l|]; [|done].
  case_test; [done|]. intros [= _ <-]. bool_hyps. eauto.
Qed.

(** C24: what a lookup returns is sound. In every execution of an engine, the bids an
    auction looks up are the unexpired entry of its key, which a refresh stored, to be
    kept for the configured TTL of the cache (the failure TTL only if the list is
    empty). Each bid is a valid open-market bid made from a bid that a configured
    bidder answered when it was called for a triggered request with the same cache
    key; when neither request's placement and country contains the separator byte, it
    is for this placement, country, device and floor. *)
Theorem lookup_sound config cs e now evs st request e2 bids :
  NewBidderEngine true config cs = inr e -> Forall engine_event_ok evs ->
  engine_exec_all evs (mkEngineState e now ∅) = Some st ->
  Lookup request (en_now st) (en_engine st) = (e2, Some bids) ->
  exists l at_time ttl request',
  dc_entries (be_cache (en_engine st)) !! dynamicCacheKey request = Some l /\ dl_bids l = bids
  /\ stored_at (mkEngineState e now ∅) evs l at_time ttl
  /\ UnixNano (en_now st) < UnixNano (time_Add at_time ttl)
  /\ (bids <> [] -> ttl = ec_CacheTTL (engine_defaults config))
  /\ dynamicCacheKey request' = dynamicCacheKey request
  /\ Forall (offered (bidder_ids (en_engine st)) (req_PlacementID request')) bids
  /\ Forall (answered_bid (mkEngineState e now ∅) evs request') bids
  /\ (lacks "031" (req_PlacementID request) -> lacks "031" (req_PlacementID request') ->
      lacks "031" (req_Country request) -> lacks "031" (req_Country request') ->
      is_int64 (req_FloorMicros request) -> is_int64 (req_FloorMicros request') ->
      dsp_request request' = dsp_request request).
Proof.
  intros Hnew Hok Hx Hl. destruct (engine_history _ _ _ _ _ _ Hnew Hok Hx) as [Hinv Hh].
  destruct (Lookup_some _ _ _ _ _ Hl) as (l & He & <- & Hexp).
  destruct (hi_entries _ _ _ Hh _ _ He) as (request' & [Hk Hb (at_time & ttl & Hst)]).
  exists l, at_time, ttl, request'. pose proof Hst as (evs1 & evs2 & t & range & later & st1 & Hevs & Hx1 & _ & Hexpires & _ & Httl).
  assert (Hpast : forall past future st', evs = past ++ future -> engine_exec_all past (mkEngineState e now ∅) = Some st' ->
    static (en_engine st') = static e).
  { intros past future st' Hev Hpx. rewrite Hev in Hok. apply Forall_app in Hok as [Hok' _].
    by destruct (engine_reachable_frame _ _ _ _ _ Hnew (engine_exec_all_steps _ _ _ Hok' Hpx)) as (_ & ? & _). }
  pose proof (Hpast _ _ _ Hevs Hx1) as Hs1. pose proof (Hpast evs [] st (eq_sym (app_nil_r _)) Hx) as Hs.
  destruct (NewBidderEngine_ok _ _ _ Hnew) as (Hc & _). rewrite (static_config _ _ Hs1), Hc in Httl.
  split_and!; [done|done|done|by rewrite <- Hexpires|done|done| |by apply Forall_forall|].
  - apply Forall_forall. intros d Hd. destruct (Hb d Hd) as (id & raw & (evs3 & evs4 & tid & n & i & st3 & r & b & Hev3 & _ & Hx3 & _ & _ & _ & Hbi & <-) & Hin).
    exists (rt_id b). split; [|by apply (Forall_elem _ _ _ (sanitizeDynamicBids_ok _ _ _) Hin)].
    unfold bidder_ids. rewrite Hs, <- (Hpast _ _ _ Hev3 Hx3). apply list_elem_of_lookup_2 with i.
    unfold static. simpl. by rewrite !list_lookup_fmap, Hbi.
  - intros Hp Hp' Hco Hco' Hf Hf'.
    destruct (dynamicCacheKey_inj request' request Hp' Hp Hco' Hco Hf' Hf (eq_sym Hk)) as (H1 & H2 & H3 & H4).
    unfold dsp_request. congruence.
Qed.

(** C23: private deals come first. Bids of DSPs compete at the open-market priority
    whatever the DSP answers: when an auction runs with looked-up dynamic bids and
    some eligible bid of the snapshot has a positive priority, the winner is a bid
    of the snapshot with a positive priority, and no dynamic bid changes its
    clearing price. *)
Theorem deals_outrank_dsp config cs e now st request e2 dynamic a cacheNow clock c bids ss c2 go d deal :
  NewBidderEngine true config cs = inr e -> rtc engine_step (mkEngineState e now ∅) st ->
  Lookup request (en_now st) (en_engine st) = (e2, Some dynamic) ->
  auctioneer_ok a -> 0 <= req_FloorMicros request ->
  BidCache_Get (req_PlacementID request) cacheNow c = (bids, ss) -> ss_Found ss = true -> ss_RejectStale ss = false ->
  deal ∈ bids -> 0 < bid_Priority deal -> eligible deal request (time_Unix clock) (effectivePrice deal) = true ->
  run a request dynamic cacheNow clock c = (c2, go, d) ->
  exists w, ad_Bid d = Some w /\ w ∈ bids /\ 0 < bid_Priority w /\ ad_DynamicBidderID d = ""
  /\ ad_ClearingPriceMicros d = ad_ClearingPriceMicros (run a request [] cacheNow clock c).2.
Proof.
  intros Hnew Hr Hl Ha Hfl Hg Hf Hrj Hdeal Hpos Hel Hrun.
  pose proof (engine_reachable_inv _ _ _ _ _ Hnew Hr) as Hinv.
  assert (Hzero : forall x, x ∈ dynamic -> bid_Priority (dyn_Bid x) = 0).
  { destruct (Lookup_some _ _ _ _ _ Hl) as (l & He & <- & _).
    destruct (ci_offers _ _ (ei_cache _ Hinv) _ _ He) as (request' & _ & Ho). intros x Hx.
    destruct (Forall_elem _ _ _ Ho Hx) as (id & _ & Hs). apply Hs. }
  destruct (run_spec a request dynamic cacheNow clock c bids ss Ha Hfl Hg Hf Hrj) as (d' & Hd & _ & _ & _ & Hm).
  destruct (run_spec a request [] cacheNow clock c bids ss Ha Hfl Hg Hf Hrj) as (d0 & Hd0 & _ & _ & _ & Hm0).
  rewrite Hd in Hrun. injection Hrun as _ <-. rewrite Hd0. simpl.
  set (E := eligible_candidates request (time_Unix clock) (candidates_of bids dynamic)) in *.
  set (E0 := eligible_candidates request (time_Unix clock) (candidates_of bids [])) in *.
  assert (Hin : forall l, static_candidate deal ∈ eligible_candidates request (time_Unix clock) (candidates_of bids l)).
  { intros l. apply eligible_candidates_elem. split; [done|]. apply elem_of_app. left. by apply list_elem_of_fmap_2. }
  assert (Hfil : filter (fun x : candidate => 1 <= bid_Priority (fst x)) E = filter (fun x => 1 <= bid_Priority (fst x)) E0).
  { unfold E, E0, eligible_candidates, candidates_of. rewrite !filter_app. f_equal. simpl.
    apply filter_none. intros x Hx.
    apply list_elem_of_filter in Hx as [_ (y & -> & Hy)%list_elem_of_fmap]. simpl. rewrite (Hzero y Hy). lia. }
  destruct (ad_Bid d') as [w|]; [|destruct Hm as [He _]; specialize (Hin dynamic); fold E in Hin; rewrite He in Hin; by inv Hin].
  destruct (ad_Bid d0) as [w0|]; [|destruct Hm0 as [He _]; specialize (Hin []); fold E0 in Hin; rewrite He in Hin; by inv Hin].
  destruct Hm as (rest & Hw & _ & _ & ->), Hm0 as (rest0 & Hw0 & _ & _ & ->).
  pose proof (wins_priority _ _ _ _ Hw (Hin _)) as Hp. pose proof (wins_priority _ _ _ _ Hw0 (Hin _)) as Hp0. simpl in Hp, Hp0.
  destruct (wins_above 1 _ _ (w, _) (w0, _) _ _ (au_policy a) request ltac:(simpl; lia) ltac:(simpl; lia) Hfil Hw Hw0) as [Heq Hprice].
  pose proof (wins_elem _ _ _ Hw0) as Hel0. rewrite <- Heq in Hel0.
  apply eligible_candidates_elem in Hel0 as [_ Hel0]. unfold candidates_of in Hel0. rewrite app_nil_r in Hel0.
  apply list_elem_of_fmap in Hel0 as (w' & [= <- Hbid] & Hwb).
  exists w. split_and!; [done|done|lia|done|exact Hprice].
Qed.

(** ** Construction *)

(** The bidder configurations the constructor accepts; limits that are not set get
    their defaults, so only the upper bounds count. *)
Definition acceptable (c : BidderConfig) : Prop :=
  (exists id, bcfg_Adapter c = Some id /\ validBidderID id = true)
  /\ bcfg_Timeout c <= 10 * Second /\ bcfg_MaxConcurrent c <= 1024
  /\ bcfg_FailureThreshold c <= 100 /\ bcfg_CircuitOpenFor c <= Hour.

Lemma new_runtime_iff seen c :
  (exists b, new_runtime seen c = inr b) <-> acceptable c /\ forall id, bcfg_Adapter c = Some id -> id ∉ seen.
Proof.
  unfold new_runtime, acceptable. change (60 *i Millisecond)%go with (60 * Millisecond). change (10 *i Second)%go with (10 * Second).
  destruct (bcfg_Adapter c) as [id|]; [|split; [by intros [b ?]|by intros [[(id & ? & _) _] _]]].
  destruct (validBidderID id) eqn:Ev; cbn [negb]; [|split; [by intros [b ?]|intros [[(i & [= <-] & ?) _] _]; congruence]].
  case_decide as Hd; [split; [by intros [b ?]|intros [_ Hn]; by destruct (Hn id eq_refl)]|].
  set (c1 := if bcfg_Timeout c <=? 0 then _ else c).
  set (c2 := if bcfg_MaxConcurrent c1 <? 1 then _ else c1).
  assert (Hc1 : (bcfg_Timeout c1 <= 10 * Second <-> bcfg_Timeout c <= 10 * Second)
    /\ bcfg_MaxConcurrent c1 = bcfg_MaxConcurrent c /\ bcfg_FailureThreshold c1 = bcfg_FailureThreshold c
    /\ bcfg_CircuitOpenFor c1 = bcfg_CircuitOpenFor c).
  { unfold c1. destruct (Z.leb_spec (bcfg_Timeout c) 0); simpl; [|done]. split_and!; try done.
    unfold Millisecond, Second. lia. }
  assert (Hc2 : bcfg_Timeout c2 = bcfg_Timeout c1 /\ (bcfg_MaxConcurrent c2 <= 1024 <-> bcfg_MaxConcurrent c1 <= 1024)
    /\ bcfg_FailureThreshold c2 = bcfg_FailureThreshold c1 /\ bcfg_CircuitOpenFor c2 = bcfg_CircuitOpenFor c1).
  { unfold c2. destruct (Z.ltb_spec (bcfg_MaxConcurrent c1) 1); simpl; [|done]. split_and!; try done. lia. }
  destruct Hc1 as (T1 & M1 & F1 & O1), Hc2 as (T2 & M2 & F2 & O2).
  rewrite T2, F2, O2, F1, O1. destruct ((10 * Second <? bcfg_Timeout c1) || _ || _ || _) eqn:El.
  - split; [by intros [b ?]|]. intros [(_ & Ht & Hm & Hf & Ho) _]. bool_hyps; apply T1 in Ht; rewrite <- M1 in Hm; apply M2 in Hm; lia.
  - bool_hyps. split; [intros _|eauto]. split; [|by intros i [= <-]].
    split_and!; [eauto|by apply T1|rewrite <- M1; by apply M2|done|done].
Qed.

Lemma new_runtimes_iff seen cs :
  (exists bs, new_runtimes seen cs = inr bs) <->
  Forall acceptable cs /\ NoDup (bcfg_Adapter <$> cs) /\ (forall c id, c ∈ cs -> bcfg_Adapter c = Some id -> id ∉ seen).
Proof.
  revert seen. induction cs as [|c cs IH]; intros seen; cbn [new_runtimes].
  { split; [intros _|eauto]. split_and!; [done|constructor|by intros c id ?%elem_of_nil]. }
  rewrite Forall_cons, fmap_cons, NoDup_cons.
  destruct (new_runtime seen c) as [err|b] eqn:Eb.
  - split; [by intros [bs ?]|]. intros ((Hc & _) & _ & Hs).
    destruct (proj2 (new_runtime_iff seen c)) as [b Hb]; [|congruence].
    split; [done|]. intros id Hid. apply (Hs c id); [by left|done].
  - destruct (new_runtime_ok _ _ _ Eb) as (_ & Hns & Had).
    destruct (proj1 (new_runtime_iff seen c) (ex_intro _ b Eb)) as [Hacc _].
    specialize (IH ({[rt_id b]} ∪ seen)).
    assert (Hgo : (exists bs, match new_runtimes ({[rt_id b]} ∪ seen) cs with inl e => inl e | inr rs => inr (b :: rs) end = inr bs)
      <-> exists bs, new_runtimes ({[rt_id b]} ∪ seen) cs = inr bs).
    { destruct (new_runtimes _ cs) as [e|rs]; split; intros [bs Hbs]; try done; eauto. }
    rewrite Hgo, IH. split.
    + intros (Hf & Hn & Hs). split_and!; [done|done| |done|].
      * intros (c' & Hc' & Hin)%list_elem_of_fmap. rewrite Had in Hc'. symmetry in Hc'. specialize (Hs c' _ Hin Hc'). set_solver.
      * intros c' id [->|Hin]%elem_of_cons Hid; [congruence|]. specialize (Hs c' id Hin Hid). set_solver.
    + intros ((_ & Hf) & (Hnin & Hn) & Hs). split_and!; [done|done|]. intros c' id Hin Hid.
      apply not_elem_of_union. split; [|apply (Hs c'); [by right|done]]. intros Heq%elem_of_singleton. subst id.
      apply Hnin. rewrite Had, <- Hid. by apply list_elem_of_fmap_2.
Qed.

(** Construction. With a context, NewBidderEngine succeeds exactly when the
    configuration, after defaults for the fields that are not set, is valid, and the
    bidders have adapters with valid and distinct IDs and limits within bounds. The
    engine then has valid limits, one runtime per ID with no token taken and a
    closed breaker, an empty cache and no refresh. *)
Theorem NewBidderEngine_exact config cs :
  ((exists e, NewBidderEngine true config cs = inr e) <->
   BidderEngineConfig_Validate (engine_defaults config) = None
   /\ Forall acceptable cs /\ NoDup (bcfg_Adapter <$> cs))
  /\ (forall e, NewBidderEngine true config cs = inr e ->
        be_config e = engine_defaults config /\ Forall fresh_runtime (be_bidders e) /\ NoDup (bidder_ids e)
        /\ be_refreshSlots e = 0 /\ be_inflight e = ∅ /\ forall key now, DynamicBidCache_Get key now (be_cache e) = None)
  /\ NewBidderEngine false config cs = inl "bidder context is required".
Proof.
  split_and!; [|intros e He|done].
  - unfold NewBidderEngine. cbn [negb]. destruct (BidderEngineConfig_Validate (engine_defaults config)) as [err|].
    { split; [by intros [e ?]|by intros [? _]]. }
    destruct (new_runtimes ∅ cs) as [err|bs] eqn:Eb.
    + split; [by intros [e ?]|]. intros (_ & Hf & Hn).
      destruct (proj2 (new_runtimes_iff ∅ cs)) as [bs Hbs]; [|congruence]. split_and!; [done..|]. set_solver.
    + split; [intros _|eauto]. destruct (proj1 (new_runtimes_iff ∅ cs) (ex_intro _ bs Eb)) as (? & ? & _). done.
  - destruct (NewBidderEngine_ok _ _ _ He) as (? & _ & ? & ? & Hc & ? & ?). split_and!; try done.
    intros key now. rewrite Hc. unfold DynamicBidCache_Get, NewDynamicBidCache. simpl. by rewrite lookup_empty.
Qed.

(** ** Trigger as an execution *)

Lemma path_exec n o e o2 e2 now tid ts : trigger_path n o e o2 e2 -> ts !! tid = o ->
  exists ts2, engine_exec_all (replicate n (XMark tid)) (mkEngineState e now ts) = Some (mkEngineState e2 now ts2) /\ ts2 !! tid = o2.
Proof.
  intros Hp. revert ts. induction Hp as [o e _|n r e o e2 o3 e3 _ Hs _ IH]; intros ts Ht; [by exists ts|].
  destruct (IH (partial_alter (fun _ => o) tid ts)) as (ts2 & Hx & Hl); [apply lookup_partial_alter_eq|].
  exists ts2. split; [|done]. cbn [replicate engine_exec_all engine_exec]. unfold thread_does. simpl. by rewrite Ht, Hs.
Qed.

(** A trigger, step by step. The sequential Trigger is the execution of its
    steps with nothing in between: from any state, a thread that takes them reaches
    the engine Trigger returns, with the goroutine about to start exactly when
    Trigger starts one, and gone otherwise. *)
Theorem Trigger_is_execution st tid request :
  en_threads st !! tid = None ->
  exists n st2, engine_exec_all (XTrigger tid request :: replicate n (XMark tid)) st = Some st2
  /\ (n <= 3)%nat /\ en_engine st2 = (Trigger request (en_now st) (en_engine st)).1 /\ en_now st2 = en_now st
  /\ en_threads st2 !! tid
     = if (Trigger request (en_now st) (en_engine st)).2
       then Some {| (new_refresher request) with rf_phase := Starting |} else None.
Proof.
  intros Hn. destruct st as [e now ts]. simpl in Hn. cbn [en_engine en_now engine_exec_all engine_exec en_threads].
  rewrite Hn. destruct (trigger_misses request now e) eqn:Em.
  - destruct (trigger_misses_path _ _ _ Em) as (n & Hle & Hp).
    destruct (path_exec _ _ _ _ _ now tid (<[tid := new_refresher request]> ts) Hp (lookup_insert_eq _ _ _)) as (ts2 & Hx & Hl).
    exists n, (mkEngineState (Trigger request now e).1 now ts2). by split_and!.
  - exists 0%nat, (mkEngineState e now ts). rewrite (trigger_hits _ _ _ Em). split_and!; done || lia.
Qed.

(** ** Evaluations *)

Definition alpha_config : BidderConfig := mkBidderConfig (Some "alpha") 0 0 2 Second.
Definition beta_config : BidderConfig := mkBidderConfig (Some "beta") 0 1 2 Second.
Definition zero_engine_config : BidderEngineConfig := mkBidderEngineConfig 0 0 0 0 0.
Definition new_sample_engine := NewBidderEngine true zero_engine_config [alpha_config; beta_config].

Definition sample_engine : BidderEngine :=
  match new_sample_engine with
  | inr e => e
  | inl _ => mkBidderEngine (NewDynamicBidCache 1) [] zero_engine_config true 0 ∅ (mkEngineStats 0 0 0 0 0 0 0 0)
  end.

Lemma sample_engine_new : NewBidderEngine true zero_engine_config [alpha_config; beta_config] = inr sample_engine.
Proof. by_compute. Qed.

(** A refresh that calls both bidders; one answers with two bids, of which one is for
    another placement, the other misses its deadline. *)
Definition raw_bid : Bid := {| (sample_bid "1" 9 120) with bid_Priority := 9; bid_DealID := "x" |}.
Definition launch_events : list engine_event :=
  [XTrigger 0 sample_request; XMark 0; XMark 0; XAdvance 0; XAdvance 0; XAdvance 0; XAdvance 0; XAdvance 0; XAdvance 0].
Definition answer_events : list engine_event :=
  [XReport 0 1 (FetchError true); XRelease 0 1;
   XReport 0 0 (FetchBids [raw_bid; {| raw_bid with bid_PlacementID := "side" |}]); XRelease 0 0;
   XStore 0 map_to_list 5; XFinish 0; XFinish 0].

Definition engine_after (evs : list engine_event) (st : engine_state) : engine_state := default st (engine_exec_all evs st).
Definition engine_start : engine_state := mkEngineState sample_engine 0 ∅.
Definition launched : engine_state := engine_after launch_events engine_start.
Definition answered : engine_state := engine_after answer_events launched.

Lemma engine_after_exec evs st : is_Some (engine_exec_all evs st) -> engine_exec_all evs st = Some (engine_after evs st).
Proof. unfold engine_after. by intros [st2 ->]. Qed.

Lemma launched_reachable : rtc engine_step (mkEngineState sample_engine 0 ∅) launched.
Proof.
  apply (engine_exec_all_steps launch_events); [by repeat constructor|].
  apply engine_after_exec, is_Someb_ok. by_compute.
Qed.

Lemma answered_reachable : rtc engine_step (mkEngineState sample_engine 0 ∅) answered.
Proof.
  etrans; [apply launched_reachable|]. apply (engine_exec_all_steps answer_events).
  - repeat constructor. by intros m.
  - apply engine_after_exec, is_Someb_ok. by_compute.
Qed.

Lemma engine_bounds_witness :
  map_sum refresh_calls (en_threads launched) = 2
  /\ map_sum refresh_calls (en_threads launched) <= 32 * 128
  /\ map_sum (fun r => worker_tokens 1 (rf_workers r)) (en_threads launched) <= 1.
Proof.
  split; [by_compute|].
  destruct (engine_bounds _ _ _ _ launched sample_engine_new launched_reachable) as (_ & _ & Hb & _ & Hall & _).
  split; [exact Hall|]. assert (Hs : is_Some (be_bidders (en_engine launched) !! 1%nat)) by (apply is_Someb_ok; by_compute).
  destruct Hs as [b Hb1]. destruct (Hb 1%nat b Hb1) as (c & Hc & _ & Hle & _). injection Hc as <-. exact Hle.
Defined.

Lemma engine_single_flight_witness :
  dynamicCacheKey sample_request ∈ be_inflight (en_engine launched)
  /\ be_inflight (en_engine answered) = ∅.
Proof.
  split; [|by_compute].
  apply (proj1 (engine_single_flight _ _ _ _ launched sample_engine_new launched_reachable)).
  exists 0%nat. by_compute.
Defined.

Definition launched_thread : refresher := default (new_refresher sample_request) (en_threads launched !! 0%nat).

(** One refresh holds a slot, a token of each bidder and its mark, and ends with none. *)
Lemma engine_refresh_terminates_witness :
  en_threads launched !! 0%nat = Some launched_thread
  /\ be_refreshSlots (en_engine launched) = 1
  /\ exists evs st2, engine_exec_all evs launched = Some st2 /\ en_threads st2 = ∅ /\ be_refreshSlots (en_engine st2) = 0
     /\ be_inflight (en_engine st2) = ∅.
Proof.
  assert (Ht : en_threads launched !! 0%nat = Some launched_thread) by by_compute.
  split; [exact Ht|]. split; [by_compute|].
  destruct (engine_refresh_terminates _ _ _ _ launched sample_engine_new launched_reachable) as (Hth & _ & _).
  destruct (Hth 0%nat launched_thread Ht) as (_ & _ & _ & Hrun).
  destruct (Hrun (fun _ => FetchError false)) as (evs & st2 & Hev & _ & _ & Hx & Hd & _).
  assert (Hnone : en_threads st2 = ∅) by (rewrite Hd; apply map_empty; intros [|j]; by vm_compute).
  assert (Hr2 : rtc engine_step (mkEngineState sample_engine 0 ∅) st2).
  { etrans; [apply launched_reachable|]. eapply engine_exec_all_steps; [|exact Hx].
    eapply Forall_impl; [exact Hev|]. by intros ev [_ ?]. }
  destruct (engine_refresh_terminates _ _ _ _ st2 sample_engine_new Hr2) as (_ & _ & Hidle).
  destruct (Hidle Hnone) as (H0 & _ & Hm). exists evs, st2. by split_and!.
Defined.

Definition looked_up := Lookup sample_request (en_now answered) (en_engine answered).

Lemma looked_up_one : looked_up = (looked_up.1, Some [mkDynamicBid {| (sample_bid "alpha:1" 0 120) with bid_FloorMicros := 0 |} "alpha"]).
Proof. apply pair_result. by_compute. Qed.

Definition answered_events : list engine_event := launch_events ++ answer_events.

Lemma answered_events_ok : Forall engine_event_ok answered_events.
Proof. repeat constructor. by intros m. Qed.

Lemma lookup_sound_witness :
  exists request', Forall (offered ["alpha"; "beta"] (req_PlacementID request')) [dsp_bid 120]
  /\ Forall (answered_bid engine_start answered_events request') [dsp_bid 120].
Proof.
  assert (Hx : engine_exec_all answered_events engine_start = Some answered).
  { unfold answered_events. rewrite engine_exec_all_app, (engine_after_exec launch_events engine_start) by (apply is_Someb_ok; by_compute).
    apply engine_after_exec, is_Someb_ok. by_compute. }
  destruct (lookup_sound _ _ _ _ answered_events answered sample_request _ _ sample_engine_new answered_events_ok Hx looked_up_one)
    as (l & at_time & ttl & request' & _ & _ & _ & _ & _ & _ & Ho & Ha & _).
  exists request'. split; [exact Ho|exact Ha].
Defined.

Definition deal_with_dsp := run second_price_auction sample_request [dsp_bid 120] 5 (7 * Second) (cache_with [deal_bid; bid2; bid1]).

Lemma deals_outrank_dsp_witness :
  effectivePrice deal_bid < 120 /\ ad_Bid deal_with_dsp.2 = Some deal_bid.
Proof.
  split; [vm_compute; reflexivity|].
  destruct (deals_outrank_dsp _ _ _ _ answered sample_request _ _ second_price_auction 5 (7 * Second)
    (cache_with [deal_bid; bid2; bid1]) [deal_bid; bid2; bid1] fresh_state deal_with_dsp.1.1 deal_with_dsp.1.2 deal_with_dsp.2 deal_bid
    sample_engine_new answered_reachable looked_up_one second_price_ok zero_floor ltac:(by_compute) eq_refl eq_refl
    ltac:(left) ltac:(vm_compute; reflexivity) ltac:(by_compute) ltac:(by_compute)) as (w & Hw & Hin & Hp & _).
  rewrite Hw. f_equal. revert Hp. 
  apply elem_of_cons in Hin as [->|Hin]; [done|].
  apply elem_of_cons in Hin as [->|Hin]; [intros Hp; discriminate Hp|].
  apply elem_of_cons in Hin as [->|Hin]; [intros Hp; discriminate Hp|].
  exfalso. exact (not_elem_of_nil _ Hin).
Defined.

Lemma Trigger_is_execution_witness :
  exists n st2, engine_exec_all (XTrigger 7 sample_request :: replicate n (XMark 7)) engine_start = Some st2
  /\ be_refreshSlots (en_engine st2) = 1.
Proof.
  destruct (Trigger_is_execution engine_start 7 sample_request ltac:(by_compute)) as (n & st2 & Hx & _ & He & _).
  exists n, st2. split; [exact Hx|]. rewrite He. by_compute.
Defined.
