(* ===== verification/ServerProps.v ===== *)
(** * Properties of the HTTP handlers

    What each endpoint answers and changes, composed from the components' facts: the
    auction endpoint for any store, the registry endpoints over Redis, the access
    check, the generated request IDs, and the counters over whole histories. *)

From S2P Require Import Prelude GoInt Utf8 Json JsonCodec.
From S2P Require Import Prelude GoInt GoTime GoString GoParse Types Ranking DynamicBids Redis Store BidStore Samples.
From S2P Require Import Cache Auction StoreProps CacheProps AuctionProps Engine DecisionLog Metrics Config Server.
From Stdlib Require Import Ascii.
Open Scope string_scope.
Open Scope list_scope.
Open Scope Z_scope.

(** ** The auction endpoint *)

Section auction_endpoint.
Context {W : Type} `{BidStore W}.

(** The request a body holds, when it is a valid one. *)
Definition auction_input (r : Request) : option AuctionRequest :=
  match decodeJSON Decode_AuctionRequest r with
  | None => None
  | Some request => match AuctionRequest_Validate request with Some _ => None | None => Some request end
  end.

(** A response that answers [request] from the candidates of its auction. *)
Definition answer_ok (request : AuctionRequest) (nowUnix : Z) (candidates : list candidate) (a : AuctionResponse) : Prop :=
  match rsp_Bid a with
  | Some w =>
      rsp_Status a = "filled" /\ rsp_NoBidReason a = ""
      /\ (w, rsp_DynamicBidderID a) ∈ candidates
      /\ eligible_for request nowUnix (w, rsp_DynamicBidderID a)
      /\ rsp_EffectivePriceMicros a = effectivePrice w
      /\ req_FloorMicros request <= rsp_ClearingPriceMicros a
      /\ bid_FloorMicros w <= rsp_ClearingPriceMicros a <= rsp_EffectivePriceMicros a
  | None =>
      rsp_Status a = "no_bid" /\ rsp_EffectivePriceMicros a = 0 /\ rsp_ClearingPriceMicros a = 0
      /\ rsp_DynamicBidderID a = ""
      /\ rsp_NoBidReason a ∈ ["cold_cache"; "stale_snapshot"; "no_eligible_bid"]
  end.

(** A log entry that says what was answered. *)
Definition logs (placement : string) (a : AuctionResponse) (entry : DecisionLog) : Prop :=
  dlog_RequestID entry = rsp_RequestID a /\ dlog_PlacementID entry = placement
  /\ dlog_PricingModel entry = rsp_PricingModel a
  /\ dlog_WinnerBidID entry = match rsp_Bid a with Some b => bid_ID b | None => "" end
  /\ dlog_WinnerDealID entry = match rsp_Bid a with Some b => bid_DealID b | None => "" end
  /\ dlog_WinnerPriority entry = match rsp_Bid a with Some b => bid_Priority b | None => 0 end
  /\ dlog_EffectivePriceMicros entry = rsp_EffectivePriceMicros a
  /\ dlog_ClearingPriceMicros entry = rsp_ClearingPriceMicros a
  /\ dlog_NoBidReason entry = rsp_NoBidReason a /\ dlog_ServedStale entry = rsp_ServedStale a
  /\ dlog_SnapshotAgeMS entry = rsp_SnapshotAgeMS a /\ dlog_DynamicBidderID entry = rsp_DynamicBidderID a.

(** The bids the engine has ready for a request. *)
Definition looked_up (request : AuctionRequest) (clock : auction_clock) (s : Server W) : list DynamicBid :=
  match sv_bidderEngine s with
  | None => []
  | Some e => default [] (Lookup request (ck_lookup clock) e).2
  end.

Definition auction_candidates (request : AuctionRequest) (clock : auction_clock) (s : Server W) : list candidate :=
  candidates_of (BidCache_Get (req_PlacementID request) (ck_cache clock) (sv_cache s)).1 (looked_up request clock s).

(** The generated or given ID, and what the handler leaves of the other fields. *)
Definition auction_frame (s s2 : Server W) : Prop :=
  sv_store s2 = sv_store s /\ sv_config s2 = sv_config s /\ sv_auctioneer s2 = sv_auctioneer s.

Lemma dynamic_bids_spec request clock s s2 dynamic work :
  dynamic_bids request clock s = (s2, dynamic, work) ->
  dynamic = looked_up request clock s /\ sv_cache s2 = sv_cache s
  /\ sv_metrics s2 = sv_metrics s /\ sv_decisionLogger s2 = sv_decisionLogger s
  /\ sv_requestNumber s2 = sv_requestNumber s /\ auction_frame s s2.
Proof.
  unfold dynamic_bids, looked_up. destruct (sv_bidderEngine s) as [e|] eqn:Ee; [|by intros [= <- <- <-]].
  destruct (Lookup request (ck_lookup clock) e) as [e1 bids]. destruct (Trigger request (ck_trigger clock) e1) as [e2 go].
  by intros [= <- <- <-].
Qed.

Lemma requestID_spec r s id s2 :
  requestID r s = (id, s2) ->
  sv_cache s2 = sv_cache s /\ sv_metrics s2 = sv_metrics s /\ sv_decisionLogger s2 = sv_decisionLogger s
  /\ sv_bidderEngine s2 = sv_bidderEngine s /\ auction_frame s s2
  /\ (rq_header r "X-Request-ID" <> "" -> id = rq_header r "X-Request-ID" /\ s2 = s)
  /\ (rq_header r "X-Request-ID" = "" ->
        sv_requestNumber s2 = counter_add (sv_requestNumber s) 1 /\ id = "a-" +:+ FormatUint (sv_requestNumber s2) 36).
Proof.
  unfold requestID. destruct (String.eqb_spec (rq_header r "X-Request-ID") ""); intros [= <- <-]; by split_and!.
Qed.

Definition logger_open (s : Server W) : Prop :=
  match sv_decisionLogger s with Some d => dl_closed d = false | None => True end.

(** Whether a record finds the queue full. *)
Definition queue_full (d : option DecisionLogger) : bool :=
  match d with Some d => negb (Z.of_nat (length (dl_entries d)) <? dl_capacity d) | None => false end.

(** What an answer adds to the counters. *)
Definition count_flags (served stale dynamic dropped : bool) (m : Metrics) : Metrics :=
  let m := if served then {| m with me_servedStale := counter_add (me_servedStale m) 1 |} else m in
  let m := if stale then {| m with me_staleNoBid := counter_add (me_staleNoBid m) 1 |} else m in
  let m := if dynamic then {| m with me_dynamicWins := counter_add (me_dynamicWins m) 1 |} else m in
  if dropped then {| m with me_decisionLogDropped := counter_add (me_decisionLogDropped m) 1 |} else m.

Definition count_answer (a : AuctionResponse) (dropped : bool) (m : Metrics) : Metrics :=
  count_flags (rsp_ServedStale a) (String.eqb (rsp_NoBidReason a) "stale_snapshot")
    (negb (String.eqb (rsp_DynamicBidderID a) "")) dropped m.

Lemma count_flags_dropped served stale dynamic dropped m :
  count_flags served stale dynamic dropped m =
  let m := count_flags served stale dynamic false m in
  if dropped then {| m with me_decisionLogDropped := counter_add (me_decisionLogDropped m) 1 |} else m.
Proof. by destruct dropped. Qed.

Lemma recordDecision_spec id placement decision s :
  match recordDecision id placement decision s with
  | None => ~ logger_open s
  | Some s2 =>
      logger_open s /\ auction_frame s s2 /\ sv_requestNumber s2 = sv_requestNumber s
      /\ sv_decisionLogger s2 = (Record_entry (log_entry (sv_auctioneer s) id placement decision) (sv_decisionLogger s)).1
      /\ sv_metrics s2 = (if queue_full (sv_decisionLogger s)
           then {| (sv_metrics s) with me_decisionLogDropped := counter_add (me_decisionLogDropped (sv_metrics s)) 1 |}
           else sv_metrics s)
  end.
Proof.
  unfold recordDecision, Record_entry, queue_full, logger_open. destruct (sv_decisionLogger s) as [d|] eqn:Ed; [|done].
  destruct (dl_closed d) eqn:Ec; [done|]. destruct (_ <? _); by split_and!.
Qed.

(** The response and the log entry are views of the same decision. *)
Lemma decision_views request dynamic cacheNow now c c2 go a d id latency :
  auctioneer_ok a -> 0 <= req_FloorMicros request -> run a request dynamic cacheNow now c = (c2, go, d) ->
  let rsp := auction_response a id latency d in
  answer_ok request (time_Unix now) (candidates_of (BidCache_Get (req_PlacementID request) cacheNow c).1 dynamic) rsp
  /\ logs (req_PlacementID request) rsp (log_entry a id (req_PlacementID request) d)
  /\ (forall m, count_answer rsp false m = count_decision d m)
  /\ String.eqb (rsp_Status rsp) "filled" = AuctionDecision_Filled d
  /\ rsp_RequestID rsp = id /\ rsp_PricingModel rsp = pol_PricingModel (au_policy a) /\ rsp_SelectionLatencyUS rsp = latency.
Proof.
  intros Ha Hfl Hrun rsp. unfold rsp, auction_response, answer_ok, logs, log_entry, count_answer, count_decision, AuctionDecision_Filled.
  destruct (ad_Bid d) as [w|] eqn:Ew; simpl; rewrite ?Ew.
  - destruct (winner_pays a Ha _ _ _ _ _ _ _ _ _ Hfl Hrun Ew) as (He & Hin & Hf & [Hb1 Hb2] & _).
    destruct (winner_price a Ha _ _ _ _ _ _ _ _ _ Hfl Hrun Ew) as [Hr Hp]. rewrite Hp. by split_and!.
  - destruct (no_winner a Ha _ _ _ _ _ _ _ _ Hfl Hrun Ew) as (-> & -> & -> & Hr). by split_and!.
Qed.

(** The ID of a request: its header, or the next generated one. *)
Definition id_of (r : Request) (s : Server W) : string :=
  if String.eqb (rq_header r "X-Request-ID") "" then "a-" +:+ FormatUint (counter_add (sv_requestNumber s) 1) 36
  else rq_header r "X-Request-ID".

(** What a valid auction request does. *)
Definition auctioned (r : Request) (clock : auction_clock) (request : AuctionRequest) (s s2 : Server W) (resp : option Response) : Prop :=
  auction_frame s s2 /\
  exists a entry latency,
    (logger_open s -> resp = Some (writeJSON StatusOK (JSONAuction a))
       /\ sv_decisionLogger s2 = (Record_entry entry (sv_decisionLogger s)).1
       /\ sv_metrics s2 = RecordAuction (String.eqb (rsp_Status a) "filled") (rsp_SelectionLatencyUS a) latency
            (count_answer a (queue_full (sv_decisionLogger s)) (sv_metrics s)))
    /\ (~ logger_open s -> resp = None)
    /\ answer_ok request (time_Unix (ck_auction clock)) (auction_candidates request clock s) a
    /\ logs (req_PlacementID request) a entry
    /\ rsp_RequestID a = id_of r s /\ rsp_PricingModel a = pol_PricingModel (au_policy (sv_auctioneer s))
    /\ sv_requestNumber s2 = (if String.eqb (rq_header r "X-Request-ID") "" then counter_add (sv_requestNumber s) 1
                              else sv_requestNumber s).

Lemma auction_input_valid r request : auction_input r = Some request -> 0 <= req_FloorMicros request.
Proof.
  unfold auction_input. destruct (decodeJSON _ r) as [q|]; [|done]. destruct (AuctionRequest_Validate q) eqn:Ev; [done|].
  intros [= <-]. apply AuctionRequest_Validate_spec in Ev. tauto.
Qed.

Lemma auction_valid r clock s s2 work resp request :
  auctioneer_ok (sv_auctioneer s) -> auction_input r = Some request ->
  auction r clock s = (s2, work, resp) -> auctioned r clock request s s2 resp.
Proof.
  intros Ha Hin. pose proof (auction_input_valid _ _ Hin) as Hfl. unfold auction, auction_input in *.
  destruct (decodeJSON Decode_AuctionRequest r) as [q|]; [|done]. destruct (AuctionRequest_Validate q); [done|].
  injection Hin as <-. rename q into request.
  destruct (dynamic_bids request clock s) as [[s1 dynamic] work1] eqn:Ed.
  destruct (dynamic_bids_spec _ _ _ _ _ _ Ed) as (-> & Hc1 & Hm1 & Hl1 & Hn1 & Hst1 & Hcf1 & Hau1). rewrite Hc1, Hau1.
  destruct (RunWithDynamic _ _ _ _ _ (sv_cache s)) as [[cache go] decision] eqn:Erun.
  match goal with |- context [requestID r ?x] => destruct (requestID r x) as [id s3] eqn:Eid end.
  destruct (requestID_spec _ _ _ _ Eid) as (Hc3 & Hm3 & Hl3 & He3 & (Hst3 & Hcf3 & Hau3) & Hg1 & Hg2). simpl in *.
  set (latency := Microseconds _). set (s4 := count_metric (count_decision decision) s3).
  assert (Hau : sv_auctioneer s3 = sv_auctioneer s) by (by rewrite Hau3).
  set (late := Microseconds (time_Sub (ck_finished clock) (ck_started clock))).
  destruct (decision_views _ _ _ _ _ _ _ _ _ id latency Ha Hfl Erun) as (Hok & Hlog & Hcount & Hfill & Hid & Hpm & Hlat).
  assert (Hopen : logger_open s4 <-> logger_open s) by (unfold logger_open, s4; simpl; by rewrite Hl3, Hl1).
  assert (Hid2 : id = id_of r s /\ sv_requestNumber s3 = if String.eqb (rq_header r "X-Request-ID") ""
      then counter_add (sv_requestNumber s) 1 else sv_requestNumber s).
  { unfold id_of. destruct (String.eqb_spec (rq_header r "X-Request-ID") "") as [Hh|Hh].
    - destruct (Hg2 Hh) as [Hn He]. by rewrite He, Hn, Hn1.
    - destruct (Hg1 Hh) as [He Hs3]. by rewrite Hs3. }
  destruct Hid2 as [Hid2 Hnum].
  rewrite Hau. set (rsp := auction_response (sv_auctioneer s) id latency decision) in *.
  set (entry := log_entry (sv_auctioneer s) id (req_PlacementID request) decision) in *.
  pose proof (recordDecision_spec id (req_PlacementID request) decision s4) as Hrec.
  destruct (recordDecision _ _ decision s4) as [s5|]; intros [= <- <- <-].
  - destruct Hrec as (Ho & (Hst5 & Hcf5 & Hau5) & Hn5 & Hl5 & Hm5). unfold s4 in *. simpl in *.
    split; [unfold auction_frame; simpl; split_and!; congruence|].
    exists rsp, entry, late. split_and!; [|tauto|done|done|congruence|done|simpl; by rewrite Hn5]. intros _.
    rewrite Hau, Hl3, Hl1 in Hl5. split_and!; [done|done|].
    unfold count_metric. cbn [sv_metrics]. rewrite Hm5, Hl3, Hl1, Hm3, Hm1, Hfill, Hlat. f_equal. rewrite <- Hcount.
    symmetry. apply count_flags_dropped.
  - unfold s4 in *. simpl in *. split; [unfold auction_frame; simpl; split_and!; congruence|].
    exists rsp, entry, late. split_and!; [tauto|done|done|done|congruence|done|done].
Qed.
End auction_endpoint.

(** C26: the auction endpoint. A body that does not decode to a valid request is
    answered with 400 and changes nothing but the bad-request counter. A valid one
    leaves the registry alone and is answered with 200 whenever the decision log is
    open (a closed one panics): filled with an eligible bid of the snapshot or of a
    DSP, at a price between the floors and its effective price, or not filled, with a
    reason and no price. The log entry says what was answered, the counters count it
    once, and the request keeps its ID. *)
Theorem auction_endpoint {W} `{BidStore W} r clock (s s2 : Server W) work resp :
  auctioneer_ok (sv_auctioneer s) -> auction r clock s = (s2, work, resp) ->
  match auction_input r with
  | None => resp = Some (error_response StatusBadRequest "invalid auction request")
      /\ s2 = count_metric bad_request s /\ work = []
  | Some request => auctioned r clock request s s2 resp
  end.
Proof.
  intros Ha Hr. destruct (auction_input r) as [request|] eqn:Hin; [by eapply auction_valid|].
  unfold auction, auction_input in *. destruct (decodeJSON _ r) as [q|]; [|by simplify_eq].
  destruct (AuctionRequest_Validate q); [by simplify_eq|done].
Qed.

(** ** The registry endpoints *)

Section registry_endpoints.
Context `{Redis} (rs : RedisStore) (range : gmap string string -> list (string * string)).

#[local] Instance redis_instance : BidStore World := redis_bid_store rs range.

(** The bid an upsert's body holds, when it is valid and the one of the path. *)
Definition upsert_input (r : Request) : option Bid :=
  match decodeJSON Decode_Bid r with
  | None => None
  | Some bid =>
      let bid := Bid_Normalize bid in
      if String.eqb (bid_ID bid) (rq_path_id r) && match Bid_Validate bid with None => true | Some _ => false end
      then Some bid else None
  end.

Definition upsert_status (e : option error) : Z :=
  match e with None => StatusOK | Some ErrStaleBidRevision => StatusConflict | Some (ErrMsg _) => StatusServiceUnavailable end.

(** A snapshot refresh is started unless one is in flight. *)
Definition starts_refresh (p : string) (s s2 : Server World) (work : list started) : Prop :=
  (sv_cache s2, match work with [] => false | _ => true end) = RefreshAsync p (sv_cache s)
  /\ (work = [] \/ work = [RefreshSnapshot p]).

Lemma upsert_input_stored r b :
  upsert_input r = Some b -> stored_bid b /\ bid_ID b = rq_path_id r.
Proof.
  unfold upsert_input, decodeJSON. destruct (_ <? _); [done|].
  destruct (Decode_Bid (rq_body r)) as [[b0 rest]|] eqn:Ed; [|done]. destruct (string_forall _ _); [|done].
  cbv zeta. destruct (String.eqb_spec (bid_ID (Bid_Normalize b0)) (rq_path_id r)) as [Hid|]; [|done].
  destruct (Bid_Validate (Bid_Normalize b0)) eqn:Ev; [done|]. intros [= <-]. split; [|done].
  split; [by apply Bid_validate_wf|by eapply decoded_sound].
Qed.

(** What an accepted upsert does, by the error of the store. *)
Lemma upsert_accepted r s s2 work resp b :
  authorized s r = true -> upsert_input r = Some b -> upsertBid r s = (s2, work, resp) ->
  exists e, RedisStore_Upsert rs b (sv_store s) = (sv_store s2, e)
  /\ rs_status resp = upsert_status e
  /\ (e = None -> resp = writeJSON StatusOK (JSONBid b) /\ starts_refresh (bid_PlacementID b) s s2 work)
  /\ (e <> None -> work = [] /\ sv_cache s2 = sv_cache s)
  /\ sv_metrics s2 = (if decide (e = None) then bid_mutation (sv_metrics s) else bid_mutation_error (bid_mutation (sv_metrics s))).
Proof.
  intros Hauth Hin. unfold upsertBid, upsert_input in *. rewrite Hauth. simpl negb. cbv iota.
  destruct (decodeJSON Decode_Bid r) as [b0|]; [|done]. cbv zeta in *.
  destruct (String.eqb (bid_ID (Bid_Normalize b0)) (rq_path_id r)), (Bid_Validate (Bid_Normalize b0)); try done.
  injection Hin as ->. simpl. destruct (RedisStore_Upsert rs b (sv_store s)) as [w2 [e|]] eqn:Eu.
  - destruct e as [|msg]; simpl; intros [= <- <- <-]; eexists; (split; [reflexivity|]); by split_and!.
  - destruct (RefreshAsync (bid_PlacementID b) (sv_cache s)) as [cache go] eqn:Er. intros [= <- <- <-].
    exists None. split; [reflexivity|]. split_and!; try done. intros _. split; [done|]. unfold starts_refresh. simpl. rewrite Er.
    destruct go; split; auto.
Qed.

Definition delete_status (e : option error) : Z :=
  match e with None => StatusNoContent | Some ErrStaleBidRevision => StatusConflict | Some (ErrMsg _) => StatusBadRequest end.

Lemma delete_accepted r s s2 work resp rev :
  authorized s r = true -> ParseUint (rq_query r "revision") = Some rev -> deleteBid r s = (s2, work, resp) ->
  let p := rq_query r "placement_id" in
  exists e, RedisStore_Delete rs p (rq_path_id r) rev (sv_store s) = (sv_store s2, e)
  /\ rs_status resp = delete_status e
  /\ (e = None -> starts_refresh p s s2 work)
  /\ (e <> None -> work = [] /\ sv_cache s2 = sv_cache s)
  /\ sv_metrics s2 = (if decide (e = None) then bid_mutation (sv_metrics s) else bid_mutation_error (bid_mutation (sv_metrics s))).
Proof.
  intros Hauth Hrev. unfold deleteBid. rewrite Hauth, Hrev. simpl negb. cbv iota zeta. set (p := rq_query r "placement_id").
  simpl. destruct (RedisStore_Delete rs p (rq_path_id r) rev (sv_store s)) as [w2 [e|]] eqn:Eu.
  - destruct e as [|msg]; simpl; intros [= <- <- <-]; eexists; (split; [reflexivity|]); by split_and!.
  - destruct (RefreshAsync p (sv_cache s)) as [cache go] eqn:Er. intros [= <- <- <-].
    exists None. split; [reflexivity|]. split_and!; try done. intros _. unfold starts_refresh. simpl. rewrite Er.
    destruct go; split; auto.
Qed.

(** C28: the upsert endpoint over Redis. Without the token nothing happens (401); a
    body that is not a valid bid with the ID of the path changes only the bad-request
    counter (400). Otherwise the bid is valid and carries the ID of the path, the status
    is 200, 409 or 503 by what the store's Upsert returned, and a 200 has the bid as its
    body and starts a refresh of the placement's snapshot unless one is in flight. For
    revisions of at most 2^53, of this bid and of what the registry holds for its ID,
    which Lua compares exactly, the handler performs at most the one abstract versioned
    write and its status is the verdict: 200 when the write took effect, 409 when the
    revision is stale and the cell unchanged, 503 when Redis failed; and without faults
    it is 200 or 409, exactly as that write decides. Above 2^53 the scripts compare
    rounded revisions, and the verdict can differ ([newer_revision_rejected]). *)
Theorem upsert_endpoint r s s2 work resp :
  Consistent rs (w_db (sv_store s)) -> upsertBid r s = (s2, work, resp) ->
  (authorized s r = false -> s2 = s /\ work = [] /\ rs_status resp = StatusUnauthorized)
  /\ (authorized s r = true -> upsert_input r = None ->
        s2 = count_metric bad_request s /\ work = [] /\ rs_status resp = StatusBadRequest)
  /\ (forall b, authorized s r = true -> upsert_input r = Some b ->
        Bid_wf true b /\ bid_ID b = rq_path_id r /\
        exists payload e, json_Marshal b = Some payload /\ rs_status resp = upsert_status e
        /\ (bid_Revision b <= 2 ^ 53 -> small_revision (registry rs (w_db (sv_store s)) (bid_PlacementID b) (bid_ID b)) ->
              mutation_outcome rs exact_compare (bid_PlacementID b) (bid_ID b) (bid_Revision b) (Some payload)
                (w_db (sv_store s)) (w_db (sv_store s2)) e
              /\ (w_net (sv_store s) = [] ->
                   rs_status resp = match (spec_write exact_compare (registry rs (w_db (sv_store s)) (bid_PlacementID b) (bid_ID b))
                                             (bid_Revision b) (Some payload)).2 with Stale => StatusConflict | _ => StatusOK end))
        /\ (rs_status resp = StatusOK -> resp = writeJSON StatusOK (JSONBid b) /\ starts_refresh (bid_PlacementID b) s s2 work)).
Proof.
  intros Hc Hu. split_and!.
  - intros Hauth. unfold upsertBid in Hu. rewrite Hauth in Hu. by simplify_eq/=.
  - intros Hauth Hin. unfold upsertBid, upsert_input in *. rewrite Hauth in Hu. simpl in Hu.
    destruct (decodeJSON Decode_Bid r) as [b0|]; [|by simplify_eq/=]. cbv zeta in *.
    destruct (String.eqb (bid_ID (Bid_Normalize b0)) (rq_path_id r)), (Bid_Validate (Bid_Normalize b0)); by simplify_eq/=.
  - intros b Hauth Hin. destruct (upsert_input_stored _ _ Hin) as [Hb Hid]. split; [apply Hb|]. split; [done|].
    destruct (upsert_accepted _ _ _ _ _ _ Hauth Hin Hu) as (e & He & Hs & Hok & _).
    destruct (Marshal_total b) as (payload & Hm). exists payload, e. split_and!; [done|done| |].
    + intros Hr Hsm. destruct (Upsert_outcome _ rs b payload _ _ e Hc Hb Hm Hr Hsm He) as [Ho Hf]. split; [done|].
      intros Hn. rewrite Hs, (Hf Hn). by destruct (spec_write _ _ _ _) as [? []].
    + rewrite Hs. intros Heq. apply Hok. by destruct e as [[]|].
Qed.

(** The delete endpoint over Redis. Without the token nothing happens (401), and
    without a decimal revision neither (400). Otherwise the handler performs at most
    the one abstract versioned write of the tombstone, and answers 204 when it took
    effect, with a refresh of the placement's snapshot started unless one is in
    flight, 409 when the revision is stale and the cell unchanged, and 400 for
    arguments the store refuses, which change nothing in Redis, and for Redis
    failures. *)
Theorem delete_endpoint r s s2 work resp :
  Consistent rs (w_db (sv_store s)) -> deleteBid r s = (s2, work, resp) ->
  let p := rq_query r "placement_id" in
  let id := rq_path_id r in
  (authorized s r = false -> s2 = s /\ work = [] /\ rs_status resp = StatusUnauthorized)
  /\ (authorized s r = true -> ParseUint (rq_query r "revision") = None -> s2 = s /\ work = [] /\ rs_status resp = StatusBadRequest)
  /\ (forall rev, authorized s r = true -> ParseUint (rq_query r "revision") = Some rev ->
        (~ delete_accepts p id rev -> sv_store s2 = sv_store s /\ rs_status resp = StatusBadRequest)
        /\ (delete_accepts p id rev -> rev <= 2 ^ 53 -> small_revision (registry rs (w_db (sv_store s)) p id) ->
              exists e, rs_status resp = delete_status e
              /\ mutation_outcome rs exact_compare p id rev None (w_db (sv_store s)) (w_db (sv_store s2)) e
              /\ (w_net (sv_store s) = [] ->
                   rs_status resp = match (spec_write exact_compare (registry rs (w_db (sv_store s)) p id) rev None).2 with
                                    | Stale => StatusConflict | _ => StatusNoContent end))
        /\ (rs_status resp = StatusNoContent -> starts_refresh p s s2 work)).
Proof.
  intros Hc Hd p id. split_and!.
  - intros Hauth. unfold deleteBid in Hd. rewrite Hauth in Hd. by simplify_eq/=.
  - intros Hauth Hrev. unfold deleteBid in Hd. rewrite Hauth, Hrev in Hd. by simplify_eq/=.
  - intros rev Hauth Hrev. destruct (delete_accepted _ _ _ _ _ _ Hauth Hrev Hd) as (e & He & Hs & Hok & _). fold p in He, Hok.
    destruct (Delete_outcome _ rs p id rev _ _ e Hc (ParseUint_range _ _ Hrev) He) as [Hbad Hgood]. split_and!.
    + intros Hna. destruct (Hbad Hna) as (-> & msg & ->). by rewrite Hs.
    + intros Hacc Hr Hsm. destruct (Hgood Hacc Hr Hsm) as [Ho Hf]. exists e. split_and!; [done|done|].
      intros Hn. rewrite Hs, (Hf Hn). by destruct (spec_write _ _ _ _) as [? []].
    + rewrite Hs. intros Heq. apply Hok. by destruct e as [[]|].
Qed.
End registry_endpoints.

(** ** Access *)

Section access.
Context {W : Type}.

(** The access check. Without a configured token everybody may write. Otherwise
    exactly the requests whose Authorization header is the token after the scheme
    Bearer, or the bare token (when the token does not itself start with the scheme). *)
Theorem authorized_exactly (s : Server W) r :
  authorized s r = true <->
  let token := c_AdminToken (sv_config s) in
  let header := rq_header r "Authorization" in
  token = "" \/ header = "Bearer " +:+ token \/ (header = token /\ forall rest, token <> "Bearer " +:+ rest).
Proof.
  unfold authorized. cbv zeta. set (token := c_AdminToken _). set (h := rq_header r "Authorization").
  destruct (String.eqb_spec token "") as [Ht|Ht]; [by split; auto|].
  assert (Hb : (len (TrimPrefix h "Bearer ") =? len token) && String.eqb (TrimPrefix h "Bearer ") token = true
    <-> TrimPrefix h "Bearer " = token).
  { split; [intros Hx; by bool_hyps|]. intros ->. by rewrite Z.eqb_refl, String.eqb_refl. }
  rewrite Hb. clear Hb. destruct (TrimPrefix_cases h "Bearer ") as [(rest & Hh & ->)|[Hno ->]].
  - rewrite Hh. split; [intros ->; auto|]. intros [?|[He|[He Hn]]]; [done|by apply string_app_inj in He|].
    by destruct (Hn rest).
  - split; [intros He; right; right; split; [done|]; intros rest Hr; apply (Hno rest); congruence|].
    intros [?|[He|[He _]]]; [done|by apply Hno in He|done].
Qed.
End access.

(** ** Histories of requests *)

(** The counters of the handlers, in the order of the metrics page. *)
Definition tally (m : Metrics) : list Z :=
  [me_auctions m; me_filled m; me_noBid m; me_badRequests m; me_bidMutations m; me_bidMutationErrors m;
   me_readinessChecks m; me_readinessFailures m; me_servedStale m; me_staleNoBid m; me_dynamicWins m].

Definition answer_of (resp : Response) : option AuctionResponse :=
  match rs_body resp with JSONAuction a => Some a | _ => None end.

Definition answer_is (P : AuctionResponse -> bool) (resp : Response) : bool :=
  match answer_of resp with Some a => P a | None => false end.

(** Whether an exchange attempted to write the registry. *)
Definition mutates (r : Request) (resp : Response) : bool :=
  match route (rq_method r) (rq_path r) with
  | ToUpsertBid _ => bool_decide (rs_status resp ∈ [StatusOK; StatusConflict; StatusServiceUnavailable])
  | ToDeleteBid _ =>
      negb (rs_status resp =? StatusUnauthorized) && match ParseUint (rq_query r "revision") with Some _ => true | None => false end
  | _ => false
  end.

Definition bump (n : Z) (b : bool) : Z := if b then counter_add n 1 else n.

(** What one exchange is worth, counter by counter, from what the client sees. *)
Definition increments (r : Request) (resp : Response) : list bool :=
  let status := rs_status resp in
  let e := route (rq_method r) (rq_path r) in
    [answer_is (fun _ => true) resp;
     answer_is (fun a => String.eqb (rsp_Status a) "filled") resp;
     answer_is (fun a => negb (String.eqb (rsp_Status a) "filled")) resp;
     match e with ToAuction | ToUpsertBid _ => status =? StatusBadRequest | _ => false end;
     mutates r resp;
     mutates r resp && negb (status =? StatusOK) && negb (status =? StatusNoContent);
     match e with ToReady => true | _ => false end;
     match e with ToReady => status =? StatusServiceUnavailable | _ => false end;
     answer_is rsp_ServedStale resp;
     answer_is (fun a => String.eqb (rsp_NoBidReason a) "stale_snapshot") resp;
     answer_is (fun a => negb (String.eqb (rsp_DynamicBidderID a) "")) resp].

Section histories.
Context {W : Type} `{BidStore W}.

(** The ID the server made up for an answered auction. *)
Definition generated_id (r : Request) (resp : Response) : option string :=
  if String.eqb (rq_header r "X-Request-ID") "" then rsp_RequestID <$> answer_of resp else None.

(** A server that can record its decisions. *)
Definition in_service (s : Server W) : Prop :=
  auctioneer_ok (sv_auctioneer s) /\ logger_open s
  /\ me_decisionLogDropped (sv_metrics s) = Dropped (sv_decisionLogger s).

Definition counted (r : Request) (resp : Response) (s s2 : Server W) : Prop :=
  in_service s2 /\ sv_auctioneer s2 = sv_auctioneer s
  /\ tally (sv_metrics s2) = zip_with bump (tally (sv_metrics s)) (increments r resp)
  /\ match generated_id r resp with
     | Some id => sv_requestNumber s2 = counter_add (sv_requestNumber s) 1 /\ id = "a-" +:+ FormatUint (sv_requestNumber s2) 36
     | None => sv_requestNumber s2 = sv_requestNumber s
     end.

Lemma tally_record filled x y m :
  tally (RecordAuction filled x y m) =
    zip_with bump (tally m) [true; filled; negb filled; false; false; false; false; false; false; false; false]
  /\ me_decisionLogDropped (RecordAuction filled x y m) = me_decisionLogDropped m.
Proof. destruct m, filled; by split. Qed.

Lemma tally_count_answer a dropped m :
  tally (count_answer a dropped m) =
    zip_with bump (tally m)
      [false; false; false; false; false; false; false; false; rsp_ServedStale a;
       String.eqb (rsp_NoBidReason a) "stale_snapshot"; negb (String.eqb (rsp_DynamicBidderID a) "")]
  /\ me_decisionLogDropped (count_answer a dropped m) = bump (me_decisionLogDropped m) dropped.
Proof.
  unfold count_answer. generalize (rsp_ServedStale a), (String.eqb (rsp_NoBidReason a) "stale_snapshot"),
    (negb (String.eqb (rsp_DynamicBidderID a) "")). intros [] [] []; destruct m, dropped; by split.
Qed.

(** An exchange without an auction answer that only moves the counters it should. *)
Lemma counted_plain r resp (s s2 : Server W) :
  in_service s -> answer_of resp = None ->
  sv_auctioneer s2 = sv_auctioneer s -> sv_decisionLogger s2 = sv_decisionLogger s ->
  sv_requestNumber s2 = sv_requestNumber s ->
  me_decisionLogDropped (sv_metrics s2) = me_decisionLogDropped (sv_metrics s) ->
  tally (sv_metrics s2) = zip_with bump (tally (sv_metrics s)) (increments r resp) ->
  counted r resp s s2.
Proof.
  intros (Ha & Ho & Hd) Hn Hau Hl Hnum Hdr Ht. unfold counted, in_service, logger_open, generated_id.
  rewrite Hau, Hl, Hdr, Hn. split_and!; try done. by destruct (String.eqb _ "").
Qed.

(** Unfolds what an exchange is worth. *)
Ltac weigh := unfold increments, mutates, answer_is; simpl;
  try match goal with H : route _ _ = _ |- _ => rewrite ?H end; simpl.

Lemma auction_counted r clock s s2 work resp :
  route (rq_method r) (rq_path r) = ToAuction -> in_service s -> auction r clock s = (s2, work, resp) ->
  exists rsp, resp = Some rsp /\ counted r rsp s s2.
Proof.
  intros Hrt Hs Hr. pose proof Hs as (Ha & Ho & Hd). destruct (auction_input r) as [request|] eqn:Hin.
  - destruct (auction_valid _ _ _ _ _ _ _ Ha Hin Hr) as ((_ & _ & Hau) & a & entry & latency & Hopen & _ & _ & _ & Hid & _ & Hn).
    destruct (Hopen Ho) as (-> & Hl & Hm). eexists. split; [reflexivity|]. unfold counted, in_service. rewrite Hau, Hm, Hl.
    split_and!; try done.
    + unfold logger_open in *. rewrite Hl. unfold Record_entry. destruct (sv_decisionLogger s) as [d|]; [|done].
      rewrite Ho. by destruct (_ <? _).
    + rewrite (proj2 (tally_record _ _ _ _)), (proj2 (tally_count_answer _ _ _)), Hd.
      unfold Record_entry, queue_full, logger_open in *. destruct (sv_decisionLogger s) as [d|]; [|done].
      rewrite Ho. by destruct (_ <? _).
    + rewrite (proj1 (tally_record _ _ _ _)), (proj1 (tally_count_answer _ _ _)). unfold increments, mutates. rewrite Hrt. done.
    + unfold generated_id. simpl. destruct (String.eqb _ "") eqn:Eh; [|done]. simpl. split; [done|].
      rewrite Hn, Hid. unfold id_of. by rewrite Eh.
  - exists (error_response StatusBadRequest "invalid auction request"). assert (Hs2 : resp = Some (error_response StatusBadRequest "invalid auction request") /\ s2 = count_metric bad_request s).
    { unfold auction, auction_input in *. destruct (decodeJSON _ r) as [q|]; [|by simplify_eq].
      destruct (AuctionRequest_Validate q); [by simplify_eq|done]. }
    destruct Hs2 as [-> ->]. split; [done|]. apply counted_plain; try done. by weigh.
Qed.

Lemma upsert_counted r id s s2 work resp :
  route (rq_method r) (rq_path r) = ToUpsertBid id -> in_service s ->
  upsertBid (SetPathValue id r) s = (s2, work, resp) -> counted r resp s s2.
Proof.
  intros Hrt Hs. unfold upsertBid. destruct (authorized s (SetPathValue id r)); simpl negb; cbv iota.
  2:{ intros [= <- <- <-]. apply counted_plain; try done. by weigh. }
  destruct (decodeJSON _ _) as [b|]; [|intros [= <- <- <-]; apply counted_plain; try done; by weigh].
  cbv zeta. case_test; [intros [= <- <- <-]; apply counted_plain; try done; by weigh|].
  simpl. destruct (store_Upsert _ _) as [w [e|]].
  - destruct (is_stale_error e); intros [= <- <- <-]; apply counted_plain; try done; by weigh.
  - destruct (RefreshAsync _ _) as [cache go]. intros [= <- <- <-]. apply counted_plain; try done; by weigh.
Qed.

Lemma delete_counted r id s s2 work resp :
  route (rq_method r) (rq_path r) = ToDeleteBid id -> in_service s ->
  deleteBid (SetPathValue id r) s = (s2, work, resp) -> counted r resp s s2.
Proof.
  intros Hrt Hs. unfold deleteBid. destruct (authorized s (SetPathValue id r)); simpl negb; cbv iota.
  2:{ intros [= <- <- <-]. apply counted_plain; try done. by weigh. }
  simpl rq_query. cbv zeta. destruct (ParseUint (rq_query r "revision")) as [rev|] eqn:Er.
  2:{ intros [= <- <- <-]. apply counted_plain; try done. weigh. by rewrite Er. }
  simpl. destruct (store_Delete _ _ _ _) as [w [e|]].
  - destruct (is_stale_error e); intros [= <- <- <-]; apply counted_plain; try done; weigh; by rewrite Er.
  - destruct (RefreshAsync _ _) as [cache go]. intros [= <- <- <-]. apply counted_plain; try done; weigh; by rewrite Er.
Qed.

Lemma Handler_counted r clock s s2 work resp :
  in_service s -> Handler r clock s = (s2, work, resp) -> exists rsp, resp = Some rsp /\ counted r rsp s s2.
Proof.
  intros Hs. unfold Handler. destruct (serve r clock s) as [[s1 work1] resp1] eqn:E. intros [= <- <- <-].
  assert (Hgoal : exists rsp, resp1 = Some rsp /\ counted r rsp s s1).
  { unfold serve in E. destruct (route (rq_method r) (rq_path r)) eqn:Hrt.
    - by eapply auction_counted.
    - destruct (upsertBid _ s) as [[? ?] ?] eqn:Eu. injection E as <- <- <-. eexists. split; [done|]. by eapply upsert_counted.
    - destruct (deleteBid _ s) as [[? ?] ?] eqn:Eu. injection E as <- <- <-. eexists. split; [done|]. by eapply delete_counted.
    - injection E as <- <- <-. eexists. split; [done|]. apply counted_plain; try done. by weigh.
    - unfold ready in E. simpl in E. destruct (store_Ping _) as [w [e|]]; injection E as <- <- <-; eexists; (split; [done|]);
        apply counted_plain; try done; by weigh.
    - injection E as <- <- <-. eexists. split; [done|]. apply counted_plain; try done. by weigh.
    - injection E as <- <- <-. eexists. split; [done|]. apply counted_plain; try done. by weigh.
    - injection E as <- <- <-. eexists. split; [done|]. apply counted_plain; try done. by weigh. }
  destruct Hgoal as (rsp & -> & Hc). exists (securityHeaders rsp). split; [done|]. exact Hc.
Qed.

(** Requests served one after the other, and what was answered. *)
Definition serve_all (l : list (Request * auction_clock)) (s : Server W) : Server W * list (Request * option Response) :=
  fold_left (fun '(s, h) '(r, clock) => let '(s, _, resp) := Handler r clock s in (s, h ++ [(r, resp)])) l (s, []).

(** The exchanges of a history worth one on counter [i]. *)
Definition times (i : nat) (h : list (Request * Response)) : Z :=
  Z.of_nat (length (filter (fun x => increments x.1 x.2 !! i = Some true) h)).

Definition made_up (n : Z) : string := "a-" +:+ FormatUint n 36.

Record history_ok (s : Server W) (h : list (Request * Response)) : Prop := {
  ho_service : in_service s;
  ho_tally : forall i, (i < 11)%nat -> tally (sv_metrics s) !! i = Some (uint64 (times i h));
  ho_number : sv_requestNumber s = uint64 (Z.of_nat (length (omap (fun x => generated_id x.1 x.2) h)));
  ho_ids : omap (fun x => generated_id x.1 x.2) h
    = (fun n => made_up (uint64 n)) <$> seqZ 1 (Z.of_nat (length (omap (fun x => generated_id x.1 x.2) h)))
}.

Lemma times_snoc i h x :
  times i (h ++ [x]) = times i h + (if decide (increments x.1 x.2 !! i = Some true) then 1 else 0).
Proof. unfold times. rewrite filter_app, length_app, filter_cons. case_decide; simpl; lia. Qed.

Lemma history_step s h r clock s2 work resp :
  history_ok s h -> Handler r clock s = (s2, work, resp) ->
  exists rsp, resp = Some rsp /\ history_ok s2 (h ++ [(r, rsp)]).
Proof.
  intros [Hs Ht Hn Hi] Hh. destruct (Handler_counted _ _ _ _ _ _ Hs Hh) as (rsp & -> & Hs2 & _ & Ht2 & Hg).
  exists rsp. split; [done|]. split; [done| | |].
  - intros i Hlt. rewrite Ht2, lookup_zip_with, (Ht i Hlt), times_snoc. simpl.
    assert (Hb : exists b, increments r rsp !! i = Some b).
    { apply lookup_lt_is_Some. unfold increments. simpl. lia. }
    destruct Hb as [b Hb]. rewrite Hb. simpl. unfold bump. destruct b; rewrite ?decide_True, ?decide_False by done.
    + unfold counter_add. by rewrite uint64_add_l.
    + by rewrite Z.add_0_r.
  - rewrite omap_app. simpl. destruct (generated_id r rsp); [|by rewrite app_nil_r, Hg].
    destruct Hg as [-> _]. rewrite Hn, length_app, Nat2Z.inj_add. unfold counter_add. by rewrite uint64_add_l.
  - rewrite omap_app. simpl. destruct (generated_id r rsp) as [id|]; [|by rewrite app_nil_r].
    destruct Hg as [Hnum ->]. rewrite length_app, Nat2Z.inj_add, seqZ_app, fmap_app, <- Hi by lia. f_equal.
    simpl. unfold made_up. rewrite Hnum, Hn. unfold counter_add. rewrite uint64_add_l, Z.add_comm. done.
Qed.

Lemma serve_all_snoc l r clock s :
  serve_all (l ++ [(r, clock)]) s =
  let '(s1, h) := serve_all l s in let '(s2, _, resp) := Handler r clock s1 in (s2, h ++ [(r, resp)]).
Proof. unfold serve_all. rewrite fold_left_app. simpl. by destruct (fold_left _ l (s, [])). Qed.

Lemma serve_all_ok l s s2 h :
  history_ok s [] -> serve_all l s = (s2, h) ->
  exists h', h = (fun x => (x.1, Some x.2)) <$> h' /\ h'.*1 = l.*1 /\ history_ok s2 h'.
Proof.
  intros Hs. revert s2 h. induction l as [|[r clock] l IH] using rev_ind; intros s2 h.
  { intros [= <- <-]. by exists []. }
  rewrite serve_all_snoc. destruct (serve_all l s) as [s1 h1] eqn:E1.
  destruct (IH _ _ eq_refl) as (h' & -> & Hl & Hok). destruct (Handler r clock s1) as [[s3 work] resp] eqn:Eh.
  intros [= <- <-]. destruct (history_step _ _ _ _ _ _ _ Hok Eh) as (rsp & -> & Hok2).
  exists (h' ++ [(r, rsp)]). rewrite !fmap_app, Hl. by split_and!.
Qed.

Lemma made_up_inj n m : is_uint64 n -> is_uint64 m -> made_up n = made_up m -> n = m.
Proof. intros Hn Hm He. apply string_app_inj in He. apply FormatUint_inj in He; [done|lia|done|done]. Qed.

Lemma history_ids_distinct s h :
  history_ok s h -> Z.of_nat (length h) < 2 ^ 64 -> NoDup (omap (fun x => generated_id x.1 x.2) h).
Proof.
  intros [_ _ _ Hi] Hlt. set (k := length (omap _ h)) in Hi.
  assert (Hk : Z.of_nat k < 2 ^ 64).
  { unfold k. pose proof (length_omap_le (fun x => generated_id x.1 x.2) h). lia. }
  rewrite Hi. apply NoDup_fmap_2_strong; [|apply NoDup_seqZ].
  intros x y [Hx1 Hx2]%elem_of_seqZ [Hy1 Hy2]%elem_of_seqZ He.
  rewrite !uint64_id in He by (unfold_int; lia). apply made_up_inj in He; [done|unfold_int; lia..].
Qed.

Lemma times_le i h : 0 <= times i h <= Z.of_nat (length h).
Proof. unfold times. pose proof (length_filter (fun x => increments x.1 x.2 !! i = Some true) h). lia. Qed.

Lemma new_history_ok config w cache :
  is_int64 (pol_SecondPriceIncrementMicros (c_AuctionPolicy config)) -> history_ok (NewServer config w cache) [].
Proof.
  intros Hp. split; try done.
  - split_and!; [by apply NewAuctioneerWithPolicy_ok|..]; unfold logger_open, NewServer, NewDecisionLogger; simpl; by destruct (negb _).
  - intros i Hi. do 11 (destruct i as [|i]; [done|]). lia.
Qed.
End histories.

(** C27: the counters of a history. A new server, with or without a bidder engine,
    answers every request of a history without panicking, and each counter of the
    metrics page is exactly the number of exchanges of its kind, as the client saw
    them: auctions answered, filled and not filled, bad requests, attempted and
    failed registry writes, readiness checks and failures, stale snapshots served
    and refused, and wins of DSPs. The drop counter agrees with the logger's own.
    The request IDs the server made up are pairwise distinct. *)
Theorem counters_match_history {W} `{BidStore W} config w cache engine l s2 h :
  is_int64 (pol_SecondPriceIncrementMicros (c_AuctionPolicy config)) -> Z.of_nat (length l) < 2 ^ 64 ->
  let s := NewServer config w cache in
  serve_all l (match engine with Some e => SetBidderEngine e s | None => s end) = (s2, h) ->
  exists h', h = (fun x => (x.1, Some x.2)) <$> h' /\ h'.*1 = l.*1
  /\ tally (sv_metrics s2) = (fun i => times i h') <$> seq 0 11
  /\ me_decisionLogDropped (sv_metrics s2) = Dropped (sv_decisionLogger s2)
  /\ NoDup (omap (fun x => generated_id x.1 x.2) h').
Proof.
  intros Hp Hlen s Hr. assert (Hs : history_ok (match engine with Some e => SetBidderEngine e s | None => s end) []).
  { pose proof (new_history_ok config w cache Hp) as [Hs Ht Hn Hi]. destruct engine; [|by constructor]. by constructor. }
  destruct (serve_all_ok _ _ _ _ Hs Hr) as (h' & -> & Hl & Hok).
  assert (Hlh : length h' = length l) by (by rewrite <- (length_fmap fst h'), Hl, length_fmap).
  exists h'. split_and!; [done|done| |by apply Hok|by eapply history_ids_distinct; [|rewrite Hlh]].
  apply list_eq. intros i. destruct (decide (i < 11)%nat) as [Hi|Hi].
  - rewrite (ho_tally _ _ Hok i Hi), list_lookup_fmap, lookup_seq_lt by done. simpl.
    rewrite uint64_id; [done|]. pose proof (times_le i h'). unfold_int. lia.
  - rewrite !(proj2 (lookup_ge_None _ _)); [done|simpl; lia..].
Qed.

(** ** Evaluations *)

#[export] Instance AuctionRequest_eq_dec : EqDecision AuctionRequest.
Proof. solve_decision. Defined.

Definition sample_config : Config :=
  {| default_Config with c_AdminToken := "secret"; c_DecisionLogging := true; c_DecisionLogBuffer := 1 |}.
Definition sample_server : Server World := NewServer sample_config (mkWorld db_two []) (cache_with [bid2; bid1]).

Definition sample_http (method : string) (path : list string) (body : string) : Request :=
  mkRequest method path (fun key => if String.eqb key "Authorization" then "Bearer secret" else "") ""
    (fun key => if String.eqb key "revision" then "7" else if String.eqb key "placement_id" then "top" else "") body.

Definition sample_ck : auction_clock := mkAuctionClock 0 0 5 5 5 5 (7 * Microsecond) (9 * Microsecond).
Definition request_json : string := "{'placement_id':'top','country':'IN','device':'mobile'}".
Definition auction_http : Request := sample_http "POST" ["v1"; "auction"] (json_text request_json).
Definition upsert_http : Request := sample_http "PUT" ["v1"; "bids"; "b1"] (Marshal_Bid bid1_new).
Definition delete_http : Request := sample_http "DELETE" ["v1"; "bids"; "b2"] "".

Abbreviation auction_run := (auction auction_http sample_ck sample_server).
Abbreviation upsert_run := (upsertBid (SetPathValue "b1" upsert_http) sample_server).
Abbreviation delete_run := (deleteBid (SetPathValue "b2" delete_http) sample_server).

Example auction_run_ok :
  match auction_run.2 with Some (mkResponse 200 _ (JSONAuction a)) => rsp_Bid a = Some bid2 /\ rsp_RequestID a = "a-1" | _ => False end.
Proof. vm_compute. done. Qed.
Example upsert_run_ok : rs_status upsert_run.2 = StatusOK /\ upsert_run.1.2 = [RefreshSnapshot "top"].
Proof. vm_compute. done. Qed.
Example delete_run_ok : rs_status delete_run.2 = StatusNoContent.
Proof. vm_compute. done. Qed.

Lemma sample_auctioneer : auctioneer_ok (sv_auctioneer sample_server).
Proof. split; [by_compute|]. by vm_compute. Qed.

Lemma auction_endpoint_witness :
  auction_input auction_http = Some sample_request
  /\ auctioned auction_http sample_ck sample_request sample_server auction_run.1.1 auction_run.2.
Proof.
  assert (Hin : auction_input auction_http = Some sample_request) by by_compute.
  split; [exact Hin|].
  pose proof (auction_endpoint auction_http sample_ck sample_server auction_run.1.1 auction_run.1.2 auction_run.2 sample_auctioneer
    (triple_eta auction_run)) as Hx.
  rewrite Hin in Hx. exact Hx.
Defined.

Lemma upsert_endpoint_witness :
  upsert_input (SetPathValue "b1" upsert_http) = Some bid1_new
  /\ rs_status upsert_run.2 = StatusOK
  /\ starts_refresh "top" sample_server upsert_run.1.1 upsert_run.1.2.
Proof.
  assert (Hin : upsert_input (SetPathValue "b1" upsert_http) = Some bid1_new) by by_compute.
  split; [exact Hin|]. split; [exact (proj1 upsert_run_ok)|].
  destruct (upsert_endpoint sample_store map_to_list (SetPathValue "b1" upsert_http) sample_server upsert_run.1.1 upsert_run.1.2
    upsert_run.2 db_two_Consistent (triple_eta upsert_run)) as (_ & _ & Hgo).
  destruct (Hgo bid1_new ltac:(by_compute) Hin) as (_ & _ & payload & e & _ & _ & _ & Hok).
  exact (proj2 (Hok (proj1 upsert_run_ok))).
Defined.

Lemma sample_delete_accepts : delete_accepts "top" "b2" 7.
Proof. split; [discriminate|]. split; [discriminate|]. split; [reflexivity|]. vm_compute. discriminate. Qed.

Lemma delete_endpoint_witness :
  rs_status delete_run.2 = StatusNoContent /\ registry sample_store (w_db (sv_store delete_run.1.1)) "top" "b2" = Some (7, None).
Proof.
  split; [by_compute|].
  destruct (delete_endpoint sample_store map_to_list (SetPathValue "b2" delete_http) sample_server delete_run.1.1 delete_run.1.2
    delete_run.2 db_two_Consistent (triple_eta delete_run)) as (_ & _ & Hgo).
  destruct (Hgo 7 ltac:(by_compute) ltac:(by_compute)) as (_ & Hok & _).
  destruct (Hok sample_delete_accepts ltac:(by vm_compute) ltac:(by vm_compute)) as (e & Hs & Ho & _).
  pose proof (eq_trans (eq_sym delete_run_ok) Hs) as Hs2. destruct e as [[|msg]|]; [discriminate Hs2|discriminate Hs2|]. unfold mutation_outcome in Ho. revert Ho.
  destruct (spec_write exact_compare _ 7 None) as [c vd] eqn:Es. intros (_ & _ & _ & Hnone & _).
  etrans; [exact (proj1 (Hnone eq_refl))|]. revert Es. vm_compute. congruence.
Defined.

Definition sample_history : list (Request * auction_clock) :=
  [(auction_http, sample_ck); (upsert_http, sample_ck); (auction_http, sample_ck); (sample_http "GET" ["readyz"] "", sample_ck);
   (sample_http "PUT" ["v1"; "bids"; "b1"] "", sample_ck); (sample_http "POST" ["metrics"] "", sample_ck)].
Definition served_history := serve_all sample_history sample_server.

Lemma counters_match_history_witness :
  tally (sv_metrics served_history.1) = [2; 2; 0; 1; 1; 0; 1; 0; 0; 0; 0]
  /\ me_decisionLogDropped (sv_metrics served_history.1) = 1
  /\ exists h', served_history.2 = (fun x => (x.1, Some x.2)) <$> h' /\ NoDup (omap (fun x => generated_id x.1 x.2) h').
Proof.
  split; [by_compute|]. split; [by_compute|].
  destruct (counters_match_history sample_config (mkWorld db_two []) (cache_with [bid2; bid1]) None sample_history
    served_history.1 served_history.2 ltac:(by vm_compute) ltac:(by vm_compute) (surjective_pairing served_history))
    as (h' & Hh & _ & _ & _ & Hn).
  exists h'. split; [exact Hh|exact Hn].
Defined.
