(* ===== verification/Wire.v ===== *)
(** * The bodies the server writes (internal/ads/server.go, types.go)

    The text of every response: what [json.Encoder.Encode] makes of the handlers'
    values, and the lines of the metrics page. A client that decodes the answer of an
    auction, or of an upsert, as the service decodes its own input, gets exactly the
    value the handler had. *)

From S2P Require Import Prelude GoInt GoTime GoString Types Ranking DynamicBids Utf8 Json JsonProps JsonCodec.
From S2P Require Import Store BidStore Cache Auction Engine DecisionLog Metrics Config Server Samples AuctionProps ServerProps.
From Stdlib Require Import Ascii String.
Open Scope string_scope.
Open Scope list_scope.
Open Scope Z_scope.

(** ** What is written *)

(** A nil pointer is omitted. *)
Definition omit_bid (key : string) (bid : option Bid) : list (string * json) :=
  match bid with Some b => [(key, Bid_json b)] | None => [] end.

Definition AuctionResponse_members (r : AuctionResponse) : list (string * json) :=
  [("request_id", jstring (rsp_RequestID r)); ("status", jstring (rsp_Status r)); ("pricing_model", jstring (rsp_PricingModel r))]
  ++ omit_bid "bid" (rsp_Bid r)
  ++ omit_int "effective_price_micros" (rsp_EffectivePriceMicros r) ++ omit_int "clearing_price_micros" (rsp_ClearingPriceMicros r)
  ++ omit_string "no_bid_reason" (rsp_NoBidReason r) ++ omit (negb (rsp_ServedStale r)) "served_stale" (JBool (rsp_ServedStale r))
  ++ omit_int "snapshot_age_ms" (rsp_SnapshotAgeMS r) ++ omit_string "dynamic_bidder_id" (rsp_DynamicBidderID r)
  ++ [("selection_latency_us", jint (rsp_SelectionLatencyUS r))].

Definition AuctionResponse_json (r : AuctionResponse) : json := JObject (AuctionResponse_members r).

(** [Encode] ends a value with a newline; a metrics page and the mux's errors are
    lines of text. *)
Definition body_text (b : body) : string :=
  match b with
  | NoBody => ""
  | JSONMap key value => print (JObject [(key, jstring value)]) +:+ newline
  | JSONAuction response => print (AuctionResponse_json response) +:+ newline
  | JSONBid bid => Marshal_Bid bid +:+ newline
  | Text lines => foldr append "" lines
  end.

(** ** A client's reader *)

Definition decode_bool (v : json) (old : bool) : option bool :=
  match v with JNull => Some old | JBool b => Some b | _ => None end.

(** The field behind a pointer: null resets it, anything else fills what is there, or
    a new value. *)
Definition decode_pointer {A} (decode : json -> A -> option A) (zero : A) (v : json) (old : option A) : option (option A) :=
  match v with JNull => Some None | _ => Some <$> decode v (default zero old) end.

(** A response that is being filled. *)
Record response_target := mkResponseTarget { rt_response : AuctionResponse; rt_bid : option bid_target }.

Definition zero_response : AuctionResponse := mkAuctionResponse "" "" "" None 0 0 "" false 0 "" 0.

Definition filled_response (t : response_target) : AuctionResponse :=
  {| (rt_response t) with rsp_Bid := filled_bid <$> rt_bid t |}.

Definition on_response {B} (get : AuctionResponse -> B) (set : AuctionResponse -> B -> AuctionResponse) :
    (json -> B -> option B) -> json -> response_target -> option response_target :=
  on (fun t => get (rt_response t)) (fun t x => {| t with rt_response := set (rt_response t) x |}).

Definition AuctionResponse_fields : list (field response_target) :=
  [("request_id", on_response rsp_RequestID (fun r x => {| r with rsp_RequestID := x |}) decode_string);
   ("status", on_response rsp_Status (fun r x => {| r with rsp_Status := x |}) decode_string);
   ("pricing_model", on_response rsp_PricingModel (fun r x => {| r with rsp_PricingModel := x |}) decode_string);
   ("bid", on rt_bid (fun t x => {| t with rt_bid := x |}) (decode_pointer (decode_target true) zero_target));
   ("effective_price_micros", on_response rsp_EffectivePriceMicros (fun r x => {| r with rsp_EffectivePriceMicros := x |}) decode_int64);
   ("clearing_price_micros", on_response rsp_ClearingPriceMicros (fun r x => {| r with rsp_ClearingPriceMicros := x |}) decode_int64);
   ("no_bid_reason", on_response rsp_NoBidReason (fun r x => {| r with rsp_NoBidReason := x |}) decode_string);
   ("served_stale", on_response rsp_ServedStale (fun r x => {| r with rsp_ServedStale := x |}) decode_bool);
   ("snapshot_age_ms", on_response rsp_SnapshotAgeMS (fun r x => {| r with rsp_SnapshotAgeMS := x |}) decode_int64);
   ("dynamic_bidder_id", on_response rsp_DynamicBidderID (fun r x => {| r with rsp_DynamicBidderID := x |}) decode_string);
   ("selection_latency_us", on_response rsp_SelectionLatencyUS (fun r x => {| r with rsp_SelectionLatencyUS := x |}) decode_int64)].

Definition Decode_AuctionResponse (text : string) : option (AuctionResponse * string) :=
  '(v, rest) ← first_value text;
  t ← decode_struct AuctionResponse_fields true v (mkResponseTarget zero_response None);
  Some (filled_response t, rest).

(** ** Responses, written and read *)

(** The values of its fields' types, with strings that are text. *)
Record response_sound (r : AuctionResponse) : Prop := {
  rs_strings : Forall (fun s => valid_utf8 s = true)
    [rsp_RequestID r; rsp_Status r; rsp_PricingModel r; rsp_NoBidReason r; rsp_DynamicBidderID r];
  rs_bid : match rsp_Bid r with Some b => Bid_sound b | None => True end;
  rs_effective : is_int64 (rsp_EffectivePriceMicros r);
  rs_clearing : is_int64 (rsp_ClearingPriceMicros r);
  rs_age : is_int64 (rsp_SnapshotAgeMS r);
  rs_latency : is_int64 (rsp_SelectionLatencyUS r)
}.

Lemma response_plain r : response_sound r -> printable 0 (AuctionResponse_json r) /\ strings_ok (AuctionResponse_json r).
Proof.
  intros [Hs Hb ? ? ? ?]. rewrite !Forall_cons in Hs. destruct Hs as (? & ? & ? & ? & ? & _).
  assert (Hbid : Forall (plain_member 1) (omit_bid "bid" (rsp_Bid r))).
  { destruct (rsp_Bid r) as [b|]; [|apply Forall_nil_2]. destruct Hb as [Ht Hu].
    destruct (Bid_plain 1 b) as [Hp Hp2]; [done..|]. apply Forall_cons_2; [|apply Forall_nil_2]. by split_and!. }
  apply plain_object; [done|]. unfold AuctionResponse_members.
  repeat apply Forall_app_2; try exact Hbid; try (by apply plain_omit); plain_members.
Qed.

Lemma step_bool {A} (fields : list (field A)) strict key (get : A -> bool) set b ms a :
  find_field key fields = Some (on get set decode_bool) -> set a false = a ->
  decode_members fields strict (omit (negb b) key (JBool b) ++ ms) a = decode_members fields strict ms (set a b).
Proof. intros Hf Hz. destruct b; simpl; [by eapply step_member|by rewrite Hz]. Qed.

Lemma step_bid {A} (fields : list (field A)) strict key (get : A -> option bid_target) set b ms a :
  find_field key fields = Some (on get set (decode_pointer (decode_target true) zero_target)) ->
  get a = None -> set a None = a -> match b with Some b => Bid_sound b | None => True end ->
  decode_members fields strict (omit_bid key b ++ ms) a = decode_members fields strict ms (set a (target_of <$> b)).
Proof.
  intros Hf Hg Hz Hb. destruct b as [b|]; [|simpl; by rewrite Hz]. eapply step_member; [exact Hf|]. unfold on. rewrite Hg.
  unfold decode_pointer, Bid_json, decode_target. cbn [decode_struct default from_option]. rewrite decode_Bid_members by apply Hb. done.
Qed.

(** One member stored, and the target computed. *)
Tactic Notation "store_member" uconstr(lem) :=
  etrans; [eapply lem; [reflexivity|try done..]|];
  cbn [rt_response rt_bid rsp_RequestID rsp_Status rsp_PricingModel rsp_Bid rsp_EffectivePriceMicros rsp_ClearingPriceMicros
       rsp_NoBidReason rsp_ServedStale rsp_SnapshotAgeMS rsp_DynamicBidderID rsp_SelectionLatencyUS zero_response].

Lemma decode_response_members r : response_sound r ->
  decode_members AuctionResponse_fields true (AuctionResponse_members r) (mkResponseTarget zero_response None)
  = Some (mkResponseTarget {| r with rsp_Bid := None |} (target_of <$> rsp_Bid r)).
Proof.
  intros [_ Hb ? ? ? ?]. unfold AuctionResponse_members. cbn [app].
  do 3 store_member step_string. store_member step_bid. do 2 store_member step_omit_int. store_member step_omit_string.
  store_member step_bool. store_member step_omit_int. store_member step_omit_string. store_member step_int. by destruct r.
Qed.

Lemma Decode_AuctionResponse_written r rest : response_sound r -> ends_number rest ->
  Decode_AuctionResponse (print (AuctionResponse_json r) +:+ rest) = Some (r, rest).
Proof.
  intros Hr He. destruct (response_plain r Hr) as [Hp Hs]. unfold Decode_AuctionResponse. rewrite first_value_print by done.
  cbn [mbind option_bind AuctionResponse_json decode_struct]. rewrite decode_response_members by done. cbn [mbind option_bind].
  do 2 f_equal. unfold filled_response. destruct r as [? ? ? [b|] ? ? ? ? ? ? ?]; [|done]. by destruct b.
Qed.

(** ** What the handlers write *)

Lemma ascii_valid s : string_forall (fun c => byte_val c <? 128) s = true -> valid_utf8 s = true.
Proof.
  unfold valid_utf8. induction s as [|c s IH]; [done|]. cbn [string_forall decode_runes]. intros [Hc Hs]%andb_true_iff.
  rewrite Hc. cbn [forallb]. by apply IH.
Qed.

Lemma digit_char_ascii c : is_digit_char c = true -> (byte_val c <? 128) = true.
Proof. destruct c as [[] [] [] [] [] [] [] []]; vm_compute; congruence. Qed.

Lemma generated_id_valid n : valid_utf8 ("a-" +:+ FormatUint n 36) = true.
Proof.
  apply ascii_valid. rewrite string_forall_app. apply andb_true_iff. split; [done|].
  apply (string_forall_impl is_digit_char); [exact digit_char_ascii|]. by apply format_digits_chars.
Qed.

Lemma quot_range z k : 0 < k -> is_int64 z -> is_int64 (Z.quot z k).
Proof. intros Hk Hz. unfold_int. Z.to_euclidean_division_equations. nia. Qed.

(** A candidate that JSON carries unchanged: what is read from the registry and from
    DSPs is ([json_Unmarshal_sound], [Decode_Bids_sound]). *)
Definition candidate_sound (c : candidate) : Prop := Bid_sound c.1 /\ valid_utf8 c.2 = true.

Lemma BidCache_Get_age p now c : is_int64 (ss_Age (BidCache_Get p now c).2).
Proof. unfold BidCache_Get. destruct (bc_entries c !! p) as [[l|]|]; [apply time_Sub_range|by vm_compute..]. Qed.

Lemma run_age a request dynamic cacheNow now c c2 go d : run a request dynamic cacheNow now c = (c2, go, d) -> is_int64 (ad_SnapshotAge d).
Proof.
  pose proof (BidCache_Get_age (req_PlacementID request) cacheNow c) as Hage. unfold run, decide_bids.
  destruct (BidCache_Get (req_PlacementID request) cacheNow c) as [bids ss]. cbn [snd] in Hage.
  destruct (ss_Found ss); simpl; [|by destruct (RefreshAsync _ c) as [? ?]; intros [= _ _ <-]; vm_compute].
  destruct (if ss_Stale ss then _ else _) as [c3 go3]. destruct (ss_Stale ss && ss_RejectStale ss); [by intros [= _ _ <-]|].
  destruct (acc_winner _); by intros [= _ _ <-].
Qed.

(** The response built from what an auction decides. *)
Lemma auction_response_sound a request dynamic cacheNow now c c2 go d id latency :
  auctioneer_ok a -> 0 <= req_FloorMicros request -> is_int64 (req_FloorMicros request) ->
  run a request dynamic cacheNow now c = (c2, go, d) ->
  Forall candidate_sound (candidates_of (BidCache_Get (req_PlacementID request) cacheNow c).1 dynamic) ->
  valid_utf8 id = true -> is_int64 latency -> response_sound (auction_response a id latency d).
Proof.
  intros Ha Hfl Hf64 Hrun Hcs Hid Hlat. pose proof (run_age _ _ _ _ _ _ _ _ _ Hrun) as Hage.
  assert (Hmodel : valid_utf8 (pol_PricingModel (au_policy a)) = true).
  { destruct Ha as [Hp _]. apply AuctionPolicy_Validate_spec in Hp as [[-> | ->] _]; done. }
  assert (Hms : is_int64 (Milliseconds (ad_SnapshotAge d))) by by apply quot_range.
  unfold auction_response, AuctionDecision_Filled. destruct (ad_Bid d) as [w|] eqn:Ew.
  - destruct (winner_pays a Ha _ _ _ _ _ _ _ _ _ Hfl Hrun Ew) as (_ & Hin & Hlo & [_ Hhi] & _).
    destruct (winner_price a Ha _ _ _ _ _ _ _ _ _ Hfl Hrun Ew) as [Hr Hp].
    rewrite Forall_forall in Hcs. destruct (Hcs _ Hin) as [Hb Hbidder]. cbn [fst snd] in Hb, Hbidder.
    pose proof (effectivePrice_range w). rewrite Hr, Hp. split; cbn [rsp_RequestID rsp_Status rsp_PricingModel rsp_NoBidReason
      rsp_DynamicBidderID rsp_Bid rsp_EffectivePriceMicros rsp_ClearingPriceMicros rsp_SnapshotAgeMS rsp_SelectionLatencyUS]; try done.
    + by repeat constructor.
    + unfold_int. lia.
  - destruct (no_winner a Ha _ _ _ _ _ _ _ _ Hfl Hrun Ew) as (_ & _ & _ & Hr).
    assert (Hreason : valid_utf8 (ad_NoBidReason d) = true).
    { rewrite !elem_of_cons in Hr. destruct Hr as [-> |[-> |[-> |Hr]]]; [done..|by inv Hr]. }
    split; cbn [rsp_RequestID rsp_Status rsp_PricingModel rsp_NoBidReason
      rsp_DynamicBidderID rsp_Bid rsp_EffectivePriceMicros rsp_ClearingPriceMicros rsp_SnapshotAgeMS rsp_SelectionLatencyUS]; try done.
    by repeat constructor.
Qed.

Lemma auction_input_int64 r request : auction_input r = Some request -> is_int64 (req_FloorMicros request).
Proof.
  unfold auction_input, decodeJSON. destruct (_ <? _); [done|].
  destruct (Decode_AuctionRequest (rq_body r)) as [[q rest]|] eqn:Ed; [|done]. destruct (string_forall _ _); [|done].
  destruct (AuctionRequest_Validate q); [done|]. intros [= <-]. by eapply Decode_AuctionRequest_int64.
Qed.

Section handlers.
Context {W : Type} `{BidStore W}.

(** What is written for a valid auction request. *)
Lemma auction_writes r clock (s s2 : Server W) work resp request :
  auctioneer_ok (sv_auctioneer s) -> auction_input r = Some request -> auction r clock s = (s2, work, Some resp) ->
  valid_utf8 (rq_header r "X-Request-ID") = true -> Forall candidate_sound (auction_candidates request clock s) ->
  exists a, resp = writeJSON StatusOK (JSONAuction a) /\ response_sound a.
Proof.
  intros Ha Hin. pose proof (auction_input_valid _ _ Hin) as Hfl. pose proof (auction_input_int64 _ _ Hin) as Hf64.
  unfold auction, auction_input, auction_candidates in *.
  destruct (decodeJSON Decode_AuctionRequest r) as [q|]; [|done]. destruct (AuctionRequest_Validate q); [done|].
  injection Hin as <-. rename q into request.
  destruct (dynamic_bids request clock s) as [[s1 dynamic] work1] eqn:Ed.
  destruct (dynamic_bids_spec _ _ _ _ _ _ Ed) as (-> & Hc1 & Hm1 & Hl1 & Hn1 & Hst1 & Hcf1 & Hau1). rewrite Hc1, Hau1.
  destruct (RunWithDynamic _ _ _ _ _ (sv_cache s)) as [[cache go] decision] eqn:Erun.
  match goal with |- context [requestID r ?x] => destruct (requestID r x) as [id s3] eqn:Eid end.
  destruct (requestID_spec _ _ _ _ Eid) as (_ & _ & _ & _ & (_ & _ & Hau3) & Hg1 & Hg2). cbn [sv_auctioneer] in Hau3.
  intros Hrun Hh Hcs. assert (Hid : valid_utf8 id = true).
  { destruct (String.eqb_spec (rq_header r "X-Request-ID") "") as [He|He].
    - destruct (Hg2 He) as [_ ->]. apply generated_id_valid.
    - by destruct (Hg1 He) as [-> _]. }
  destruct (recordDecision _ _ _ _) as [s5|]; [|done]. injection Hrun as _ _ <-. eexists. split; [reflexivity|].
  rewrite Hau3. eapply auction_response_sound; try done. apply quot_range; [done|]. apply time_Sub_range.
Qed.

Lemma upsert_writes r (s s2 : Server W) work resp :
  upsertBid r s = (s2, work, resp) -> rs_status resp = StatusOK ->
  exists b, upsert_input r = Some b /\ store_Upsert b (sv_store s) = (sv_store s2, None)
    /\ rs_body resp = JSONBid b /\ Bid_sound b.
Proof.
  unfold upsertBid. destruct (negb (authorized s r)); [by intros [= <- <- <-]|].
  destruct (upsert_input r) as [b|] eqn:Hin.
  - pose proof Hin as Hs. apply upsert_input_stored in Hs as [[_ Hb] _]. unfold upsert_input in Hin.
    destruct (decodeJSON Decode_Bid r) as [b0|]; [|done]. cbv zeta in *.
    destruct (String.eqb (bid_ID (Bid_Normalize b0)) (rq_path_id r)), (Bid_Validate (Bid_Normalize b0)); try done.
    injection Hin as ->. simpl. destruct (store_Upsert b (sv_store s)) as [w2 [e|]] eqn:Eu; [destruct (is_stale_error e); by intros [= <- <- <-]|].
    destruct (RefreshAsync _ _) as [cache go]. intros [= <- <- <-] _. by exists b.
  - unfold upsert_input in Hin. destruct (decodeJSON Decode_Bid r) as [b0|]; [|by intros [= <- <- <-]]. cbv zeta in *.
    destruct (String.eqb (bid_ID (Bid_Normalize b0)) (rq_path_id r)), (Bid_Validate (Bid_Normalize b0)); try done; by intros [= <- <- <-].
Qed.
End handlers.

(** C20: the answers a client reads. The body written for every valid auction request
    decodes, as encoding/json decodes it, to exactly the response the handler built,
    with nothing after it but the newline, whenever the request's own ID and the
    candidates' strings are UTF-8. An upsert answered 200 has made one store call, the
    successful Upsert of the bid that the request carries, which takes the store to
    its next state, and the body written decodes to exactly that bid. *)
Theorem answers_read_back {W} `{BidStore W} r (s : Server W) :
  auctioneer_ok (sv_auctioneer s) ->
  (forall clock s2 work resp request, auction_input r = Some request -> auction r clock s = (s2, work, Some resp) ->
     valid_utf8 (rq_header r "X-Request-ID") = true -> Forall candidate_sound (auction_candidates request clock s) ->
     exists a, rs_body resp = JSONAuction a /\ Decode_AuctionResponse (body_text (rs_body resp)) = Some (a, newline))
  /\ (forall s2 work resp, upsertBid r s = (s2, work, resp) -> rs_status resp = StatusOK ->
     exists b, upsert_input r = Some b /\ store_Upsert b (sv_store s) = (sv_store s2, None)
       /\ Decode_Bid (body_text (rs_body resp)) = Some (b, newline)).
Proof.
  intros Ha. split.
  - intros clock s2 work resp request Hin Hr Hh Hcs. destruct (auction_writes _ _ _ _ _ _ _ Ha Hin Hr Hh Hcs) as (a & -> & Hs).
    exists a. split; [done|]. by apply Decode_AuctionResponse_written.
  - intros s2 work resp Hu Hok. destruct (upsert_writes _ _ _ _ _ Hu Hok) as (b & Hin & Hst & -> & Hb).
    exists b. split_and!; [done..|]. by apply Decode_Bid_Marshal.
Qed.

(** ** Evaluations *)

Abbreviation auction_text := (match auction_run.2 with Some resp => body_text (rs_body resp) | None => "" end).

Example auction_text_ok : auction_text = json_text "{'request_id':'a-1','status':'filled','pricing_model':'first_price','bid':{'id':'b2','revision':1,'placement_id':'top','campaign_id':'campaign','creative_id':'creative','markup':'','click_url':'','price_micros':200,'pacing_bps':10000},'effective_price_micros':200,'clearing_price_micros':200,'selection_latency_us':7}
".
Proof. vm_compute. reflexivity. Qed.

Example error_text_ok : body_text (rs_body (error_response StatusConflict "stale bid revision")) = json_text "{'error':'stale bid revision'}
".
Proof. vm_compute. reflexivity. Qed.

Lemma answers_read_back_witness :
  (exists a, Decode_AuctionResponse auction_text = Some (a, newline))
  /\ Decode_Bid (body_text (rs_body upsert_run.2)) = Some (bid1_new, newline).
Proof.
  split.
  - assert (Hin : auction_input auction_http = Some sample_request) by by_compute.
    destruct (answers_read_back auction_http sample_server sample_auctioneer) as [Ha _].
    destruct auction_run.2 as [resp|] eqn:Er; [|exfalso; revert Er; vm_compute; discriminate].
    destruct (Ha sample_ck auction_run.1.1 auction_run.1.2 resp sample_request Hin) as (a & _ & Hd).
    + rewrite <- Er. exact (triple_eta auction_run).
    + by vm_compute.
    + change (auction_candidates sample_request sample_ck sample_server) with [static_candidate bid2; static_candidate bid1].
      repeat constructor; by vm_compute.
    + by exists a.
  - destruct (answers_read_back (SetPathValue "b1" upsert_http) sample_server sample_auctioneer) as [_ Hu].
    destruct (Hu upsert_run.1.1 upsert_run.1.2 upsert_run.2 (triple_eta upsert_run) (proj1 upsert_run_ok)) as (b & Hin & _ & Hd).
    assert (Hb : upsert_input (SetPathValue "b1" upsert_http) = Some bid1_new) by by_compute.
    rewrite Hb in Hin. injection Hin as <-. exact Hd.
Defined.
