(* ===== verification/HttpBidder.v ===== *)
(** * The HTTP bidder adapter (internal/ads/http_bidder.go)

    [HTTPBidderAdapter]: its construction, the requests it sends to a DSP, and what it
    makes of the answers. Its client is net/http's with the default policy, which
    follows redirects. The URL parser is an interface, and what the servers answer is
    an argument of [Fetch]. *)

From S2P Require Import Prelude GoInt Utf8 Json JsonCodec.
From S2P Require Import Prelude GoInt GoString GoParse Types DynamicBids Engine Metrics Config Server.
From S2P Require Import Redis Store BidStore Samples ServerProps.
From Stdlib Require Import Ascii.
Open Scope string_scope.
Open Scope list_scope.
Open Scope Z_scope.

(** ** What the adapter uses *)

(** [net/url] and what [net/http] asks of it: the scheme and host of an accepted URL;
    whether [http.NewRequestWithContext] accepts one; a [Location] header resolved
    against the URL of its request, [URL.Parse]; and whether a redirect to the second
    URL keeps the authorization sent to the first, [shouldCopyHeaderOnRedirect]. *)
Class URLParser := {
  ParseRequestURI : string -> option (string * string);
  NewRequest_ok : string -> bool;
  URL_Parse : string -> string -> option string;
  shouldCopyHeader : string -> string -> bool
}.

Record HTTPRequest := mkHTTPRequest {
  hr_method : string;
  hr_url : string;
  hr_header : gmap string string;
  hr_body : string
}.

(** A request the client makes of a redirect: of its headers only the authorization,
    which is empty when there is none. *)
Record redirected := mkRedirected {
  rd_method : string;
  rd_url : string;
  rd_body : string;
  rd_authorization : string
}.

(** What came back for a request: nothing, or a status, its [Location] header, which is
    empty when there is none, and a body. The bytes of the body are those before its
    end, or before a read error when [broken]. *)
Inductive exchange :=
  | NoResponse
  | Responded (status : Z) (location content : string) (broken : bool).

(** What [http.Client.Do] returns. *)
Inductive do_result :=
  | DoError
  | DoResponse (status : Z) (content : string) (broken : bool).

Inductive fetch_error :=
  | ErrRequest | ErrTransport | ErrHTTPStatus (status : Z) | ErrRead | ErrTooLarge | ErrDecode | ErrTrailing.

(** ** The code *)

Definition maxDSPResponseBytes : Z := Z.shiftl 64 10.

Record HTTPBidderAdapter := mkAdapter {
  ha_bidderID : string;
  ha_endpoint : string;
  ha_authorization : string
}.

Section adapter.
Context `{URLParser}.

Definition NewHTTPBidderAdapter (id endpoint authorization : string) : string + HTTPBidderAdapter :=
  let invalid := inl ("invalid DSP endpoint for " +:+ id) in
  match ParseRequestURI endpoint with
  | None => invalid
  | Some (scheme, host) =>
      if (negb (String.eqb scheme "http") && negb (String.eqb scheme "https")) || String.eqb host ""
      then invalid
      else inr (mkAdapter id endpoint authorization)
  end.

(** [io.ReadAll(io.LimitReader(body, max+1))]: [None] is a read error, which is only
    seen before the limit. *)
Definition read_limited (content : string) (broken : bool) : option string :=
  if len content <=? maxDSPResponseBytes
  then if broken then None else Some content
  else Some (String.substring 0 (S (Z.to_nat maxDSPResponseBytes)) content).

Definition bidder_request (a : HTTPBidderAdapter) (request : DSPRequest) : HTTPRequest :=
  let header := <["Accept" := "application/json"]> {[ "Content-Type" := "application/json" ]} in
  let header := if negb (String.eqb (ha_authorization a) "")
                then <["Authorization" := ha_authorization a]> header else header in
  mkHTTPRequest "POST" (ha_endpoint a) header (Marshal_DSPRequest request).

(** [redirectBehavior] of net/http: the method of the next request, and whether it has
    the body. The body can be sent again, because it is read from memory. *)
Definition redirectBehavior (method : string) (status : Z) : option (string * bool) :=
  if bool_decide (status ∈ [301; 302; 303])
  then Some (if String.eqb method "GET" || String.eqb method "HEAD" then method else "GET", false)
  else if bool_decide (status ∈ [307; 308]) then Some (method, true)
  else None.

(** [http.Client.Do] after it has sent request number [k], [sent]: the requests it still
    makes, [budget] at most, and what it returns. [net j] is what comes back for request
    number [j]; [initial] is the URL of the first one. *)
Fixpoint client_Do (budget k : nat) (initial : string) (sent : redirected) (net : nat -> exchange)
    : list redirected * do_result :=
  match net k with
  | NoResponse => ([], DoError)
  | Responded status location content broken =>
      match redirectBehavior (rd_method sent) status with
      | None => ([], DoResponse status content broken)
      | Some (method, includeBody) =>
          if String.eqb location "" then ([], DoResponse status content broken)
          else
            match URL_Parse (rd_url sent) location, budget with
            | None, _ | Some _, O => ([], DoError)
            | Some url, S budget =>
                let next := mkRedirected method url (if includeBody then rd_body sent else "")
                              (if shouldCopyHeader initial url then rd_authorization sent else "") in
                let '(more, result) := client_Do budget (S k) initial next net in
                (next :: more, result)
            end
      end
  end.

(** The default policy stops before the eleventh request. *)
Definition maxRedirects : nat := 9.

(** The parts of the first request that redirects carry on. *)
Definition first_request (a : HTTPBidderAdapter) (request : DSPRequest) : redirected :=
  mkRedirected "POST" (ha_endpoint a) (Marshal_DSPRequest request) (ha_authorization a).

(** What [Fetch] makes of the response. *)
Definition read_response (result : do_result) : fetch_error + list Bid :=
  match result with
  | DoError => inl ErrTransport
  | DoResponse status content broken =>
      if (status <? 200) || (300 <=? status) then inl (ErrHTTPStatus status)
      else
        match read_limited content broken with
        | None => inl ErrRead
        | Some payload =>
            if maxDSPResponseBytes <? len payload then inl ErrTooLarge
            else
              match Decode_Bids payload with
              | None => inl ErrDecode
              | Some (bids, rest) => if negb (string_forall is_ws rest) then inl ErrTrailing else inr bids
              end
        end
  end.

(** The request that is sent, if one is, those of the redirects, and the result. *)
Definition Fetch (a : HTTPBidderAdapter) (request : DSPRequest) (net : nat -> exchange)
    : option HTTPRequest * list redirected * (fetch_error + list Bid) :=
  if negb (NewRequest_ok (ha_endpoint a)) then (None, [], inl ErrRequest)
  else
    let '(redirects, result) := client_Do maxRedirects 0 (ha_endpoint a) (first_request a request) net in
    (Some (bidder_request a request), redirects, read_response result).

(** What a worker of the engine sees, when its context's deadline has passed or not. *)
Definition fetch_outcome_of (deadline : bool) (result : fetch_error + list Bid) : fetch_outcome :=
  match result with inl _ => FetchError deadline | inr bids => FetchBids bids end.

(** ** Properties *)

Lemma len_substring n (s : string) : (n <= String.length s)%nat -> len (String.substring 0 n s) = Z.of_nat n.
Proof.
  unfold len. revert s. induction n as [|n IH]; intros [|c s] Hn; simpl in *; try done; try lia.
  specialize (IH s ltac:(lia)). lia.
Qed.

Lemma substring_prefix n (s t : string) :
  (n <= String.length s)%nat -> String.substring 0 n (s +:+ t) = String.substring 0 n s.
Proof.
  revert s. induction n as [|n IH]; intros s Hn; [by destruct s, t|]. destruct s as [|c s]; simpl in *; [lia|].
  by rewrite IH by lia.
Qed.

(** A response is decoded only when its whole body was read and fits the limit. *)
Lemma read_limited_spec content broken :
  match read_limited content broken with
  | None => broken = true /\ len content <= maxDSPResponseBytes
  | Some payload =>
      (len payload <= maxDSPResponseBytes -> payload = content /\ broken = false)
      /\ (maxDSPResponseBytes < len payload <-> maxDSPResponseBytes < len content)
      /\ len payload <= maxDSPResponseBytes + 1
  end.
Proof.
  assert (Hmax : maxDSPResponseBytes = 65536) by done. unfold read_limited.
  destruct (Z.leb_spec (len content) maxDSPResponseBytes) as [Hle|Hgt]; [destruct broken; split_and!; done || lia|].
  rewrite len_substring by (unfold len in *; lia). split_and!; [lia|split; lia|lia].
Qed.

(** [rd] is the request that the answer [ex] to [prev] redirects to. *)
Definition redirects_to (initial : string) (prev : redirected) (ex : exchange) (rd : redirected) : Prop :=
  exists status location content broken, ex = Responded status location content broken /\ location <> ""
  /\ URL_Parse (rd_url prev) location = Some (rd_url rd)
  /\ (status ∈ [307; 308] /\ rd_method rd = rd_method prev /\ rd_body rd = rd_body prev
      \/ status ∈ [301; 302; 303] /\ rd_method rd = "GET" /\ rd_body rd = "")
  /\ rd_authorization rd = (if shouldCopyHeader initial (rd_url rd) then rd_authorization prev else "").

(** A POST of [payload], or a GET of nothing. *)
Definition post_or_get (payload : string) (rd : redirected) : Prop :=
  rd_method rd = "POST" /\ rd_body rd = payload \/ rd_method rd = "GET" /\ rd_body rd = "".

(** After a request the client stops, with the response unless it is a redirect it
    follows, or makes the request it is redirected to. *)
Lemma client_Do_step budget k initial sent net :
  rd_method sent ∈ ["POST"; "GET"] ->
  (exists result, client_Do budget k initial sent net = ([], result)
    /\ forall status content broken, ~ 300 <= status < 400 ->
         result = DoResponse status content broken <-> exists location, net k = Responded status location content broken)
  \/ (exists budget' next more result, budget = S budget' /\ redirects_to initial sent (net k) next
       /\ client_Do budget' (S k) initial next net = (more, result)
       /\ client_Do budget k initial sent net = (next :: more, result)).
Proof.
  intros Hmethod. destruct budget as [|budget]; cbn [client_Do]; destruct (net k) as [|status location content broken] eqn:Ek;
    try (left; eexists; split; [done|]; intros ? ? ? _; by split; [|intros [? ?]]).
  all: destruct (redirectBehavior (rd_method sent) status) as [[method includeBody]|] eqn:Er;
    [|left; eexists; split; [done|]; intros ? ? ? _; by split; [intros [= -> -> ->]; eexists|intros [? [= -> _ -> ->]]]].
  all: assert (Hst : (status ∈ [301; 302; 303] /\ includeBody = false /\ method = "GET")
    \/ (status ∈ [307; 308] /\ includeBody = true /\ method = rd_method sent)).
  1,3: unfold redirectBehavior in Er; repeat case_bool_decide; simplify_eq; [left|by right]; split_and!; try done;
    rewrite !elem_of_cons, elem_of_nil in Hmethod; destruct Hmethod as [-> |[-> |[]]]; done.
  all: assert (Hno : forall st c br, ~ 300 <= st < 400 -> ~ exists loc, Responded status location content broken = Responded st loc c br)
    by (intros st c br Hn [loc [= -> _ _ _]]; set_unfold; lia).
  all: destruct (String.eqb_spec location "") as [_|Hloc];
    [left; eexists; split; [done|]; intros st c br Hn; split; [intros [= -> -> ->]; by eexists|by intros ?%Hno]|].
  all: destruct (URL_Parse (rd_url sent) location) as [url|] eqn:Eu;
    try (left; eexists; split; [done|]; intros st c br Hn; by split; [|intros ?%Hno]).
  right. destruct (client_Do budget (S k) initial _ net) as [more result] eqn:Ed.
  eexists budget, _, more, result. split_and!; [done| |exact Ed|done].
  exists status, location, content, broken. split_and!; try done. simpl. destruct Hst as [(? & -> & ->)|(? & -> & ->)]; auto.
Qed.

(** The requests of [client_Do] are a chain of redirects within the limit, and a
    response that is no redirect is the answer to the last of them. *)
Lemma client_Do_chain budget k initial payload sent net redirects result :
  post_or_get payload sent -> client_Do budget k initial sent net = (redirects, result) ->
  (length redirects <= budget)%nat /\ Forall (post_or_get payload) redirects
  /\ (forall j rd, redirects !! j = Some rd -> exists prev, (sent :: redirects) !! j = Some prev
        /\ redirects_to initial prev (net (k + j)%nat) rd)
  /\ (forall status content broken, ~ 300 <= status < 400 ->
        result = DoResponse status content broken
        <-> exists location, net (k + length redirects)%nat = Responded status location content broken).
Proof.
  revert k sent redirects result. induction budget as [|budget IH]; intros k sent redirects result Hsent Hx;
    (assert (Hmethod : rd_method sent ∈ ["POST"; "GET"]) by (destruct Hsent as [[-> _]|[-> _]]; set_solver));
    match type of Hx with client_Do ?n _ _ _ _ = _ => destruct (client_Do_step n k initial sent net Hmethod) as [(res & Hr & Hres)|(b' & next & more & res & Hb & Hto & Hmore & Hr)] end;
    rewrite Hx in Hr; injection Hr as -> ->; try done.
  1,2: split_and!; [simpl; lia|constructor|done|]; simpl; by rewrite Nat.add_0_r.
  injection Hb as <-.
  assert (Hnext : post_or_get payload next).
  { destruct Hto as (st & loc & c & br & _ & _ & _ & [(_ & Hm & Hbd)|(_ & Hm & Hbd)] & _); [|by right].
    unfold post_or_get. by rewrite Hm, Hbd. }
  destruct (IH (S k) next more res Hnext Hmore) as (Hlen & Hall & Hchain & Hlast). split_and!.
  - simpl. lia.
  - by constructor.
  - intros [|j] rd Hj; simpl in Hj.
    + injection Hj as <-. exists sent. by rewrite Nat.add_0_r.
    + destruct (Hchain j rd Hj) as (prev & Hp & Hto'). exists prev. split; [done|]. by rewrite Nat.add_succ_r.
  - simpl. by rewrite Nat.add_succ_r.
Qed.

(** The same answers, up to what follows the first 65537 bytes of a body. *)
Definition same_prefix (ex ex' : exchange) : Prop :=
  ex = ex' \/ exists status location content tail broken broken', 65536 < len content
    /\ ex = Responded status location content broken /\ ex' = Responded status location (content +:+ tail) broken'.

Lemma read_limited_tail content tail broken broken' :
  65536 < len content -> read_limited content broken = read_limited (content +:+ tail) broken'.
Proof.
  assert (Hmax : maxDSPResponseBytes = 65536) by done. intros Hlen. unfold read_limited. pose proof (len_nonneg tail).
  rewrite len_app, (proj2 (Z.leb_gt (len content) _)), (proj2 (Z.leb_gt (len content + len tail) _)) by lia.
  by rewrite substring_prefix by (unfold len in *; lia).
Qed.

Lemma client_Do_prefix budget k initial sent net net' :
  (forall j, same_prefix (net j) (net' j)) ->
  (client_Do budget k initial sent net).1 = (client_Do budget k initial sent net').1
  /\ read_response (client_Do budget k initial sent net).2 = read_response (client_Do budget k initial sent net').2.
Proof.
  intros Hnet. revert k sent. induction budget as [|budget IH]; intros k sent; cbn [client_Do];
    (destruct (Hnet k) as [->|(status & location & content & tail & broken & broken' & Hlen & -> & ->)];
      [destruct (net' k) as [|status location content broken]; [done|]|]);
    (destruct (redirectBehavior (rd_method sent) status) as [[method includeBody]|]; [destruct (String.eqb location "")|]);
    try (destruct (URL_Parse (rd_url sent) location) as [url|]); try done;
    try (cbn [read_response fst snd]; by rewrite (read_limited_tail content tail broken broken')).
  all: match goal with |- context [client_Do _ (S ?n) _ ?x _] => specialize (IH (S n) x) end;
    repeat destruct (client_Do _ _ _ _ _); simpl in *; by destruct IH as [-> ->].
Qed.

Lemma read_response_bids result bids :
  read_response result = inr bids <-> exists status content rest, result = DoResponse status content false
    /\ 200 <= status < 300 /\ len content <= 65536 /\ Decode_Bids content = Some (bids, rest) /\ string_forall is_ws rest = true.
Proof.
  assert (Hmax : maxDSPResponseBytes = 65536) by done. destruct result as [|status content broken]; simpl.
  { split; [done|by intros (? & ? & ? & ? & _)]. }
  destruct ((status <? 200) || (300 <=? status)) eqn:Es; bool_hyps.
  1,2: split; [done|intros (? & ? & ? & ? & ? & _); simplify_eq; lia].
  pose proof (read_limited_spec content broken) as Hr. destruct (read_limited content broken) as [payload|].
  2:{ split; [done|intros (? & ? & ? & ? & _); destruct Hr; simplify_eq]. }
  destruct Hr as (Hfull & Hbig & _). destruct (Z.ltb_spec maxDSPResponseBytes (len payload)) as [Hl|Hl].
  { split; [done|intros (? & ? & ? & ? & ? & ? & _); simplify_eq; lia]. }
  destruct (Hfull Hl) as [-> ->]. destruct (Decode_Bids content) as [[bs rest]|] eqn:Ed.
  2:{ split; [done|intros (? & ? & ? & ? & ? & ? & ? & _); simplify_eq]. }
  destruct (string_forall is_ws rest) eqn:Ej; simpl; split; try done.
  - intros [= <-]. exists status, content, rest. split_and!; done || lia.
  - intros (? & ? & ? & ? & ? & ? & ? & ?). by simplify_eq.
  - intros (? & ? & ? & ? & ? & ? & ? & ?). simplify_eq; congruence.
Qed.

(** C30: what a DSP can make of a bidder call. When its URL is usable, the adapter
    sends a POST with the request's JSON and the configured authorization. Its client
    follows redirects: at most nine more requests, each to the location its
    predecessor was answered, a repetition of it after 307 and 308 and a GET without
    body after 301, 302 and 303, so that none is anything but a POST of this JSON or a
    GET; and none carries an authorization that net/http does not let it keep. The
    adapter returns bids exactly when the last request is answered with a 2xx status
    and a complete body of at most 64 KiB that holds one JSON value of the bids and
    white space; and of a longer body it reads at most one byte more, so what comes
    after does not matter. *)
Theorem http_Fetch_exact a request net sent redirects result :
  Fetch a request net = (sent, redirects, result) ->
  sent = (if NewRequest_ok (ha_endpoint a) then Some (bidder_request a request) else None)
  /\ hr_header (bidder_request a request) !! "Authorization"
     = (if String.eqb (ha_authorization a) "" then None else Some (ha_authorization a))
  /\ (sent = None -> redirects = []) /\ (length redirects <= 9)%nat
  /\ Forall (post_or_get (Marshal_DSPRequest request)) redirects
  /\ (forall j rd, redirects !! j = Some rd -> exists prev, (first_request a request :: redirects) !! j = Some prev
        /\ redirects_to (ha_endpoint a) prev (net j) rd)
  /\ (forall bids, result = inr bids <->
        NewRequest_ok (ha_endpoint a) = true /\ exists status location content rest,
          net (length redirects) = Responded status location content false /\ 200 <= status < 300 /\ len content <= 65536
          /\ Decode_Bids content = Some (bids, rest) /\ string_forall is_ws rest = true)
  /\ (forall net', (forall j, same_prefix (net j) (net' j)) -> Fetch a request net' = (sent, redirects, result)).
Proof.
  unfold Fetch. destruct (NewRequest_ok (ha_endpoint a)); cbn [negb]; intros Hf.
  2:{ injection Hf as <- <- <-. split_and!; try done; [|simpl; lia|by split; [|intros [? _]]].
      unfold bidder_request. destruct (String.eqb _ "") eqn:E; simpl; by rewrite ?lookup_insert_eq. }
  destruct (client_Do _ _ _ _ net) as [more res] eqn:Ed. injection Hf as <- <- <-.
  assert (Hfirst : post_or_get (Marshal_DSPRequest request) (first_request a request)) by by left.
  destruct (client_Do_chain _ _ _ _ _ _ _ _ Hfirst Ed) as (Hlen & Hall & Hchain & Hlast). split_and!; try done.
  - unfold bidder_request. destruct (String.eqb _ "") eqn:E; simpl; by rewrite ?lookup_insert_eq.
  - intros bids. rewrite read_response_bids. split.
    + intros (status & content & rest & Hr & Hs & ? & ? & ?). split; [done|].
      apply Hlast in Hr as [location Hr]; [|lia]. by exists status, location, content, rest.
    + intros (_ & status & location & content & rest & Hr & Hs & ? & ? & ?).
      exists status, content, rest. split_and!; try done; try lia. apply Hlast; [lia|]. by exists location.
  - intros net' Hnet. destruct (client_Do_prefix maxRedirects 0 (ha_endpoint a) (first_request a request) net net' Hnet) as [H1 H2].
    rewrite Ed in H1, H2. destruct (client_Do _ _ _ _ net') as [more' res']. simpl in H1, H2. by rewrite H1, H2.
Qed.
End adapter.

(** ** Evaluations *)

(** The part of a URL up to the end of its host. *)
Fixpoint until_slash (s : string) : string :=
  match s with
  | String.String c rest => if Ascii.eqb c "/" then "" else String.String c (until_slash rest)
  | "" => ""
  end.

Definition sample_host (s : string) : string :=
  until_slash (if String.prefix "https://" s then TrimPrefix s "https://" else TrimPrefix s "http://").

(** URLs of one scheme and host; locations are absolute. *)
#[export] Instance sample_url_parser : URLParser := {
  ParseRequestURI s :=
    if String.prefix "https://" s then Some ("https", TrimPrefix s "https://")
    else if String.prefix "http://" s then Some ("http", TrimPrefix s "http://") else None;
  NewRequest_ok s := negb (String.eqb s "");
  URL_Parse _ location := if String.prefix "https://" location || String.prefix "http://" location then Some location else None;
  shouldCopyHeader a b := String.eqb (sample_host a) (sample_host b)
}.

Definition sample_adapter : HTTPBidderAdapter := mkAdapter "alpha" "https://dsp.example/bid" "Bearer token".
Definition sample_content : string := print (Bids_json [bid1; bid2]).

(** The DSP redirects to another path, and from there to another host, which bids. *)
Definition sample_net (k : nat) : exchange :=
  match k with
  | 0%nat => Responded 308 "https://dsp.example/v2/bid" "" false
  | 1%nat => Responded 303 "https://elsewhere.example/result" "" false
  | _ => Responded 200 "" sample_content false
  end.
Abbreviation fetched_sample := (Fetch sample_adapter (dsp_request sample_request) sample_net).

Example sample_redirects :
  (fun rd => (rd_method rd, rd_url rd, String.eqb (rd_body rd) "", rd_authorization rd)) <$> fetched_sample.1.2
  = [("POST", "https://dsp.example/v2/bid", false, "Bearer token"); ("GET", "https://elsewhere.example/result", true, "")].
Proof. by_compute. Qed.

(** A server that only redirects is asked ten times. *)
Example redirect_loop :
  let '(sent, redirects, result) := Fetch sample_adapter (dsp_request sample_request) (fun _ => Responded 307 "https://dsp.example/bid" "" false) in
  (is_Someb sent, length redirects, result) = (true, 9%nat, inl ErrTransport).
Proof. by_compute. Qed.

Lemma http_Fetch_exact_witness :
  fetched_sample.2 = inr [bid1; bid2] /\ NewRequest_ok (ha_endpoint sample_adapter) = true /\ (length fetched_sample.1.2 <= 9)%nat.
Proof.
  assert (Hr : fetched_sample.2 = inr [bid1; bid2]) by by_compute. split; [exact Hr|].
  destruct (http_Fetch_exact sample_adapter (dsp_request sample_request) sample_net
    fetched_sample.1.1 fetched_sample.1.2 fetched_sample.2 (triple_eta fetched_sample)) as (_ & _ & _ & Hlen & _ & _ & Hb & _).
  split; [exact (proj1 (proj1 (Hb [bid1; bid2]) Hr))|exact Hlen].
Defined.

Example bad_scheme_refused : NewHTTPBidderAdapter "alpha" "ftp://dsp" "" = inl "invalid DSP endpoint for alpha".
Proof. reflexivity. Qed.
