(* ===== verification/LoadTest.v ===== *)
(** * The load test command (cmd/loadtest/main.go)

    Its clients, the collector and the channel between them, interleaved at their
    synchronisation points, and the report. [exec] performs one step of an execution. *)

From S2P Require Import Prelude GoInt GoTime GoParse GoFloat HttpBidder.
From stdpp Require Import sorting.
Open Scope string_scope.
Open Scope list_scope.
Open Scope Z_scope.
Open Scope go_scope.

(** ** Making channels and slices *)

(** The bytes the runtime can address on a 64-bit machine. A channel or a slice of
    durations takes 8 bytes for each and a channel 96 more; [make] panics for a size
    that is negative or too large. *)
Definition maxAlloc : Z := 2 ^ 48.
Definition makechan_ok (size : Z) : bool := (0 <=? size) && (8 * size <=? maxAlloc - 96).
Definition makeslice_ok (cap : Z) : bool := (0 <=? cap) && (8 * cap <=? maxAlloc).

(** ** Percentiles *)

(** The constants of the code are the quotients rounded once, as is [float64_div]. *)
Definition percent (n : Z) : float64 := float64_div (float64_of n) (float64_of 100).

(** [int(float64(len(samples)-1) * percentile)]; the product is not negative. *)
Definition percentile_index (samples : list Duration) (p : float64) : Z :=
  uint64_of_float (float64_mul (float64_of (Z.of_nat (length samples) - 1)) p).

(** [None] is an index out of range. *)
Definition percentile (samples : list Duration) (p : float64) : option Duration :=
  samples !! Z.to_nat (percentile_index samples p).

(** [duration.Seconds()]. *)
Definition Seconds (d : Duration) : float64 :=
  SpecFloat.SFadd 53 1024 (float64_of (Z.quot d Second)) (float64_div (float64_of (Z.rem d Second)) (float64_of 1000000000)).

(** ** The run *)

(** A client: at the loop's condition; about to send; with a request on the way since
    [started]; reading the body of a 200 that took [elapsed]; sending that to the
    collector; or returned. *)
Inductive worker :=
  | Checking | Starting | Flying (started : Time) | Reading (elapsed : Duration) | Sending (elapsed : Duration) | Finished.

#[export] Instance worker_eq_dec : EqDecision worker.
Proof. solve_decision. Defined.

(** What is printed; [rps] and the durations as values. *)
Record report := mkReport {
  rp_requests : Z;
  rp_failures : Z;
  rp_rps : float64;
  rp_p50 : Duration;
  rp_p95 : Duration;
  rp_p99 : Duration;
  rp_max : Duration
}.

Inductive outcome := Printed (r : report) | Exit (code : Z) | Panicked.

(** [main]: in [workers.Wait()], in [collector.Wait()], or over. *)
Inductive stage := WaitWorkers | WaitCollector | Over (o : outcome).

Record bench := mkBench {
  bn_now : Time;
  bn_deadline : Time;
  bn_workers : list worker;
  bn_latencies : list Duration;
  bn_closed : bool;
  bn_samples : list Duration;
  bn_collecting : bool;
  bn_completed : Z;
  bn_failures : Z;
  bn_stage : stage
}.

(** Time passes; worker [i] takes its next step, or [client.Do] returns, after any
    redirects it has followed, which is [ok] when there is no error and the status of
    the response is 200; the collector receives; [main] goes on. *)
Inductive bench_event := BTime (now : Time) | BWorker (i : nat) | BAnswer (i : nat) (ok : bool) | BCollect | BMain.

Section run.
Context `{URLParser} (endpoint body : string) (concurrency : Z) (duration : Duration).

(** The request a client sends. *)
Definition load_request : HTTPRequest :=
  mkHTTPRequest "POST" endpoint {[ "Content-Type" := "application/json" ]} body.

(** The sizes of the channel of latencies and of the slice of samples; the products wrap. *)
Definition capacity : Z := concurrency *i 16.
Definition samples_cap : Z := concurrency *i 1024.

(** [main] up to [workers.Wait()]: [inl] when it ends before, because the flags are
    refused or because a [make] panics. *)
Definition start (now : Time) : outcome + bench :=
  if (concurrency <? 1) || (duration <=? 0) then inl (Exit 2)
  else if negb (makechan_ok capacity && makeslice_ok samples_cap) then inl Panicked
  else inr (mkBench now (time_Add now duration) (replicate (Z.to_nat concurrency) Checking) [] false [] true 0 0 WaitWorkers).

Definition put (i : nat) (w : worker) (b : bench) : bench := {| b with bn_workers := <[i := w]> (bn_workers b) |}.
Definition fail (b : bench) : bench := {| b with bn_failures := counter_add (bn_failures b) 1 |}.

(** The send waits for room in the channel, or, when it has no buffer, hands over to the
    waiting collector. *)
Definition worker_step (i : nat) (b : bench) : option bench :=
  match bn_workers b !! i with
  | Some Checking => Some (put i (if Before (bn_now b) (bn_deadline b) then Starting else Finished) b)
  | Some Starting =>
      if NewRequest_ok (hr_url load_request) then Some (put i (Flying (bn_now b)) b) else Some (fail (put i Checking b))
  | Some (Reading elapsed) =>
      let b := put i (Sending elapsed) b in Some {| b with bn_completed := counter_add (bn_completed b) 1 |}
  | Some (Sending elapsed) =>
      if bn_closed b then Some {| b with bn_stage := Over Panicked |}
      else if Z.of_nat (length (bn_latencies b)) <? capacity
      then let b := put i Checking b in Some {| b with bn_latencies := bn_latencies b ++ [elapsed] |}
      else if (capacity =? 0) && bn_collecting b
      then let b := put i Checking b in Some {| b with bn_samples := bn_samples b ++ [elapsed] |}
      else None
  | _ => None
  end.

Definition answer (i : nat) (ok : bool) (b : bench) : option bench :=
  match bn_workers b !! i with
  | Some (Flying started) =>
      let elapsed := time_Sub (bn_now b) started in
      Some (if ok then put i (Reading elapsed) b else fail (put i Checking b))
  | _ => None
  end.

(** [for latency := range latencies]. *)
Definition collect (b : bench) : option bench :=
  if bn_collecting b then
    match bn_latencies b with
    | x :: rest => Some {| b with bn_latencies := rest; bn_samples := bn_samples b ++ [x] |}
    | [] => if bn_closed b then Some {| b with bn_collecting := false |} else None
    end
  else None.

(** The end of [main]. *)
Definition conclude (b : bench) : outcome :=
  match bn_samples b with
  | [] => Exit 1
  | _ =>
      let samples := merge_sort Z.le (bn_samples b) in
      match percentile samples (percent 50), percentile samples (percent 95), percentile samples (percent 99),
            samples !! (length samples - 1)%nat with
      | Some p50, Some p95, Some p99, Some max =>
          Printed (mkReport (bn_completed b) (bn_failures b) (float64_div (float64_of (bn_completed b)) (Seconds duration)) p50 p95 p99 max)
      | _, _, _, _ => Panicked
      end
  end.

Definition main_step (b : bench) : option bench :=
  match bn_stage b with
  | WaitWorkers =>
      if forallb (fun w => match w with Finished => true | _ => false end) (bn_workers b)
      then Some {| b with bn_closed := true; bn_stage := WaitCollector |} else None
  | WaitCollector => if bn_collecting b then None else Some {| b with bn_stage := Over (conclude b) |}
  | Over _ => None
  end.

Definition bench_exec (ev : bench_event) (b : bench) : option bench :=
  match ev with
  | BTime now => if bn_now b <=? now then Some {| b with bn_now := now |} else None
  | BWorker i => worker_step i b
  | BAnswer i ok => answer i ok b
  | BCollect => collect b
  | BMain => main_step b
  end.

Fixpoint bench_exec_all (evs : list bench_event) (b : bench) : option bench :=
  match evs with
  | [] => Some b
  | ev :: evs => b ← bench_exec ev b; bench_exec_all evs b
  end.
End run.
