(* ===== verification/LoadProps.v ===== *)
(** * Properties of the load test

    When it starts, its accounting, its percentiles by rank, and that it ends. *)

From S2P Require Import Prelude GoInt GoTime GoParse GoFloat HttpBidder LoadTest.
From S2P Require Import Samples.
From stdpp Require Import sorting.
Open Scope string_scope.
Open Scope list_scope.
Open Scope Z_scope.

(** ** Percentiles of a sorted list *)

Lemma percents : percent 50 = SpecFloat.S754_finite false 4503599627370496 (-53)
  /\ percent 95 = SpecFloat.S754_finite false 8556839292003942 (-53)
  /\ percent 99 = SpecFloat.S754_finite false 8917127262193582 (-53).
Proof. vm_compute. by split_and!. Qed.

Section percentiles.
Context (samples : list Duration) (Hne : samples <> []) (Hlen : Z.of_nat (length samples) <= 2 ^ 53).

Lemma samples_length : 1 <= Z.of_nat (length samples).
Proof. destruct samples; [done|]. simpl. lia. Qed.

(** The indices are exact quotients, for as many samples as a slice can hold. *)
Lemma index_exact : 8 * Z.of_nat (length samples) <= maxAlloc ->
  Forall (fun p => percentile_index samples (percent p) = (Z.of_nat (length samples) - 1) * p / 100) [50; 95; 99].
Proof.
  unfold maxAlloc. intros Hmax. pose proof samples_length. destruct percents as (H50 & H95 & H99).
  unfold percentile_index. set (n := Z.of_nat (length samples) - 1). rewrite !Forall_cons, H50, H95, H99.
  destruct (Z.eq_dec n 0) as [->|Hn]; [by repeat constructor|].
  split_and!; [apply (float64_mul_percent n _ 50 0)|apply (float64_mul_percent n _ 95 40)|apply (float64_mul_percent n _ 99 8)|constructor]; lia.
Qed.

Lemma index_below mp : 2 ^ 52 <= Zpos mp < 2 ^ 53 ->
  0 <= percentile_index samples (SpecFloat.S754_finite false mp (-53)) <= Z.of_nat (length samples) - 1.
Proof.
  intros Hmp. pose proof samples_length. unfold percentile_index. set (n := Z.of_nat (length samples) - 1).
  destruct (Z.eq_dec n 0) as [->|Hn]; [simpl; lia|]. pose proof (float64_mul_below n mp ltac:(lia) Hmp). lia.
Qed.

Lemma index_grows mp mq : 2 ^ 52 <= Zpos mp -> Zpos mp + 4 <= Zpos mq -> Zpos mq < 2 ^ 53 ->
  percentile_index samples (SpecFloat.S754_finite false mp (-53)) <= percentile_index samples (SpecFloat.S754_finite false mq (-53)).
Proof.
  intros Hp Hpq Hq. pose proof samples_length. unfold percentile_index. set (n := Z.of_nat (length samples) - 1).
  destruct (Z.eq_dec n 0) as [->|Hn]; [simpl; lia|]. apply float64_mul_grows; lia.
Qed.

Lemma index_order :
  0 <= percentile_index samples (percent 50) <= percentile_index samples (percent 95)
  /\ percentile_index samples (percent 95) <= percentile_index samples (percent 99) <= Z.of_nat (length samples) - 1.
Proof.
  destruct percents as (-> & -> & ->). pose proof (index_below 4503599627370496 ltac:(lia)).
  pose proof (index_below 8917127262193582 ltac:(lia)).
  pose proof (index_grows 4503599627370496 8556839292003942 ltac:(lia) ltac:(lia) ltac:(lia)).
  pose proof (index_grows 8556839292003942 8917127262193582 ltac:(lia) ltac:(lia) ltac:(lia)). lia.
Qed.

Lemma sorted_lookup (l : list Z) i j x y : StronglySorted Z.le l -> (i <= j)%nat -> l !! i = Some x -> l !! j = Some y -> x <= y.
Proof.
  intros Hs Hij Hi Hj. revert i j Hij Hi Hj. induction Hs as [|z l Hs IH Hall]; intros [|i] [|j] Hij Hi Hj; simpl in *; simplify_eq; try lia.
  - rewrite Forall_forall in Hall. apply Hall. by eapply list_elem_of_lookup_2.
  - apply (IH i j); [lia|done..].
Qed.

(** None is out of range, and they are in order. *)
Lemma percentiles_ordered : StronglySorted Z.le samples ->
  exists p50 p95 p99 max, percentile samples (percent 50) = Some p50 /\ percentile samples (percent 95) = Some p95
    /\ percentile samples (percent 99) = Some p99 /\ samples !! (length samples - 1)%nat = Some max
    /\ p50 <= p95 /\ p95 <= p99 /\ p99 <= max /\ (forall x, x ∈ samples -> x <= max).
Proof.
  intros Hs. pose proof samples_length. pose proof index_order as [H1 H2]. unfold percentile.
  destruct (lookup_lt_is_Some_2 samples (Z.to_nat (percentile_index samples (percent 50)))) as [p50 E50]; [lia|].
  destruct (lookup_lt_is_Some_2 samples (Z.to_nat (percentile_index samples (percent 95)))) as [p95 E95]; [lia|].
  destruct (lookup_lt_is_Some_2 samples (Z.to_nat (percentile_index samples (percent 99)))) as [p99 E99]; [lia|].
  destruct (lookup_lt_is_Some_2 samples (length samples - 1)) as [max Emax]; [lia|].
  exists p50, p95, p99, max. split_and!; try done.
  - eapply (sorted_lookup samples _ _ _ _ Hs); [|exact E50|exact E95]. lia.
  - eapply (sorted_lookup samples _ _ _ _ Hs); [|exact E95|exact E99]. lia.
  - eapply (sorted_lookup samples _ _ _ _ Hs); [|exact E99|exact Emax]. lia.
  - intros x [i Hi]%list_elem_of_lookup_1. eapply (sorted_lookup samples _ _ _ _ Hs); [|exact Hi|exact Emax].
    apply lookup_lt_Some in Hi. lia.
Qed.
End percentiles.

(** ** Lists of workers *)

Definition sum_of {A} (f : A -> Z) (l : list A) : Z := foldr (fun x n => f x + n) 0 l.

Lemma sum_of_app {A} (f : A -> Z) l1 l2 : sum_of f (l1 ++ l2) = sum_of f l1 + sum_of f l2.
Proof. unfold sum_of. induction l1 as [|x l1 IH]; simpl; lia. Qed.

Lemma split_at {A} (l : list A) i x y : l !! i = Some x -> exists l1 l2, l = l1 ++ x :: l2 /\ <[i := y]> l = l1 ++ y :: l2.
Proof.
  intros Hi. exists (take i l), (drop (S i) l). split; [by rewrite take_drop_middle|].
  by rewrite insert_take_drop by (by eapply lookup_lt_Some).
Qed.

Lemma sum_of_insert {A} (f : A -> Z) l i x y : l !! i = Some x -> sum_of f (<[i := y]> l) = sum_of f l - f x + f y.
Proof. intros (l1 & l2 & -> & ->)%(split_at _ _ _ y). rewrite !sum_of_app. simpl. lia. Qed.

Lemma sum_of_nonneg {A} (f : A -> Z) l : (forall x, 0 <= f x) -> 0 <= sum_of f l.
Proof. intros Hf. induction l as [|x l IH]; simpl; [lia|]. pose proof (Hf x). lia. Qed.

Lemma bind_insert {A B} (f : A -> list B) (l : list A) i x y :
  l !! i = Some x -> f x ++ (<[i := y]> l ≫= f) ≡ₚ f y ++ (l ≫= f).
Proof. intros (l1 & l2 & -> & ->)%(split_at _ _ _ y). rewrite !bind_app, !bind_cons. solve_Permutation. Qed.

(** ** The accounting *)

Section run_facts.
Context `{URLParser} (endpoint body : string) (concurrency : Z) (duration : Duration).
Abbreviation exec := (bench_exec endpoint body concurrency duration).
Abbreviation exec_all := (bench_exec_all endpoint body concurrency duration).
Abbreviation sendable := (NewRequest_ok (hr_url (load_request endpoint body))).

(** What a step adds: the latency of a request that succeeded, or a failed attempt. *)
Definition succeeded (ev : bench_event) (b : bench) : list Duration :=
  match ev with
  | BAnswer i true => match bn_workers b !! i with Some (Flying started) => [time_Sub (bn_now b) started] | _ => [] end
  | _ => []
  end.

Definition failed (ev : bench_event) (b : bench) : Z :=
  match ev with
  | BAnswer i false => match bn_workers b !! i with Some (Flying _) => 1 | _ => 0 end
  | BWorker i => match bn_workers b !! i with Some Starting => if sendable then 0 else 1 | _ => 0 end
  | _ => 0
  end.

Fixpoint all_succeeded (evs : list bench_event) (b : bench) : list Duration :=
  match evs with
  | [] => []
  | ev :: evs => succeeded ev b ++ match exec ev b with Some b => all_succeeded evs b | None => [] end
  end.

Fixpoint all_failed (evs : list bench_event) (b : bench) : Z :=
  match evs with
  | [] => 0
  | ev :: evs => failed ev b + match exec ev b with Some b => all_failed evs b | None => 0 end
  end.

(** The latencies still with the workers. *)
Definition in_hand (w : worker) : list Duration := match w with Reading e | Sending e => [e] | _ => [] end.
Definition counted (w : worker) : Z := match w with Sending _ => 1 | _ => 0 end.

Definition is_finished (w : worker) : Prop := w = Finished.

(** [ok]: the latencies of all the successes so far; [bad]: the failures. *)
Record bench_ok (ok : list Duration) (bad : Z) (b : bench) : Prop := {
  bo_samples : bn_samples b ++ bn_latencies b ++ (bn_workers b ≫= in_hand) ≡ₚ ok;
  bo_completed : bn_completed b = uint64 (Z.of_nat (length (bn_samples b) + length (bn_latencies b)) + sum_of counted (bn_workers b));
  bo_failures : bn_failures b = uint64 bad;
  bo_closed : bn_closed b = true -> Forall is_finished (bn_workers b);
  bo_stage : (bn_stage b = WaitWorkers <-> bn_closed b = false) /\ (bn_collecting b = false -> bn_closed b = true /\ bn_latencies b = []);
  bo_over o : bn_stage b = Over o -> bn_collecting b = false /\ o = conclude duration b;
  bo_capacity : Z.of_nat (length (bn_latencies b)) <= capacity concurrency
}.

Lemma none_in_hand ws : Forall is_finished ws -> ws ≫= in_hand = [] /\ sum_of counted ws = 0.
Proof. induction 1 as [|w ws -> _ [IH1 IH2]]; [done|]. by rewrite bind_cons, IH1. Qed.

Lemma finished_lookup ws i w : Forall is_finished ws -> ws !! i = Some w -> w = Finished.
Proof. intros Hf Hi. by apply (Forall_lookup_1 _ _ _ _ Hf Hi). Qed.

(** A step of worker [i] from [w] to [w2], in an open run. *)
Lemma worker_moves ok bad (b b2 : bench) i w w2 :
  bench_ok ok bad b -> bn_workers b !! i = Some w -> w <> Finished -> bn_workers b2 = <[i := w2]> (bn_workers b) ->
  bn_closed b2 = bn_closed b -> bn_stage b2 = bn_stage b -> bn_collecting b2 = bn_collecting b ->
  Z.of_nat (length (bn_latencies b2)) <= capacity concurrency ->
  forall more bad2, bn_samples b2 ++ bn_latencies b2 ++ in_hand w2 ≡ₚ bn_samples b ++ bn_latencies b ++ in_hand w ++ more ->
  bn_completed b2 = uint64 (Z.of_nat (length (bn_samples b2) + length (bn_latencies b2)) + (sum_of counted (bn_workers b) - counted w + counted w2)) ->
  bn_failures b2 = uint64 bad2 ->
  bench_ok (ok ++ more) bad2 b2.
Proof.
  intros [Hs Hc Hf Hcl [Hst1 Hst2] Hov Hcap] Hi Hw Hws Hcl2 Hst Hco Hcap2 more bad2 Hlat Hcom Hfl.
  assert (Hopen : bn_closed b = false).
  { destruct (bn_closed b) eqn:E; [|done]. destruct Hw. by eapply finished_lookup; [apply Hcl|]. }
  assert (Hcoll : bn_collecting b = true) by (destruct (bn_collecting b); [done|]; destruct (Hst2 eq_refl); congruence).
  split.
  - rewrite Hws, <- Hs. pose proof (bind_insert in_hand (bn_workers b) i w w2 Hi) as Hp.
    apply (Permutation_app_inv_l (in_hand w)).
    transitivity (bn_samples b2 ++ bn_latencies b2 ++ (in_hand w ++ (<[i:=w2]> (bn_workers b) ≫= in_hand))); [solve_Permutation|].
    rewrite Hp. transitivity ((bn_samples b2 ++ bn_latencies b2 ++ in_hand w2) ++ (bn_workers b ≫= in_hand)); [solve_Permutation|].
    rewrite Hlat. solve_Permutation.
  - rewrite Hcom, Hws, (sum_of_insert _ _ _ _ _ Hi). done.
  - done.
  - intros ?. congruence.
  - rewrite Hst, Hcl2, Hco. split; [done|]. intros ?. congruence.
  - rewrite Hst, Hco. intros o Ho. destruct (Hov o Ho). congruence.
  - done.
Qed.

Lemma uint64_succ n m : uint64 n = m -> counter_add m 1 = uint64 (n + 1).
Proof. intros <-. unfold counter_add, uint64. by rewrite Zplus_mod_idemp_l. Qed.

(** The premises of [worker_moves]. *)
Ltac moved Hc :=
  simpl; rewrite ?app_nil_r, ?Z.add_0_r, ?length_app; try erewrite uint64_succ by (symmetry; exact Hc);
  first [done | by apply uint64_succ | rewrite ?Hc; f_equal; simpl; lia | simpl; lia | solve_Permutation].

Lemma exec_bench_ok ev ok bad (b b2 : bench) : bench_ok ok bad b -> exec ev b = Some b2 ->
  bench_ok (ok ++ succeeded ev b) (bad + failed ev b) b2.
Proof.
  intros Hb Hx. pose proof Hb as [Hs Hc Hf Hcl [Hst1 Hst2] Hov Hcap].
  destruct ev as [now|i|i a| |]; cbn [bench_exec] in Hx; cbn [succeeded failed]; rewrite ?app_nil_r, ?Z.add_0_r.
  - destruct (_ <=? _); [|done]. injection Hx as <-. by split.
  - unfold worker_step in Hx. destruct (bn_workers b !! i) as [w|] eqn:Ei; [|done].
    destruct w as [| |t|e|e|]; try done.
    + injection Hx as <-. rewrite <- (app_nil_r ok). eapply (worker_moves _ _ _ _ _ _ _ Hb Ei); try done; destruct (Before _ _); moved Hc.
    + destruct sendable eqn:Eok; injection Hx as <-; rewrite <- (app_nil_r ok);
        eapply (worker_moves _ _ _ _ _ _ _ Hb Ei); try done; moved Hc.
    + injection Hx as <-. rewrite <- (app_nil_r ok). eapply (worker_moves _ _ _ _ _ _ _ Hb Ei); try done; moved Hc.
    + destruct (bn_closed b) eqn:Ec; [discriminate (finished_lookup _ _ _ (Hcl eq_refl) Ei)|].
      rewrite <- (app_nil_r ok).
      destruct (Z.ltb_spec (Z.of_nat (length (bn_latencies b))) (capacity concurrency));
        [|destruct ((capacity concurrency =? 0) && bn_collecting b); [|done]]; injection Hx as <-; eapply (worker_moves _ _ _ _ _ _ _ Hb Ei); try done; moved Hc.
  - unfold answer in Hx. destruct (bn_workers b !! i) as [w|] eqn:Ei; [|done]. destruct w as [| |t|e|e|]; try done.
    destruct a; injection Hx as <-; rewrite ?app_nil_r, ?Z.add_0_r; [|rewrite <- (app_nil_r ok)];
      eapply (worker_moves _ _ _ _ _ _ _ Hb Ei); try done; moved Hc.
  - unfold collect in Hx. destruct (bn_collecting b) eqn:Eco; [|done].
    assert (Hno : forall o, bn_stage b <> Over o) by (intros o Ho; destruct (Hov o Ho); congruence).
    destruct (bn_latencies b) as [|x rest] eqn:El.
    + destruct (bn_closed b) eqn:Ec; [|done]. injection Hx as <-. split; simpl; rewrite ?El, ?Ec; try done.
      by intros o ?%Hno.
    + injection Hx as <-. split; simpl; rewrite ?Eco; try done.
      * rewrite <- Hs. solve_Permutation.
      * rewrite Hc, length_app. simpl. f_equal. lia.
      * by intros o ?%Hno.
      * simpl in Hcap. lia.
  - unfold main_step in Hx. destruct (bn_stage b) eqn:Est; [| |done].
    + destruct (forallb _ _) eqn:Ea; [|done]. injection Hx as <-. split; simpl; try done.
      * intros _. apply Forall_forall. intros w Hw%list_elem_of_In. rewrite forallb_forall in Ea. specialize (Ea w Hw). by destruct w.
      * split; [done|]. intros Hco. by destruct (Hst2 Hco).
    + destruct (bn_collecting b) eqn:Eco; [done|]. injection Hx as <-. destruct (Hst2 eq_refl) as [Hc1 Hl1].
      split; simpl; rewrite ?Hc1, ?Hl1, ?Eco in *; try done. intros o Ho. split; [done|]. by inversion Ho.
Qed.

Lemma exec_all_bench_ok evs ok bad (b b2 : bench) : bench_ok ok bad b -> exec_all evs b = Some b2 ->
  bench_ok (ok ++ all_succeeded evs b) (bad + all_failed evs b) b2.
Proof.
  revert ok bad b. induction evs as [|ev evs IH]; intros ok bad b Hb Hx; cbn [bench_exec_all all_succeeded all_failed] in *.
  - injection Hx as <-. by rewrite app_nil_r, Z.add_0_r.
  - apply bind_Some in Hx as (b1 & H1 & Hx). rewrite H1, app_assoc, Z.add_assoc. by eapply IH; [eapply exec_bench_ok|].
Qed.

Lemma in_hand_checking n : (replicate n Checking ≫= in_hand) = [] /\ sum_of counted (replicate n Checking) = 0.
Proof. induction n as [|n [IH1 IH2]]; [done|]. cbn [replicate]. by rewrite bind_cons, IH1. Qed.

Lemma start_started now b : start concurrency duration now = inr b -> 1 <= concurrency /\ 0 <= capacity concurrency.
Proof.
  unfold start. destruct (Z.ltb_spec concurrency 1); [done|]. destruct (_ <=? _); [done|]. unfold makechan_ok.
  destruct (Z.leb_spec 0 (capacity concurrency)); [|done]. simpl. intros _. lia.
Qed.

Lemma start_bench_ok now b : start concurrency duration now = inr b -> bench_ok [] 0 b.
Proof.
  intros Hst. pose proof (start_started _ _ Hst) as [_ Hcap]. unfold start in Hst.
  destruct (_ || _); [done|]. destruct (negb _); [done|]. injection Hst as <-.
  destruct (in_hand_checking (Z.to_nat concurrency)) as [H1 H2]. split; simpl; rewrite ?H1, ?H2; done.
Qed.

(** ** The end *)

(** How many more steps a run can take once its time is over. *)
Definition worker_cost (w : worker) : Z :=
  match w with Finished => 0 | Checking => 1 | Sending _ => 3 | Reading _ => 4 | Flying _ => 5 | Starting => 6 end.

Definition bench_cost (b : bench) : Z :=
  sum_of worker_cost (bn_workers b) + Z.of_nat (length (bn_latencies b)) + (if bn_collecting b then 1 else 0)
  + match bn_stage b with WaitWorkers => 2 | WaitCollector => 1 | Over _ => 0 end.

Definition bench_moves (evs : list bench_event) : Z :=
  Z.of_nat (length (List.filter (fun ev => match ev with BTime _ => false | _ => true end) evs)).

Lemma bench_cost_nonneg b : 0 <= bench_cost b.
Proof.
  unfold bench_cost. pose proof (sum_of_nonneg worker_cost (bn_workers b) ltac:(by intros [])).
  destruct (bn_collecting b), (bn_stage b); lia.
Qed.

Lemma exec_cost ev ok bad (b b2 : bench) : bench_ok ok bad b -> bn_deadline b <= bn_now b -> exec ev b = Some b2 ->
  bn_deadline b2 <= bn_now b2 /\ (match ev with BTime _ => 0 | _ => 1 end) + bench_cost b2 <= bench_cost b.
Proof.
  intros [_ _ _ Hcl _ _ _] Hd Hx. unfold bench_cost. destruct ev as [now|i|i a| |]; cbn [bench_exec] in Hx.
  - destruct (Z.leb_spec (bn_now b) now); [|done]. injection Hx as <-. simpl. lia.
  - unfold worker_step in Hx. destruct (bn_workers b !! i) as [w|] eqn:Ei; [|done].
    destruct w as [| |t|e|e|]; try done.
    + unfold Before in Hx. rewrite (proj2 (Z.ltb_ge _ _)) in Hx by done. injection Hx as <-. simpl.
      rewrite (sum_of_insert _ _ _ _ _ Ei). simpl. lia.
    + destruct sendable; injection Hx as <-; simpl; rewrite (sum_of_insert _ _ _ _ _ Ei); simpl; lia.
    + injection Hx as <-. simpl. rewrite (sum_of_insert _ _ _ _ _ Ei). simpl. lia.
    + destruct (bn_closed b) eqn:Ec; [discriminate (finished_lookup _ _ _ (Hcl eq_refl) Ei)|].
      destruct (_ <? _); [|destruct (_ && _); [|done]]; injection Hx as <-; simpl; rewrite (sum_of_insert _ _ _ _ _ Ei), ?length_app; simpl; lia.
  - unfold answer in Hx. destruct (bn_workers b !! i) as [w|] eqn:Ei; [|done]. destruct w as [| |t|e|e|]; try done.
    destruct a; injection Hx as <-; simpl; rewrite (sum_of_insert _ _ _ _ _ Ei); simpl; lia.
  - unfold collect in Hx. destruct (bn_collecting b); [|done].
    destruct (bn_latencies b) as [|x rest]; [destruct (bn_closed b); [|done]|]; injection Hx as <-; simpl; rewrite ?Nat2Z.inj_succ; lia.
  - unfold main_step in Hx. destruct (bn_stage b) eqn:Est; [| |done].
    + destruct (forallb _ _); [|done]. injection Hx as <-. simpl. lia.
    + destruct (bn_collecting b) eqn:Eco; [done|]. injection Hx as <-. simpl. rewrite ?Eco. lia.
Qed.

Lemma exec_all_cost evs ok bad (b b2 : bench) : bench_ok ok bad b -> bn_deadline b <= bn_now b -> exec_all evs b = Some b2 ->
  bench_moves evs + bench_cost b2 <= bench_cost b.
Proof.
  revert ok bad b. induction evs as [|ev evs IH]; intros ok bad b Hb Hd Hx; cbn [bench_exec_all] in Hx.
  - injection Hx as <-. unfold bench_moves. simpl. lia.
  - apply bind_Some in Hx as (b1 & H1 & Hx). destruct (exec_cost _ _ _ _ _ Hb Hd H1) as [Hd1 Hc1].
    pose proof (IH _ _ _ (exec_bench_ok _ _ _ _ _ Hb H1) Hd1 Hx). unfold bench_moves in *. destruct ev; cbn [List.filter length] in *; lia.
Qed.

(** Someone has a step, or a request is on its way. *)
Definition can_move (b : bench) : Prop :=
  (exists ev b2, match ev with BWorker _ | BCollect | BMain => True | _ => False end /\ exec ev b = Some b2)
  \/ exists i started, bn_workers b !! i = Some (Flying started).

Lemma run_moves ok bad (b : bench) : 0 <= capacity concurrency -> bench_ok ok bad b -> (forall o, bn_stage b <> Over o) -> can_move b.
Proof.
  intros Hcon [_ _ _ Hcl [Hst1 Hst2] _ Hcap] Hno. destruct (bn_latencies b) as [|x rest] eqn:El.
  - destruct (bn_closed b) eqn:Ec.
    + left. destruct (bn_collecting b) eqn:Eco.
      * exists BCollect. eexists. split; [done|]. cbn [bench_exec]. unfold collect. by rewrite Eco, El, Ec.
      * exists BMain. cbn [bench_exec]. unfold main_step. rewrite Eco. destruct (bn_stage b) eqn:Est; [|by eexists|by destruct (Hno o)].
        discriminate (proj1 Hst1 eq_refl).
    + destruct (forallb (fun w => match w with Finished => true | _ => false end) (bn_workers b)) eqn:Ea.
      * left. exists BMain. cbn [bench_exec]. unfold main_step. rewrite (proj2 Hst1 eq_refl), Ea. by eexists.
      * assert (Hw : exists i w, bn_workers b !! i = Some w /\ w <> Finished).
        { clear - Ea. induction (bn_workers b) as [|w ws IH]; [done|]. destruct (decide (w = Finished)) as [->|Hne].
          - destruct (IH Ea) as (i & w & Hi & Hw). by exists (S i), w.
          - by exists 0%nat, w. }
        destruct Hw as (i & w & Hi & Hw). destruct w as [| |t|e|e|]; try done; [left|left|right; eauto|left|left]; exists (BWorker i);
          cbn [bench_exec]; unfold worker_step; rewrite Hi; [by eexists| |by eexists|].
        -- destruct sendable; by eexists.
        -- rewrite Ec, El. simpl length. destruct (Z.ltb_spec (Z.of_nat 0) (capacity concurrency)); [by eexists|].
           rewrite (proj2 (Z.eqb_eq _ _)) by lia. destruct (bn_collecting b); [by eexists|]. by destruct (Hst2 eq_refl).
  - left. exists BCollect. cbn [bench_exec]. unfold collect. rewrite El. destruct (bn_collecting b) eqn:Eco; [by eexists|].
    destruct (Hst2 eq_refl). congruence.
Qed.
End run_facts.

Lemma over_accounts ok bad c d b o : bench_ok c d ok bad b -> bn_stage b = Over o ->
  o = conclude d b /\ bn_samples b ≡ₚ ok /\ bn_completed b = uint64 (Z.of_nat (length ok)) /\ bn_failures b = uint64 bad.
Proof.
  intros [Hs Hc Hf Hcl [_ Hst2] Hov _] Ho. destruct (Hov o Ho) as [Hco ->]. destruct (Hst2 Hco) as [Hc1 Hl].
  destruct (none_in_hand _ (Hcl Hc1)) as [Hin Hcnt]. rewrite Hl, Hin, app_nil_r in Hs. cbn [app] in Hs.
  split_and!; try done. rewrite Hc, Hl, Hcnt. do 2 f_equal. rewrite (Permutation_length Hs). simpl. lia.
Qed.

(** The percentiles of a report: the samples at these ranks of their ascending order. *)
Definition reports_ranks (r : report) (latencies : list Duration) : Prop :=
  let sorted := merge_sort Z.le latencies in
  let rank p := sorted !! Z.to_nat ((Z.of_nat (length latencies) - 1) * p / 100) in
  rank 50 = Some (rp_p50 r) /\ rank 95 = Some (rp_p95 r) /\ rank 99 = Some (rp_p99 r) /\ rank 100 = Some (rp_max r).

Lemma conclude_spec d b : bn_samples b <> [] -> 8 * Z.of_nat (length (bn_samples b)) <= maxAlloc ->
  exists r, conclude d b = Printed r /\ rp_requests r = bn_completed b /\ rp_failures r = bn_failures b
    /\ reports_ranks r (bn_samples b)
    /\ rp_p50 r <= rp_p95 r /\ rp_p95 r <= rp_p99 r /\ rp_p99 r <= rp_max r
    /\ (forall x, x ∈ bn_samples b -> x <= rp_max r).
Proof.
  intros Hne Hlen. pose proof (merge_sort_Permutation Z.le (bn_samples b)) as Hp.
  assert (Hne2 : merge_sort Z.le (bn_samples b) <> []).
  { intros Hnil. rewrite Hnil in Hp. by apply Permutation_nil in Hp. }
  pose proof (Permutation_length Hp) as Hl. rewrite <- Hl in Hlen.
  assert (H53 : Z.of_nat (length (merge_sort Z.le (bn_samples b))) <= 2 ^ 53) by (unfold maxAlloc in Hlen; lia).
  destruct (percentiles_ordered _ Hne2 H53) as (p50 & p95 & p99 & max & H50 & H95 & H99 & Hmax & Ho1 & Ho2 & Ho3 & Hall).
  { apply StronglySorted_merge_sort; apply _. }
  pose proof (index_exact _ Hne2 H53 Hlen) as Hidx. rewrite !Forall_cons in Hidx. destruct Hidx as (I50 & I95 & I99 & _).
  unfold conclude. destruct (bn_samples b) as [|x l] eqn:Es; [done|]. rewrite <- Es in *. rewrite H50, H95, H99, Hmax.
  eexists. split; [done|]. cbn [rp_requests rp_failures rp_p50 rp_p95 rp_p99 rp_max]. split_and!; try done.
  - unfold reports_ranks, percentile in *. rewrite I50 in H50. rewrite I95 in H95. rewrite I99 in H99. rewrite Hl in *.
    cbn [rp_p50 rp_p95 rp_p99 rp_max]. split_and!; try done. rewrite Z.div_mul, <- Hmax by done. f_equal. lia.
  - intros y Hy. apply Hall. by rewrite Hp.
Qed.

(** How the load test starts: it refuses flags that are not positive with 2, and
    panics exactly for more clients than the slice of samples can be made for. *)
Lemma start_cases concurrency duration now :
  (concurrency < 1 \/ duration <= 0 -> start concurrency duration now = inl (Exit 2))
  /\ (1 <= concurrency < 2 ^ 53 -> 0 < duration ->
        (concurrency <= 2 ^ 35 <-> exists b, start concurrency duration now = inr b)
        /\ (2 ^ 35 < concurrency <-> start concurrency duration now = inl Panicked)).
Proof.
  unfold start. split.
  - intros Hbad. assert (Hb : (concurrency <? 1) || (duration <=? 0) = true); [|by rewrite Hb].
    apply orb_true_iff. rewrite Z.ltb_lt, Z.leb_le. done.
  - intros Hc Hd. rewrite (proj2 (Z.ltb_ge _ _)), (proj2 (Z.leb_gt _ _)) by lia. cbn [orb].
    unfold makechan_ok, makeslice_ok, capacity, samples_cap, maxAlloc. rewrite !int64_id by (unfold_int; lia).
    rewrite !(proj2 (Z.leb_le 0 _)) by lia. cbn [andb].
    destruct (Z.leb_spec (8 * (concurrency * 16)) (2 ^ 48 - 96)), (Z.leb_spec (8 * (concurrency * 1024)) (2 ^ 48)); cbn [andb negb]; try lia.
    all: split; split; intros Hx; try done; try lia; first [by destruct Hx | by eauto].
Qed.

(** C34: what the load test reports. It refuses flags that are not positive, and panics
    at once exactly when it is asked for more than 2^35 clients (below 2^53), whose
    samples [make] refuses. Once started, however its clients, the collector and the
    server interleave, it does not panic: when [main] is over, without a successful
    request it has exited with 1; else it has printed as many requests as there were
    answers with status 200, the number of attempts that failed, and percentiles of
    exactly the latencies of the former: of n latencies in ascending order the ones at
    the ranks (n - 1) * 50, 95 and 99 / 100, counted from zero and rounded down,
    although the ranks are computed in float64; and the last and greatest one. *)
Theorem load_test_report `{URLParser} endpoint body concurrency duration now :
  (concurrency < 1 \/ duration <= 0 -> start concurrency duration now = inl (Exit 2))
  /\ (1 <= concurrency < 2 ^ 53 -> 0 < duration ->
        (concurrency <= 2 ^ 35 <-> exists b, start concurrency duration now = inr b)
        /\ (2 ^ 35 < concurrency <-> start concurrency duration now = inl Panicked))
  /\ (forall evs b0 b o,
        start concurrency duration now = inr b0 -> bench_exec_all endpoint body concurrency duration evs b0 = Some b -> bn_stage b = Over o ->
        let latencies := all_succeeded endpoint body concurrency duration evs b0 in
        8 * Z.of_nat (length latencies) <= maxAlloc ->
        (latencies = [] -> o = Exit 1)
        /\ (latencies <> [] -> exists r, o = Printed r /\ rp_requests r = Z.of_nat (length latencies)
              /\ rp_failures r = uint64 (all_failed endpoint body concurrency duration evs b0)
              /\ reports_ranks r latencies
              /\ rp_p50 r <= rp_p95 r /\ rp_p95 r <= rp_p99 r /\ rp_p99 r <= rp_max r
              /\ (forall x, x ∈ latencies -> x <= rp_max r))).
Proof.
  destruct (start_cases concurrency duration now) as [Hs1 Hs2]. split_and!; [done|done|].
  intros evs b0 b o H0 Hx Ho latencies Hlen. pose proof (exec_all_bench_ok _ _ _ _ _ _ _ _ _ (start_bench_ok _ _ _ _ H0) Hx) as Hb.
  rewrite app_nil_l, Z.add_0_l in Hb. fold latencies in Hb. destruct (over_accounts _ _ _ _ _ _ Hb Ho) as (-> & Hp & Hc & Hf). split.
  - intros Hnil. rewrite Hnil in Hp. apply Permutation_nil_r in Hp. unfold conclude. by rewrite Hp.
  - intros Hne. destruct (conclude_spec duration b) as (r & Hr & H1 & H2 & Hrk & Ho1 & Ho2 & Ho3 & Hall).
    { intros Hnil. rewrite Hnil in Hp. by apply Permutation_nil in Hp. }
    { by rewrite (Permutation_length Hp). }
    assert (Hsort : merge_sort Z.le (bn_samples b) = merge_sort Z.le latencies).
    { apply (StronglySorted_unique Z.le); [apply StronglySorted_merge_sort; apply _..|].
      by rewrite !merge_sort_Permutation. }
    exists r. unfold maxAlloc in Hlen. rewrite H1, H2, Hc, uint64_id by (unfold_int; lia). split_and!; try done.
    + unfold reports_ranks in *. by rewrite <- Hsort, <- (Permutation_length Hp).
    + intros x Hx'. apply Hall. by rewrite Hp.
Qed.

(** The load test ends. In every reachable state that is not the end, a client, the
    collector or [main] can go on, or a request is on its way; and once the time is
    over, at most [bench_cost] more steps follow, answers included. *)
Theorem load_test_ends `{URLParser} endpoint body concurrency duration now evs b0 b :
  start concurrency duration now = inr b0 -> bench_exec_all endpoint body concurrency duration evs b0 = Some b ->
  ((forall o, bn_stage b <> Over o) -> can_move endpoint body concurrency duration b)
  /\ (bn_deadline b <= bn_now b -> forall evs2 b2, bench_exec_all endpoint body concurrency duration evs2 b = Some b2 ->
        bench_moves evs2 <= bench_cost b).
Proof.
  intros H0 Hx. pose proof (exec_all_bench_ok _ _ _ _ _ _ _ _ _ (start_bench_ok _ _ _ _ H0) Hx) as Hb.
  pose proof (start_started _ _ _ _ H0) as [_ Hcap]. split.
  - intros Hno. by eapply run_moves.
  - intros Hd evs2 b2 H2. pose proof (exec_all_cost _ _ _ _ _ _ _ _ _ Hb Hd H2). pose proof (bench_cost_nonneg b2). lia.
Qed.

(** ** Evaluations *)

Definition load_url : string := "http://127.0.0.1:8080/v1/auction".
Definition load_body : string := "{}".
Abbreviation load_all := (bench_exec_all load_url load_body 2 Second).

(** Two clients; the second's second request fails. *)
Definition load_events : list bench_event :=
  [BWorker 0; BWorker 1; BWorker 0; BWorker 1; BTime 500; BAnswer 1 true; BTime 900; BAnswer 0 true; BWorker 1; BWorker 0;
   BWorker 1; BCollect; BWorker 0; BWorker 1; BWorker 1; BTime 2000; BAnswer 1 false; BTime (3 * Second); BWorker 0; BWorker 1].
Definition end_events : list bench_event := [BMain; BCollect; BCollect; BMain].

Definition load_start : bench :=
  match start 2 Second 0 with inr b => b | inl _ => mkBench 0 0 [] [] false [] true 0 0 WaitWorkers end.
Definition load_late : bench := default load_start (load_all load_events load_start).
Definition load_over : bench := default load_start (load_all end_events load_late).

Lemma load_late_exec : load_all load_events load_start = Some load_late.
Proof.
  assert (Hs : is_Someb (load_all load_events load_start) = true) by by_compute. apply is_Someb_ok in Hs as [b Hb].
  unfold load_late. by rewrite Hb.
Qed.

Lemma load_over_exec : load_all (load_events ++ end_events) load_start = Some load_over.
Proof.
  assert (Hs : is_Someb (load_all (load_events ++ end_events) load_start) = true) by by_compute.
  apply is_Someb_ok in Hs as [b Hb]. rewrite Hb. f_equal. apply (inj Some). rewrite <- Hb. by_compute.
Qed.

Definition load_result : option report := match bn_stage load_over with Over (Printed r) => Some r | _ => None end.

Example load_printed :
  (fun r => (rp_requests r, rp_failures r, rp_p50 r, rp_p99 r, rp_max r)) <$> load_result = Some (2, 1, 500, 500, 900).
Proof. by_compute. Qed.

Lemma load_test_report_witness :
  all_succeeded load_url load_body 2 Second (load_events ++ end_events) load_start = [500; 900]
  /\ (exists r, bn_stage load_over = Over (Printed r) /\ rp_requests r = 2 /\ rp_failures r = 1 /\ rp_p99 r = 500)
  /\ start (2 ^ 35 + 1) Second 0 = inl Panicked.
Proof.
  assert (Hok : all_succeeded load_url load_body 2 Second (load_events ++ end_events) load_start = [500; 900]) by by_compute.
  split; [exact Hok|]. split.
  - destruct (bn_stage load_over) as [| |o] eqn:Eo; [by vm_compute in Eo..|].
    destruct (load_test_report load_url load_body 2 Second 0) as (_ & _ & Hrep).
    destruct (Hrep (load_events ++ end_events) load_start load_over o ltac:(by_compute) load_over_exec Eo ltac:(by vm_compute)) as (_ & Hr).
    destruct Hr as (r & -> & Hreq & Hfail & Hrk & _); [rewrite Hok; discriminate|]. exists r. split; [reflexivity|]. split_and!.
    + rewrite Hreq, Hok. reflexivity.
    + rewrite Hfail. by_compute.
    + rewrite Hok in Hrk. destruct Hrk as (_ & _ & H99 & _). assert (H0 : merge_sort Z.le [500; 900] !! 0%nat = Some 500) by by_compute.
      change (Z.to_nat _) with 0%nat in H99. rewrite H0 in H99. by injection H99.
  - destruct (load_test_report load_url load_body (2 ^ 35 + 1) Second 0) as (_ & Hp & _).
    apply Hp; [split; [discriminate|reflexivity]|reflexivity|reflexivity].
Defined.

Lemma load_test_ends_witness :
  bn_deadline load_late <= bn_now load_late /\ bench_cost load_late = 4 /\ bench_moves end_events <= 4
  /\ can_move load_url load_body 2 Second load_late.
Proof.
  assert (Hd : bn_deadline load_late <= bn_now load_late) by (vm_compute; discriminate).
  assert (Hc : bench_cost load_late = 4) by by_compute.
  destruct (load_test_ends load_url load_body 2 Second 0 load_events load_start load_late ltac:(by_compute) load_late_exec) as [Hm He].
  split; [exact Hd|]. split; [exact Hc|]. split.
  - rewrite <- Hc. apply (He Hd end_events load_over). vm_compute. reflexivity.
  - apply Hm. intros o. vm_compute. discriminate.
Defined.

Example flags_refused : start 0 Second 0 = inl (Exit 2) /\ start 64 0 0 = inl (Exit 2).
Proof. by split. Qed.

(** With 2^60 clients the sizes wrap to zero: the channel has no buffer. *)
Example sizes_wrap : capacity (2 ^ 60) = 0 /\ samples_cap (2 ^ 60) = 0 /\ capacity (2 ^ 59) < 0.
Proof. by vm_compute. Qed.
