(* ===== verification/Main.v ===== *)
(** * The main program (cmd/adserver/main.go)

    From the environment to a serving process: [main] up to the point where it
    listens, with its exits, and the construction of the store's client. What a
    client reaches is an argument, the world of Redis it connects to. *)

From S2P Require Import Prelude GoInt Utf8 Json JsonCodec.
From S2P Require Import Prelude GoInt GoTime GoString Types Ranking DynamicBids Redis Store BidStore Samples.
From S2P Require Import Cache Auction StoreProps CacheProps Engine EngineInv EngineProps DecisionLog Metrics Config.
From S2P Require Import Server ServerProps HttpBidder.
Open Scope string_scope.
Open Scope list_scope.
Open Scope Z_scope.

(** ** The client of the store (internal/ads/store.go) *)

Record RedisStoreOptions := mkRedisStoreOptions {
  opt_Addrs : list string;
  opt_Password : string;
  opt_DB : Z;
  opt_Prefix : string;
  opt_Cluster : bool
}.

(** Where a client connects; retries and timeouts are the library's. A cluster client
    gets all addresses and database 0. *)
Record redis_client := mkRedisClient {
  rc_addrs : list string;
  rc_password : string;
  rc_db : Z;
  rc_cluster : bool
}.

Definition NewRedisStoreWithOptions (options : RedisStoreOptions) : redis_client * RedisStore :=
  let addrs := match opt_Addrs options with [] => ["127.0.0.1:6379"] | addrs => addrs end in
  if opt_Cluster options
  then (mkRedisClient addrs (opt_Password options) 0 true, mkRedisStore true (opt_Prefix options))
  else (mkRedisClient (take 1 addrs) (opt_Password options) (opt_DB options) false, mkRedisStore false (opt_Prefix options)).

Definition NewRedisStore (addr password : string) (db : Z) (prefix : string) : redis_client * RedisStore :=
  NewRedisStoreWithOptions (mkRedisStoreOptions [addr] password db prefix false).

(** ** main *)

Section main.
Context `{Redis} `{URLParser}.
Context (range : gmap string string -> list (string * string)) (connect : redis_client -> World) (clock : nat -> Time).

(** The options of the store. *)
Definition store_options (config : Config) : RedisStoreOptions :=
  let redisAddrs := match c_RedisAddrs config with [] => [c_RedisAddr config] | addrs => addrs end in
  mkRedisStoreOptions redisAddrs (c_RedisPassword config) (c_RedisDB config) (c_RedisPrefix config)
    (String.eqb (c_RedisMode config) "cluster").

Definition cache_policy (config : Config) : CachePolicy :=
  mkCachePolicy (c_CacheRefresh config) (c_MaxSnapshotAge config) (c_StaleSnapshotAction config).

Definition bidder_config (config : Config) (adapter : HTTPBidderAdapter) : BidderConfig :=
  mkBidderConfig (Some (ha_bidderID adapter)) (c_DSPTimeout config) (c_DSPMaxConcurrent config)
    (c_DSPFailureThreshold config) (c_DSPCircuitOpenFor config).

(** The loop over the configured endpoints. *)
Fixpoint bidder_configs (config : Config) (endpoints : list DSPBidderEndpoint) : string + list BidderConfig :=
  match endpoints with
  | [] => inr []
  | endpoint :: rest =>
      match NewHTTPBidderAdapter (ep_ID endpoint) (ep_URL endpoint) (c_DSPAuthorization config) with
      | inl e => inl e
      | inr adapter =>
          match bidder_configs config rest with
          | inl e => inl e
          | inr configs => inr (bidder_config config adapter :: configs)
          end
      end
  end.

(** The process has exited with a code, or serves requests. *)
Inductive process := Exited (code : Z) | Serving (store : RedisStore) (server : Server World).

Definition main (env : string -> string) : process :=
  let config := ConfigFromEnv env in
  match Config_Validate config with
  | Some _ => Exited 2
  | None =>
      let '(client, store) := NewRedisStoreWithOptions (store_options config) in
      let St := redis_bid_store store range in
      let '(w, err) := store_Ping (connect client) in
      match err with
      | Some _ => Exited 1
      | None =>
          let cache := NewBidCacheWithPolicy (cache_policy config) in
          let '(cache, w, err) := Warm clock cache w in
          match err with
          | Some _ => Exited 1
          | None =>
              let server := NewServer config w cache in
              if 0 <? Z.of_nat (length (c_DSPBidderEndpoints config))
              then
                match bidder_configs config (c_DSPBidderEndpoints config) with
                | inl _ => Exited 2
                | inr bidderConfigs =>
                    match NewBidderEngine true (c_BidderEngineConfig config) bidderConfigs with
                    | inl _ => Exited 2
                    | inr engine => Serving store (SetBidderEngine engine server)
                    end
                end
              else Serving store server
          end
      end
  end.
End main.

(** ** What a valid configuration is good for *)

Lemma Config_Validate_facts c :
  Config_Validate c = None ->
  AuctionPolicy_Validate (c_AuctionPolicy c) = None
  /\ 0 < c_MaxSnapshotAge c /\ (c_StaleSnapshotAction c = ServeStale \/ c_StaleSnapshotAction c = NoBidOnStale)
  /\ Forall (fun ep => validBidderID (ep_ID ep) = true) (c_DSPBidderEndpoints c)
  /\ 0 < c_DSPTimeout c <= 10 * Second /\ 1 <= c_DSPMaxConcurrent c <= 1024
  /\ 1 <= c_DSPFailureThreshold c <= 100 /\ 0 < c_DSPCircuitOpenFor c <= Hour
  /\ BidderEngineConfig_Validate (c_BidderEngineConfig c) = None.
Proof.
  unfold Config_Validate. change (10 *i Second)%go with (10 * Second). intros Hv.
  destruct (AuctionPolicy_Validate (c_AuctionPolicy c)); [done|].
  destruct (negb (String.eqb (c_RedisMode c) "single") && _); [done|].
  destruct (String.eqb (c_RedisMode c) "cluster" && _); [done|].
  destruct (Z.leb_spec (c_MaxSnapshotAge c) 0); [done|].
  destruct (negb (String.eqb (c_StaleSnapshotAction c) ServeStale) && _) eqn:Ea; [done|].
  destruct (64 <? _); [done|]. destruct (forallb endpoint_ok (c_DSPBidderEndpoints c)) eqn:Ee; [|done]. simpl negb in Hv. cbv iota in Hv.
  destruct (_ || _) eqn:El in Hv; [done|].
  split_and!; try done.
  - bool_hyps; [by left|by right].
  - apply Forall_forall. intros ep Hep. rewrite forallb_forall in Ee. apply list_elem_of_In in Hep.
    apply Ee in Hep. unfold endpoint_ok in Hep. bool_hyps; done.
  - bool_hyps; lia.
  - bool_hyps; lia.
  - bool_hyps; lia.
  - bool_hyps; lia.
  - bool_hyps; lia.
  - bool_hyps; lia.
  - bool_hyps; lia.
  - bool_hyps; lia.
Qed.

Lemma cache_policy_kept c :
  config_sane c -> Config_Validate c = None -> bc_policy (NewBidCacheWithPolicy (cache_policy c)) = cache_policy c.
Proof.
  intros Hs Hv. destruct (Config_Validate_facts c Hv) as (_ & Hage & Hact & _).
  unfold NewBidCacheWithPolicy. rewrite (proj2 (CachePolicy_Validate_spec (cache_policy c))); [done|].
  split_and!; [apply Hs|done|done].
Qed.

Lemma engine_defaults_valid c : BidderEngineConfig_Validate c = None -> engine_defaults c = c.
Proof.
  unfold BidderEngineConfig_Validate, engine_defaults. case_test; [done|]. case_test; [done|]. intros _. bool_hyps.
  destruct (Z.ltb_spec (ec_MaxFanout c) 1); [lia|]. destruct (Z.leb_spec (ec_CacheTTL c) 0); [lia|].
  destruct (Z.leb_spec (ec_FailureTTL c) 0); [lia|]. destruct (Z.ltb_spec (ec_MaxKeys c) 1); [lia|].
  destruct (Z.ltb_spec (ec_MaxConcurrentRefreshes c) 1); [lia|done].
Qed.

(** Limits that are set are kept. *)
Lemma new_runtime_kept seen c b :
  0 < bcfg_Timeout c -> 1 <= bcfg_MaxConcurrent c -> new_runtime seen c = inr b -> rt_config b = c.
Proof.
  intros Ht Hm. unfold new_runtime. destruct (bcfg_Adapter c); [|done]. case_test; [done|]. case_decide; [done|].
  destruct (Z.leb_spec (bcfg_Timeout c) 0); [lia|]. destruct (Z.ltb_spec (bcfg_MaxConcurrent c) 1); [lia|].
  case_test; [done|]. by intros [= <-].
Qed.

Lemma new_runtimes_kept seen cs bs :
  Forall (fun c => 0 < bcfg_Timeout c /\ 1 <= bcfg_MaxConcurrent c) cs -> new_runtimes seen cs = inr bs ->
  rt_config <$> bs = cs /\ (fun b => Some (rt_id b)) <$> bs = bcfg_Adapter <$> cs.
Proof.
  intros Hc. revert seen bs. induction Hc as [|c cs [Ht Hm] _ IH]; intros seen bs; cbn [new_runtimes]; [by intros [= <-]|].
  destruct (new_runtime seen c) as [|b] eqn:Eb; [done|]. destruct (new_runtimes _ cs) as [|rs] eqn:Er; [done|].
  intros [= <-]. destruct (IH _ _ Er) as [<- Hid]. rewrite !fmap_cons, Hid.
  rewrite (new_runtime_kept _ _ _ Ht Hm Eb). destruct (new_runtime_ok _ _ _ Eb) as (_ & _ & ->). done.
Qed.

(** ** Startup *)

Section startup.
Context `{Redis} `{URLParser}.
Context (range : gmap string string -> list (string * string)) (connect : redis_client -> World) (clock : nat -> Time).

(** The endpoints an engine can be built from. *)
Definition usable_endpoints (c : Config) : Prop :=
  Forall (fun ep => exists a, NewHTTPBidderAdapter (ep_ID ep) (ep_URL ep) (c_DSPAuthorization c) = inr a) (c_DSPBidderEndpoints c)
  /\ NoDup (ep_ID <$> c_DSPBidderEndpoints c).

Definition endpoint_config (c : Config) (ep : DSPBidderEndpoint) : BidderConfig :=
  mkBidderConfig (Some (ep_ID ep)) (c_DSPTimeout c) (c_DSPMaxConcurrent c) (c_DSPFailureThreshold c) (c_DSPCircuitOpenFor c).

Lemma bidder_configs_spec c eps :
  match bidder_configs c eps with
  | inl _ => ~ Forall (fun ep => exists a, NewHTTPBidderAdapter (ep_ID ep) (ep_URL ep) (c_DSPAuthorization c) = inr a) eps
  | inr cs => cs = endpoint_config c <$> eps
      /\ Forall (fun ep => exists a, NewHTTPBidderAdapter (ep_ID ep) (ep_URL ep) (c_DSPAuthorization c) = inr a) eps
  end.
Proof.
  induction eps as [|ep eps IH]; [done|]. cbn [bidder_configs].
  destruct (NewHTTPBidderAdapter (ep_ID ep) (ep_URL ep) (c_DSPAuthorization c)) as [e|a] eqn:Ea.
  { intros Hf. apply Forall_cons in Hf as [[a Ha] _]. congruence. }
  assert (Hid : ha_bidderID a = ep_ID ep).
  { unfold NewHTTPBidderAdapter in Ea. destruct (ParseRequestURI _) as [[scheme host]|]; [|done]. case_test; by simplify_eq/=. }
  destruct (bidder_configs c eps) as [e|cs]; [by intros [_ ?]%Forall_cons|].
  destruct IH as [-> Hf]. split; [|by constructor; eauto]. rewrite fmap_cons. f_equal.
  unfold bidder_config, endpoint_config. by rewrite Hid.
Qed.

(** An engine as configured. *)
Definition engine_as_configured (c : Config) (e : BidderEngine) : Prop :=
  be_config e = c_BidderEngineConfig c /\ rt_config <$> be_bidders e = endpoint_config c <$> c_DSPBidderEndpoints c
  /\ bidder_ids e = ep_ID <$> c_DSPBidderEndpoints c.

Lemma configured_engine c cs :
  Config_Validate c = None -> cs = endpoint_config c <$> c_DSPBidderEndpoints c ->
  match NewBidderEngine true (c_BidderEngineConfig c) cs with
  | inl _ => ~ NoDup (ep_ID <$> c_DSPBidderEndpoints c)
  | inr e => engine_as_configured c e /\ NoDup (ep_ID <$> c_DSPBidderEndpoints c)
  end.
Proof.
  intros Hv ->. destruct (Config_Validate_facts c Hv) as (_ & _ & _ & Hids & Ht & Hm & Hf & Ho & Hec).
  assert (Hadapt : bcfg_Adapter <$> (endpoint_config c <$> c_DSPBidderEndpoints c) = Some <$> (ep_ID <$> c_DSPBidderEndpoints c))
    by (by rewrite <- !list_fmap_compose).
  assert (Hacc : Forall acceptable (endpoint_config c <$> c_DSPBidderEndpoints c)).
  { apply Forall_fmap. eapply Forall_impl; [exact Hids|]. intros ep Hid. unfold acceptable, compose. simpl.
    split_and!; [eauto|lia..]. }
  assert (Hpos : Forall (fun b => 0 < bcfg_Timeout b /\ 1 <= bcfg_MaxConcurrent b) (endpoint_config c <$> c_DSPBidderEndpoints c)).
  { apply Forall_fmap, Forall_forall. intros ep _. simpl. lia. }
  unfold NewBidderEngine. cbn [negb]. rewrite (engine_defaults_valid _ Hec), Hec.
  destruct (new_runtimes ∅ _) as [err|bs] eqn:Eb.
  - intros Hn. destruct (proj2 (new_runtimes_iff ∅ (endpoint_config c <$> c_DSPBidderEndpoints c))) as [bs Hbs]; [|congruence].
    split_and!; [done| |set_solver]. rewrite Hadapt. by apply NoDup_fmap_2; [apply _|].
  - destruct (new_runtimes_kept _ _ _ Hpos Eb) as [Hk Hid]. rewrite Hadapt in Hid.
    assert (Hids2 : rt_id <$> bs = ep_ID <$> c_DSPBidderEndpoints c).
    { apply (inj (fmap Some)). by rewrite <- Hid, <- list_fmap_compose. }
    split; [split_and!; [done|exact Hk|]|].
    + unfold bidder_ids, static. simpl. rewrite <- list_fmap_compose. exact Hids2.
    + destruct (proj1 (new_runtimes_iff ∅ _) (ex_intro _ bs Eb)) as (_ & Hn & _). rewrite Hadapt in Hn.
      by eapply NoDup_fmap_1.
Qed.

(** What a started server is, over the registry [d]. *)
Record started_ok (c : Config) (rs : RedisStore) (d : db) (s : Server World) : Prop := {
  so_config : sv_config s = c;
  so_store : sv_store s = mkWorld d [];
  so_policy : au_policy (sv_auctioneer s) = c_AuctionPolicy c;
  so_service : in_service s;
  so_log : sv_decisionLogger s = if c_DecisionLogging c then Some (mkDecisionLogger [] (c_DecisionLogBuffer c) false false 0 []) else None;
  so_engine : match sv_bidderEngine s with
              | None => c_DSPBidderEndpoints c = []
              | Some e => c_DSPBidderEndpoints c <> [] /\ engine_as_configured c e
              end;
  so_cache_policy : bc_policy (sv_cache s) = cache_policy c;
  so_warm p now : p ∈ members d (placementsKey rs) ->
    fetched rs d p (BidCache_Get p now (sv_cache s)).1 /\ ss_Found (BidCache_Get p now (sv_cache s)).2 = true
}.

Lemma new_server_ok c rs d cache :
  config_sane c -> Config_Validate c = None -> bc_policy cache = cache_policy c ->
  (forall p now, p ∈ members d (placementsKey rs) ->
     fetched rs d p (BidCache_Get p now cache).1 /\ ss_Found (BidCache_Get p now cache).2 = true) ->
  let s := NewServer c (mkWorld d []) cache in
  (c_DSPBidderEndpoints c = [] -> started_ok c rs d s)
  /\ (forall e, c_DSPBidderEndpoints c <> [] -> engine_as_configured c e -> started_ok c rs d (SetBidderEngine e s)).
Proof.
  intros Hs Hv Hp Hw s. destruct (Config_Validate_facts c Hv) as (Hpol & _).
  assert (Hser : in_service s).
  { apply (ho_service s []). apply new_history_ok. pose proof (cs_increment _ Hs). unfold_int. lia. }
  assert (Hlog : sv_decisionLogger s = if c_DecisionLogging c then Some (mkDecisionLogger [] (c_DecisionLogBuffer c) false false 0 []) else None).
  { unfold s, NewServer, NewDecisionLogger. simpl. destruct (c_DecisionLogging c); [|done]. simpl.
    pose proof (cs_buffer _ Hs). by destruct (Z.ltb_spec (c_DecisionLogBuffer c) 1); [lia|]. }
  assert (Hau : au_policy (sv_auctioneer s) = c_AuctionPolicy c).
  { unfold s, NewServer, NewAuctioneerWithPolicy. simpl. by rewrite Hpol. }
  split; [intros He|intros e Hne He]; by constructor.
Qed.

Lemma Ping_no_fault rs d : RedisStore_Ping rs (mkWorld d []) = (mkWorld d [], None).
Proof. done. Qed.

Lemma Warm_policy rs clk c w c2 w2 e :
  any_order range -> Consistent rs (w_db w) -> @Warm World (redis_bid_store rs range) clk c w = (c2, w2, e) -> bc_policy c2 = bc_policy c.
Proof.
  intros Hrg Hc Hw. unfold Warm, Reconcile in Hw. pose proof (redis_bid_store_laws rs range Hrg) as HL.
  destruct (store_Placements w) as [w1 [err|ps]] eqn:Ep; [by injection Hw as <- _ _|].
  assert (Hw1 : @store_ok World (redis_bid_store rs range) (redis_bid_store_laws rs range Hrg) w1).
  { by apply (@Placements_ok World (redis_bid_store rs range) (redis_bid_store_laws rs range Hrg) w w1 (inr ps)). }
  by destruct (@refresh_each_spec World (redis_bid_store rs range) (redis_bid_store_laws rs range Hrg) clk ps 0
    (count_reconciliation c) w1 c2 w2 e Hw1 Hw) as (_ & ? & _).
Qed.
End startup.

(** C29: startup. For every environment, on a reachable and consistent registry, the
    program either exits with code 2, exactly when the configuration is invalid, an
    endpoint's URL is refused or two endpoints share an ID; or it serves, with no
    configured value replaced by a default: the auction policy, the cache policy, the
    log and the limits of the engine and of each bidder are the configured ones, and
    the cache serves every placement of the registry with its active bids. *)
Theorem startup `{Redis} `{URLParser} range connect clock env d client rs :
  let c := ConfigFromEnv env in
  NewRedisStoreWithOptions (store_options c) = (client, rs) ->
  any_order range -> connect client = mkWorld d [] -> Consistent rs d ->
  match main range connect clock env with
  | Exited code => code = 2 /\ ~ (Config_Validate c = None /\ usable_endpoints c)
  | Serving rs' s => rs' = rs /\ Config_Validate c = None /\ usable_endpoints c /\ started_ok c rs d s
  end.
Proof.
  cbv zeta. unfold main. pose proof (ConfigFromEnv_sane env) as Hsane. set (c := ConfigFromEnv env) in *.
  intros Hst Hrg Hconn Hc. rewrite Hst.
  destruct (Config_Validate c) as [msg|] eqn:Hv; [split; [done|by intros [? _]]|]. rewrite Hconn.
  simpl store_Ping. rewrite Ping_no_fault. cbv iota beta.
  destruct (Warm_exact rs range clock (NewBidCacheWithPolicy (cache_policy c)) d Hrg Hc) as (c2 & Hw & Hget & _).
  cbv zeta in Hw. rewrite Hw.
  assert (Hpol : bc_policy c2 = cache_policy c).
  { rewrite <- (cache_policy_kept c Hsane Hv). by eapply (Warm_policy range rs clock _ (mkWorld d [])). }
  destruct (new_server_ok c rs d c2 Hsane Hv Hpol Hget) as [Hno Hyes].
  destruct (c_DSPBidderEndpoints c) as [|ep eps] eqn:Heps.
  { simpl. split_and!; [done|done| |by apply Hno]. unfold usable_endpoints. rewrite Heps. split; constructor. }
  rewrite <- Heps in *. replace (0 <? Z.of_nat (length (c_DSPBidderEndpoints c))) with true by (by rewrite Heps).
  pose proof (bidder_configs_spec c (c_DSPBidderEndpoints c)) as Hbc.
  destruct (bidder_configs c (c_DSPBidderEndpoints c)) as [msg|cs]; [split; [done|by intros (_ & ? & _)]|].
  destruct Hbc as [Hcs Hf]. pose proof (configured_engine c cs Hv Hcs) as He.
  destruct (NewBidderEngine true (c_BidderEngineConfig c) cs) as [msg|e]; [split; [done|by intros (_ & _ & ?)]|].
  destruct He as [He Hn]. split_and!; [done|done|done|]. apply Hyes; [by rewrite Heps|done].
Qed.

(** ** Evaluations *)

Definition sample_env (key : string) : string :=
  if String.eqb key "REDIS_MODE" then " cluster "
  else if String.eqb key "DSP_ENDPOINTS" then "alpha=https://a.example/bid, beta=http://b.example/bid"
  else if String.eqb key "DSP_TIMEOUT" then "75ms"
  else if String.eqb key "DECISION_LOGGING" then "true" else "".

Definition clash_env (key : string) : string :=
  if String.eqb key "DSP_ENDPOINTS" then "alpha=https://a.example/bid,alpha=http://b.example/bid" else sample_env key.

Definition sample_connect (client : redis_client) : World := mkWorld db_two [].
Abbreviation sample_main env := (main map_to_list sample_connect sample_clock env).

Definition serving (p : process) : option (list string) :=
  match p with Serving _ s => bidder_ids <$> sv_bidderEngine s | Exited _ => None end.

Definition exit_code (p : process) : option Z := match p with Exited code => Some code | Serving _ _ => None end.

Example clash_exits : exit_code (sample_main clash_env) = Some 2.
Proof. by_compute. Qed.

Lemma startup_witness :
  serving (sample_main sample_env) = Some ["alpha"; "beta"]
  /\ match sample_main sample_env with
     | Exited _ => False
     | Serving rs s => rs = sample_store /\ started_ok (ConfigFromEnv sample_env) rs db_two s
     end.
Proof.
  assert (Hs : serving (sample_main sample_env) = Some ["alpha"; "beta"]) by by_compute. split; [exact Hs|].
  assert (Hst : NewRedisStoreWithOptions (store_options (ConfigFromEnv sample_env))
    = (mkRedisClient ["127.0.0.1:6379"] "" 0 true, sample_store)) by by_compute.
  pose proof (startup map_to_list sample_connect sample_clock sample_env db_two _ _ Hst map_to_list_any_order eq_refl
    db_two_Consistent) as Hx.
  destruct (sample_main sample_env) as [code|rs s]; [discriminate Hs|].
  destruct Hx as (-> & _ & _ & Hok). exact (conj eq_refl Hok).
Defined.
