(* ===== verification/Handlers.v ===== *)
(** * The HTTP handlers as threads (internal/ads/server.go)

    net/http runs every request in its own goroutine. Here a handler is the tree of
    the atomic operations it performs on the server's shared state, in the order of
    the code, with what it computes between them as ordinary functions: the clock
    readings, the operations of the cache, the bidder engine, the registry and the
    decision log, and the atomic counters. [System] interleaves such threads. *)

From S2P Require Import Prelude GoInt Utf8 Json JsonCodec.
From S2P Require Import Prelude GoInt GoTime GoString GoParse Types Ranking DynamicBids Store BidStore Cache Auction.
From S2P Require Import Engine DecisionLog Metrics Config Server.
Open Scope string_scope.
Open Scope list_scope.
Open Scope Z_scope.

(** ** Programs *)

(** What a handler does next. [InTrigger tid] is the rest of a call of [Trigger]
    whose own steps are those of the engine's thread [tid]. [Panic] is the end of a
    handler without a response. *)
Inductive prog :=
  | Return (resp : Response)
  | Panic
  | Now (k : Time -> prog)
  | DoLookup (request : AuctionRequest) (k : list DynamicBid -> prog)
  | DoTrigger (request : AuctionRequest) (k : prog)
  | InTrigger (tid : nat) (k : prog)
  | DoGet (placement : string) (k : list Bid -> SnapshotState -> prog)
  | DoRefreshAsync (placement : string) (k : prog)
  | NextNumber (k : Z -> prog)
  | Count (f : Metrics -> Metrics) (k : prog)
  | DoRecord (entry : DecisionLog) (k : record_result -> prog)
  | DoUpsert (b : Bid) (k : option error -> prog)
  | DoDelete (placement id : string) (revision : Z) (k : option error -> prog)
  | DoPing (k : option error -> prog)
  | Scrape (k : Response -> prog).

Definition finished (p : prog) : bool := match p with Return _ | Panic => true | _ => false end.

(** ** The handlers *)

Section handlers.
Context {W : Type}.

(** The security header is set before the handler runs. *)
Definition reply (resp : Response) : prog := Return (securityHeaders resp).

(** The server [s] a handler is given is used for what is set before it serves: its
    configuration, its auctioneer, and whether it has a bidder engine and a log. *)
Definition run_prog (a : Auctioneer) (request : AuctionRequest) (dynamic : list DynamicBid) (k : AuctionDecision -> prog) : prog :=
  DoGet (req_PlacementID request) (fun bids snapshot =>
  if negb (ss_Found snapshot) then DoRefreshAsync (req_PlacementID request) (k cold_cache)
  else
    let rest :=
      if ss_Stale snapshot && ss_RejectStale snapshot then k (stale_snapshot snapshot)
      else Now (fun now => k (decide_bids a request dynamic bids snapshot now)) in
    if ss_Stale snapshot then DoRefreshAsync (req_PlacementID request) rest else rest).

Definition dynamic_prog (s : Server W) (request : AuctionRequest) (k : list DynamicBid -> prog) : prog :=
  match sv_bidderEngine s with
  | None => k []
  | Some _ => DoLookup request (fun dynamic => DoTrigger request (k dynamic))
  end.

Definition requestID_prog (r : Request) (k : string -> prog) : prog :=
  let id := rq_header r "X-Request-ID" in
  if negb (String.eqb id "") then k id else NextNumber (fun n => k ("a-" +:+ FormatUint n 36)).

Definition log_dropped (m : Metrics) : Metrics :=
  {| m with me_decisionLogDropped := counter_add (me_decisionLogDropped m) 1 |}.

(** [k] gets whether the record did not panic. *)
Definition recordDecision_prog (s : Server W) (requestID placementID : string) (decision : AuctionDecision) (k : bool -> prog) : prog :=
  match sv_decisionLogger s with
  | None => k true
  | Some _ =>
      DoRecord (log_entry (sv_auctioneer s) requestID placementID decision) (fun result =>
      match result with
      | SendOnClosedChannel => k false
      | Recorded true => k true
      | Recorded false => Count log_dropped (k true)
      end)
  end.

Definition auction_prog (s : Server W) (r : Request) : prog :=
  Now (fun started =>
  let invalid := Count bad_request (reply (error_response StatusBadRequest "invalid auction request")) in
  match decodeJSON Decode_AuctionRequest r with
  | None => invalid
  | Some request =>
  match AuctionRequest_Validate request with
  | Some _ => invalid
  | None =>
      Now (fun selectionStarted =>
      dynamic_prog s request (fun dynamic =>
      run_prog (sv_auctioneer s) request dynamic (fun decision =>
      Now (fun selected =>
      let filled := AuctionDecision_Filled decision in
      let selectionLatency := Microseconds (time_Sub selected selectionStarted) in
      requestID_prog r (fun id =>
      let response := auction_response (sv_auctioneer s) id selectionLatency decision in
      Count (count_decision decision) (
      recordDecision_prog s id (req_PlacementID request) decision (fun ok =>
      Now (fun finished =>
      Count (RecordAuction filled selectionLatency (Microseconds (time_Sub finished started)))
        (if ok : bool then reply (writeJSON StatusOK (JSONAuction response)) else Panic)))))))))
  end end).

Definition upsertBid_prog (s : Server W) (r : Request) : prog :=
  if negb (authorized s r) then reply (error_response StatusUnauthorized "unauthorized")
  else
    let invalid := Count bad_request (reply (error_response StatusBadRequest "invalid bid or bid id")) in
    match decodeJSON Decode_Bid r with
    | None => invalid
    | Some bid =>
        let bid := Bid_Normalize bid in
        if negb (String.eqb (bid_ID bid) (rq_path_id r)) || match Bid_Validate bid with Some _ => true | None => false end
        then invalid
        else
          Count bid_mutation (
          DoUpsert bid (fun e =>
          match e with
          | Some e =>
              Count bid_mutation_error (
              if is_stale_error e then reply (error_response StatusConflict "stale bid revision")
              else reply (error_response StatusServiceUnavailable "bid registry unavailable"))
          | None => DoRefreshAsync (bid_PlacementID bid) (reply (writeJSON StatusOK (JSONBid bid)))
          end))
    end.

Definition deleteBid_prog (s : Server W) (r : Request) : prog :=
  if negb (authorized s r) then reply (error_response StatusUnauthorized "unauthorized")
  else
    let placement := rq_query r "placement_id" in
    match ParseUint (rq_query r "revision") with
    | None => reply (error_response StatusBadRequest "revision query parameter is required")
    | Some revision =>
        Count bid_mutation (
        DoDelete placement (rq_path_id r) revision (fun e =>
        match e with
        | Some e =>
            Count bid_mutation_error (
            if is_stale_error e then reply (error_response StatusConflict "stale bid revision")
            else reply (error_response StatusBadRequest (error_text e)))
        | None => DoRefreshAsync placement (reply (mkResponse StatusNoContent ∅ NoBody))
        end))
    end.

Definition ready_prog : prog :=
  Count readiness_check (
  DoPing (fun e =>
  match e with
  | Some _ => Count readiness_failure (reply (writeJSON StatusServiceUnavailable (JSONMap "status" "redis unavailable")))
  | None => reply (writeJSON StatusOK (JSONMap "status" "ready"))
  end)).

Definition Handler_prog (s : Server W) (r : Request) : prog :=
  match route (rq_method r) (rq_path r) with
  | ToAuction => auction_prog s r
  | ToUpsertBid id => upsertBid_prog s (SetPathValue id r)
  | ToDeleteBid id => deleteBid_prog s (SetPathValue id r)
  | ToHealth => reply (health s).2
  | ToReady => ready_prog
  | ToMetrics => Scrape reply
  | ToMethodNotAllowed allow =>
      let resp := http_Error "Method Not Allowed" StatusMethodNotAllowed in
      reply {| resp with rs_header := <["Allow" := allow]> (rs_header resp) |}
  | ToNotFound => reply (http_Error "404 page not found" StatusNotFound)
  end.
End handlers.
