(* ===== verification/HandlerSpec.v ===== *)
(** * What a handler does, whatever the others do

    A program logic for the handlers of [Handlers]: [wp Q p tr] says that the rest [p]
    of a handler that has made the observations [tr] ends in a state and with a
    response that satisfy [Q], for every answer the shared state can give to its
    operations. The answers are assumed to be only what every state of the system
    guarantees, so the judgement is stable under interference. *)

From S2P Require Import Prelude GoInt Utf8 Json JsonCodec.
From S2P Require Import Prelude GoInt GoTime GoString GoParse Types Ranking DynamicBids Store BidStore Cache Auction.
From S2P Require Import AuctionProps Engine EngineInv DecisionLog Metrics Config Server ServerProps Handlers.
Open Scope string_scope.
Open Scope list_scope.
Open Scope Z_scope.

(** ** Observations *)

(** The counters a handler moves: those of [tally], and the drops of the log. *)
Definition gauges (m : Metrics) : list Z := tally m ++ [me_decisionLogDropped m].

(** [f] adds one to the counters marked in [w]. *)
Definition weighs (f : Metrics -> Metrics) (w : list bool) : Prop :=
  length w = 12%nat /\ forall m, gauges (f m) = zip_with bump (gauges m) w.

(** What a handler has seen and done, the newest first. *)
Inductive obs :=
  | ObsTime (t : Time)
  | ObsLookup (request : AuctionRequest) (t : Time) (bids : list DynamicBid)
  | ObsGet (placement : string) (t : Time) (bids : list Bid) (snapshot : SnapshotState)
  | ObsNumber (n : Z)
  | ObsCount (w : list bool)
  | ObsLog (entry : DecisionLog) (result : record_result).

Fixpoint last_time (tr : list obs) : Time :=
  match tr with
  | [] => 0
  | (ObsTime t | ObsLookup _ t _ | ObsGet _ t _ _) :: _ => t
  | _ :: tr => last_time tr
  end.

Definition ones (w : list bool) : list Z := (fun b : bool => if b then 1 else 0) <$> w.

Definition counts (tr : list obs) : list Z :=
  foldr (fun o acc => match o with ObsCount w => zip_with Z.add acc (ones w) | _ => acc end) (replicate 12 0) tr.

Lemma counts_count w tr : counts (ObsCount w :: tr) = zip_with Z.add (counts tr) (ones w).
Proof. done. Qed.
Lemma counts_log entry result tr : counts (ObsLog entry result :: tr) = counts tr.
Proof. done. Qed.

Definition numbers (tr : list obs) : list Z :=
  omap (fun o => match o with ObsNumber n => Some n | _ => None end) tr.

Definition logged (tr : list obs) : list (DecisionLog * record_result) :=
  omap (fun o => match o with ObsLog entry result => Some (entry, result) | _ => None end) tr.

Lemma logged_count w tr : logged (ObsCount w :: tr) = logged tr.
Proof. done. Qed.
Lemma logged_log entry result tr : logged (ObsLog entry result :: tr) = (entry, result) :: logged tr.
Proof. done. Qed.

Definition is_drop (x : DecisionLog * record_result) : bool := match x.2 with Recorded false => true | _ => false end.
Definition is_panic (x : DecisionLog * record_result) : bool := match x.2 with SendOnClosedChannel => true | _ => false end.

Definition is_kept (x : DecisionLog * record_result) : bool := match x.2 with Recorded true => true | _ => false end.
Definition kept (tr : list obs) : Z := Z.of_nat (length (List.filter is_kept (logged tr))).
Definition drops (tr : list obs) : Z := Z.of_nat (length (List.filter is_drop (logged tr))).

(** ** The judgement *)

Section wp.
(** The IDs of the configured bidders. *)
Context (ids : list string).

(** What a lookup may return. *)
Definition looked (request : AuctionRequest) (bids : list DynamicBid) : Prop :=
  exists request', dynamicCacheKey request' = dynamicCacheKey request /\ Forall (offered ids (req_PlacementID request')) bids.

(** What a reader of a cache may find at time [t]. *)
Definition readable (placement : string) (t : Time) (bids : list Bid) (snapshot : SnapshotState) : Prop :=
  exists c, cache_ok c /\ BidCache_Get placement t c = (bids, snapshot).

Fixpoint wp (Q : list obs -> option Response -> Prop) (p : prog) (tr : list obs) : Prop :=
  match p with
  | Return resp => Q tr (Some resp)
  | Panic => Q tr None
  | Now k => forall t, last_time tr <= t -> wp Q (k t) (ObsTime t :: tr)
  | DoLookup request k => forall t bids, last_time tr <= t -> looked request bids -> wp Q (k bids) (ObsLookup request t bids :: tr)
  | DoTrigger _ k | InTrigger _ k | DoRefreshAsync _ k => wp Q k tr
  | DoGet placement k => forall t bids snapshot, last_time tr <= t -> readable placement t bids snapshot ->
      wp Q (k bids snapshot) (ObsGet placement t bids snapshot :: tr)
  | NextNumber k => forall n, wp Q (k n) (ObsNumber n :: tr)
  | Count f k => exists w, weighs f w /\ wp Q k (ObsCount w :: tr)
  | DoRecord entry k => forall result, wp Q (k result) (ObsLog entry result :: tr)
  | DoUpsert b k => Bid_sound b /\ forall e, wp Q (k e) tr
  | DoDelete _ _ revision k => is_uint64 revision /\ forall e, wp Q (k e) tr
  | DoPing k => forall e, wp Q (k e) tr
  | Scrape k => forall resp, answer_of resp = None -> rs_status resp = StatusOK -> wp Q (k resp) tr
  end.

Lemma wp_count w Q f k tr : weighs f w -> wp Q k (ObsCount w :: tr) -> wp Q (Count f k) tr.
Proof. intros Hw Hk. by exists w. Qed.
End wp.

(** ** The counting of the handlers *)

Definition only (i : nat) : list bool := (fun j => bool_decide (j = i)) <$> seq 0 12.

Lemma weighs_gauges f w : length w = 12%nat -> (forall m, gauges (f m) = zip_with bump (gauges m) w) -> weighs f w.
Proof. by split. Qed.

Lemma weighs_bad_request : weighs bad_request (only 3).
Proof. split; [done|]. by intros []. Qed.
Lemma weighs_bid_mutation : weighs bid_mutation (only 4).
Proof. split; [done|]. by intros []. Qed.
Lemma weighs_bid_mutation_error : weighs bid_mutation_error (only 5).
Proof. split; [done|]. by intros []. Qed.
Lemma weighs_readiness_check : weighs readiness_check (only 6).
Proof. split; [done|]. by intros []. Qed.
Lemma weighs_readiness_failure : weighs readiness_failure (only 7).
Proof. split; [done|]. by intros []. Qed.
Lemma weighs_log_dropped : weighs log_dropped (only 11).
Proof. split; [done|]. by intros []. Qed.

#[export] Hint Resolve weighs_bad_request weighs_bid_mutation weighs_bid_mutation_error weighs_readiness_check
  weighs_readiness_failure weighs_log_dropped : ads.

Definition record_weights (filled : bool) : list bool :=
  [true; filled; negb filled; false; false; false; false; false; false; false; false; false].

Lemma weighs_record filled x y : weighs (RecordAuction filled x y) (record_weights filled).
Proof.
  split; [done|]. intros m. unfold gauges. destruct (tally_record filled x y m) as [-> ->]. by destruct filled.
Qed.

Definition answer_weights (a : AuctionResponse) : list bool :=
  [false; false; false; false; false; false; false; false; rsp_ServedStale a;
   String.eqb (rsp_NoBidReason a) "stale_snapshot"; negb (String.eqb (rsp_DynamicBidderID a) ""); false].

Lemma weighs_decision d a : (forall m, count_answer a false m = count_decision d m) -> weighs (count_decision d) (answer_weights a).
Proof.
  intros Hc. split; [done|]. intros m. rewrite <- Hc. unfold gauges. by destruct (tally_count_answer a false m) as [-> ->].
Qed.

(** ** What the handlers answer *)

Section answers.
Context {W : Type}.

Definition configured_ids (s : Server W) : list string :=
  match sv_bidderEngine s with Some e => bidder_ids e | None => [] end.

(** What a handler has of the engine: nothing without one, else what it looked up. *)
Definition ready_at (s : Server W) (request : AuctionRequest) (t0 t : Time) (dynamic : list DynamicBid) (tr : list obs) : Prop :=
  match sv_bidderEngine s with
  | None => dynamic = []
  | Some _ => exists t1, t0 <= t1 <= t /\ ObsLookup request t1 dynamic ∈ tr
  end.

(** An answered auction: the snapshot the handler read and the dynamic bids it looked
    up, between its arrival and its end, explain the answer, and the one entry given
    to the log says what was answered. *)
Definition traded (s : Server W) (r : Request) (t0 : Time) (tr : list obs) (a : AuctionResponse) : Prop :=
  exists request dynamic bids snapshot t now,
    auction_input r = Some request /\ t0 <= t <= now /\ now <= last_time tr
    /\ ObsGet (req_PlacementID request) t bids snapshot ∈ tr /\ ready_at s request t0 t dynamic tr
    /\ readable (req_PlacementID request) t bids snapshot /\ looked (configured_ids s) request dynamic
    /\ answer_ok request (time_Unix now) (candidates_of bids dynamic) a
    /\ (rsp_Bid a <> None -> ss_Found snapshot = true /\ ss_Stale snapshot && ss_RejectStale snapshot = false)
    /\ rsp_PricingModel a = pol_PricingModel (au_policy (sv_auctioneer s))
    /\ match sv_decisionLogger s with
       | None => logged tr = []
       | Some _ => exists entry ok, logged tr = [(entry, Recorded ok)] /\ logs (req_PlacementID request) a entry
       end.

(** What a finished handler has done. *)
Definition answered (s : Server W) (r : Request) (t0 : Time) (tr : list obs) (o : option Response) : Prop :=
  match o with
  | None => existsb is_panic (logged tr) = true
  | Some resp =>
      counts tr = ones (increments r resp ++ [existsb is_drop (logged tr)])
      /\ match generated_id r resp with
         | Some id => exists n, numbers tr = [n] /\ id = made_up n
         | None => numbers tr = []
         end
      /\ match answer_of resp with Some a => traded s r t0 tr a | None => logged tr = [] end
  end.

(** More observations, but only of the clock. *)
Definition later (tr tr2 : list obs) : Prop :=
  last_time tr <= last_time tr2 /\ counts tr2 = counts tr /\ numbers tr2 = numbers tr /\ logged tr2 = logged tr
  /\ tr ⊆ tr2.

Ltac grows := solve [repeat (apply list_subseteq_cons); (reflexivity || assumption)].

Lemma later_time tr t : last_time tr <= t -> later tr (ObsTime t :: tr).
Proof. intros. split_and!; try done. grows. Qed.
Lemma later_lookup tr request t bids : last_time tr <= t -> later tr (ObsLookup request t bids :: tr).
Proof. intros. split_and!; try done. grows. Qed.
Lemma later_get tr placement t bids snapshot : last_time tr <= t -> later tr (ObsGet placement t bids snapshot :: tr).
Proof. intros. split_and!; try done. grows. Qed.

Lemma later_trans tr tr2 tr3 : later tr tr2 -> later tr2 tr3 -> later tr tr3.
Proof. unfold later. intros (? & ? & ? & ? & ?) (? & ? & ? & ? & ?). split_and!; [lia|congruence..|by etrans]. Qed.

Lemma wp_dynamic ids Q s request k tr :
  (forall dynamic tr2, looked ids request dynamic -> later tr tr2 ->
     ready_at s request (last_time tr) (last_time tr2) dynamic tr2 -> wp ids Q (k dynamic) tr2) ->
  wp ids Q (dynamic_prog (W := W) s request k) tr.
Proof.
  intros Hk. unfold dynamic_prog, ready_at in *. destruct (sv_bidderEngine s).
  - intros t bids Ht Hlook. apply Hk; [done|by apply later_lookup|]. exists t. split; [simpl; lia|by left].
  - apply Hk; [by exists request|split_and!; done || lia|done].
Qed.

Lemma ready_at_later (s : Server W) request t0 t0' t t' dynamic tr tr2 :
  t0' <= t0 -> t <= t' -> tr ⊆ tr2 -> ready_at s request t0 t dynamic tr -> ready_at s request t0' t' dynamic tr2.
Proof.
  unfold ready_at. destruct (sv_bidderEngine s); [|done]. intros Ht0 Ht Hsub (t1 & H1 & H2). exists t1. split; [lia|by apply Hsub].
Qed.

Lemma run_decision_read a request dynamic t now c bids snapshot :
  BidCache_Get (req_PlacementID request) t c = (bids, snapshot) ->
  (run a request dynamic t now c).2 =
    if negb (ss_Found snapshot) then cold_cache
    else if ss_Stale snapshot && ss_RejectStale snapshot then stale_snapshot snapshot
    else decide_bids a request dynamic bids snapshot now.
Proof.
  intros Hg. unfold run. rewrite Hg. destruct (negb _).
  - by destruct (RefreshAsync _ _).
  - destruct (if ss_Stale snapshot then _ else _) as [c2 go]. by destruct (_ && _).
Qed.

(** The auction of a handler decides as the auctioneer does on the snapshot read. *)
Lemma wp_run ids Q a request dynamic k tr :
  (forall t now c bids snapshot tr2, last_time tr <= t <= now -> cache_ok c ->
     BidCache_Get (req_PlacementID request) t c = (bids, snapshot) -> later tr tr2 -> last_time tr2 = now ->
     ObsGet (req_PlacementID request) t bids snapshot ∈ tr2 ->
     wp ids Q (k (run a request dynamic t now c).2) tr2) ->
  wp ids Q (run_prog a request dynamic k) tr.
Proof.
  intros Hk t bids snapshot Ht (c & Hc & Hg). set (here := ObsGet (req_PlacementID request) t bids snapshot :: tr).
  assert (Hl : later tr here) by (by apply later_get). assert (Hin : ObsGet (req_PlacementID request) t bids snapshot ∈ here) by left.
  assert (Hhere : wp ids Q (k (run a request dynamic t t c).2) here).
  { apply (Hk t t c bids snapshot); [lia|done..]. }
  rewrite (run_decision_read _ _ _ _ _ _ _ _ Hg) in Hhere.
  destruct (ss_Found snapshot) eqn:Ef; simpl negb in *; cbv iota in *; [|exact Hhere].
  assert (Hrest : wp ids Q
    (if ss_Stale snapshot && ss_RejectStale snapshot then k (stale_snapshot snapshot)
     else Now (fun now => k (decide_bids a request dynamic bids snapshot now))) here).
  { destruct (_ && _) eqn:Er; [exact Hhere|]. intros now Hnow. cbn [last_time here] in Hnow.
    pose proof (Hk t now c bids snapshot (ObsTime now :: here)) as Hx.
    rewrite (run_decision_read _ _ _ _ _ _ _ _ Hg), Ef, Er in Hx. apply Hx; [lia|done|done| |done|by right].
    eapply later_trans; [exact Hl|by apply later_time]. }
  by destruct (ss_Stale snapshot).
Qed.

Lemma wp_requestID ids Q r k tr :
  (rq_header r "X-Request-ID" <> "" -> wp ids Q (k (rq_header r "X-Request-ID")) tr) ->
  (rq_header r "X-Request-ID" = "" -> forall n, wp ids Q (k (made_up n)) (ObsNumber n :: tr)) ->
  wp ids Q (requestID_prog r k) tr.
Proof.
  intros H1 H2. unfold requestID_prog. destruct (String.eqb_spec (rq_header r "X-Request-ID") "") as [He|He];
    [exact (H2 He)|exact (H1 He)].
Qed.

(** The record of a decision: [k] continues with the new observations. *)
Lemma wp_recordDecision ids Q s id placement d k tr :
  (sv_decisionLogger s = None -> wp ids Q (k true) tr) ->
  (sv_decisionLogger s <> None -> let entry := log_entry (sv_auctioneer s) id placement d in
     wp ids Q (k true) (ObsLog entry (Recorded true) :: tr)
     /\ wp ids Q (k true) (ObsCount (only 11) :: ObsLog entry (Recorded false) :: tr)
     /\ wp ids Q (k false) (ObsLog entry SendOnClosedChannel :: tr)) ->
  wp ids Q (recordDecision_prog (W := W) s id placement d k) tr.
Proof.
  intros H1 H2. unfold recordDecision_prog. destruct (sv_decisionLogger s) as [l|]; [|by apply H1].
  destruct (H2 ltac:(done)) as (Ht & Hd & Hp). intros [[]|]; simpl; try done. exists (only 11). auto with ads.
Qed.
(** What an answered auction is worth. *)
Lemma auction_worth r a resp filled dropped :
  route (rq_method r) (rq_path r) = ToAuction -> answer_of resp = Some a -> rs_status resp = StatusOK ->
  String.eqb (rsp_Status a) "filled" = filled ->
  ones (increments r resp ++ [dropped]) =
    zip_with Z.add (zip_with Z.add (zip_with Z.add (replicate 12 0) (ones (answer_weights a)))
      (if dropped then ones (only 11) else replicate 12 0)) (ones (record_weights filled)).
Proof.
  intros Hr Ha Hs Hf. unfold increments, mutates, answer_is, answer_weights. rewrite Hr, Ha, Hs, Hf.
  generalize (rsp_ServedStale a), (String.eqb (rsp_NoBidReason a) "stale_snapshot"), (negb (String.eqb (rsp_DynamicBidderID a) "")).
  by intros [] [] []; destruct filled, dropped.
Qed.

Lemma add_zeros l : length l = 12%nat -> zip_with Z.add l (replicate 12 0) = l.
Proof.
  intros Hl. do 12 (destruct l as [|? l]; [done|]). destruct l; [|done]. simpl. by rewrite !Z.add_0_r.
Qed.

(** From the decision to the end of the handler. *)
Lemma wp_report s r t0 request dynamic bids snapshot t now c id latency started tr :
  auctioneer_ok (sv_auctioneer s) -> route (rq_method r) (rq_path r) = ToAuction ->
  auction_input r = Some request -> t0 <= t <= now -> now <= last_time tr ->
  cache_ok c -> BidCache_Get (req_PlacementID request) t c = (bids, snapshot) -> looked (configured_ids s) request dynamic ->
  ObsGet (req_PlacementID request) t bids snapshot ∈ tr -> ready_at s request t0 t dynamic tr ->
  let d := (run (sv_auctioneer s) request dynamic t now c).2 in
  let a := auction_response (sv_auctioneer s) id latency d in
  counts tr = replicate 12 0 -> logged tr = [] ->
  (if String.eqb (rq_header r "X-Request-ID") "" then exists n, numbers tr = [n] /\ id = made_up n else numbers tr = []) ->
  wp (configured_ids s) (answered s r t0)
    (Count (count_decision d) (
     recordDecision_prog s id (req_PlacementID request) d (fun ok =>
     Now (fun finished =>
     Count (RecordAuction (AuctionDecision_Filled d) latency (Microseconds (time_Sub finished started)))
       (if ok : bool then reply (writeJSON StatusOK (JSONAuction a)) else Panic))))) tr.
Proof.
  intros Ha Hroute Hin Ht Hnow Hc Hg Hlook Hget Hready d a Hcount Hlog Hnum.
  pose proof (run_decision_read (sv_auctioneer s) request dynamic t now c bids snapshot Hg) as Hread.
  destruct (run (sv_auctioneer s) request dynamic t now c) as [[c2 go] d'] eqn:Er. simpl in d, Hread.
  destruct (decision_views _ _ _ _ _ _ _ _ _ id latency Ha (auction_input_valid _ _ Hin) Er)
    as (Hok & Hlogs & Hcd & Hfill & Hrid & Hpm & _). rewrite Hg in Hok. fold d a in Hok, Hlogs, Hcd, Hfill, Hrid, Hpm.
  assert (Hend : forall tr2 dropped, tr ⊆ tr2 -> now <= last_time tr2 -> numbers tr2 = numbers tr ->
    counts tr2 = zip_with Z.add (zip_with Z.add (replicate 12 0) (ones (answer_weights a)))
      (if dropped : bool then ones (only 11) else replicate 12 0) ->
    existsb is_drop (logged tr2) = dropped ->
    match sv_decisionLogger s with
    | None => logged tr2 = []
    | Some _ => exists entry ok, logged tr2 = [(entry, Recorded ok)] /\ logs (req_PlacementID request) a entry
    end ->
    wp (configured_ids s) (answered s r t0)
      (Now (fun finished => Count (RecordAuction (AuctionDecision_Filled d) latency (Microseconds (time_Sub finished started)))
        (reply (writeJSON StatusOK (JSONAuction a))))) tr2).
  { intros tr2 dropped Hsub Hlt Hn2 Hc2 Hd2 Hl2 fin Hfin. exists (record_weights (AuctionDecision_Filled d)).
    split; [apply weighs_record|]. unfold reply. cbn [wp answered]. split_and!.
    - rewrite counts_count. change (counts (ObsTime fin :: tr2)) with (counts tr2). rewrite Hc2.
      symmetry. etrans; [by apply (auction_worth r a _ (AuctionDecision_Filled d))|].
      change (logged (ObsCount _ :: _)) with (logged tr2). by rewrite Hd2.
    - unfold generated_id. simpl answer_of. change (numbers (ObsCount _ :: _)) with (numbers tr2). rewrite Hn2.
      destruct (String.eqb _ _); [|done]. simpl. by rewrite Hrid.
    - simpl answer_of. exists request, dynamic, bids, snapshot, t, now.
      assert (Hsub3 : tr ⊆ ObsCount (record_weights (AuctionDecision_Filled d)) :: ObsTime fin :: tr2) by grows.
      split_and!; [done|lia..|cbn [last_time]; lia|by apply Hsub3|by eapply ready_at_later|by exists c|done|done| |done|done].
      intros Hb. unfold a, d in Hb. rewrite Hread in Hb.
      destruct (ss_Found snapshot); [|by simpl in Hb]. simpl in Hb. by destruct (ss_Stale snapshot && ss_RejectStale snapshot). }
  assert (Hbase : counts (ObsCount (answer_weights a) :: tr) = zip_with Z.add (replicate 12 0) (ones (answer_weights a)))
    by (rewrite counts_count; by rewrite Hcount).
  exists (answer_weights a). split; [by apply weighs_decision|]. apply wp_recordDecision.
  - intros Hno. apply (Hend _ false); [grows|done|done|by rewrite Hbase, add_zeros|simpl; by rewrite Hlog|].
    by rewrite Hno.
  - intros Hyes entry. destruct (sv_decisionLogger s); [|done]. split_and!.
    + apply (Hend _ false); [grows|done|done|by rewrite counts_log, Hbase, add_zeros|by rewrite logged_log, logged_count, Hlog|].
      exists entry, true. split; [by rewrite logged_log, logged_count, Hlog|done].
    + apply (Hend _ true); [grows|done|done|by rewrite counts_count, counts_log, Hbase|by rewrite logged_count, logged_log, logged_count, Hlog|].
      exists entry, false. split; [by rewrite logged_count, logged_log, logged_count, Hlog|done].
    + intros fin Hfin. exists (record_weights (AuctionDecision_Filled d)). split; [apply weighs_record|]. done.
Qed.

(** A reply that is not an auction's, after the counting [tr]. *)
Lemma answered_plain s r t0 tr resp :
  answer_of resp = None -> logged tr = [] -> numbers tr = [] ->
  counts tr = ones (increments r resp ++ [false]) -> answered s r t0 tr (Some (securityHeaders resp)).
Proof.
  intros Ha Hl Hn Hc. unfold answered. rewrite Hl. split_and!; [exact Hc| |].
  - unfold generated_id. change (answer_of (securityHeaders resp)) with (answer_of resp). rewrite Ha.
    by destruct (String.eqb _ _).
  - change (answer_of (securityHeaders resp)) with (answer_of resp). by rewrite Ha.
Qed.

Lemma wp_reply s r t0 tr resp :
  answer_of resp = None -> logged tr = [] -> numbers tr = [] ->
  counts tr = ones (increments r resp ++ [false]) -> wp (configured_ids s) (answered s r t0) (reply resp) tr.
Proof. by apply answered_plain. Qed.

(** Closes a reply that is not an auction's by weighing it. *)
Ltac plain := apply wp_reply; [done..|]; unfold increments, mutates;
  repeat match goal with H : ?x = _ |- context [?x] => rewrite H end; done.

Lemma wp_auction s r t0 :
  auctioneer_ok (sv_auctioneer s) -> route (rq_method r) (rq_path r) = ToAuction ->
  wp (configured_ids s) (answered s r t0) (auction_prog s r) [ObsTime t0].
Proof.
  intros Ha Hroute started Hst. cbn [last_time] in Hst.
  assert (Hinvalid : wp (configured_ids s) (answered s r t0)
    (Count bad_request (reply (error_response StatusBadRequest "invalid auction request"))) [ObsTime started; ObsTime t0]).
  { eapply wp_count; [auto with ads|]. plain. }
  destruct (decodeJSON Decode_AuctionRequest r) as [request|] eqn:Ed; [|exact Hinvalid].
  destruct (AuctionRequest_Validate request) eqn:Ev; [exact Hinvalid|]. clear Hinvalid.
  assert (Hin : auction_input r = Some request) by (unfold auction_input; by rewrite Ed, Ev).
  intros sel Hsel. cbn [last_time] in Hsel. apply wp_dynamic. intros dynamic tr1 Hlook Hl1 Hready. apply wp_run.
  intros t now c bids snapshot tr2 Ht Hc Hg Hl2 Hlast Hget.
  pose proof Hl2 as (_ & _ & _ & _ & Hsub). pose proof Hl1 as (Hle & _). cbn [last_time] in Hle, Hready.
  destruct (later_trans _ _ _ Hl1 Hl2) as (_ & Hcn & Hnm & Hlg & _).
  intros selected Hselected.
  assert (Hnum : forall n, numbers (ObsNumber n :: ObsTime selected :: tr2) = [n]) by (intros n; simpl; by rewrite Hnm).
  apply wp_requestID; [intros Hid|intros Hid n];
    apply (wp_report s r t0 request dynamic bids snapshot t now c); try done; try (cbn [last_time]; lia);
    try (apply list_elem_of_further; try apply list_elem_of_further; exact Hget);
    try (eapply ready_at_later; [| | |exact Hready]; [lia|lia|grows]).
  - apply String.eqb_neq in Hid. by rewrite Hid.
  - rewrite Hid. simpl. exists n. by rewrite Hnm.
Qed.

Lemma wp_upsert s r id t0 :
  route (rq_method r) (rq_path r) = ToUpsertBid id ->
  wp (configured_ids s) (answered s r t0) (upsertBid_prog s (SetPathValue id r)) [ObsTime t0].
Proof.
  intros Hroute. unfold upsertBid_prog.
  destruct (authorized _ _); [|plain].
  cbn [negb]. cbv zeta.
  assert (Hinvalid : wp (configured_ids s) (answered s r t0)
    (Count bad_request (reply (error_response StatusBadRequest "invalid bid or bid id"))) [ObsTime t0]).
  { eapply wp_count; [auto with ads|]. plain. }
  destruct (decodeJSON Decode_Bid _) as [b|] eqn:Ed; [|exact Hinvalid].
  case_test; [exact Hinvalid|]. eapply wp_count; [auto with ads|]. split.
  { unfold decodeJSON in Ed. destruct (_ <? _); [done|]. destruct (Decode_Bid _) as [[b' rest]|] eqn:Eb; [|done].
    destruct (string_forall _ _); [|done]. injection Ed as <-. by eapply decoded_sound. }
  intros [e|].
  - eapply wp_count; [auto with ads|].
    destruct (is_stale_error e); plain.
  - plain.
Qed.

Lemma wp_delete s r id t0 :
  route (rq_method r) (rq_path r) = ToDeleteBid id ->
  wp (configured_ids s) (answered s r t0) (deleteBid_prog s (SetPathValue id r)) [ObsTime t0].
Proof.
  intros Hroute. unfold deleteBid_prog.
  destruct (authorized _ _); [|plain].
  cbn [negb]. cbv zeta. change (rq_query (SetPathValue id r)) with (rq_query r).
  destruct (ParseUint (rq_query r "revision")) as [rev|] eqn:Er;
    [|plain].
  eapply wp_count; [auto with ads|]. split; [by eapply ParseUint_range|]. intros [e|].
  - eapply wp_count; [auto with ads|].
    destruct (is_stale_error e); plain.
  - plain.
Qed.

Lemma wp_ready s r t0 :
  route (rq_method r) (rq_path r) = ToReady ->
  wp (configured_ids s) (answered s r t0) ready_prog [ObsTime t0].
Proof.
  intros Hroute. eapply wp_count; [auto with ads|]. intros [e|].
  - eapply wp_count; [auto with ads|]. plain.
  - plain.
Qed.

(** Every handler answers as it should, whatever the others do. *)
Lemma wp_Handler s r t0 :
  auctioneer_ok (sv_auctioneer s) ->
  wp (configured_ids s) (answered s r t0) (Handler_prog s r) [ObsTime t0].
Proof.
  intros Ha. unfold Handler_prog. destruct (route (rq_method r) (rq_path r)) eqn:Hroute.
  - by apply wp_auction.
  - by apply wp_upsert.
  - by apply wp_delete.
  - plain.
  - by apply wp_ready.
  - intros resp Hn Hst. apply answered_plain; [done..|]. unfold increments, mutates, answer_is. by rewrite Hroute, Hn, Hst.
  - plain.
  - plain.
Qed.
End answers.
