(* ===== verification/System.v ===== *)
(** * The running server

    The whole process as one step relation: the handlers of [Handlers], the refresh
    goroutines of the cache and of the bidder engine with their workers, the writer of
    the decision log, the reconciliation ticker, the subscription, the writes of other
    servers, and time, interleaved at their atomic steps. A step of the system is made
    of the steps of the components, so every execution projects to one of each. *)

From S2P Require Import Prelude GoInt GoTime GoString GoParse Types Ranking DynamicBids Store BidStore Cache CacheRun.
From S2P Require Import Auction Engine EngineInv DecisionLog Metrics Config Server Handlers.
Open Scope string_scope.
Open Scope list_scope.
Open Scope Z_scope.

Section system.
Context {W : Type} `{BidStore W}.

(** A handler, with the request it serves and the time it was started at. *)
Record handler := mkHandler { h_request : Request; h_arrived : Time; h_prog : prog }.

Record system := mkSystem {
  sy_server : Server W;
  sy_now : Time;
  sy_refreshes : gmap nat thread;        (* the goroutines of the cache *)
  sy_triggers : gmap nat refresher;      (* the calls of [Trigger] and the refreshes they start *)
  sy_handlers : gmap nat handler
}.

(** ** The components' views *)

Definition cache_view (sy : system) : CacheRun.state W :=
  CacheRun.mkState (sv_cache (sy_server sy)) (sv_store (sy_server sy)) (sy_now sy) (sy_refreshes sy).

Definition engine_view (sy : system) : option engine_state :=
  match sv_bidderEngine (sy_server sy) with
  | Some e => Some (mkEngineState e (sy_now sy) (sy_triggers sy))
  | None => None
  end.

Definition put_cache (st : CacheRun.state W) (sy : system) : system :=
  {| sy with sy_server := {| (sy_server sy) with sv_cache := st_cache st; sv_store := st_world st |};
             sy_refreshes := st_threads st |}.

Definition put_engine (st : engine_state) (sy : system) : system :=
  {| sy with sy_server := {| (sy_server sy) with sv_bidderEngine := Some (en_engine st) |};
             sy_triggers := en_threads st |}.

Definition do_cache (ev : CacheRun.event) (sy : system) : option system :=
  match CacheRun.exec ev (cache_view sy) with Some st => Some (put_cache st sy) | None => None end.

Definition do_engine (ev : engine_event) (sy : system) : option system :=
  match engine_view sy with
  | None => None
  | Some st => match engine_exec ev st with Some st => Some (put_engine st sy) | None => None end
  end.

(** [f] on the decision log; [None] when there is none or [f] fails. *)
Definition do_log (f : DecisionLogger -> option DecisionLogger) (sy : system) : option system :=
  match sv_decisionLogger (sy_server sy) with
  | None => None
  | Some d =>
      match f d with
      | Some d => Some {| sy with sy_server := {| (sy_server sy) with sv_decisionLogger := Some d |} |}
      | None => None
      end
  end.

Definition on_server (f : Server W -> Server W) (sy : system) : system := {| sy with sy_server := f (sy_server sy) |}.

(** Whether the trigger [tid] is still a step of the handler that called it. *)
Definition in_trigger (tid : nat) (sy : system) : bool :=
  match sy_triggers sy !! tid with
  | Some r => match rf_phase r with Missed | Marked | Skipping => true | _ => false end
  | None => false
  end.

(** ** A step of a handler *)

(** [tid] names the goroutine the step may start. *)
Definition handler_step (tid : nat) (p : prog) (sy : system) : option (prog * system) :=
  match p with
  | Return _ | Panic => None
  | Now k => Some (k (sy_now sy), sy)
  | DoLookup request k =>
      match engine_view sy, do_engine (XLookup request) sy with
      | Some st, Some sy2 => Some (k (default [] (Lookup request (sy_now sy) (en_engine st)).2), sy2)
      | _, _ => None
      end
  | DoTrigger request k =>
      match do_engine (XTrigger tid request) sy with
      | Some sy2 => Some (if in_trigger tid sy2 then InTrigger tid k else k, sy2)
      | None => None
      end
  | InTrigger tid k =>
      match do_engine (XMark tid) sy with
      | Some sy2 => Some (if in_trigger tid sy2 then InTrigger tid k else k, sy2)
      | None => None
      end
  | DoGet placement k =>
      let '(bids, snapshot) := BidCache_Get placement (sy_now sy) (sv_cache (sy_server sy)) in
      Some (k bids snapshot, sy)
  | DoRefreshAsync placement k =>
      match do_cache (EInvalidate tid placement) sy with Some sy2 => Some (k, sy2) | None => None end
  | NextNumber k =>
      let n := counter_add (sv_requestNumber (sy_server sy)) 1 in
      Some (k n, on_server (fun s => {| s with sv_requestNumber := n |}) sy)
  | Count f k => Some (k, on_server (count_metric f) sy)
  | DoRecord entry k =>
      let '(d, result) := Record_entry entry (sv_decisionLogger (sy_server sy)) in
      Some (k result, on_server (fun s => {| s with sv_decisionLogger := d |}) sy)
  | DoUpsert b k =>
      match do_cache (EUpsert b) sy with
      | Some sy2 => Some (k (store_Upsert b (sv_store (sy_server sy))).2, sy2)
      | None => None
      end
  | DoDelete placement id revision k =>
      match do_cache (EDelete placement id revision) sy with
      | Some sy2 => Some (k (store_Delete placement id revision (sv_store (sy_server sy))).2, sy2)
      | None => None
      end
  | DoPing k =>
      match do_cache EPing sy with
      | Some sy2 => Some (k (store_Ping (sv_store (sy_server sy))).2, sy2)
      | None => None
      end
  | Scrape k => Some (k (metricsEndpoint (sy_server sy)), sy)
  end.

(** ** Executions *)

(** [YCache]: a write of another server, an invalidation message, the ticker, or a
    step of a goroutine of the cache. [YEngine]: a step of a refresh of the engine,
    or its cancellation. *)
Inductive sys_event :=
  | YArrive (h : nat) (r : Request)
  | YHandler (h tid : nat)
  | YCache (ev : CacheRun.event)
  | YEngine (ev : engine_event)
  | YLogWrite
  | YLogClose
  | YTime (now : Time).

(** The events of the engine no handler takes part in. *)
Definition background (ev : engine_event) : bool :=
  match ev with XLookup _ | XTrigger _ _ | XMark _ | XTime _ => false | _ => true end.

Definition sys_exec (ev : sys_event) (sy : system) : option system :=
  match ev with
  | YArrive h r =>
      match sy_handlers sy !! h with
      | Some _ => None
      | None => Some {| sy with sy_handlers := <[h := mkHandler r (sy_now sy) (Handler_prog (sy_server sy) r)]> (sy_handlers sy) |}
      end
  | YHandler h tid =>
      match sy_handlers sy !! h with
      | None => None
      | Some hd =>
          match handler_step tid (h_prog hd) sy with
          | None => None
          | Some (p, sy) => Some {| sy with sy_handlers := <[h := {| hd with h_prog := p |}]> (sy_handlers sy) |}
          end
      end
  | YCache ev => match ev with ETime _ => None | _ => do_cache ev sy end
  | YEngine ev => if background ev then do_engine ev sy else None
  | YLogWrite => do_log run_step sy
  | YLogClose => do_log (fun d => Some (Close_begin d)) sy
  | YTime now => if sy_now sy <=? now then Some {| sy with sy_now := now |} else None
  end.

Fixpoint sys_exec_all (evs : list sys_event) (sy : system) : option system :=
  match evs with
  | [] => Some sy
  | ev :: evs => match sys_exec ev sy with Some sy => sys_exec_all evs sy | None => None end
  end.

Lemma sys_exec_all_app evs evs2 sy sy2 :
  sys_exec_all evs sy = Some sy2 -> sys_exec_all (evs ++ evs2) sy = sys_exec_all evs2 sy2.
Proof.
  revert sy. induction evs as [|ev evs IH]; intros sy; simpl; [by intros [= <-]|].
  destruct (sys_exec ev sy) as [sy1|]; [apply IH|done].
Qed.

(** A server that has not served anything. *)
Definition boot (s : Server W) (now : Time) : system := mkSystem s now ∅ ∅ ∅.
End system.

Arguments system W : clear implicits.
