(* ===== verification/SystemInv.v ===== *)
(** * Invariants of the running server

    Every step of the system is a sequence of steps of each component, so what holds
    of the cache under concurrency, of the bidder engine and of the decision log holds
    of them inside the server; and the counters, the request IDs and the log account
    for what the handlers have done so far. *)

From S2P Require Import Prelude GoInt Utf8 Json JsonCodec.
From S2P Require Import Prelude GoInt GoTime GoString GoParse Types Ranking DynamicBids Store BidStore Cache CacheRun.
From S2P Require Import Auction AuctionProps Engine EngineInv EngineProps DecisionLog Metrics Config Server ServerProps.
From S2P Require Import Handlers HandlerSpec System.
Open Scope string_scope.
Open Scope list_scope.
Open Scope Z_scope.

(** ** Components inside the system *)

(** What never changes once a server runs. *)
Definition settings {W} (s : Server W) :=
  (sv_config s, sv_auctioneer s, static <$> sv_bidderEngine s, match sv_decisionLogger s with Some _ => true | None => false end).

Lemma settings_ids {W} (s s2 : Server W) : settings s = settings s2 -> configured_ids s = configured_ids s2.
Proof.
  unfold settings, configured_ids, bidder_ids. intros [= _ _ He _].
  destruct (sv_bidderEngine s), (sv_bidderEngine s2); simpl in He; congruence.
Qed.

Definition engine_steps (o o2 : option engine_state) : Prop :=
  match o, o2 with Some st, Some st2 => rtc engine_step st st2 | None, None => True | _, _ => False end.

Definition log_steps (o o2 : option DecisionLogger) : Prop :=
  match o, o2 with
  | Some d, Some d2 => exists evs, log_run evs d = Some d2
  | None, None => True
  | _, _ => False
  end.

#[export] Instance engine_steps_preorder : PreOrder engine_steps.
Proof.
  split; [by intros [st|]; simpl|]. intros [a|] [b|] [c|]; simpl; try done. intros ??; by etrans.
Qed.

Lemma log_run_app evs evs2 d d2 : log_run evs d = Some d2 -> log_run (evs ++ evs2) d = log_run evs2 d2.
Proof.
  revert d. induction evs as [|ev evs IH]; intros d; simpl; [by intros [= <-]|].
  destruct (log_step ev d); [apply IH|done].
Qed.

#[export] Instance log_steps_preorder : PreOrder log_steps.
Proof.
  split; [intros [d|]; simpl; [by exists []|done]|]. intros [a|] [b|] [c|]; simpl; try done.
  intros (evs & H1) (evs2 & H2). exists (evs ++ evs2). by rewrite (log_run_app _ _ _ _ H1).
Qed.

Section views.
Context {W : Type} `{HL : BidStoreLaws W}.

(** An execution of the system, as the components see it. *)
Record simulates (sy sy2 : system W) : Prop := {
  sm_cache : rtc CacheRun.step (cache_view sy) (cache_view sy2);
  sm_engine : engine_steps (engine_view sy) (engine_view sy2);
  sm_log : log_steps (sv_decisionLogger (sy_server sy)) (sv_decisionLogger (sy_server sy2))
}.

#[export] Instance simulates_preorder : PreOrder simulates.
Proof.
  split; [intros sy; by split|]. intros a b c [H1 H2 H3] [H4 H5 H6]. split; by etrans.
Qed.

(** What an operation of one component leaves alone. *)
Definition frame (sy sy2 : system W) : Prop :=
  sy_now sy2 = sy_now sy /\ sy_handlers sy2 = sy_handlers sy /\ settings (sy_server sy2) = settings (sy_server sy)
  /\ sv_metrics (sy_server sy2) = sv_metrics (sy_server sy)
  /\ sv_requestNumber (sy_server sy2) = sv_requestNumber (sy_server sy)
  /\ sv_decisionLogger (sy_server sy2) = sv_decisionLogger (sy_server sy).

Definition timed (ev : CacheRun.event) : bool := match ev with ETime _ => true | _ => false end.

Lemma exec_now ev (st st2 : CacheRun.state W) : timed ev = false -> CacheRun.exec ev st = Some st2 -> st_now st2 = st_now st.
Proof.
  intros Ht Hx. destruct ev; simpl in Hx; try done; try (by injection Hx as <-).
  - destruct (st_threads st !! tid); [done|]. destruct (RefreshAsync _ _). by injection Hx as <-.
  - destruct (st_threads st !! tid); [done|]. by injection Hx as <-.
  - destruct (st_threads st !! tid); [|done]. destruct (thread_step _ _ _ _) as [[? ?] ?]. by injection Hx as <-.
Qed.

Lemma do_cache_exec ev (sy sy2 : system W) :
  timed ev = false -> do_cache ev sy = Some sy2 -> CacheRun.exec ev (cache_view sy) = Some (cache_view sy2).
Proof.
  intros Ht. unfold do_cache. destruct (CacheRun.exec ev (cache_view sy)) as [st|] eqn:Ex; [|done]. intros [= <-].
  pose proof (exec_now _ _ _ Ht Ex) as Hn. destruct st. simpl in Hn. unfold cache_view. simpl. by rewrite Hn.
Qed.

Lemma do_cache_ok ev (sy sy2 : system W) :
  timed ev = false -> event_ok ev -> do_cache ev sy = Some sy2 -> simulates sy sy2 /\ frame sy sy2.
Proof.
  intros Ht Hev Hd. assert (Hs : step (cache_view sy) (cache_view sy2)) by (exists ev; split; [done|by apply do_cache_exec]).
  unfold do_cache in Hd. destruct (CacheRun.exec ev (cache_view sy)) as [st|]; [|done]. injection Hd as <-. split; [|done].
  split; [by apply rtc_once|by unfold engine_view; simpl; destruct (sv_bidderEngine _)|simpl; reflexivity].
Qed.

Definition engine_timed (ev : engine_event) : bool := match ev with XTime _ => true | _ => false end.

Lemma do_engine_ok ev (sy sy2 : system W) :
  engine_timed ev = false -> engine_event_ok ev -> (forall st, engine_view sy = Some st -> engine_inv st) ->
  do_engine ev sy = Some sy2 -> simulates sy sy2 /\ frame sy sy2.
Proof.
  intros Ht Hev Hinv. unfold do_engine. destruct (engine_view sy) as [st|] eqn:Ev; [|done].
  destruct (engine_exec ev st) as [st2|] eqn:Ex; [|done]. intros [= <-].
  destruct (engine_exec_frame _ _ _ (Hinv st eq_refl) Hev Ex) as (Hs & Hn & _).
  assert (Hn2 : en_now st2 = en_now st) by (by destruct ev). clear Hn.
  unfold engine_view in Ev. destruct (sv_bidderEngine (sy_server sy)) as [e|] eqn:Ee; [|done]. injection Ev as <-.
  simpl in Hs, Hn2. split.
  - split; [done| |simpl; reflexivity]. unfold engine_view. simpl. rewrite Ee. apply rtc_once. exists ev. split; [done|].
    rewrite Ex. destruct st2. simpl in *. by rewrite Hn2.
  - unfold frame, settings. simpl. rewrite Ee. simpl. by rewrite Hs.
Qed.

Lemma do_log_ok ev f (sy sy2 : system W) :
  (forall d, f d = log_step ev d) -> do_log f sy = Some sy2 ->
  simulates sy sy2 /\ sy_now sy2 = sy_now sy /\ sy_handlers sy2 = sy_handlers sy
  /\ settings (sy_server sy2) = settings (sy_server sy) /\ sv_metrics (sy_server sy2) = sv_metrics (sy_server sy)
  /\ sv_requestNumber (sy_server sy2) = sv_requestNumber (sy_server sy).
Proof.
  intros Hf. unfold do_log. destruct (sv_decisionLogger (sy_server sy)) as [d|] eqn:Ed; [|done].
  destruct (f d) as [d2|] eqn:Ef; [|done]. intros [= <-]. split.
  - split; [done|by unfold engine_view; simpl; destruct (sv_bidderEngine _)|]. simpl. rewrite Ed. exists [ev]. simpl.
    by rewrite <- Hf, Ef.
  - unfold settings. simpl. by rewrite Ed.
Qed.
End views.

(** ** One step of a handler *)

Section handler_steps.
Context {W : Type} `{HL : BidStoreLaws W}.

(** What a step of a handler does to what is accounted, next to what it observes. *)
Record accounted (tr tr2 : list obs) (sy sy2 : system W) : Prop := {
  ac_gauges : gauges (sv_metrics (sy_server sy2)) = gauges (sv_metrics (sy_server sy)) /\ counts tr2 = counts tr
    \/ exists w, length w = 12%nat /\ counts tr2 = zip_with Z.add (counts tr) (ones w)
         /\ gauges (sv_metrics (sy_server sy2)) = zip_with bump (gauges (sv_metrics (sy_server sy))) w;
  ac_number : sv_requestNumber (sy_server sy2) = sv_requestNumber (sy_server sy) /\ numbers tr2 = numbers tr
    \/ sv_requestNumber (sy_server sy2) = counter_add (sv_requestNumber (sy_server sy)) 1
         /\ numbers tr2 = sv_requestNumber (sy_server sy2) :: numbers tr;
  ac_log : sv_decisionLogger (sy_server sy2) = sv_decisionLogger (sy_server sy) /\ logged tr2 = logged tr
    \/ exists entry result, logged tr2 = (entry, result) :: logged tr
         /\ Record_entry entry (sv_decisionLogger (sy_server sy)) = (sv_decisionLogger (sy_server sy2), result)
}.

(** An operation that is not accounted. *)
Lemma accounted_frame tr tr2 (sy sy2 : system W) :
  frame sy sy2 -> counts tr2 = counts tr -> numbers tr2 = numbers tr -> logged tr2 = logged tr -> accounted tr tr2 sy sy2.
Proof. intros (_ & _ & _ & Hm & Hn & Hl) ???. split; left; by rewrite ?Hm, ?Hn, ?Hl. Qed.

Lemma frame_refl (sy : system W) : frame sy sy.
Proof. done. Qed.

(** What every state of the system guarantees the operations of a handler. *)
Record answers_ok (sy : system W) : Prop := {
  an_cache : cache_ok (sv_cache (sy_server sy));
  an_engine st : engine_view sy = Some st -> engine_inv st
}.

(** The bids the engine has ready for a request; none without an engine. *)
Definition ready_bids (request : AuctionRequest) (sy : system W) : list DynamicBid :=
  match engine_view sy with
  | Some st => default [] (Lookup request (sy_now sy) (en_engine st)).2
  | None => []
  end.

(** What a handler says it has read is what there is to read in [sy]. *)
Definition true_now (sy : system W) (o : obs) : Prop :=
  match o with
  | ObsGet p t bids snapshot => t = sy_now sy /\ BidCache_Get p t (sv_cache (sy_server sy)) = (bids, snapshot)
  | ObsLookup request t bids => t = sy_now sy /\ bids = ready_bids request sy
  | _ => True
  end.

(** The new observations of a step taken in [sy]. *)
Definition observes (tr tr2 : list obs) (sy : system W) : Prop := forall o, o ∈ tr2 -> o ∈ tr \/ true_now sy o.

Lemma observes_refl tr (sy : system W) : observes tr tr sy.
Proof. by left. Qed.

Lemma observes_cons tr (sy : system W) o : true_now sy o -> observes tr (o :: tr) sy.
Proof. intros Ht o' [->|Hin]%elem_of_cons; [by right|by left]. Qed.

Lemma Lookup_looked (sy : system W) st request :
  engine_view sy = Some st -> engine_inv st ->
  looked (configured_ids (sy_server sy)) request (default [] (Lookup request (sy_now sy) (en_engine st)).2).
Proof.
  intros Hv Hinv. assert (Hids : configured_ids (sy_server sy) = bidder_ids (en_engine st)).
  { unfold engine_view, configured_ids in *. destruct (sv_bidderEngine _); [|done]. by injection Hv as <-. }
  rewrite Hids. destruct (Lookup request (sy_now sy) (en_engine st)) as [e [bids|]] eqn:El; simpl; [|by exists request].
  destruct (Lookup_some _ _ _ _ _ El) as (l & He & <- & _).
  destruct (ci_offers _ _ (ei_cache _ Hinv) _ _ He) as (request' & Hk & Ho). by exists request'.
Qed.

Definition stays (sy sy2 : system W) : Prop :=
  simulates sy sy2 /\ sy_now sy2 = sy_now sy /\ sy_handlers sy2 = sy_handlers sy
  /\ settings (sy_server sy2) = settings (sy_server sy).

Lemma stays_refl (sy : system W) : stays sy sy.
Proof. by split_and!. Qed.

Lemma frame_stays (sy sy2 : system W) : simulates sy sy2 /\ frame sy sy2 -> stays sy sy2.
Proof. intros [? (? & ? & ? & _)]. by split_and!. Qed.

(** A change of the metrics or of the request number is invisible to the components. *)
Lemma stays_counters (sy : system W) f :
  (forall s, sv_cache (f s) = sv_cache s /\ sv_store (f s) = sv_store s /\ sv_bidderEngine (f s) = sv_bidderEngine s
     /\ sv_decisionLogger (f s) = sv_decisionLogger s /\ sv_config (f s) = sv_config s /\ sv_auctioneer (f s) = sv_auctioneer s) ->
  stays sy (on_server f sy).
Proof.
  intros Hf. destruct (Hf (sy_server sy)) as (H1 & H2 & H3 & H4 & H5 & H6). split_and!; try done.
  - split; simpl.
    + unfold cache_view. simpl. by rewrite H1, H2.
    + unfold engine_view. simpl. rewrite H3. by destruct (sv_bidderEngine _).
    + by rewrite H4.
  - unfold settings. simpl. by rewrite H3, H4, H5, H6.
Qed.

Lemma record_stays entry (sy : system W) d result :
  Record_entry entry (sv_decisionLogger (sy_server sy)) = (d, result) ->
  stays sy (on_server (fun s => {| s with sv_decisionLogger := d |}) sy).
Proof.
  intros Hr.
  assert (Hd : (match d with Some _ => true | None => false end)
    = match sv_decisionLogger (sy_server sy) with Some _ => true | None => false end).
  { unfold Record_entry in Hr. destruct (sv_decisionLogger _) as [l|]; [|by injection Hr as <- _].
    destruct (dl_closed l); [|destruct (_ <? _)]; by injection Hr as <- _. }
  split_and!; try done.
  - split; [done|unfold engine_view; simpl; by destruct (sv_bidderEngine _)|]. simpl.
    unfold Record_entry in Hr. destruct (sv_decisionLogger _) as [l|] eqn:El; [|by injection Hr as <- _].
    destruct (dl_closed l) eqn:Ec; [injection Hr as <- _; by exists []|].
    destruct (_ <? _) eqn:Ef; injection Hr as <- _; exists [LRecord entry]; simpl; by rewrite Ec, Ef.
  - unfold settings. simpl. by rewrite Hd.
Qed.

Lemma engine_part_ok ev (sy sy2 : system W) tr tr2 : (forall st, engine_view sy = Some st -> engine_inv st) -> engine_timed ev = false -> engine_event_ok ev ->
  do_engine ev sy = Some sy2 -> counts tr2 = counts tr -> numbers tr2 = numbers tr -> logged tr2 = logged tr ->
  stays sy sy2 /\ accounted tr tr2 sy sy2.
Proof.
  intros He H1 H2 Hd. destruct (do_engine_ok _ _ _ H1 H2 He Hd) as [Hsim Hf]. split; [by apply frame_stays|by apply accounted_frame].
Qed.

Lemma cache_part_ok ev (sy sy2 : system W) tr : timed ev = false -> event_ok ev -> do_cache ev sy = Some sy2 ->
  stays sy sy2 /\ accounted tr tr sy sy2.
Proof.
  intros H1 H2 Hd. destruct (do_cache_ok _ _ _ H1 H2 Hd) as [Hsim Hf]. split; [by apply frame_stays|by apply accounted_frame].
Qed.

Lemma handler_step_ok Q tid p tr (sy sy2 : system W) p2 :
  answers_ok sy -> last_time tr <= sy_now sy ->
  wp (configured_ids (sy_server sy)) Q p tr -> handler_step tid p sy = Some (p2, sy2) ->
  exists tr2, wp (configured_ids (sy_server sy)) Q p2 tr2 /\ (last_time tr2 <= sy_now sy /\ observes tr tr2 sy)
  /\ stays sy sy2 /\ accounted tr tr2 sy sy2.
Proof.
  intros [Hc He] Ht Hwp Hs.
  assert (Hquiet : forall tr2, counts tr2 = counts tr -> numbers tr2 = numbers tr -> logged tr2 = logged tr ->
    accounted tr tr2 sy sy) by (intros; by apply accounted_frame).
  pose proof (fun ev sy2 tr2 => engine_part_ok ev sy sy2 tr tr2 He) as Heng.
  assert (Hsame : last_time tr <= sy_now sy /\ observes tr tr sy) by (split; [done|apply observes_refl]).
  assert (Hnew : forall o, last_time (o :: tr) <= sy_now sy -> true_now sy o ->
    last_time (o :: tr) <= sy_now sy /\ observes tr (o :: tr) sy) by (intros; split; [done|by apply observes_cons]).
  destruct p as [resp| |k|request k|request k|tid' k|pl k|pl k|k|f k|entry k|b k|pl id rev k|k|k]; cbn [handler_step] in Hs; try done.
  - injection Hs as <- <-. exists (ObsTime (sy_now sy) :: tr).
    split; [by apply Hwp|split; [by apply Hnew|split; [apply stays_refl|by apply Hquiet]]].
  - destruct (engine_view sy) as [st|] eqn:Ev; [|done].
    destruct (do_engine _ sy) as [sy3|] eqn:Ed; [|done]. injection Hs as <- <-. eexists.
    split; [apply Hwp; [exact Ht|by apply Lookup_looked, He]|]. split; [|by eapply Heng; [| |exact Ed|..]].
    apply Hnew; [done|]. split; [done|]. unfold ready_bids. by rewrite Ev.
  - destruct (do_engine _ sy) as [sy3|] eqn:Ed; [|done]. injection Hs as <- <-. exists tr.
    split; [|split; [done|by eapply Heng; [| |exact Ed|..]]]. by destruct (in_trigger _ _).
  - destruct (do_engine _ sy) as [sy3|] eqn:Ed; [|done]. injection Hs as <- <-. exists tr.
    split; [|split; [done|by eapply Heng; [| |exact Ed|..]]]. by destruct (in_trigger _ _).
  - destruct (BidCache_Get pl (sy_now sy) (sv_cache (sy_server sy))) as [bids snapshot] eqn:Eg. injection Hs as <- <-.
    eexists. split; [apply Hwp; [exact Ht|by eexists]|]. split; [by apply Hnew|split; [apply stays_refl|by apply Hquiet]].
  - destruct (do_cache _ sy) as [sy3|] eqn:Ed; [|done]. injection Hs as <- <-. exists tr.
    split; [done|split; [done|by eapply cache_part_ok; [..|exact Ed]]].
  - injection Hs as <- <-. eexists. split; [apply Hwp|]. split; [by apply Hnew|]. split; [apply stays_counters; by intros|].
    split; [by left|right; by split|by left].
  - injection Hs as <- <-. destruct Hwp as (w & [Hl Hw] & Hk). exists (ObsCount w :: tr).
    split; [done|]. split; [by apply Hnew|]. split; [apply stays_counters; by intros|]. split; [|by left|by left].
    right. exists w. split_and!; [done|done|]. apply Hw.
  - destruct (Record_entry entry _) as [d result] eqn:Er. injection Hs as <- <-. eexists. split; [apply (Hwp result)|].
    split; [by apply Hnew|]. split; [by eapply record_stays|]. split; [by left|by left|]. right. by exists entry, result.
  - destruct Hwp as [Hb Hk]. destruct (do_cache _ sy) as [sy3|] eqn:Ed; [|done]. injection Hs as <- <-. exists tr.
    split; [apply Hk|split; [done|by eapply cache_part_ok; [..|exact Ed]]].
  - destruct Hwp as [Hrev Hk]. destruct (do_cache _ sy) as [sy3|] eqn:Ed; [|done]. injection Hs as <- <-. exists tr.
    split; [apply Hk|split; [done|by eapply cache_part_ok; [..|exact Ed]]].
  - destruct (do_cache _ sy) as [sy3|] eqn:Ed; [|done]. injection Hs as <- <-. exists tr.
    split; [apply Hwp|split; [done|by eapply cache_part_ok; [..|exact Ed]]].
  - injection Hs as <- <-. exists tr.
    split; [by apply Hwp|split; [done|split; [apply stays_refl|by apply Hquiet]]].
Qed.
End handler_steps.

(** ** The invariant *)

(** What the observations of all handlers add up to. *)
Definition total (i : nat) (gs : gmap nat (list obs)) : Z := map_sum (fun tr => counts tr !!! i) gs.
Definition issued (gs : gmap nat (list obs)) : Z := map_sum (fun tr => Z.of_nat (length (numbers tr))) gs.
Definition dropped (gs : gmap nat (list obs)) : Z := map_sum drops gs.

(** The numbers handed out are those from one on, each to one handler, once. *)
Definition numbered (gs : gmap nat (list obs)) : Prop :=
  (forall h tr n, gs !! h = Some tr -> n ∈ numbers tr -> 1 <= n <= issued gs)
  /\ (forall h tr, gs !! h = Some tr -> NoDup (numbers tr))
  /\ (forall h h2 tr tr2 n, gs !! h = Some tr -> gs !! h2 = Some tr2 -> n ∈ numbers tr -> n ∈ numbers tr2 -> h = h2).

(** Every line of the log, written or waiting, is one a handler has recorded. *)
Definition lines_recorded (gs : gmap nat (list obs)) (d : DecisionLogger) : Prop :=
  forall entry, entry ∈ dl_written d ++ dl_entries d ->
    exists h tr, gs !! h = Some tr /\ (entry, Recorded true) ∈ logged tr.

Definition log_accounts (gs : gmap nat (list obs)) (o : option DecisionLogger) : Prop :=
  Dropped o = uint64 (dropped gs)
  /\ (forall d, o = Some d -> logger_ok d /\ lines_recorded gs d
        /\ Z.of_nat (length (dl_written d ++ dl_entries d)) = map_sum kept gs)
  /\ (forall h tr, gs !! h = Some tr -> existsb is_panic (logged tr) = true -> exists d, o = Some d /\ dl_closed d = true).

Lemma issued_nonneg gs : 0 <= issued gs.
Proof. apply map_sum_nonneg. intros. lia. Qed.

(** ** Accounting *)

Lemma total_update i gs h tr tr2 :
  gs !! h = Some tr -> total i (<[h:=tr2]> gs) = total i gs - counts tr !!! i + counts tr2 !!! i.
Proof. intros Hh. unfold total. by rewrite (map_sum_update _ _ _ _ _ Hh). Qed.

Lemma gauges_step gs h tr tr2 (m m2 : Metrics) :
  gs !! h = Some tr -> length (counts tr) = 12%nat ->
  gauges m2 = gauges m /\ counts tr2 = counts tr
    \/ (exists w, length w = 12%nat /\ counts tr2 = zip_with Z.add (counts tr) (ones w)
         /\ gauges m2 = zip_with bump (gauges m) w) ->
  (forall i, (i < 12)%nat -> gauges m !! i = Some (uint64 (total i gs))) ->
  length (counts tr2) = 12%nat
  /\ forall i, (i < 12)%nat -> gauges m2 !! i = Some (uint64 (total i (<[h:=tr2]> gs))).
Proof.
  intros Hh Hl Hac Hg. destruct Hac as [[Hm Hc]|(w & Hlw & Hc & Hm)].
  - rewrite Hm, Hc. split; [done|]. intros i Hi. rewrite (total_update _ _ _ _ _ Hh), Hc, (Hg i Hi). do 2 f_equal. lia.
  - split; [rewrite Hc, length_zip_with; unfold ones; rewrite length_fmap; lia|]. intros i Hi.
    destruct (lookup_lt_is_Some_2 w i ltac:(lia)) as [b Hb].
    destruct (lookup_lt_is_Some_2 (counts tr) i ltac:(lia)) as [x Hx].
    assert (Hc2 : counts tr2 !!! i = counts tr !!! i + (if b then 1 else 0)).
    { rewrite !list_lookup_total_alt, Hc, lookup_zip_with, Hx. unfold ones. rewrite list_lookup_fmap, Hb. done. }
    rewrite (total_update _ _ _ _ _ Hh), Hc2, Hm, lookup_zip_with, (Hg i Hi), Hb. simpl. unfold bump.
    destruct b; [unfold counter_add; rewrite uint64_add_l|]; do 2 f_equal; lia.
Qed.

Lemma issued_update gs h tr tr2 :
  gs !! h = Some tr ->
  issued (<[h:=tr2]> gs) = issued gs - Z.of_nat (length (numbers tr)) + Z.of_nat (length (numbers tr2)).
Proof. intros Hh. unfold issued. by rewrite (map_sum_update _ _ _ _ _ Hh). Qed.

Lemma numbered_same gs h tr tr2 :
  gs !! h = Some tr -> numbers tr2 = numbers tr -> issued (<[h:=tr2]> gs) = issued gs
  /\ (numbered gs -> numbered (<[h:=tr2]> gs)).
Proof.
  intros Hh Hn. assert (He : issued (<[h:=tr2]> gs) = issued gs) by (rewrite (issued_update _ _ _ _ Hh), Hn; lia).
  split; [done|]. intros (Hr & Hd & Hu). unfold numbered. rewrite He.
  assert (Hlook : forall j x, <[h:=tr2]> gs !! j = Some x -> exists y, gs !! j = Some y /\ numbers x = numbers y).
  { intros j x. rewrite lookup_insert. case_decide; [subst; intros [= <-]; eauto|eauto]. }
  split_and!.
  - intros j x n (y & Hy & ->)%Hlook. by apply Hr with j.
  - intros j x (y & Hy & ->)%Hlook. by apply Hd with j.
  - intros j k x x' n (y & Hy & ->)%Hlook (y' & Hy' & ->)%Hlook. intros Hin Hin2. by apply (Hu j k y y' n).
Qed.

Lemma numbered_next gs h tr tr2 :
  gs !! h = Some tr -> issued gs + 1 < 2 ^ 64 -> numbers tr2 = uint64 (issued gs + 1) :: numbers tr ->
  numbered gs -> numbered (<[h:=tr2]> gs).
Proof.
  intros Hh Hlt Hn (Hr & Hd & Hu). pose proof (issued_nonneg gs) as Hpos.
  rewrite uint64_id in Hn by (unfold_int; lia).
  assert (He : issued (<[h:=tr2]> gs) = issued gs + 1) by (rewrite (issued_update _ _ _ _ Hh), Hn; simpl; lia).
  assert (Hnew : forall j x, gs !! j = Some x -> issued gs + 1 ∉ numbers x).
  { intros j x Hj Hin. destruct (Hr j x _ Hj Hin). lia. }
  assert (Hlook : forall j x n, <[h:=tr2]> gs !! j = Some x -> n ∈ numbers x ->
    (j = h /\ n = issued gs + 1) \/ exists y, gs !! j = Some y /\ n ∈ numbers y).
  { intros j x n. rewrite lookup_insert. case_decide as Hd'; [|eauto]. intros [= <-]. rewrite Hn.
    intros [->|Hin]%elem_of_cons; [by left|]. subst. eauto. }
  unfold numbered. rewrite He. split_and!.
  - intros j x n Hj Hin. destruct (Hlook j x n Hj Hin) as [[_ ->]|(y & Hy & Hin2)]; [lia|].
    destruct (Hr j y n Hy Hin2). lia.
  - intros j x. rewrite lookup_insert. case_decide; [|by apply Hd]. intros [= <-]. rewrite Hn.
    apply NoDup_cons. split; [by apply (Hnew h)|by apply (Hd h)].
  - intros j k x x' n Hj Hk Hin Hin'.
    destruct (Hlook j x n Hj Hin) as [[-> ->]|(y & Hy & Hin2)], (Hlook k x' _ Hk Hin') as [[-> He']|(y' & Hy' & Hin2')]; subst.
    + done.
    + by destruct (Hnew k y' Hy').
    + by destruct (Hnew j y Hy).
    + by apply (Hu j k y y' n).
Qed.

Lemma dropped_update gs h tr tr2 : gs !! h = Some tr -> dropped (<[h:=tr2]> gs) = dropped gs - drops tr + drops tr2.
Proof. intros Hh. unfold dropped. by rewrite (map_sum_update _ _ _ _ _ Hh). Qed.

(** More records keep the recorded lines. *)
Lemma lines_recorded_update gs h tr tr2 d :
  gs !! h = Some tr -> (forall x, x ∈ logged tr -> x ∈ logged tr2) -> lines_recorded gs d -> lines_recorded (<[h:=tr2]> gs) d.
Proof.
  intros Hh Hsub Hr entry Hin. destruct (Hr entry Hin) as (j & x & Hj & Hx). exists j.
  destruct (decide (j = h)) as [->|Hne].
  - exists tr2. rewrite lookup_insert_eq. split; [done|]. apply Hsub. congruence.
  - exists x. by rewrite lookup_insert_ne.
Qed.

Lemma log_accounts_same gs h tr tr2 o :
  gs !! h = Some tr -> logged tr2 = logged tr -> log_accounts gs o -> log_accounts (<[h:=tr2]> gs) o.
Proof.
  intros Hh Hl (Hd & Hok & Hp). split_and!.
  - rewrite (dropped_update _ _ _ _ Hh). unfold drops at 1 2. rewrite Hl, Hd. f_equal. lia.
  - intros d He. destruct (Hok d He) as (? & Hr & Hk). split_and!; [done| |].
    + apply (lines_recorded_update _ _ tr); [done| |done]. by rewrite Hl.
    + rewrite Hk, (map_sum_update _ _ _ _ _ Hh). unfold kept at 3 4. rewrite Hl. lia.
  - intros j x. rewrite lookup_insert. case_decide; [|by apply Hp]. intros [= <-]. rewrite Hl. by apply Hp with h.
Qed.

Lemma log_accounts_record gs h tr tr2 o o2 entry result :
  gs !! h = Some tr -> logged tr2 = (entry, result) :: logged tr -> Record_entry entry o = (o2, result) ->
  log_accounts gs o -> log_accounts (<[h:=tr2]> gs) o2.
Proof.
  intros Hh Hl Hrec (Hd & Hok & Hp).
  assert (Hsub : forall x, x ∈ logged tr -> x ∈ logged tr2) by (intros x; rewrite Hl; by right).
  assert (Hdr : dropped (<[h:=tr2]> gs) = dropped gs + (if is_drop (entry, result) then 1 else 0)).
  { rewrite (dropped_update _ _ _ _ Hh). unfold drops at 2. rewrite Hl. simpl List.filter. unfold drops.
    destruct (is_drop _); simpl length; lia. }
  assert (Hkept : map_sum kept (<[h:=tr2]> gs) = map_sum kept gs + (if is_kept (entry, result) then 1 else 0)).
  { rewrite (map_sum_update _ _ _ _ _ Hh). unfold kept at 3. rewrite Hl. simpl List.filter. unfold kept at 2.
    destruct (is_kept _); simpl length; lia. }
  assert (Hpanic : is_panic (entry, result) = false -> forall j x, <[h:=tr2]> gs !! j = Some x ->
    existsb is_panic (logged x) = true -> exists d, o = Some d /\ dl_closed d = true).
  { intros Hn j x. rewrite lookup_insert. case_decide; [|by apply Hp]. intros [= <-]. rewrite Hl. simpl. rewrite Hn. by apply Hp with h. }
  unfold Record_entry in Hrec. destruct o as [d|].
  - destruct (Hok d eq_refl) as (Hd1 & Hlines & Hlen).
    destruct (dl_closed d) eqn:Ec; [|destruct (_ <? _) eqn:Ef]; injection Hrec as <- <-; unfold log_accounts; rewrite Hdr, Hkept.
    + split_and!; [simpl; by rewrite Z.add_0_r| |].
      * intros d' [= <-]. split_and!; [done|by eapply lines_recorded_update|simpl; lia].
      * intros j x Hj Hx. by exists d.
    + assert (Hs : log_step (LRecord entry) d = Some {| d with dl_entries := dl_entries d ++ [entry] |})
        by (simpl; by rewrite Ec, Ef).
      destruct (log_step_effect _ _ _ Hd1 Hs) as (Hd2 & _). rewrite Ec in Hd2. split_and!; [simpl; by rewrite Z.add_0_r| |].
      * intros d' [= <-]. split_and!; [done| |simpl; rewrite app_assoc, length_app; simpl; lia].
        intros e. simpl. rewrite app_assoc, elem_of_app, list_elem_of_singleton.
        intros [Hin| ->]; [by apply (lines_recorded_update _ _ tr _ d Hh Hsub Hlines)|].
        exists h, tr2. rewrite lookup_insert_eq, Hl. split; [done|by left].
      * intros j x Hj Hx. destruct (Hpanic eq_refl j x Hj Hx) as (d' & [= <-] & Hcl). congruence.
    + assert (Hs : log_step (LRecord entry) d = Some {| d with dl_dropped := counter_add (dl_dropped d) 1 |})
        by (simpl; by rewrite Ec, Ef).
      destruct (log_step_effect _ _ _ Hd1 Hs) as (Hd2 & _). rewrite Ec in Hd2. split_and!.
      * simpl in *. unfold counter_add. by rewrite Hd, uint64_add_l.
      * intros d' [= <-]. split_and!; [done|by apply (lines_recorded_update _ _ tr _ d)|simpl in *; lia].
      * intros j x Hj Hx. destruct (Hpanic eq_refl j x Hj Hx) as (d' & [= <-] & Hcl). congruence.
  - injection Hrec as <- <-. unfold log_accounts. rewrite Hdr. split_and!; [simpl in *; by rewrite Z.add_0_r|done|].
    by apply Hpanic.
Qed.

(** A handler that has just arrived adds nothing. *)
Lemma arrival_accounts gs h t :
  gs !! h = None ->
  let gs2 := <[h:=[ObsTime t]]> gs in
  (forall i, (i < 12)%nat -> total i gs2 = total i gs) /\ issued gs2 = issued gs
  /\ (numbered gs -> numbered gs2) /\ (forall o, log_accounts gs o -> log_accounts gs2 o).
Proof.
  intros Hh gs2. assert (Hi : issued gs2 = issued gs) by (unfold issued, gs2; by rewrite map_sum_insert).
  assert (Hold : forall j x, gs2 !! j = Some x -> x = [ObsTime t] \/ gs !! j = Some x).
  { intros j x. unfold gs2. rewrite lookup_insert. case_decide; [intros [= <-]; by left|by right]. }
  split_and!; [|done|..].
  - intros i Hi'. unfold total, gs2. rewrite map_sum_insert by done. rewrite list_lookup_total_alt.
    cbn [counts foldr]. rewrite lookup_replicate_2 by done. done.
  - intros (Hr & Hd & Hu). unfold numbered. rewrite Hi. split_and!.
    + intros j x n [->|Hj]%Hold Hin; [by apply elem_of_nil in Hin|by apply Hr with j x].
    + intros j x [->|Hj]%Hold; [constructor|by apply Hd with j].
    + intros j k x x' n [->|Hj]%Hold [->|Hk]%Hold Hin Hin'; try (by apply elem_of_nil in Hin || by apply elem_of_nil in Hin').
      by apply (Hu j k x x' n).
  - intros o (Hd & Hok & Hp). split_and!.
    + rewrite Hd. f_equal. unfold dropped, gs2. by rewrite map_sum_insert.
    + intros d He. destruct (Hok d He) as (? & Hl & Hk). split_and!; [done| |by rewrite Hk; unfold gs2; rewrite map_sum_insert].
      intros entry Hin. destruct (Hl entry Hin) as (j & x & Hj & Hx).
      exists j, x. split; [|done]. unfold gs2. rewrite lookup_insert_ne; [done|congruence].
    + intros j x [->|Hj]%Hold Hx; [done|by apply Hp with j x].
Qed.

Section invariant.
Context {W : Type} `{HL : BidStoreLaws W}.
Context (s0 : Server W) (Ha : auctioneer_ok (sv_auctioneer s0)).

(** [gs] gives every handler what it has observed so far. *)
Record sys_inv (gs : gmap nat (list obs)) (sy : system W) : Prop := {
  si_cache : run_ok (cache_view sy);
  si_engine st : engine_view sy = Some st -> engine_inv st;
  si_settings : settings (sy_server sy) = settings s0;
  si_domain h : is_Some (gs !! h) <-> is_Some (sy_handlers sy !! h);
  si_handlers h hd tr : sy_handlers sy !! h = Some hd -> gs !! h = Some tr ->
    wp (configured_ids s0) (answered s0 (h_request hd) (h_arrived hd)) (h_prog hd) tr
    /\ last_time tr <= sy_now sy /\ length (counts tr) = 12%nat;
  si_gauges i : (i < 12)%nat -> gauges (sv_metrics (sy_server sy)) !! i = Some (uint64 (total i gs));
  si_number : sv_requestNumber (sy_server sy) = uint64 (issued gs);
  si_numbered : issued gs < 2 ^ 64 -> numbered gs;
  si_log : log_accounts gs (sv_decisionLogger (sy_server sy))
}.

Lemma si_answers gs sy : sys_inv gs sy -> answers_ok sy.
Proof. intros Hi. split; [apply (run_cache _ (si_cache _ _ Hi))|apply (si_engine _ _ Hi)]. Qed.

(** What [gs2] has more than [gs] was read in [sy]. *)
Definition reads_real (gs gs2 : gmap nat (list obs)) (sy : system W) : Prop :=
  forall h tr o, gs2 !! h = Some tr -> o ∈ tr -> (exists tr', gs !! h = Some tr' /\ o ∈ tr') \/ true_now sy o.

Lemma reads_real_refl gs sy : reads_real gs gs sy.
Proof. intros h tr o Hh Ho. left. by exists tr. Qed.

Lemma reads_real_update gs h tr tr2 sy : gs !! h = Some tr -> observes tr tr2 sy -> reads_real gs (<[h:=tr2]> gs) sy.
Proof.
  intros Hh Hobs j x o. rewrite lookup_insert. case_decide; [|by intros ??; left; exists x]. subst.
  intros [= <-] Ho. destruct (Hobs o Ho) as [Ho2|]; [left; by exists tr|by right].
Qed.

(** The engine of a simulated step keeps its invariant. *)
Lemma engine_steps_inv (sy sy2 : system W) :
  engine_steps (engine_view sy) (engine_view sy2) ->
  (forall st, engine_view sy = Some st -> engine_inv st) -> forall st, engine_view sy2 = Some st -> engine_inv st.
Proof.
  intros Hs Hi st Hst. rewrite Hst in Hs. destruct (engine_view sy) as [st1|]; [|done]. simpl in Hs.
  apply (rtc_invariant engine_step engine_inv) with st1; [|done|by apply Hi].
  intros a b Ha' (ev & Hev & Hx). by eapply engine_exec_inv.
Qed.

Lemma cache_steps_inv (st st2 : CacheRun.state W) : rtc CacheRun.step st st2 -> run_ok st -> run_ok st2.
Proof.
  intros Hr Hok. apply (rtc_invariant CacheRun.step run_ok) with st; [|done|done].
  intros a b Hok' (ev & Hev & Hx). by eapply exec_ok.
Qed.

Lemma Handler_prog_settings (s s2 : Server W) r : settings s = settings s2 -> Handler_prog s r = Handler_prog s2 r.
Proof.
  destruct s as [c w ca a m d e n], s2 as [c' w' ca' a' m' d' e' n']. unfold settings. simpl. intros [= <- <- He Hd].
  by destruct d, d', e, e'.
Qed.

(** A background step: the handlers and what is accounted stay. *)
Lemma background_inv gs (sy sy2 : system W) :
  sys_inv gs sy -> stays sy sy2 -> gauges (sv_metrics (sy_server sy2)) = gauges (sv_metrics (sy_server sy)) ->
  sv_requestNumber (sy_server sy2) = sv_requestNumber (sy_server sy) ->
  log_accounts gs (sv_decisionLogger (sy_server sy2)) -> sys_inv gs sy2.
Proof.
  intros Hi ([Hsc Hse _] & Hn & Hh & Hs) Hm Hnum Hl. destruct Hi as [H1 H2 H3 H4 H5 H6 H7 H8 _].
  split; rewrite ?Hn, ?Hh, ?Hm, ?Hnum; try done.
  - by eapply cache_steps_inv.
  - by eapply engine_steps_inv.
  - by rewrite Hs.
Qed.

(** The same for a step of the log alone. *)
Lemma log_accounts_step gs ev d d2 :
  (match ev with LRecord _ => False | _ => True end) -> log_step ev d = Some d2 ->
  log_accounts gs (Some d) -> log_accounts gs (Some d2).
Proof.
  intros Hev Hs (Hd & Hok & Hp). destruct (Hok d eq_refl) as (Hd1 & Hl & Hk).
  destruct (log_step_effect _ _ _ Hd1 Hs) as (Hd2 & _ & Hlines & Hdr).
  assert (Hnone : accepted [ev] d = [] /\ dropped_count [ev] d = 0) by (unfold dropped_count; destruct ev; [done|..]; cbn [accepted]; by rewrite Hs).
  destruct Hnone as [Hacc Hcnt]. rewrite Hacc, app_nil_r in Hlines. rewrite Hcnt, Z.add_0_r in Hdr. split_and!.
  - simpl in *. rewrite Hdr, Hd. apply uint64_id, uint64_range.
  - intros d' [= <-]. unfold lines_recorded. rewrite Hlines. by split_and!.
  - intros h tr Hh Hx. destruct (Hp h tr Hh Hx) as (d' & [= <-] & Hc). exists d2. split; [done|].
    destruct ev; simpl in Hs; [done| |by injection Hs as <-]. unfold run_step in Hs.
    destruct (dl_done d); [done|]. destruct (dl_entries d); [|by injection Hs as <-]. rewrite Hc in Hs. by injection Hs as <-.
Qed.

Lemma arrive_inv gs (sy : system W) h r :
  sys_inv gs sy -> sy_handlers sy !! h = None ->
  sys_inv (<[h:=[ObsTime (sy_now sy)]]> gs)
    {| sy with sy_handlers := <[h := mkHandler r (sy_now sy) (Handler_prog (sy_server sy) r)]> (sy_handlers sy) |}.
Proof.
  intros Hi Hh. assert (Hg : gs !! h = None).
  { apply eq_None_not_Some. rewrite (si_domain _ _ Hi h), Hh. apply is_Some_None. }
  destruct (arrival_accounts gs h (sy_now sy) Hg) as (Ht & Hiss & Hnum & Hlog).
  pose proof (si_settings _ _ Hi) as Hset.
  split; try apply Hi; simpl.
  - intros j. rewrite !lookup_insert. case_decide; [by split|apply Hi].
  - intros j hd tr. rewrite !lookup_insert. case_decide; [|apply Hi]. intros [= <-] [= <-]. simpl. split; [|done].
    rewrite (Handler_prog_settings _ _ r Hset). by apply wp_Handler.
  - intros i Hi2. rewrite Ht by done. by apply Hi.
  - rewrite Hiss. apply Hi.
  - rewrite Hiss. intros Hlt. by apply Hnum, Hi.
  - by apply Hlog, Hi.
Qed.

Lemma handler_inv gs (sy sy2 : system W) h hd tid p2 :
  sys_inv gs sy -> sy_handlers sy !! h = Some hd -> handler_step tid (h_prog hd) sy = Some (p2, sy2) ->
  exists tr2, stays sy sy2 /\ reads_real gs (<[h:=tr2]> gs) sy /\
    sys_inv (<[h:=tr2]> gs) {| sy2 with sy_handlers := <[h := {| hd with h_prog := p2 |}]> (sy_handlers sy2) |}.
Proof.
  intros Hi Hh Hs. destruct (proj2 (si_domain _ _ Hi h)) as [tr Htr]; [by rewrite Hh|].
  destruct (si_handlers _ _ Hi h hd tr Hh Htr) as (Hwp & Htime & Hlen).
  rewrite <- (settings_ids _ _ (si_settings _ _ Hi)) in Hwp.
  destruct (handler_step_ok _ tid _ tr sy sy2 p2 (si_answers _ _ Hi) Htime Hwp Hs) as (tr2 & Hwp2 & [Htime2 Hobs] & Hstay & [Hg Hn Hl]).
  rewrite (settings_ids _ _ (si_settings _ _ Hi)) in Hwp2.
  destruct (gauges_step gs h tr tr2 _ _ Htr Hlen Hg (si_gauges _ _ Hi)) as [Hlen2 Hgauges].
  exists tr2. split; [done|]. split; [by apply (reads_real_update gs h tr)|]. destruct Hstay as ([Hsc Hse _] & Hnow & Hhs & Hset).
  assert (Hiss : sv_requestNumber (sy_server sy2) = uint64 (issued (<[h:=tr2]> gs))
    /\ (issued (<[h:=tr2]> gs) < 2 ^ 64 -> numbered (<[h:=tr2]> gs))).
  { destruct Hn as [[Hn1 Hn2]|[Hn1 Hn2]].
    - destruct (numbered_same gs h tr tr2 Htr Hn2) as [-> Hnum]. rewrite Hn1. split; [apply Hi|]. intros Hlt. by apply Hnum, Hi.
    - rewrite (si_number _ _ Hi) in Hn1. unfold counter_add in Hn1. rewrite uint64_add_l in Hn1.
      assert (He : issued (<[h:=tr2]> gs) = issued gs + 1) by (rewrite (issued_update _ _ _ _ Htr), Hn2; simpl; lia).
      rewrite He. split; [done|]. intros Hlt. apply (numbered_next _ _ tr); [done|done|by rewrite Hn2, Hn1|].
      apply Hi. lia. }
  destruct Hiss as [Hiss Hnum].
  split; simpl; try done.
  - exact (cache_steps_inv _ _ Hsc (si_cache _ _ Hi)).
  - exact (engine_steps_inv _ _ Hse (si_engine _ _ Hi)).
  - rewrite Hset. apply Hi.
  - intros j. rewrite Hhs, !lookup_insert. case_decide; [by split|apply Hi].
  - intros j hd' tr'. rewrite Hhs, Hnow, !lookup_insert. case_decide; [|apply Hi]. by intros [= <-] [= <-].
  - destruct Hl as [[-> Hl]|(entry & result & Hl & Hrec)].
    + apply (log_accounts_same _ _ tr); [done|done|apply Hi].
    + by apply (log_accounts_record _ _ tr _ _ _ entry result Htr Hl Hrec), Hi.
Qed.

(** ** Every step *)

Definition sys_event_ok (ev : sys_event) : Prop :=
  match ev with
  | YCache ev => event_ok ev
  | YEngine ev => engine_event_ok ev
  | YTime now => is_int64 now
  | _ => True
  end.

Definition sys_step (sy sy2 : system W) : Prop := exists ev, sys_event_ok ev /\ sys_exec ev sy = Some sy2.

Lemma log_inv gs (sy sy2 : system W) ev f :
  (match ev with LRecord _ => False | _ => True end) -> (forall d, f d = log_step ev d) ->
  sys_inv gs sy -> do_log f sy = Some sy2 -> exists gs2, sys_inv gs2 sy2 /\ simulates sy sy2 /\ reads_real gs gs2 sy.
Proof.
  intros Hev Hf Hi Hx. destruct (do_log_ok _ _ _ _ Hf Hx) as (Hsim & H1 & H2 & H3 & H4 & H5). exists gs. split; [|split; [done|apply reads_real_refl]].
  apply (background_inv gs sy); [done|by split_and!|by rewrite H4|done|].
  pose proof (si_log _ _ Hi) as Hl. unfold do_log in Hx.
  destruct (sv_decisionLogger (sy_server sy)) as [d|] eqn:Ed; [|done].
  destruct (f d) as [d2|] eqn:Ef; [|done]. injection Hx as <-. simpl. rewrite Hf in Ef. by apply (log_accounts_step gs ev d).
Qed.

Lemma sys_step_inv gs sy sy2 :
  sys_inv gs sy -> sys_step sy sy2 -> exists gs2, sys_inv gs2 sy2 /\ simulates sy sy2 /\ reads_real gs gs2 sy.
Proof.
  intros Hi (ev & Hev & Hx). destruct ev as [h r|h tid|ev|ev| | |now]; simpl in Hx, Hev.
  - destruct (sy_handlers sy !! h) eqn:Hh; [done|]. injection Hx as <-. eexists. split; [by apply arrive_inv|].
    split; [|intros j x o; rewrite lookup_insert; case_decide; [intros [= <-] ->%list_elem_of_singleton; by right|intros; left; by exists x]].
    split; [done|by unfold engine_view; simpl; destruct (sv_bidderEngine _)|done].
  - destruct (sy_handlers sy !! h) as [hd|] eqn:Hh; [|done].
    destruct (handler_step tid (h_prog hd) sy) as [[p2 sy']|] eqn:Hs; [|done]. injection Hx as <-.
    destruct (handler_inv gs sy sy' h hd tid p2 Hi Hh Hs) as (tr2 & ([Hc He Hl] & _) & Hreal & Hinv). exists (<[h:=tr2]> gs).
    split; [done|]. split; [by split|done].
  - assert (Ht : timed ev = false) by (by destruct ev).
    assert (Hd : do_cache ev sy = Some sy2) by (by destruct ev).
    destruct (do_cache_ok _ _ _ Ht Hev Hd) as [Hsim Hf]. exists gs. split; [|split; [done|apply reads_real_refl]].
    pose proof Hf as (_ & _ & _ & Hm & Hn & Hl). apply (background_inv gs sy); [done|by apply frame_stays|by rewrite Hm|done|].
    rewrite Hl. apply Hi.
  - destruct (background ev) eqn:Eb; [|done]. assert (Ht : engine_timed ev = false) by (by destruct ev).
    destruct (do_engine_ok _ _ _ Ht Hev (si_engine _ _ Hi) Hx) as [Hsim Hf]. exists gs. split; [|split; [done|apply reads_real_refl]].
    pose proof Hf as (_ & _ & _ & Hm & Hn & Hl). apply (background_inv gs sy); [done|by apply frame_stays|by rewrite Hm|done|].
    rewrite Hl. apply Hi.
  - by apply (log_inv gs sy sy2 LWrite run_step).
  - by apply (log_inv gs sy sy2 LClose (fun d => Some (Close_begin d))).
  - destruct (Z.leb_spec (sy_now sy) now) as [Hle|]; [|done]. injection Hx as <-.
    assert (Hsim : simulates sy {| sy with sy_now := now |}).
    { split; [apply rtc_once; exists (ETime now)| |by simpl].
      - split; [done|]. simpl. by rewrite (proj2 (Z.leb_le _ _) Hle).
      - unfold engine_view. simpl. destruct (sv_bidderEngine (sy_server sy)) as [e|]; simpl; [|done].
        apply rtc_once. exists (XTime now). split; [done|]. simpl. by rewrite (proj2 (Z.leb_le _ _) Hle). }
    exists gs. split; [|split; [done|apply reads_real_refl]]. destruct Hsim as [Hc He _]. split; try apply Hi.
    + exact (cache_steps_inv _ _ Hc (si_cache _ _ Hi)).
    + exact (engine_steps_inv _ _ He (si_engine _ _ Hi)).
    + intros h hd tr Hh Htr. destruct (si_handlers _ _ Hi h hd tr Hh Htr) as (? & ? & ?). split_and!; [done|simpl; lia|done].
Qed.

(** A server that has not served anything, over a store and with a cache and an
    engine in order. *)
Record bootable (s : Server W) (now : Time) : Prop := {
  bt_store : store_ok (sv_store s);
  bt_now : is_int64 now;
  bt_cache : cache_ok (sv_cache s);
  bt_past p l : bc_entries (sv_cache s) !! p = Some (Some l) -> bl_refreshedAtNS l <= now;
  bt_inflight : bc_inflight (sv_cache s) = ∅;
  bt_engine e : sv_bidderEngine s = Some e -> engine_inv (mkEngineState e now ∅);
  bt_metrics : sv_metrics s = zero_Metrics;
  bt_log d : sv_decisionLogger s = Some d -> logger_ok d /\ dl_written d ++ dl_entries d = [] /\ dl_dropped d = 0;
  bt_number : sv_requestNumber s = 0
}.

Lemma boot_inv now : bootable s0 now -> sys_inv ∅ (boot s0 now).
Proof.
  intros [Hst Hn Hc Hp Hin He Hm Hl Hnum]. split; simpl; try done.
  - apply run_ok_intro; simpl; try done; try (by intros tid t p at_; rewrite lookup_empty).
    rewrite Hin. split; [|by intros k t1 t2]. intros k. split; [set_solver|]. intros (tid & Hh). by unfold holds in Hh.
  - intros st. unfold engine_view. simpl. destruct (sv_bidderEngine s0) as [e|]; [|done]. intros [= <-]. by apply He.
  - intros h. by rewrite !lookup_empty.
  - intros i Hi. rewrite Hm. by do 12 (destruct i as [|i]; [done|]); lia.
  - split_and!; [|intros d Hd; destruct (Hl d Hd) as (? & Hno & _); split_and!; [done| |by rewrite Hno]|by intros h tr].
    + destruct (sv_decisionLogger s0) as [d|]; [|done]. by destruct (Hl d eq_refl) as (_ & _ & Hz).
    + intros entry. rewrite Hno. intros Hx. by apply elem_of_nil in Hx.
Qed.

(** An observation of [sy]'s past, on the way from [init]. *)
Definition was_true (init sy : system W) (o : obs) : Prop :=
  exists past, rtc sys_step init past /\ rtc sys_step past sy /\ true_now past o.

Lemma sys_reachable_inv now sy :
  bootable s0 now -> rtc sys_step (boot s0 now) sy ->
  exists gs, sys_inv gs sy /\ simulates (boot s0 now) sy
    /\ forall h tr o, gs !! h = Some tr -> o ∈ tr -> was_true (boot s0 now) sy o.
Proof.
  intros Hb. revert sy.
  apply (rtc_ind_r (R := sys_step) (fun sy => exists gs, sys_inv gs sy /\ simulates (boot s0 now) sy
    /\ forall h tr o, gs !! h = Some tr -> o ∈ tr -> was_true (boot s0 now) sy o)).
  - exists ∅. split_and!; [by apply boot_inv|done|]. by intros h tr o; rewrite lookup_empty.
  - intros sy1 sy2 Hr1 Hs (gs & Hi & Hsim & Hpast). destruct (sys_step_inv gs sy1 sy2 Hi Hs) as (gs2 & Hi2 & Hsim2 & Hreal).
    exists gs2. split_and!; [done|by etrans|]. intros h tr o Hh Ho. destruct (Hreal h tr o Hh Ho) as [(tr' & Hh' & Ho')|Hnow].
    + destruct (Hpast h tr' o Hh' Ho') as (past & H1 & H2 & H3). exists past. split_and!; [done|by eapply rtc_r|done].
    + exists sy1. split_and!; [done|by apply rtc_once|done].
Qed.

(** Executions from a reachable state on are executions of the components. *)
Lemma sys_steps_simulate now sy sy2 :
  bootable s0 now -> rtc sys_step (boot s0 now) sy -> rtc sys_step sy sy2 -> simulates sy sy2.
Proof.
  intros Hb Hr Hr2. destruct (sys_reachable_inv now sy Hb Hr) as (gs & Hi & _). clear Hr. revert gs Hi.
  induction Hr2 as [|sy sy1 sy2 Hs _ IH]; intros gs Hi; [done|].
  destruct (sys_step_inv gs sy sy1 Hi Hs) as (gs1 & Hi1 & Hsim & _). etrans; [exact Hsim|by eapply IH].
Qed.

End invariant.
