(* ===== verification/SystemProps.v ===== *)
(** * Properties of the running server

    What holds in every interleaving of the whole process: the components behave as
    they were proved to alone, every answered auction is explained by what could be
    read while it ran, the counters and the log account for every exchange, no
    handler waits for another, and a handler that is not interrupted does what the
    sequential model of [Server] says. *)

From S2P Require Import Prelude GoInt Utf8 Json JsonCodec.
From S2P Require Import Prelude GoInt GoTime GoString GoParse Types Ranking DynamicBids Store BidStore Samples Cache CacheRun.
From S2P Require Import CacheProps Auction AuctionProps Engine EngineInv EngineProps DecisionLog Metrics Config Server ServerProps.
From S2P Require Import Handlers HandlerSpec System SystemInv.
Open Scope string_scope.
Open Scope list_scope.
Open Scope Z_scope.

(** ** Components in the system *)

(** C13: the parts of a running server behave as they do alone. Every execution of the
    whole process, from a server that has served nothing, is an execution of the
    cache with its goroutines, of the bidder engine with its refreshes, and of the
    decision log, so what is proved of each of them holds inside the server. *)
Theorem system_refines_components {W} `{HL : BidStoreLaws W} (s : Server W) now sy :
  auctioneer_ok (sv_auctioneer s) -> bootable s now -> rtc sys_step (boot s now) sy ->
  rtc CacheRun.step (cache_view (boot s now)) (cache_view sy)
  /\ engine_steps (engine_view (boot s now)) (engine_view sy)
  /\ log_steps (sv_decisionLogger s) (sv_decisionLogger (sy_server sy))
  /\ run_ok (cache_view sy) /\ (forall st, engine_view sy = Some st -> engine_inv st)
  /\ settings (sy_server sy) = settings s.
Proof.
  intros Ha Hb Hr. destruct (sys_reachable_inv s Ha now sy Hb Hr) as (gs & Hi & [H1 H2 H3] & _).
  split_and!; try done; apply Hi.
Qed.

(** ** Answers *)

(** Where a winner comes from: the snapshot of its placement, or a bidder of the
    engine, at the open-market priority. *)
Definition sold (ids : list string) (request : AuctionRequest) (bids : list Bid) (w : Bid) (bidder : string) : Prop :=
  (bidder = "" /\ w ∈ bids /\ Bid_wf true w /\ bid_PlacementID w = req_PlacementID request)
  \/ bidder ∈ ids /\ exists request', dynamicCacheKey request' = dynamicCacheKey request
       /\ sanitized bidder (req_PlacementID request') (mkDynamicBid w bidder).

Lemma readable_valid p t bids snapshot : readable p t bids snapshot -> ss_Found snapshot = true -> valid_bids p bids.
Proof.
  intros (c & Hc & Hg) Hf. unfold BidCache_Get in Hg.
  destruct (bc_entries c !! p) as [[l|]|] eqn:El; injection Hg as <- <-; try done.
  by destruct (ok_entries _ Hc p l El) as (Hv & _).
Qed.

Lemma candidate_sold ids request p dynamic bids w bidder :
  p = req_PlacementID request -> valid_bids p bids -> looked ids request dynamic ->
  (w, bidder) ∈ candidates_of bids dynamic -> sold ids request bids w bidder.
Proof.
  intros -> [Hv _] (request' & Hk & Ho) Hin. unfold candidates_of in Hin. apply elem_of_app in Hin as [Hin|Hin].
  - apply list_elem_of_fmap in Hin as (b & [= <- ->] & Hb). left. destruct (Forall_elem _ _ _ Hv Hb) as (? & _ & ?). done.
  - apply list_elem_of_fmap in Hin as ([b i] & [= -> ->] & Hb). right.
    destruct (Forall_elem _ _ _ Ho Hb) as (id & Hid & Hs). pose proof (san_bidder _ _ _ Hs) as Hi. simpl in Hi. subst.
    split; [done|]. by exists request'.
Qed.

(** An execution from [init] to [sy] that passes through [mid]. *)
Definition passes {W} `{BidStoreLaws W} (init mid sy : system W) : Prop :=
  rtc sys_step init mid /\ rtc sys_step mid sy.

Lemma engine_settings {W} `{BidStore W} (sy : system W) (s : Server W) :
  settings (sy_server sy) = settings s -> sv_bidderEngine s = None -> engine_view sy = None.
Proof. unfold settings, engine_view. intros [= _ _ He _] Hs. rewrite Hs in He. by destruct (sv_bidderEngine _). Qed.

(** An answered auction in a reachable state. *)
Lemma answer_explained {W} `{HL : BidStoreLaws W} (s : Server W) now sy h hd resp a :
  auctioneer_ok (sv_auctioneer s) -> bootable s now -> rtc sys_step (boot s now) sy ->
  sy_handlers sy !! h = Some hd -> h_prog hd = Return resp -> answer_of resp = Some a ->
  exists request looking past u,
    auction_input (h_request hd) = Some request
    /\ passes (boot s now) looking sy /\ passes (boot s now) past sy
    /\ h_arrived hd <= sy_now looking <= sy_now past /\ sy_now past <= u <= sy_now sy
    /\ let '(bids, snapshot) := BidCache_Get (req_PlacementID request) (sy_now past) (sv_cache (sy_server past)) in
       answer_ok request (time_Unix u) (candidates_of bids (ready_bids request looking)) a
       /\ forall w, rsp_Bid a = Some w ->
            ss_Found snapshot = true /\ ss_Stale snapshot && ss_RejectStale snapshot = false
            /\ sold (configured_ids s) request bids w (rsp_DynamicBidderID a).
Proof.
  intros Ha Hb Hr Hh Hp Hans. destruct (sys_reachable_inv s Ha now sy Hb Hr) as (gs & Hi & _ & Hpast).
  destruct (proj2 (si_domain _ _ _ Hi h)) as [tr Htr]; [by rewrite Hh|].
  destruct (si_handlers _ _ _ Hi h hd tr Hh Htr) as (Hwp & Htime & _). rewrite Hp in Hwp. destruct Hwp as (_ & _ & Ht).
  rewrite Hans in Ht. destruct Ht as (request & dynamic & bids & snapshot & t & u & Hin & Htu & Hu & Hget & Hready & Hread & Hlook
    & Hok & Hserved & _).
  destruct (Hpast h tr _ Htr Hget) as (past & H1 & H2 & -> & Hg).
  assert (Hlooking : exists looking, passes (boot s now) looking sy /\ h_arrived hd <= sy_now looking <= sy_now past
    /\ dynamic = ready_bids request looking).
  { unfold ready_at in Hready. destruct (sv_bidderEngine s) eqn:Ee.
    - destruct Hready as (t1 & Ht1 & Hin1). destruct (Hpast h tr _ Htr Hin1) as (looking & H3 & H4 & -> & Hd). by exists looking.
    - subst. exists past. split_and!; [done..|lia|lia|]. destruct (sys_reachable_inv s Ha now past Hb H1) as (gs' & Hi' & _).
      unfold ready_bids. by rewrite (engine_settings past s (si_settings _ _ _ Hi') Ee). }
  destruct Hlooking as (looking & Hpass & Hl & ->).
  exists request, looking, past, u. rewrite Hg. split_and!; [done|done|by split|lia|lia|lia|lia|done|].
  intros w Hbid. destruct (Hserved ltac:(by rewrite Hbid)) as [Hf Hs]. split_and!; [done|done|].
  unfold answer_ok in Hok. rewrite Hbid in Hok. destruct Hok as (_ & _ & Hcand & _).
  eapply candidate_sold; [done|by eapply readable_valid|done|done].
Qed.

(** C2: every answer is explained. In every interleaving of the process, an answered
    auction was for the valid request in its body, and the execution passed, after
    its arrival, through a state whose engine had the dynamic bids ready and through one
    no earlier whose cache had the snapshot of its placement, which together give it: a
    filled one is an eligible bid of that snapshot, which was not refused, and is
    valid and of that placement, or a sanitized bid of a configured bidder; its price
    is between the floors and its effective price; one that is not filled has a
    reason and no price. *)
Theorem answers_sound {W} `{HL : BidStoreLaws W} (s : Server W) now sy h hd resp a :
  auctioneer_ok (sv_auctioneer s) -> bootable s now -> rtc sys_step (boot s now) sy ->
  sy_handlers sy !! h = Some hd -> h_prog hd = Return resp -> answer_of resp = Some a ->
  exists request looking past u,
    auction_input (h_request hd) = Some request
    /\ passes (boot s now) looking sy /\ passes (boot s now) past sy
    /\ h_arrived hd <= sy_now looking <= sy_now past /\ sy_now past <= u <= sy_now sy
    /\ let '(bids, snapshot) := BidCache_Get (req_PlacementID request) (sy_now past) (sv_cache (sy_server past)) in
       answer_ok request (time_Unix u) (candidates_of bids (ready_bids request looking)) a
       /\ forall w, rsp_Bid a = Some w ->
            ss_Found snapshot = true /\ ss_Stale snapshot && ss_RejectStale snapshot = false
            /\ sold (configured_ids s) request bids w (rsp_DynamicBidderID a).
Proof. apply answer_explained. Qed.

(** ** Accounting *)

Section accounting.
Context {W : Type} `{HL : BidStoreLaws W}.
Context (s0 : Server W) (Ha : auctioneer_ok (sv_auctioneer s0)).

(** The response of a handler that has one. *)
Definition response (hd : handler) : option Response := match h_prog hd with Return resp => Some resp | _ => None end.

(** What an exchange, and a handler, is worth on counter [i]. *)
Definition worth_of (i : nat) (r : Request) (resp : Response) : Z :=
  if decide (increments r resp !! i = Some true) then 1 else 0.
Definition worth (i : nat) (hd : handler) : Z :=
  match response hd with Some resp => worth_of i (h_request hd) resp | None => 0 end.

Definition log_open (sy : system W) : Prop :=
  forall d, sv_decisionLogger (sy_server sy) = Some d -> dl_closed d = false.

Lemma si_answered gs sy h hd tr resp :
  sys_inv s0 gs sy -> sy_handlers sy !! h = Some hd -> gs !! h = Some tr -> response hd = Some resp ->
  answered s0 (h_request hd) (h_arrived hd) tr (Some resp).
Proof.
  intros Hi Hh Htr Hresp. destruct (si_handlers _ _ _ Hi h hd tr Hh Htr) as (Hwp & _).
  unfold response in Hresp. destruct (h_prog hd); simplify_eq. exact Hwp.
Qed.

(** Nothing panics while the log is open. *)
Lemma finished_responded gs sy h hd :
  sys_inv s0 gs sy -> log_open sy -> sy_handlers sy !! h = Some hd -> finished (h_prog hd) = true -> is_Some (response hd).
Proof.
  intros Hi Ho Hh Hf. destruct (proj2 (si_domain _ _ _ Hi h)) as [tr Htr]; [by rewrite Hh|].
  destruct (si_handlers _ _ _ Hi h hd tr Hh Htr) as (Hwp & _). unfold response.
  destruct (h_prog hd); try done. simpl in Hwp.
  destruct (si_log _ _ _ Hi) as (_ & _ & Hp). destruct (Hp h tr Htr Hwp) as (d & Hd & Hc). by rewrite (Ho d Hd) in Hc.
Qed.

Lemma lookup_ones w i b : w !! i = Some b -> ones w !!! i = if b : bool then 1 else 0.
Proof. intros Hw. rewrite list_lookup_total_alt. unfold ones. by rewrite list_lookup_fmap, Hw. Qed.

Lemma length_increments r resp : length (increments r resp) = 11%nat.
Proof. done. Qed.

(** The observations of a handler that has answered. *)
Lemma answered_counts r t0 tr resp i :
  answered s0 r t0 tr (Some resp) -> (i < 11)%nat ->
  counts tr !!! i = worth_of i r resp.
Proof.
  intros (Hc & _) Hi. destruct (lookup_lt_is_Some_2 (increments r resp) i) as [b Hb]; [by rewrite length_increments|].
  rewrite Hc, (lookup_ones _ _ b) by (rewrite lookup_app_l; [done|by rewrite length_increments]).
  unfold worth_of. rewrite Hb. by destruct b; rewrite ?decide_True, ?decide_False by congruence.
Qed.

Lemma answered_drops r t0 tr resp : answered s0 r t0 tr (Some resp) -> counts tr !!! 11%nat = drops tr.
Proof.
  intros (Hc & _ & Ht). rewrite Hc, (lookup_ones _ _ (existsb is_drop (logged tr))) by done. unfold drops.
  assert (Hone : (length (logged tr) <= 1)%nat).
  { destruct (answer_of resp); [|rewrite Ht; simpl; lia]. destruct Ht as (? & ? & ? & ? & ? & ? & _ & _ & _ & _ & _ & _ & _ & _ & _ & _ & Hl).
    destruct (sv_decisionLogger s0); [|rewrite Hl; simpl; lia]. destruct Hl as (? & ? & -> & _). simpl. lia. }
  destruct (logged tr) as [|x [|]]; [done| |simpl in Hone; lia]. simpl. by destruct (is_drop x).
Qed.

Lemma answered_numbers r t0 tr resp id :
  answered s0 r t0 tr (Some resp) -> (length (numbers tr) <= 1)%nat
  /\ (generated_id r resp = Some id -> exists n, n ∈ numbers tr /\ id = made_up n).
Proof.
  intros (_ & Hn & _). destruct (generated_id r resp) as [id'|].
  - destruct Hn as (n & -> & ->). split; [simpl; lia|]. intros [= <-]. exists n. split; [by left|done].
  - rewrite Hn. split; [simpl; lia|done].
Qed.

Lemma handlers_size gs sy : sys_inv s0 gs sy -> size (sy_handlers sy) = size gs.
Proof.
  intros Hi. rewrite <- !size_dom. f_equal. apply set_eq. intros h. rewrite !elem_of_dom. symmetry. apply (si_domain _ _ _ Hi).
Qed.

(** With a log, an answered auction has recorded its entry, and nothing else does. *)
Lemma answered_logged r t0 tr resp :
  sv_decisionLogger s0 <> None -> answered s0 r t0 tr (Some resp) ->
  kept tr + drops tr = worth_of 0 r resp.
Proof.
  intros Hs (_ & _ & Ht). unfold kept, drops, worth_of, increments, answer_is. simpl. destruct (answer_of resp) as [a|].
  - destruct Ht as (? & ? & ? & ? & ? & ? & _ & _ & _ & _ & _ & _ & _ & _ & _ & _ & Hl).
    destruct (sv_decisionLogger s0); [|done]. destruct Hl as (e & [] & -> & _); by rewrite decide_True.
  - by rewrite Ht, decide_False.
Qed.

(** A state in which every handler has finished and the log is open. *)
Record concluded (sy : system W) : Prop := {
  cn_finished h hd : sy_handlers sy !! h = Some hd -> finished (h_prog hd) = true;
  cn_open : log_open sy;
  cn_size : Z.of_nat (size (sy_handlers sy)) < 2 ^ 64
}.

Lemma concluded_answers gs sy h tr :
  sys_inv s0 gs sy -> concluded sy -> gs !! h = Some tr ->
  exists hd resp, sy_handlers sy !! h = Some hd /\ response hd = Some resp
    /\ answered s0 (h_request hd) (h_arrived hd) tr (Some resp).
Proof.
  intros Hi [Hf Ho _] Htr. destruct (proj1 (si_domain _ _ _ Hi h)) as [hd Hh]; [by rewrite Htr|].
  destruct (finished_responded gs sy h hd Hi Ho Hh (Hf h hd Hh)) as [resp Hre]. exists hd, resp.
  split_and!; [done|done|by eapply si_answered].
Qed.

(** The exchanges of kind [i] are at most as many as the handlers. *)
Lemma worth_bound i (sy : system W) :
  0 <= map_sum (worth i) (sy_handlers sy) <= Z.of_nat (size (sy_handlers sy)).
Proof. apply map_sum_size. intros h hd _. unfold worth, worth_of. destruct (response hd); [case_decide|]; lia. Qed.

(** A sum over the observations, when each is worth what its exchange is. *)
Lemma concluded_sum gs sy f g :
  sys_inv s0 gs sy -> concluded sy ->
  (forall r t0 tr resp, answered s0 r t0 tr (Some resp) -> f tr = g r resp) ->
  map_sum f gs = map_sum (fun hd => match response hd with Some resp => g (h_request hd) resp | None => 0 end) (sy_handlers sy).
Proof.
  intros Hi Hc Hfg. apply map_sum_match; [apply (si_domain _ _ _ Hi)|]. intros h tr hd Htr Hh.
  destruct (concluded_answers gs sy h tr Hi Hc Htr) as (hd' & resp & Hh' & Hre & Han).
  assert (hd' = hd) as -> by congruence. rewrite Hre. by eapply Hfg.
Qed.
End accounting.

(** C11: the counters of a running server. In every interleaving, once every handler
    has finished and while the log is open: every request has been answered, each
    counter of the metrics page is exactly the number of exchanges of its kind as the
    clients saw them, the drop counter agrees with the logger's own, and the request
    IDs the server made up are pairwise distinct. No update is lost to a race. *)
Theorem counters_concurrent {W} `{HL : BidStoreLaws W} (s : Server W) now sy :
  auctioneer_ok (sv_auctioneer s) -> bootable s now -> rtc sys_step (boot s now) sy -> concluded sy ->
  (forall h hd, sy_handlers sy !! h = Some hd -> is_Some (response hd))
  /\ tally (sv_metrics (sy_server sy)) = (fun i => map_sum (worth i) (sy_handlers sy)) <$> seq 0 11
  /\ me_decisionLogDropped (sv_metrics (sy_server sy)) = Dropped (sv_decisionLogger (sy_server sy))
  /\ (forall h h2 hd hd2 resp resp2 id, sy_handlers sy !! h = Some hd -> sy_handlers sy !! h2 = Some hd2 ->
        response hd = Some resp -> response hd2 = Some resp2 ->
        generated_id (h_request hd) resp = Some id -> generated_id (h_request hd2) resp2 = Some id -> h = h2).
Proof.
  intros Ha Hb Hr Hcn. destruct (sys_reachable_inv s Ha now sy Hb Hr) as (gs & Hi & _).
  pose proof (fun h tr => concluded_answers s gs sy h tr Hi Hcn) as Hans.
  assert (Hiss : issued gs < 2 ^ 64).
  { eapply Z.le_lt_trans; [|apply (cn_size _ Hcn)]. rewrite (handlers_size s _ _ Hi). apply map_sum_size. intros h tr Htr.
    destruct (Hans h tr Htr) as (hd & resp & _ & _ & Han). destruct (answered_numbers s _ _ _ _ "" Han) as [Hle _]. lia. }
  split_and!.
  - intros h hd Hh. eapply (finished_responded s); [done|apply Hcn|done|by apply (cn_finished _ Hcn h)].
  - apply list_eq. intros i. destruct (decide (i < 11)%nat) as [Hlt|Hge].
    + rewrite list_lookup_fmap, lookup_seq_lt by done. simpl.
      pose proof (si_gauges _ _ _ Hi i ltac:(lia)) as Hg. unfold gauges in Hg. rewrite lookup_app_l in Hg by (simpl; lia).
      rewrite Hg. f_equal. unfold total. rewrite (concluded_sum s gs sy _ _ Hi Hcn (fun r t0 tr resp Han => answered_counts s r t0 tr resp i Han Hlt)).
      apply uint64_id. pose proof (worth_bound i sy). pose proof (cn_size _ Hcn). unfold worth in *. unfold_int. lia.
    + rewrite !(proj2 (lookup_ge_None _ _)); [done|simpl; lia..].
  - pose proof (si_gauges _ _ _ Hi 11%nat ltac:(lia)) as Hg. unfold gauges in Hg. simpl in Hg. injection Hg as ->.
    destruct (si_log _ _ _ Hi) as (-> & _). f_equal. apply map_sum_match; [done|]. intros h tr tr' Htr Htr'.
    assert (tr' = tr) as -> by congruence. destruct (Hans h tr Htr) as (hd & resp & _ & _ & Han). by eapply answered_drops.
  - intros h h2 hd hd2 resp resp2 id Hh Hh2 Hre Hre2 Hid Hid2.
    destruct (proj2 (si_domain _ _ _ Hi h)) as [tr Htr]; [by rewrite Hh|].
    destruct (proj2 (si_domain _ _ _ Hi h2)) as [tr2 Htr2]; [by rewrite Hh2|].
    destruct (si_numbered _ _ _ Hi Hiss) as (Hrange & _ & Huniq).
    destruct (answered_numbers s _ _ _ _ id (si_answered _ _ _ _ _ _ _ Hi Hh Htr Hre)) as [_ Hn].
    destruct (answered_numbers s _ _ _ _ id (si_answered _ _ _ _ _ _ _ Hi Hh2 Htr2 Hre2)) as [_ Hn2].
    destruct (Hn Hid) as (n & Hin & ->), (Hn2 Hid2) as (n2 & Hin2 & Heq).
    pose proof (Hrange h tr n Htr Hin). pose proof (Hrange h2 tr2 n2 Htr2 Hin2).
    apply made_up_inj in Heq; [|unfold_int; lia..]. subst n2. by apply (Huniq h h2 tr tr2 n).
Qed.

(** The log of a concluded state. *)
Lemma concluded_log {W} `{HL : BidStoreLaws W} (s : Server W) now sy d :
  auctioneer_ok (sv_auctioneer s) -> bootable s now -> rtc sys_step (boot s now) sy -> concluded sy ->
  sv_decisionLogger (sy_server sy) = Some d ->
  (forall entry, entry ∈ dl_written d ++ dl_entries d ->
     exists h hd resp a request, sy_handlers sy !! h = Some hd /\ response hd = Some resp /\ answer_of resp = Some a
       /\ auction_input (h_request hd) = Some request /\ logs (req_PlacementID request) a entry)
  /\ Z.of_nat (length (dl_written d ++ dl_entries d)) + dl_dropped d = map_sum (worth 0) (sy_handlers sy).
Proof.
  intros Ha Hb Hr Hcn Hd. destruct (sys_reachable_inv s Ha now sy Hb Hr) as (gs & Hi & _).
  destruct (si_log _ _ _ Hi) as (Hdrop & Hlog & _). destruct (Hlog d Hd) as (_ & Hlines & Hlen).
  assert (Hs0 : sv_decisionLogger s <> None).
  { pose proof (si_settings _ _ _ Hi) as Hset. unfold settings in Hset. rewrite Hd in Hset.
    intros He. by rewrite He in Hset. }
  split.
  - intros entry Hin. destruct (Hlines entry Hin) as (h & tr & Htr & Hrec).
    destruct (concluded_answers s gs sy h tr Hi Hcn Htr) as (hd & resp & Hh & Hre & (_ & _ & Ht)).
    destruct (answer_of resp) as [a|] eqn:Hans; [|rewrite Ht in Hrec; by apply elem_of_nil in Hrec].
    destruct Ht as (request & ? & ? & ? & ? & ? & Hinp & _ & _ & _ & _ & _ & _ & _ & _ & _ & Hl).
    destruct (sv_decisionLogger s); [|done]. destruct Hl as (e & ok & Hl & Hlogs). rewrite Hl in Hrec.
    apply list_elem_of_singleton in Hrec as [= <- _]. by exists h, hd, resp, a, request.
  - rewrite Hlen. unfold Dropped in Hdrop. rewrite Hd in Hdrop. rewrite Hdrop.
    assert (Hsum : map_sum kept gs + dropped gs = map_sum (worth 0) (sy_handlers sy)).
    { unfold dropped. rewrite <- map_sum_add.
      apply (concluded_sum s gs sy _ (worth_of 0) Hi Hcn).
      intros r t0 tr resp Han.
      by apply (answered_logged s r t0). }
    pose proof (worth_bound 0 sy). pose proof (cn_size _ Hcn).
    assert (0 <= dropped gs /\ 0 <= map_sum kept gs) as [Hd0 Hk0].
    { split; apply map_sum_nonneg; intros; unfold drops, kept; lia. }
    rewrite uint64_id; [done|]. unfold_int. lia.
Qed.

(** C12: the log of a running server. In every interleaving with a decision log, once
    every handler has finished and while the log is open: every line, written or
    waiting, is the entry of an answered auction and says what was answered, and the
    lines and the counted drops together are as many as the answered auctions. *)
Theorem log_concurrent {W} `{HL : BidStoreLaws W} (s : Server W) now sy d :
  auctioneer_ok (sv_auctioneer s) -> bootable s now -> rtc sys_step (boot s now) sy -> concluded sy ->
  sv_decisionLogger (sy_server sy) = Some d ->
  (forall entry, entry ∈ dl_written d ++ dl_entries d ->
     exists h hd resp a request, sy_handlers sy !! h = Some hd /\ response hd = Some resp /\ answer_of resp = Some a
       /\ auction_input (h_request hd) = Some request /\ logs (req_PlacementID request) a entry)
  /\ Z.of_nat (length (dl_written d ++ dl_entries d)) + dl_dropped d = map_sum (worth 0) (sy_handlers sy).
Proof. apply concluded_log. Qed.
