(* ===== verification/Shutdown.v ===== *)
(** * The end of the process (cmd/adserver/main.go)

    [main] after the server is built: it listens until a signal or a failure of the
    listener, then shuts the HTTP servers down, closes the store and the decision log,
    and returns; interleaved with the running server of [System]. *)

From S2P Require Import Prelude GoInt GoTime GoString GoParse Types Ranking DynamicBids Store BidStore Cache CacheRun.
From S2P Require Import Auction AuctionProps Engine EngineInv DecisionLog Metrics Config Server ServerProps Handlers HandlerSpec System SystemInv SystemProps.
Open Scope string_scope.
Open Scope list_scope.
Open Scope Z_scope.

(** ** The HTTP servers *)

Record http_server := mkHttpServer {
  hs_Addr : string;
  hs_ReadHeaderTimeout : Duration;
  hs_ReadTimeout : Duration;
  hs_WriteTimeout : Duration;
  hs_IdleTimeout : Duration;
  hs_MaxHeaderBytes : Z
}.

Definition httpServer (config : Config) : http_server :=
  mkHttpServer (c_HTTPAddr config) (2 * Second) (3 * Second) (3 * Second) (60 * Second) (Z.shiftl 16 10).

(** The profiler's server, if it is enabled. *)
Definition debugServer (config : Config) : option http_server :=
  if negb (String.eqb (c_DebugAddr config) "")
  then Some (mkHttpServer (c_DebugAddr config) Second 0 0 0 0) else None.

(** ** The phases of main *)

(** Waiting for the context; in [httpServer.Shutdown], with the deadline of the
    context; in [debugServer.Shutdown], with the same; before [store.Close]; before the
    deferred [server.Close]; in it, until the log is written; and returned. [idle]:
    every handler had returned when [httpServer.Shutdown] did. *)
Inductive phase :=
  | Listening
  | Draining (deadline : Time)
  | DebugDraining (deadline : Time) (idle : bool)
  | Drained (idle : bool)
  | StoreClosed (idle : bool)
  | LogClosing (idle : bool)
  | Gone (idle : bool).

(** [PSystem]: a step of the server; [PCancel]: a signal, or the listener has failed;
    [PProfile]: some connection of the debug server has become active, or none is any
    more; then the steps of [main]. *)
Inductive process_event :=
  | PSystem (ev : sys_event)
  | PCancel
  | PProfile (active : bool)
  | PShutdown
  | PIdle
  | PTimeout
  | PDebugDown
  | PDebugTimeout
  | PStoreClose
  | PServerClose
  | PExit.

Section process.
Context {W : Type} `{BidStore W} (config : Config).

(** [pr_profiled]: whether the debug server has an active connection. *)
Record process := mkProcess { pr_system : system W; pr_cancelled : bool; pr_profiled : bool; pr_phase : phase }.

Definition listening (s : Server W) (now : Time) : process := mkProcess (boot s now) false false Listening.

(** Whether a request can still arrive: a connection that was accepted before
    [Shutdown] may send one until it is closed. *)
Definition admits (p : phase) : bool :=
  match p with
  | Listening | Draining _ => true
  | DebugDraining _ idle | Drained idle | StoreClosed idle | LogClosing idle => negb idle
  | Gone _ => false
  end.

Definition gone (p : phase) : bool := match p with Gone _ => true | _ => false end.

Definition all_finished (sy : system W) : bool :=
  forallb (fun x => finished (h_prog x.2)) (map_to_list (sy_handlers sy)).

(** After [httpServer.Shutdown]: the debug server, if there is one. *)
Definition after_shutdown (deadline : Time) (idle : bool) : phase :=
  match debugServer config with Some _ => DebugDraining deadline idle | None => Drained idle end.

(** The log of [server.Close] has been written, or there is none. *)
Definition log_done (sy : system W) : bool :=
  match sv_decisionLogger (sy_server sy) with Some d => dl_done d | None => true end.

Definition close_log (sy : system W) : system W := default sy (sys_exec YLogClose sy).

Definition process_exec (ev : process_event) (p : process) : option process :=
  match ev with
  | PSystem ev =>
      let allowed := match ev with YArrive _ _ => admits (pr_phase p) | YLogClose => false | _ => negb (gone (pr_phase p)) end in
      if allowed then sy ← sys_exec ev (pr_system p); Some {| p with pr_system := sy |} else None
  | PCancel => Some {| p with pr_cancelled := true |}
  | PProfile active => if gone (pr_phase p) then None else Some {| p with pr_profiled := active |}
  | PShutdown =>
      match pr_phase p with
      | Listening =>
          if pr_cancelled p then Some {| p with pr_phase := Draining (time_Add (sy_now (pr_system p)) (5 * Second)) |} else None
      | _ => None
      end
  | PIdle =>
      match pr_phase p with
      | Draining deadline => if all_finished (pr_system p) then Some {| p with pr_phase := after_shutdown deadline true |} else None
      | _ => None
      end
  | PTimeout =>
      match pr_phase p with
      | Draining deadline => if deadline <=? sy_now (pr_system p) then Some {| p with pr_phase := after_shutdown deadline false |} else None
      | _ => None
      end
  | PDebugDown =>
      match pr_phase p with
      | DebugDraining _ idle => if negb (pr_profiled p) then Some {| p with pr_phase := Drained idle |} else None
      | _ => None
      end
  | PDebugTimeout =>
      match pr_phase p with
      | DebugDraining deadline idle => if deadline <=? sy_now (pr_system p) then Some {| p with pr_phase := Drained idle |} else None
      | _ => None
      end
  | PStoreClose => match pr_phase p with Drained idle => Some {| p with pr_phase := StoreClosed idle |} | _ => None end
  | PServerClose =>
      match pr_phase p with
      | StoreClosed idle => Some {| p with pr_phase := LogClosing idle; pr_system := close_log (pr_system p) |}
      | _ => None
      end
  | PExit =>
      match pr_phase p with
      | LogClosing idle => if log_done (pr_system p) then Some {| p with pr_phase := Gone idle |} else None
      | _ => None
      end
  end.

Fixpoint process_exec_all (evs : list process_event) (p : process) : option process :=
  match evs with
  | [] => Some p
  | ev :: evs => p ← process_exec ev p; process_exec_all evs p
  end.
End process.

Arguments process W : clear implicits.

(** ** What the log goes through *)

Section shutdown_facts.
Context {W : Type} `{HL : BidStoreLaws W} (config : Config).

Definition closed_of (sy : system W) : option bool := dl_closed <$> sv_decisionLogger (sy_server sy).

Lemma do_cache_log ev (sy sy2 : system W) : do_cache ev sy = Some sy2 ->
  sv_decisionLogger (sy_server sy2) = sv_decisionLogger (sy_server sy) /\ sy_handlers sy2 = sy_handlers sy.
Proof. unfold do_cache. destruct (CacheRun.exec _ _); [|done]. by intros [= <-]. Qed.

Lemma do_engine_log ev (sy sy2 : system W) : do_engine ev sy = Some sy2 ->
  sv_decisionLogger (sy_server sy2) = sv_decisionLogger (sy_server sy) /\ sy_handlers sy2 = sy_handlers sy.
Proof. unfold do_engine. destruct (engine_view sy); [|done]. destruct (engine_exec _ _); [|done]. by intros [= <-]. Qed.

Lemma Record_closed entry o o2 r : Record_entry entry o = (o2, r) -> dl_closed <$> o2 = dl_closed <$> o.
Proof. destruct o as [d|]; simpl; [|by intros [= <- <-]]. destruct (dl_closed d) eqn:E; [|case_match]; intros [= <- <-]; simpl; congruence. Qed.

Lemma run_step_keeps d d2 : run_step d = Some d2 ->
  dl_closed d2 = dl_closed d /\ dl_written d2 ++ dl_entries d2 = dl_written d ++ dl_entries d /\ dl_dropped d2 = dl_dropped d.
Proof.
  unfold run_step. destruct (dl_done d); [done|]. destruct (dl_entries d) as [|x rest] eqn:E.
  - destruct (dl_closed d) eqn:Ec; [|done]. intros [= <-]. simpl. by rewrite ?E, ?Ec.
  - intros [= <-]. simpl. by rewrite <- app_assoc.
Qed.

Lemma handler_step_closed tid p p2 (sy sy2 : system W) : handler_step tid p sy = Some (p2, sy2) -> closed_of sy2 = closed_of sy.
Proof.
  unfold closed_of. destruct p; simpl; intros Hs; try done;
    try (injection Hs as <- <-; done);
    try (destruct (do_cache _ sy) eqn:E in Hs; [|done]; injection Hs as <- <-; by rewrite (proj1 (do_cache_log _ _ _ E)));
    try (destruct (do_engine _ sy) eqn:E in Hs; [|done]; injection Hs as <- <-; by rewrite (proj1 (do_engine_log _ _ _ E))).
  - destruct (engine_view sy); [|done]. destruct (do_engine _ sy) eqn:E in Hs; [|done]. injection Hs as <- <-.
    by rewrite (proj1 (do_engine_log _ _ _ E)).
  - destruct (BidCache_Get _ _ _). by injection Hs as <- <-.
  - destruct (Record_entry _ _) as [d r] eqn:E. injection Hs as <- <-. simpl. by eapply Record_closed.
Qed.

(** Only [Close] closes the log. *)
Lemma sys_exec_closed ev (sy sy2 : system W) : ev <> YLogClose -> sys_exec ev sy = Some sy2 -> closed_of sy2 = closed_of sy.
Proof.
  intros Hne Hx. destruct ev as [h r|h tid|ev|ev| | |now]; simpl in Hx; try done.
  - destruct (sy_handlers sy !! h); [done|]. by injection Hx as <-.
  - destruct (sy_handlers sy !! h) as [hd|]; [|done]. destruct (handler_step tid (h_prog hd) sy) as [[p sy1]|] eqn:E; [|done].
    injection Hx as <-. by apply handler_step_closed in E.
  - assert (Hd : do_cache ev sy = Some sy2) by (by destruct ev). unfold closed_of. by rewrite (proj1 (do_cache_log _ _ _ Hd)).
  - destruct (background ev); [|done]. unfold closed_of. by rewrite (proj1 (do_engine_log _ _ _ Hx)).
  - unfold do_log, closed_of in *. destruct (sv_decisionLogger (sy_server sy)) as [d|]; [|done].
    destruct (run_step d) as [d2|] eqn:E; [|done]. injection Hx as <-. simpl. by rewrite (proj1 (run_step_keeps _ _ E)).
  - destruct (_ <=? _); [|done]. by injection Hx as <-.
Qed.

Lemma log_open_closed (sy : system W) : log_open sy <-> closed_of sy <> Some true.
Proof.
  unfold log_open, closed_of. destruct (sv_decisionLogger (sy_server sy)) as [d|]; simpl; [|by split].
  split; [intros Ho; rewrite (Ho d eq_refl); done|]. intros Hne d' [= <-]. destruct (dl_closed d); congruence.
Qed.

Lemma all_finished_ok (sy : system W) : all_finished sy = true -> forall h hd, sy_handlers sy !! h = Some hd -> finished (h_prog hd) = true.
Proof.
  unfold all_finished. rewrite forallb_forall. intros Hall h hd Hh. apply (Hall (h, hd)). by apply list_elem_of_In, elem_of_map_to_list.
Qed.

(** The log since [sy0], when no handler is left. *)
Definition log_since (sy0 sy : system W) : Prop :=
  sy_handlers sy = sy_handlers sy0
  /\ match sv_decisionLogger (sy_server sy0), sv_decisionLogger (sy_server sy) with
     | Some d0, Some d => dl_written d ++ dl_entries d = dl_written d0 ++ dl_entries d0 /\ dl_dropped d = dl_dropped d0
     | None, None => True
     | _, _ => False
     end.

Lemma log_since_refl sy : log_since sy sy.
Proof. split; [done|]. by destruct (sv_decisionLogger _). Qed.

Lemma log_since_same sy0 sy sy2 : log_since sy0 sy -> sy_handlers sy2 = sy_handlers sy ->
  sv_decisionLogger (sy_server sy2) = sv_decisionLogger (sy_server sy) -> log_since sy0 sy2.
Proof. intros [Hh Hl] Hh2 Hl2. split; [congruence|]. by rewrite Hl2. Qed.

Lemma log_since_exec ev sy0 (sy sy2 : system W) :
  log_since sy0 sy -> all_finished sy0 = true -> (forall h r, ev <> YArrive h r) -> sys_exec ev sy = Some sy2 -> log_since sy0 sy2.
Proof.
  intros Hl Hf Hna Hx. destruct ev as [h r|h tid|ev|ev| | |now]; simpl in Hx.
  - by destruct (Hna h r).
  - destruct (sy_handlers sy !! h) as [hd|] eqn:Eh; [|done]. rewrite (proj1 Hl) in Eh.
    pose proof (all_finished_ok _ Hf h hd Eh) as Hfin. by destruct (h_prog hd).
  - assert (Hd : do_cache ev sy = Some sy2) by (by destruct ev). destruct (do_cache_log _ _ _ Hd). by eapply log_since_same.
  - destruct (background ev); [|done]. destruct (do_engine_log _ _ _ Hx). by eapply log_since_same.
  - unfold do_log in Hx. destruct Hl as [Hh Hl]. destruct (sv_decisionLogger (sy_server sy)) as [d|] eqn:Ed; [|done].
    destruct (run_step d) as [d2|] eqn:E; [|done]. injection Hx as <-. split; [done|]. simpl.
    destruct (sv_decisionLogger (sy_server sy0)); [|done]. destruct (run_step_keeps _ _ E) as (_ & -> & ->). done.
  - unfold do_log in Hx. destruct Hl as [Hh Hl]. destruct (sv_decisionLogger (sy_server sy)) as [d|] eqn:Ed; [|done].
    injection Hx as <-. split; [done|]. simpl. by destruct (sv_decisionLogger (sy_server sy0)).
  - destruct (_ <=? _); [|done]. injection Hx as <-. by eapply log_since_same.
Qed.

(** ** The invariant *)

Definition process_event_ok (ev : process_event) : Prop := match ev with PSystem ev => sys_event_ok ev | _ => True end.
Definition process_step (p p2 : process W) : Prop := exists ev, process_event_ok ev /\ process_exec config ev p = Some p2.

(** [sy] is what became of a state [sy0] in which the log was open and no handler left. *)
Definition ended_well (s : Server W) (now : Time) (sy : system W) : Prop :=
  exists sy0, rtc sys_step (boot s now) sy0 /\ log_open sy0 /\ all_finished sy0 = true /\ log_since sy0 sy.

Definition phase_ok (s : Server W) (now : Time) (sy : system W) (ph : phase) : Prop :=
  match ph with
  | Listening | Draining _ => log_open sy
  | DebugDraining _ idle | Drained idle | StoreClosed idle => log_open sy /\ (idle = true -> all_finished sy = true)
  | LogClosing idle => closed_of sy <> Some false /\ (idle = true -> ended_well s now sy)
  | Gone idle => log_done sy = true /\ (idle = true -> ended_well s now sy)
  end.

Definition process_ok (s : Server W) (now : Time) (p : process W) : Prop :=
  rtc sys_step (boot s now) (pr_system p) /\ phase_ok s now (pr_system p) (pr_phase p).

Lemma close_log_steps (sy : system W) : rtc sys_step sy (close_log sy) /\ log_since sy (close_log sy).
Proof.
  unfold close_log. destruct (sys_exec YLogClose sy) as [sy2|] eqn:Ex; simpl; [|split; [done|apply log_since_refl]].
  split; [apply rtc_once; by exists YLogClose|]. simpl in Ex. unfold do_log in Ex.
  destruct (sv_decisionLogger (sy_server sy)) as [d|] eqn:Ed; [|done]. injection Ex as <-. split; [done|]. simpl. by rewrite Ed.
Qed.

Lemma close_log_closed (sy : system W) : closed_of (close_log sy) <> Some false.
Proof.
  unfold close_log, closed_of, sys_exec, do_log. destruct (sv_decisionLogger (sy_server sy)) as [d|] eqn:Ed; simpl; [done|].
  by rewrite Ed.
Qed.

Lemma sys_exec_finished ev (sy sy2 : system W) :
  all_finished sy = true -> (forall h r, ev <> YArrive h r) -> sys_exec ev sy = Some sy2 -> all_finished sy2 = true.
Proof.
  intros Hf Hna Hx. destruct (log_since_exec ev sy sy sy2 (log_since_refl sy) Hf Hna Hx) as [Hh _].
  unfold all_finished. by rewrite Hh.
Qed.

(** A step of the server keeps what the phase promises. *)
Lemma phase_ok_exec s now ev (sy sy2 : system W) ph :
  (match ev with YArrive _ _ => admits ph | YLogClose => false | _ => negb (gone ph) end) = true ->
  sys_exec ev sy = Some sy2 -> phase_ok s now sy ph -> phase_ok s now sy2 ph.
Proof.
  intros Hall Hx Hp. assert (Hne : ev <> YLogClose) by (by intros ->).
  assert (Hop : log_open sy -> log_open sy2) by (rewrite !log_open_closed, (sys_exec_closed _ _ _ Hne Hx); done).
  assert (Hna : admits ph = false -> forall h r, ev <> YArrive h r) by (intros Ha h r ->; congruence).
  destruct ph as [|t|t i|i|i|i|i]; simpl in *; auto.
  1-3: destruct Hp as [Ho Hf]; split; [by apply Hop|]; intros ->; eapply sys_exec_finished; [by apply Hf|by apply Hna|done].
  - destruct Hp as [Hc Hp]. rewrite (sys_exec_closed _ _ _ Hne Hx). split; [done|]. intros ->.
    destruct (Hp eq_refl) as (sy0 & Hr & Ho & Hf & Hl). exists sy0. split_and!; try done.
    eapply log_since_exec; [done|done|by apply Hna|done].
  - by destruct ev.
Qed.

Lemma process_exec_ok s now ev (p p2 : process W) :
  process_ok s now p -> process_event_ok ev -> process_exec config ev p = Some p2 -> process_ok s now p2.
Proof.
  intros [Hr Hp] Hev Hx. destruct p as [sy c pf ph]. simpl in *. unfold process_ok.
  assert (Hafter : forall t i, log_open sy -> (i = true -> all_finished sy = true) -> phase_ok s now sy (after_shutdown config t i)).
  { intros t i Ho Hi. unfold after_shutdown. by destruct (debugServer config). }
  destruct ev as [ev| |active| | | | | | | |]; simpl in Hx.
  - destruct (match ev with YArrive _ _ => _ | YLogClose => _ | _ => _ end) eqn:Eall; [|done].
    apply bind_Some in Hx as (sy2 & Hx & [= <-]). simpl. split; [eapply rtc_r; [exact Hr|by exists ev]|by eapply phase_ok_exec].
  - by injection Hx as <-.
  - destruct (gone ph); [done|]. by injection Hx as <-.
  - destruct ph; try done. destruct c; [|done]. by injection Hx as <-.
  - destruct ph; try done. destruct (all_finished sy) eqn:Ef; [|done]. injection Hx as <-. simpl. split; [done|by apply Hafter].
  - destruct ph; try done. destruct (_ <=? _); [|done]. injection Hx as <-. simpl. split; [done|by apply Hafter].
  - destruct ph; try done. destruct pf; [done|]. by injection Hx as <-.
  - destruct ph; try done. destruct (_ <=? _); [|done]. by injection Hx as <-.
  - destruct ph; try done. by injection Hx as <-.
  - destruct ph as [|t|t i|i|i|i|i]; try done. injection Hx as <-. destruct (close_log_steps sy) as [Hs Hl]. simpl in *.
    split; [by etrans|]. split; [apply close_log_closed|]. intros ->. exists sy. destruct Hp as [Ho Hf]. by split_and!; auto.
  - destruct ph; try done. destruct (log_done sy) eqn:Ed; [|done]. injection Hx as <-. simpl in *. by destruct Hp.
Qed.

Lemma process_reachable s now (p : process W) :
  log_open (boot s now) -> rtc process_step (listening s now) p -> process_ok s now p.
Proof.
  intros Ho Hr. apply (rtc_invariant process_step (process_ok s now)) with (listening s now); [|done|by split].
  intros a b Hok (ev & Hev & Hx). by eapply process_exec_ok.
Qed.

(** What a process that has ended well has done. *)
Lemma ended_well_accounts s now (sy : system W) :
  auctioneer_ok (sv_auctioneer s) -> bootable s now -> rtc sys_step (boot s now) sy -> ended_well s now sy -> log_done sy = true ->
  Z.of_nat (size (sy_handlers sy)) < 2 ^ 64 ->
  (forall h hd, sy_handlers sy !! h = Some hd -> is_Some (response hd))
  /\ (forall d, sv_decisionLogger (sy_server sy) = Some d ->
        dl_entries d = [] /\ Z.of_nat (length (dl_written d)) + dl_dropped d = map_sum (worth 0) (sy_handlers sy)
        /\ forall entry, entry ∈ dl_written d -> exists h hd resp a request, sy_handlers sy !! h = Some hd /\ response hd = Some resp
              /\ answer_of resp = Some a /\ auction_input (h_request hd) = Some request /\ logs (req_PlacementID request) a entry).
Proof.
  intros Ha Hb Hr (sy0 & Hr0 & Ho & Hf & Hh & Hl) Hdone Hsize. rewrite Hh in *.
  pose proof (all_finished_ok _ Hf) as Hfin. assert (Hcn : concluded sy0) by (by split).
  destruct (sys_reachable_inv s Ha now sy0 Hb Hr0) as (gs0 & Hi0 & _). split.
  - intros h hd Hh0. eapply (finished_responded s); eauto.
  - intros d Hd. rewrite Hd in Hl. destruct (sv_decisionLogger (sy_server sy0)) as [d0|] eqn:Ed0; [|done]. destruct Hl as [Hq Hdr].
    destruct (sys_reachable_inv s Ha now sy Hb Hr) as (gs & Hi & _). destruct (si_log _ _ _ Hi) as (_ & Hlog & _).
    destruct (Hlog d Hd) as (Hok & _). unfold log_done in Hdone. rewrite Hd in Hdone.
    destruct (lo_done _ Hok Hdone) as [_ He]. rewrite He, app_nil_r in Hq.
    destruct (concluded_log s now sy0 d0 Ha Hb Hr0 Hcn Ed0) as [Hlines Hsum]. rewrite <- Hq in *. rewrite Hdr. by split_and!.
Qed.

(** ** Progress *)

(** [main] waits for a signal; before the deadline for the handlers, and for the
    connections of the debug server; or for the log's writer; or it has returned. *)
Definition main_waits (p : process W) : Prop :=
  match pr_phase p with
  | Listening => pr_cancelled p = false
  | Draining deadline => sy_now (pr_system p) < deadline /\ all_finished (pr_system p) = false
  | DebugDraining deadline _ => sy_now (pr_system p) < deadline /\ pr_profiled p = true
  | LogClosing _ => log_done (pr_system p) = false
  | Gone _ => True
  | _ => False
  end.

#[export] Instance main_waits_dec (p : process W) : Decision (main_waits p).
Proof. unfold main_waits. destruct (pr_phase p); apply _. Defined.

Definition of_main (ev : process_event) : bool := match ev with PSystem _ | PCancel | PProfile _ => false | _ => true end.

(** How many steps [main] has left. *)
Definition phase_steps (ph : phase) : nat :=
  match ph with
  | Listening => 6 | Draining _ => 5 | DebugDraining _ _ => 4 | Drained _ => 3 | StoreClosed _ => 2 | LogClosing _ => 1 | Gone _ => 0
  end.

Definition main_left (p : process W) : nat := phase_steps (pr_phase p).

Lemma main_moves (p : process W) : ~ main_waits p -> exists ev p2, of_main ev = true /\ process_exec config ev p = Some p2.
Proof.
  intros Hw. destruct p as [sy c pf ph]. unfold main_waits in Hw. simpl in Hw. destruct ph as [|t|t i|i|i|i|i].
  - exists PShutdown. simpl. destruct c; [by eexists|done].
  - destruct (all_finished sy) eqn:Ef.
    + exists PIdle. simpl. rewrite Ef. by eexists.
    + exists PTimeout. simpl. destruct (Z.leb_spec t (sy_now sy)); [by eexists|]. by destruct Hw.
  - destruct pf.
    + exists PDebugTimeout. simpl. destruct (Z.leb_spec t (sy_now sy)); [by eexists|]. by destruct Hw.
    + exists PDebugDown. by eexists.
  - exists PStoreClose. by eexists.
  - exists PServerClose. by eexists.
  - exists PExit. simpl. destruct (log_done sy); [by eexists|done].
  - done.
Qed.

Lemma after_steps t i : (phase_steps (after_shutdown config t i) < 5)%nat.
Proof. unfold after_shutdown. destruct (debugServer config); simpl; lia. Qed.

Lemma main_step_left ev (p p2 : process W) : process_exec config ev p = Some p2 ->
  if of_main ev then (main_left p2 < main_left p)%nat else main_left p2 = main_left p.
Proof.
  intros Hx. destruct p as [sy c pf ph]. unfold main_left. destruct ev; simpl in *.
  - destruct (match ev with YArrive _ _ => _ | YLogClose => _ | _ => _ end); [|done]. by apply bind_Some in Hx as (sy2 & _ & [= <-]).
  - by injection Hx as <-.
  - destruct (gone ph); [done|]. by injection Hx as <-.
  - destruct ph; try done. destruct c; [|done]. injection Hx as <-. simpl. lia.
  - destruct ph; try done. destruct (all_finished sy); [|done]. injection Hx as <-. apply after_steps.
  - destruct ph; try done. destruct (_ <=? _); [|done]. injection Hx as <-. apply after_steps.
  - destruct ph; try done. destruct (negb _); [|done]. injection Hx as <-. simpl. lia.
  - destruct ph; try done. destruct (_ <=? _); [|done]. injection Hx as <-. simpl. lia.
  - destruct ph; try done. injection Hx as <-. simpl. lia.
  - destruct ph; try done. injection Hx as <-. simpl. lia.
  - destruct ph; try done. destruct (log_done sy); [|done]. injection Hx as <-. simpl. lia.
Qed.

(** The steps of [main] in an execution. *)
Definition main_steps (evs : list process_event) : nat := length (List.filter of_main evs).

Lemma main_steps_left evs (p p2 : process W) : process_exec_all config evs p = Some p2 -> (main_steps evs + main_left p2 <= main_left p)%nat.
Proof.
  revert p. induction evs as [|ev evs IH]; simpl; intros p Hx; [injection Hx as <-; done|].
  apply bind_Some in Hx as (p1 & H1 & Hx). pose proof (main_step_left _ _ _ H1). specialize (IH _ Hx).
  unfold main_steps in *. simpl. destruct (of_main ev); simpl; lia.
Qed.

(** The deadline of the two Shutdowns is the one the first was given. *)
Definition deadline_is (deadline : Time) (ph : phase) : Prop :=
  match ph with Listening => False | Draining t | DebugDraining t _ => t = deadline | _ => True end.

Lemma deadline_kept deadline ev (p p2 : process W) :
  deadline_is deadline (pr_phase p) -> process_exec config ev p = Some p2 -> deadline_is deadline (pr_phase p2).
Proof.
  intros Hd Hx. destruct p as [sy c pf ph].
  assert (Hafter : forall t i, t = deadline -> deadline_is deadline (after_shutdown config t i))
    by (intros t i ->; unfold after_shutdown; by destruct (debugServer config)).
  destruct ev; simpl in *.
  - destruct (match ev with YArrive _ _ => _ | YLogClose => _ | _ => _ end); [|done]. by apply bind_Some in Hx as (sy2 & _ & [= <-]).
  - by injection Hx as <-.
  - destruct (gone ph); [done|]. by injection Hx as <-.
  - by destruct ph.
  - destruct ph; try done. destruct (all_finished sy); [|done]. injection Hx as <-. by apply Hafter.
  - destruct ph; try done. destruct (_ <=? _); [|done]. injection Hx as <-. by apply Hafter.
  - destruct ph; try done. destruct (negb _); [|done]. by injection Hx as <-.
  - destruct ph; try done. destruct (_ <=? _); [|done]. by injection Hx as <-.
  - destruct ph; try done. by injection Hx as <-.
  - destruct ph; try done. by injection Hx as <-.
  - destruct ph; try done. destruct (log_done sy); [|done]. by injection Hx as <-.
Qed.

Lemma process_exec_all_ok s now deadline evs (p p2 : process W) :
  process_ok s now p -> deadline_is deadline (pr_phase p) -> Forall process_event_ok evs -> process_exec_all config evs p = Some p2 ->
  process_ok s now p2 /\ deadline_is deadline (pr_phase p2).
Proof.
  revert p. induction evs as [|ev evs IH]; simpl; intros p Hp Hd Hok Hx; [by injection Hx as <-|].
  apply Forall_cons in Hok as [Hev Hok]. apply bind_Some in Hx as (p1 & H1 & Hx).
  eapply IH; [by eapply process_exec_ok|by eapply deadline_kept|done|done].
Qed.

(** While [main] waits for the log, the writer has a step. *)
Lemma writer_moves (sy : system W) : closed_of sy <> Some false -> log_done sy = false -> exists sy2, sys_exec YLogWrite sy = Some sy2.
Proof.
  unfold closed_of, log_done. simpl. unfold do_log. destruct (sv_decisionLogger (sy_server sy)) as [d|]; [|done]. simpl. intros Hc Hdn.
  unfold run_step. rewrite Hdn. destruct (dl_entries d); [destruct (dl_closed d); [|done]|]; by eexists.
Qed.

(** The steps of the log's writer until it is done. *)
Definition writer_left (sy : system W) : nat :=
  match sv_decisionLogger (sy_server sy) with Some d => if dl_done d then 0 else S (length (dl_entries d)) | None => 0 end.

Lemma write_left (sy sy2 : system W) : sys_exec YLogWrite sy = Some sy2 ->
  (writer_left sy2 < writer_left sy)%nat /\ sy_now sy2 = sy_now sy.
Proof.
  simpl. unfold do_log, writer_left. destruct (sv_decisionLogger (sy_server sy)) as [d|]; [|done].
  destruct (run_step d) as [d2|] eqn:E; [|done]. intros [= <-]. simpl. split; [|done]. unfold run_step in E.
  destruct (dl_done d); [done|]. destruct (dl_entries d) as [|x rest].
  - destruct (dl_closed d); [|done]. injection E as <-. simpl. lia.
  - injection E as <-. simpl. destruct (dl_done d); simpl; lia.
Qed.

Lemma close_log_left (sy : system W) : (writer_left (close_log sy) <= writer_left sy)%nat /\ sy_now (close_log sy) = sy_now sy.
Proof.
  unfold close_log, writer_left, sys_exec, do_log. destruct (sv_decisionLogger (sy_server sy)) as [d|] eqn:Ed; simpl; [|by rewrite Ed].
  by destruct (dl_done d).
Qed.

Definition main_or_writer (ev : process_event) : Prop := of_main ev = true \/ ev = PSystem YLogWrite.

(** At the deadline [main] and the log's writer end the process by themselves. *)
Lemma runs_out s now deadline (p : process W) :
  process_ok s now p -> deadline_is deadline (pr_phase p) -> deadline <= sy_now (pr_system p) ->
  exists evs p2, Forall main_or_writer evs /\ (length evs <= main_left p + writer_left (pr_system p))%nat
    /\ process_exec_all config evs p = Some p2 /\ gone (pr_phase p2) = true.
Proof.
  remember (main_left p + writer_left (pr_system p))%nat as fuel eqn:Hfuel. revert p Hfuel.
  induction fuel as [fuel IH] using lt_wf_ind. intros p Hfuel Hp Hd Hnow.
  assert (Hgo : forall ev p1, main_or_writer ev -> process_event_ok ev -> process_exec config ev p = Some p1 ->
    sy_now (pr_system p1) = sy_now (pr_system p) ->
    (main_left p1 + writer_left (pr_system p1) < main_left p + writer_left (pr_system p))%nat ->
    exists evs p2, Forall main_or_writer evs /\ (length evs <= fuel)%nat
      /\ process_exec_all config evs p = Some p2 /\ gone (pr_phase p2) = true).
  { intros ev p1 Hev Hok Hx Hn Hlt.
    destruct (IH (main_left p1 + writer_left (pr_system p1))%nat ltac:(lia) p1 eq_refl) as (evs & p2 & Hall & Hlen & Hx2 & Hg);
      [by eapply process_exec_ok|by eapply deadline_kept|lia|].
    exists (ev :: evs), p2. split_and!; [by constructor|simpl; lia| |done]. simpl. by rewrite Hx. }
  pose proof (fun ev p1 H => main_step_left ev p p1 H) as Hleft.
  destruct (decide (main_waits p)) as [Hw|Hw].
  - unfold main_waits in Hw. destruct (pr_phase p) as [|t|t i|i|i|i|i] eqn:Eph; simpl in Hd; try done; try lia.
    + destruct Hp as [_ Hp]. rewrite Eph in Hp. destruct Hp as [Hcl _]. destruct (writer_moves _ Hcl Hw) as [sy2 Hx].
      destruct (write_left _ _ Hx) as [Hlt Hn]. apply (Hgo (PSystem YLogWrite) {| p with pr_system := sy2 |}); simpl; try done; [by right| |].
      * rewrite Eph. simpl in Hx. by rewrite Hx.
      * unfold main_left. simpl. lia.
    + exists [], p. split_and!; [constructor|simpl; lia|done|by rewrite Eph].
  - destruct (main_moves p Hw) as (ev & p1 & Hev & Hx). specialize (Hleft ev p1 Hx). rewrite Hev in Hleft.
    assert (Hsame : (writer_left (pr_system p1) <= writer_left (pr_system p))%nat /\ sy_now (pr_system p1) = sy_now (pr_system p)).
    { destruct p as [sy c pf ph], ev; simpl in Hev, Hx; try done; destruct ph; try done;
        try (match type of Hx with (if ?b then _ else _) = _ => destruct b; [|done] end); injection Hx as <-; simpl;
        try (split; [done|done]). apply close_log_left. }
    destruct Hsame. apply (Hgo ev p1); [by left|by destruct ev|done|done|lia].
Qed.
End shutdown_facts.

(** ** The end of the process *)

(** C16: a shutdown that found the server idle loses nothing. When [main] has returned
    and [Shutdown] did before its deadline: every request that ever arrived has been
    answered, none by a panic; the log's writer has written everything; and what it
    wrote are entries of answered auctions, which together with the counted drops are
    as many as the answered auctions. *)
Theorem shutdown_loses_nothing {W} `{HL : BidStoreLaws W} config (s : Server W) now p :
  auctioneer_ok (sv_auctioneer s) -> bootable s now -> log_open (boot s now) -> rtc (process_step config) (listening s now) p ->
  pr_phase p = Gone true -> Z.of_nat (size (sy_handlers (pr_system p))) < 2 ^ 64 ->
  (forall h hd, sy_handlers (pr_system p) !! h = Some hd -> is_Some (response hd))
  /\ (forall d, sv_decisionLogger (sy_server (pr_system p)) = Some d ->
        dl_entries d = [] /\ Z.of_nat (length (dl_written d)) + dl_dropped d = map_sum (worth 0) (sy_handlers (pr_system p))
        /\ forall entry, entry ∈ dl_written d -> exists h hd resp a request,
             sy_handlers (pr_system p) !! h = Some hd /\ response hd = Some resp /\ answer_of resp = Some a
             /\ auction_input (h_request hd) = Some request /\ logs (req_PlacementID request) a entry).
Proof.
  intros Ha Hb Ho Hr Hp Hsize. destruct (process_reachable config s now p Ho Hr) as [Hs Hok]. rewrite Hp in Hok. destruct Hok as [Hd Hw].
  apply (ended_well_accounts s now); auto.
Qed.

