(* ===== verification/SystemLive.v ===== *)
(** * No handler waits for another

    How many steps a handler takes, what it touches, and that its next step is always
    enabled, whatever the other goroutines of the process do. *)

From S2P Require Import Prelude GoInt Utf8 Json JsonCodec.
From S2P Require Import Prelude GoInt GoTime GoString GoParse Types Ranking DynamicBids Store BidStore Samples Cache CacheRun.
From S2P Require Import CacheProps Auction AuctionProps Engine EngineInv EngineProps DecisionLog Metrics Config Server ServerProps.
From S2P Require Import Handlers HandlerSpec System SystemInv SystemProps.
Open Scope string_scope.
Open Scope list_scope.
Open Scope Z_scope.

(** ** The length of a program *)

(** [p] takes at most [n] steps; it uses the bidder engine only if there is one, and
    the registry only if [store] is set. A call of [Trigger] takes up to four. *)
Fixpoint shape (engine store : bool) (n : nat) (p : prog) {struct p} : Prop :=
  match p with
  | Return _ | Panic => True
  | InTrigger _ _ => False
  | DoTrigger _ k => engine = true /\ match n with S (S (S (S m))) => shape engine store m k | _ => False end
  | DoLookup _ k => engine = true /\ match n with S m => forall bids, shape engine store m (k bids) | O => False end
  | Now k => match n with S m => forall t, shape engine store m (k t) | O => False end
  | DoGet _ k => match n with S m => forall bids snapshot, shape engine store m (k bids snapshot) | O => False end
  | DoRefreshAsync _ k | Count _ k => match n with S m => shape engine store m k | O => False end
  | NextNumber k => match n with S m => forall x, shape engine store m (k x) | O => False end
  | DoRecord _ k => match n with S m => forall result, shape engine store m (k result) | O => False end
  | DoUpsert _ k | DoDelete _ _ _ k | DoPing k =>
      store = true /\ match n with S m => forall e, shape engine store m (k e) | O => False end
  | Scrape k => match n with S m => forall resp, shape engine store m (k resp) | O => False end
  end.

Definition uses_store (e : endpoint) : bool :=
  match e with ToUpsertBid _ | ToDeleteBid _ | ToReady => true | _ => false end.

Section live.
Context {W : Type} `{HL : BidStoreLaws W}.

Definition has_engine (s : Server W) : bool := match sv_bidderEngine s with Some _ => true | None => false end.

(** The longest handler: an auction that triggers a refresh, finds a stale snapshot,
    makes up an ID and finds the log full. *)
Definition handler_steps : nat := 17.

Lemma shape_mono engine store n m p : (n <= m)%nat -> shape engine store n p -> shape engine store m p.
Proof.
  revert n m. induction p as [| |k IH|q k IH|q k IH|t k IH|pl k IH|pl k IH|k IH|f k IH|en k IH|b k IH|pl id rev k IH|k IH|k IH];
    intros n m Hle Hs; cbn [shape] in *; try done;
    try (destruct Hs as [He Hs]; split; [exact He|]);
    (destruct n as [|n]; [destruct Hs|]; destruct m as [|m]; [lia|]).
  3: do 3 (destruct n as [|n]; [destruct Hs|]; destruct m as [|m]; [lia|]).
  all: try (intros x); try (intros y); eapply IH; [|apply Hs]; lia.
Qed.

Lemma shape_dynamic (s : Server W) store n request k :
  (forall dynamic, shape (has_engine s) store n (k dynamic)) -> shape (has_engine s) store (5 + n) (dynamic_prog s request k).
Proof.
  intros Hk. unfold dynamic_prog. destruct (sv_bidderEngine s) eqn:Ee.
  - split; [unfold has_engine; by rewrite Ee|]. intros dynamic. split; [unfold has_engine; by rewrite Ee|]. apply Hk.
  - apply (shape_mono _ _ n); [lia|apply Hk].
Qed.

Lemma shape_run engine store n a request dynamic k :
  (forall d, shape engine store n (k d)) -> shape engine store (3 + n) (run_prog a request dynamic k).
Proof.
  intros Hk. unfold run_prog. intros bids snapshot.
  assert (Hmore : forall d m, (n <= m)%nat -> shape engine store m (k d)) by (intros d m Hm; by apply (shape_mono _ _ n)).
  destruct (ss_Found snapshot); [|by apply Hmore; lia]. cbn [negb].
  destruct (ss_Stale snapshot), (ss_RejectStale snapshot); cbn [andb]; [apply Hmore; lia|intros now; apply Hmore; lia|
    intros now; apply Hmore; lia..].
Qed.

Lemma shape_requestID engine store n r k :
  (forall id, shape engine store n (k id)) -> shape engine store (S n) (requestID_prog r k).
Proof.
  intros Hk. unfold requestID_prog. destruct (negb _); [apply (shape_mono _ _ n); [lia|apply Hk]|intros x; apply Hk].
Qed.

Lemma shape_record engine store n (s : Server W) id p d k :
  (forall ok, shape engine store n (k ok)) -> shape engine store (2 + n) (recordDecision_prog s id p d k).
Proof.
  intros Hk. unfold recordDecision_prog. destruct (sv_decisionLogger s); [|apply (shape_mono _ _ n); [lia|apply Hk]].
  intros [[]|]; [apply (shape_mono _ _ n); [lia|apply Hk]|apply Hk|apply (shape_mono _ _ n); [lia|apply Hk]].
Qed.

Lemma shape_auction (s : Server W) r : shape (has_engine s) false handler_steps (auction_prog s r).
Proof.
  unfold auction_prog, handler_steps. intros started.
  destruct (decodeJSON Decode_AuctionRequest r) as [request|]; [|done]. destruct (AuctionRequest_Validate request); [done|].
  intros sel. apply (shape_dynamic s false 10). intros dynamic. apply (shape_run _ _ 7). intros d selected.
  apply (shape_requestID _ _ 5). intros id. apply (shape_record _ _ 2). intros ok finished. by destruct ok.
Qed.

(** Every handler is that short, and only three endpoints use the registry. *)
Lemma shape_Handler (s : Server W) r :
  shape (has_engine s) (uses_store (route (rq_method r) (rq_path r))) handler_steps (Handler_prog s r).
Proof.
  unfold Handler_prog. destruct (route (rq_method r) (rq_path r)) as [|id|id| | | | |]; [apply shape_auction|..]; try done.
  - unfold upsertBid_prog. destruct (authorized _ _); [|done]. cbn [negb]. destruct (decodeJSON _ _) as [b|]; [|done].
    case_test; [done|]. split; [done|]. intros [e|]; [|done]. simpl. by destruct (is_stale_error e).
  - unfold deleteBid_prog. destruct (authorized _ _); [|done]. cbn [negb]. destruct (ParseUint _) as [rev|]; [|done].
    split; [done|]. intros [e|]; [|done]. simpl. by destruct (is_stale_error e).
  - split; [done|]. by intros [e|].
Qed.

(** ** Budgets *)

Definition trigger_left (p : phase) : nat := match p with Missed => 3 | Marked => 2 | Skipping => 1 | _ => 0 end.

(** [p] still takes at most [n] steps in state [sy]. *)
Definition budget (engine store : bool) (n : nat) (p : prog) (sy : system W) : Prop :=
  match p with
  | InTrigger tid k => exists r m, sy_triggers sy !! tid = Some r /\ (0 < trigger_left (rf_phase r))%nat
      /\ (trigger_left (rf_phase r) + m <= n)%nat /\ engine = true /\ shape engine store m k
  | _ => shape engine store n p
  end.

(** The thread a handler is in the middle of triggering. *)
Definition triggering (p : prog) : option nat := match p with InTrigger tid _ => Some tid | _ => None end.

Lemma shape_budget engine store n p sy : shape engine store n p -> budget engine store n p sy.
Proof. by destruct p. Qed.

(** The rest of a program that is not in a trigger. *)
Lemma shape_next engine store n p sy (P : nat -> Prop) :
  shape engine store n p -> budget engine store n p sy /\ forall tid, triggering p = Some tid -> P tid.
Proof. intros Hs. split; [by apply shape_budget|]. by destruct p. Qed.

Lemma budget_mono engine store n m p sy : (n <= m)%nat -> budget engine store n p sy -> budget engine store m p sy.
Proof.
  intros Hle. destruct p; try exact (shape_mono _ _ _ _ _ Hle).
  intros (r & m' & ? & ? & ? & ? & ?). exists r, m'. split_and!; try done. lia.
Qed.

Lemma in_trigger_left tid (sy : system W) :
  in_trigger tid sy = true <-> exists r, sy_triggers sy !! tid = Some r /\ (0 < trigger_left (rf_phase r))%nat.
Proof.
  unfold in_trigger. destruct (sy_triggers sy !! tid) as [r|]; [|split; [done|by intros (r & ? & _)]]. split.
  - intros Hp. exists r. split; [done|]. destruct (rf_phase r); simpl; try done; lia.
  - intros (r' & [= ->] & Hp). destruct (rf_phase r'); simpl in Hp; try done; lia.
Qed.

(** What an operation of the engine does to a thread. *)
Lemma do_engine_threads ev (sy sy2 : system W) :
  do_engine ev sy = Some sy2 -> exists st st2, engine_view sy = Some st /\ engine_exec ev st = Some st2
  /\ en_threads st = sy_triggers sy /\ en_threads st2 = sy_triggers sy2.
Proof.
  unfold do_engine. destruct (engine_view sy) as [st|] eqn:Ev; [|done].
  destruct (engine_exec ev st) as [st2|] eqn:Ex; [|done]. intros [= <-]. exists st, st2. split_and!; try done.
  unfold engine_view in Ev. destruct (sv_bidderEngine _); [|done]. by injection Ev as <-.
Qed.

Lemma trigger_step_left3 r e r2 e2 :
  trigger_step r e = Some (Some r2, e2) -> (trigger_left (rf_phase r2) < trigger_left (rf_phase r))%nat.
Proof.
  unfold trigger_step. destruct (rf_phase r) eqn:Hp; try done; [case_decide; [done|]|case_test]; intros [= <- <-]; simpl; lia.
Qed.

(** A step of a handler uses up its budget; the trigger it is in afterwards is the one
    it was in, or a new one. *)
Lemma own_budget engine store tid n p p2 (sy sy2 : system W) :
  budget engine store n p sy -> handler_step tid p sy = Some (p2, sy2) ->
  exists m, n = S m /\ budget engine store m p2 sy2
  /\ forall tid', triggering p2 = Some tid' -> triggering p = Some tid' \/ sy_triggers sy !! tid' = None.
Proof.
  intros Hb Hs. destruct p as [| |k|q k|q k|t k|pl k|pl k|k|f k|en k|b k|pl id rev k|k|k]; cbn [handler_step] in Hs; try done.
  4: { (* InTrigger *)
    destruct Hb as (r & m & Hr & Hpos & Hle & He & Hk).
    destruct (do_engine (XMark t) sy) as [sy'|] eqn:Ed; [|done]. injection Hs as <- <-.
    destruct (do_engine_threads _ _ _ Ed) as (st & st2 & _ & Hx & Ht & Ht2). simpl in Hx. unfold thread_does in Hx.
    rewrite Ht, Hr in Hx. destruct (trigger_step r (en_engine st)) as [[o e2]|] eqn:Et; [|done]. injection Hx as <-.
    simpl in Ht2. exists (pred n). split; [lia|].
    destruct (in_trigger t sy') eqn:Ein.
    - apply in_trigger_left in Ein as (r' & Hr' & Hpos'). split; [|by left]. exists r', m. split_and!; try done.
      rewrite <- Ht2, lookup_partial_alter_eq in Hr'. subst o. pose proof (trigger_step_left3 _ _ _ _ Et). lia.
    - apply shape_next. apply (shape_mono _ _ m); [lia|done]. }
  3: { (* DoTrigger *)
    destruct Hb as [He Hk]. do 4 (destruct n as [|n]; [destruct Hk|]).
    destruct (do_engine (XTrigger tid q) sy) as [sy'|] eqn:Ed; [|done]. injection Hs as <- <-. eexists. split; [done|].
    destruct (in_trigger tid sy') eqn:Ein; [|apply shape_next; apply (shape_mono _ _ n); [lia|done]].
    apply in_trigger_left in Ein as (r' & Hr' & Hpos'). split.
    - exists r', n. split_and!; try done.
      assert (Hl : (trigger_left (rf_phase r') <= 3)%nat) by (destruct (rf_phase r'); simpl; lia). lia.
    - intros tid' [= <-]. right. destruct (do_engine_threads _ _ _ Ed) as (st & st2 & _ & Hx & Hts & _). simpl in Hx.
      rewrite Hts in Hx. by destruct (sy_triggers sy !! tid). }
  all: simpl in Hb; try (destruct Hb as [He Hb]); (destruct n as [|n]; [destruct Hb|]); exists n; (split; [done|]); apply shape_next.
  - injection Hs as <- <-. apply Hb.
  - destruct (engine_view sy); [|done]. destruct (do_engine _ sy); [|done]. injection Hs as <- <-. apply Hb.
  - destruct (BidCache_Get _ _ _). injection Hs as <- <-. apply Hb.
  - destruct (do_cache _ sy); [|done]. injection Hs as <- <-. apply Hb.
  - injection Hs as <- <-. apply Hb.
  - injection Hs as <- <-. apply Hb.
  - destruct (Record_entry _ _). injection Hs as <- <-. apply Hb.
  - destruct (do_cache _ sy); [|done]. injection Hs as <- <-. apply Hb.
  - destruct (do_cache _ sy); [|done]. injection Hs as <- <-. apply Hb.
  - destruct (do_cache _ sy); [|done]. injection Hs as <- <-. apply Hb.
  - injection Hs as <- <-. apply Hb.
Qed.

(** ** Steps of the others *)

Lemma budget_other engine store n p (sy sy2 : system W) :
  (forall tid, triggering p = Some tid -> sy_triggers sy2 !! tid = sy_triggers sy !! tid) ->
  budget engine store n p sy -> budget engine store n p sy2.
Proof.
  intros Ht. destruct p; try done. intros (r & m & Hr & ?). exists r, m. by rewrite (Ht tid eq_refl).
Qed.

(** A step of a handler moves no other handler's trigger, and takes none over. *)
Lemma handler_other tid t p p2 (sy sy2 : system W) :
  handler_step t p sy = Some (p2, sy2) -> triggering p <> Some tid -> is_Some (sy_triggers sy !! tid) ->
  sy_triggers sy2 !! tid = sy_triggers sy !! tid.
Proof.
  intros Hs Hne [r Hr].
  assert (Heng : forall ev sy', do_engine ev sy = Some sy' -> is_step_of tid ev = false -> sy_triggers sy' !! tid = sy_triggers sy !! tid).
  { intros ev sy' Hd Hof. destruct (do_engine_threads _ _ _ Hd) as (st & st2 & _ & Hx & Ht & <-).
    rewrite Hr. apply (other_step_frame tid ev st); [by rewrite Ht|done|done]. }
  assert (Hcache : forall ev sy', do_cache ev sy = Some sy' -> sy_triggers sy' = sy_triggers sy).
  { intros ev sy'. unfold do_cache. destruct (CacheRun.exec ev _); [|done]. by intros [= <-]. }
  destruct p as [| |k|q k|q k|t' k|pl k|pl k|k|f k|en k|b k|pl id rev k|k|k]; cbn [handler_step] in Hs; try done;
    try (injection Hs as _ <-; done).
  - destruct (engine_view sy); [|done]. destruct (do_engine _ sy) eqn:Ed; [|done]. injection Hs as _ <-. by eapply Heng.
  - destruct (do_engine _ sy) eqn:Ed; [|done]. injection Hs as _ <-. by eapply Heng.
  - destruct (do_engine _ sy) eqn:Ed; [|done]. injection Hs as _ <-. eapply Heng; [done|]. simpl.
    apply bool_decide_eq_false. intros ->. by apply Hne.
  - destruct (BidCache_Get _ _ _). by injection Hs as _ <-.
  - destruct (do_cache _ sy) eqn:Ed; [|done]. injection Hs as _ <-. by rewrite (Hcache _ _ Ed).
  - destruct (Record_entry _ _). by injection Hs as _ <-.
Qed.



(** ** The invariant of the handlers' progress *)

Context (s0 : Server W) (Ha : auctioneer_ok (sv_auctioneer s0)).

Definition needs_store (hd : handler) : bool := uses_store (route (rq_method (h_request hd)) (rq_path (h_request hd))).

Record live_inv (sy : system W) : Prop := {
  lv_sys : exists gs, sys_inv s0 gs sy;
  lv_budget h hd : sy_handlers sy !! h = Some hd ->
    budget (has_engine s0) (needs_store hd) handler_steps (h_prog hd) sy;
  lv_owner h h2 hd hd2 tid : sy_handlers sy !! h = Some hd -> sy_handlers sy !! h2 = Some hd2 ->
    triggering (h_prog hd) = Some tid -> triggering (h_prog hd2) = Some tid -> h = h2
}.

Lemma settings_engine (s s2 : Server W) : settings s = settings s2 -> has_engine s = has_engine s2.
Proof.
  unfold settings, has_engine. intros [= _ _ He _]. by destruct (sv_bidderEngine s), (sv_bidderEngine s2).
Qed.

(** An event that is not a step of a handler leaves the triggers of handlers alone. *)
Lemma background_triggers ev (sy sy2 : system W) tid r :
  (match ev with YHandler _ _ => False | _ => True end) ->
  (forall st, engine_view sy = Some st -> engine_inv st) -> sys_exec ev sy = Some sy2 ->
  sy_triggers sy !! tid = Some r -> (0 < trigger_left (rf_phase r))%nat -> sy_triggers sy2 !! tid = Some r.
Proof.
  intros Hev Hinv Hx Hr Hpos. destruct ev as [h q|h t|ev|ev| | |now]; simpl in Hx; try done.
  - destruct (sy_handlers sy !! h); [done|]. by injection Hx as <-.
  - assert (Hd : do_cache ev sy = Some sy2) by (by destruct ev). unfold do_cache in Hd.
    destruct (CacheRun.exec ev _); [|done]. by injection Hd as <-.
  - destruct (background ev) eqn:Eb; [|done]. destruct (do_engine_threads _ _ _ Hx) as (st & st2 & Hv & Hex & Hts & <-).
    rewrite <- Hts in Hr. destruct (is_step_of tid ev) eqn:Es; [|by eapply other_step_frame].
    exfalso. pose proof (ei_threads _ (Hinv st Hv) tid r Hr) as Hti.
    assert (Hidle : rf_workers r = []) by (apply (ti_idle _ _ _ Hti); destruct (rf_phase r); simpl in *; done || lia).
    destruct ev; simpl in Eb, Es, Hex; try done; apply bool_decide_eq_true in Es; subst; unfold thread_does, keep in Hex;
      rewrite Hr in Hex.
    + unfold advance in Hex. destruct (rf_phase r); simpl in Hpos; done || lia.
    + unfold report in Hex. by rewrite Hidle, lookup_nil in Hex.
    + unfold release in Hex. by rewrite Hidle, lookup_nil in Hex.
    + unfold store_results in Hex. destruct (rf_phase r); simpl in Hpos; done || lia.
    + unfold finish in Hex. destruct (rf_phase r); simpl in Hpos; done || lia.
  - unfold do_log in Hx. destruct (sv_decisionLogger _); [|done]. destruct (run_step _); [|done]. by injection Hx as <-.
  - unfold do_log in Hx. destruct (sv_decisionLogger _); [|done]. by injection Hx as <-.
  - case_test; [|done]. by injection Hx as <-.
Qed.

(** What the events do to the handlers. *)
Lemma exec_handlers ev (sy sy2 : system W) :
  sys_exec ev sy = Some sy2 ->
  match ev with
  | YArrive h r => sy_handlers sy !! h = None
      /\ sy_handlers sy2 = <[h := mkHandler r (sy_now sy) (Handler_prog (sy_server sy) r)]> (sy_handlers sy)
  | YHandler h tid => exists hd p sy', sy_handlers sy !! h = Some hd /\ handler_step tid (h_prog hd) sy = Some (p, sy')
      /\ sy2 = {| sy' with sy_handlers := <[h := {| hd with h_prog := p |}]> (sy_handlers sy') |}
  | _ => sy_handlers sy2 = sy_handlers sy
  end.
Proof.
  intros Hx. destruct ev as [h q|h t|ev|ev| | |now]; simpl in Hx.
  - destruct (sy_handlers sy !! h); [done|]. by injection Hx as <-.
  - destruct (sy_handlers sy !! h) as [hd|]; [|done]. destruct (handler_step _ _ _) as [[p sy']|] eqn:E; [|done].
    injection Hx as <-. by exists hd, p, sy'.
  - assert (Hd : do_cache ev sy = Some sy2) by (by destruct ev). unfold do_cache in Hd.
    destruct (CacheRun.exec ev _); [|done]. by injection Hd as <-.
  - destruct (background ev); [|done]. unfold do_engine in Hx. destruct (engine_view sy); [|done].
    destruct (engine_exec _ _); [|done]. by injection Hx as <-.
  - unfold do_log in Hx. destruct (sv_decisionLogger _); [|done]. destruct (run_step _); [|done]. by injection Hx as <-.
  - unfold do_log in Hx. destruct (sv_decisionLogger _); [|done]. by injection Hx as <-.
  - case_test; [|done]. by injection Hx as <-.
Qed.

Definition own (h : nat) (ev : sys_event) : nat := match ev with YHandler h' _ => if decide (h' = h) then 1 else 0 | _ => 0 end.

(** What one event does to one handler. *)
Lemma step_budget ev (sy sy2 : system W) h hd n :
  live_inv sy -> sys_exec ev sy = Some sy2 -> sy_handlers sy !! h = Some hd ->
  budget (has_engine s0) (needs_store hd) n (h_prog hd) sy ->
  exists hd2 m, sy_handlers sy2 !! h = Some hd2 /\ h_request hd2 = h_request hd /\ h_arrived hd2 = h_arrived hd
  /\ budget (has_engine s0) (needs_store hd) m (h_prog hd2) sy2 /\ (m + own h ev <= n)%nat
  /\ forall tid, triggering (h_prog hd2) = Some tid -> triggering (h_prog hd) = Some tid \/ (sy_triggers sy !! tid = None /\ own h ev = 1%nat).
Proof.
  intros [[gs Hi] Hbud Hown] Hx Hh Hb. pose proof (exec_handlers _ _ _ Hx) as Hhs.
  assert (Hback : (match ev with YHandler _ _ => False | _ => True end) -> sy_handlers sy2 !! h = Some hd ->
    exists hd2 m, sy_handlers sy2 !! h = Some hd2 /\ h_request hd2 = h_request hd /\ h_arrived hd2 = h_arrived hd
    /\ budget (has_engine s0) (needs_store hd) m (h_prog hd2) sy2 /\ (m + own h ev <= n)%nat
    /\ forall tid, triggering (h_prog hd2) = Some tid -> triggering (h_prog hd) = Some tid \/ (sy_triggers sy !! tid = None /\ own h ev = 1%nat)).
  { intros Hev Hh2. exists hd, n. split_and!; try done; [|by destruct ev; simpl; lia|by left].
    revert Hb. apply budget_other. intros tid Ht. pose proof (Hbud h hd Hh) as Hb.
    destruct (h_prog hd); try done. injection Ht as ->. destruct Hb as (r & m & Hr & Hpos & _). rewrite Hr.
    by apply (background_triggers ev sy sy2 tid r Hev (si_engine _ _ _ Hi)). }
  destruct ev as [h' q|h' t|ev|ev| | |now]; try (apply Hback; [done|congruence]).
  { destruct Hhs as [Hn Hhs]. apply Hback; [done|]. rewrite Hhs, lookup_insert_ne; [done|congruence]. }
  destruct Hhs as (hd' & p & sy' & Hh' & Hs & ->). cbn [sy_handlers].
  destruct (handler_inv s0 gs sy sy' h' hd' t p Hi Hh' Hs) as (_ & (_ & _ & Hsame & _) & _).
  assert (Hwith : forall m q, budget (has_engine s0) (needs_store hd) m q sy' ->
    budget (has_engine s0) (needs_store hd) m q {| sy' with sy_handlers := <[h':={| hd' with h_prog := p |}]> (sy_handlers sy') |}).
  { intros m q. by apply budget_other. }
  destruct (decide (h' = h)) as [->|Hne].
  - assert (hd' = hd) as -> by congruence. destruct (own_budget _ _ _ _ _ _ _ _ Hb Hs) as (m & -> & Hb2 & Ht).
    exists {| hd with h_prog := p |}, m. split_and!; try done; [by rewrite lookup_insert_eq| |].
    + simpl. rewrite decide_True by done. lia.
    + intros tid Htid. destruct (Ht tid Htid); [by left|right]. simpl. by rewrite decide_True.
  - exists hd, n. split_and!; try done; [by rewrite lookup_insert_ne, Hsame| |simpl; rewrite decide_False by done; lia|by left].
    apply Hwith. revert Hb. apply budget_other. intros tid Ht. apply (handler_other tid t (h_prog hd') p sy sy' Hs).
    + intros Ht'. apply Hne. by apply (Hown h' h hd' hd tid).
    + pose proof (Hbud h hd Hh) as Hb. destruct (h_prog hd); try done. injection Ht as ->.
      destruct Hb as (r & m & Hr & _). by rewrite Hr.
Qed.

Lemma live_step ev (sy sy2 : system W) :
  live_inv sy -> sys_event_ok ev -> sys_exec ev sy = Some sy2 -> live_inv sy2.
Proof.
  intros Hi Hev Hx. pose proof Hi as [[gs Hs] Hbud Hown].
  destruct (sys_step_inv s0 Ha gs sy sy2 Hs (ex_intro _ ev (conj Hev Hx))) as (gs2 & Hs2 & _).
  pose proof (exec_handlers _ _ _ Hx) as Hhs.
  (* a handler afterwards is one from before, or has just arrived *)
  assert (Hfrom : forall h hd2, sy_handlers sy2 !! h = Some hd2 ->
    (exists hd, sy_handlers sy !! h = Some hd)
    \/ (sy_handlers sy !! h = None /\ exists r, hd2 = mkHandler r (sy_now sy) (Handler_prog (sy_server sy) r))).
  { intros h hd2 Hh2. destruct ev as [h' q|h' t|ev|ev| | |now]; try (rewrite Hhs in Hh2; left; by exists hd2).
    - destruct Hhs as [Hn Hhs]. rewrite Hhs, lookup_insert in Hh2. case_decide; [|left; by exists hd2].
      subst h'. right. injection Hh2 as <-. split; [done|]. by exists q.
    - destruct (sy_handlers sy !! h) as [hd|] eqn:Hh; [left; by exists hd|]. exfalso.
      destruct Hhs as (hd' & p & sy' & Hh' & Hst & ->). destruct (handler_inv s0 gs sy sy' h' hd' t p Hs Hh' Hst) as (_ & (_ & _ & Hsame & _) & _).
      simpl in Hh2. rewrite Hsame, lookup_insert in Hh2. case_decide; congruence. }
  assert (Hnew : forall r, triggering (Handler_prog (sy_server sy) r) = None
    /\ budget (has_engine s0) (uses_store (route (rq_method r) (rq_path r))) handler_steps (Handler_prog (sy_server sy) r) sy2).
  { intros r. pose proof (shape_Handler (sy_server sy) r) as Hshape. rewrite (settings_engine _ _ (si_settings _ _ _ Hs)) in Hshape.
    destruct (shape_next _ _ _ _ sy2 (fun _ => False) Hshape) as [? Hno]. split; [|done].
    destruct (triggering _) as [t|]; [by destruct (Hno t)|done]. }
  assert (Hold : forall h hd2, sy_handlers sy2 !! h = Some hd2 -> forall tid, triggering (h_prog hd2) = Some tid ->
    (exists hd, sy_handlers sy !! h = Some hd /\ triggering (h_prog hd) = Some tid) \/ (sy_triggers sy !! tid = None /\ own h ev = 1%nat)).
  { intros h hd2 Hh2 tid Ht. destruct (Hfrom h hd2 Hh2) as [[hd Hh]|(_ & r & ->)]; [|cbn [h_prog] in Ht; by rewrite (proj1 (Hnew r)) in Ht].
    destruct (step_budget ev sy sy2 h hd handler_steps Hi Hx Hh (Hbud h hd Hh)) as (hd2' & m & Hh2' & _ & _ & _ & _ & Htr).
    assert (hd2' = hd2) as -> by congruence. destruct (Htr tid Ht); [left; by exists hd|by right]. }
  split; [by exists gs2| |].
  - intros h hd2 Hh2. destruct (Hfrom h hd2 Hh2) as [[hd Hh]|(_ & r & ->)]; [|apply Hnew].
    destruct (step_budget ev sy sy2 h hd handler_steps Hi Hx Hh (Hbud h hd Hh)) as (hd2' & m & Hh2' & Hreq & _ & Hb & Hm & _).
    assert (hd2' = hd2) as -> by congruence. unfold needs_store in *. rewrite Hreq. revert Hb. apply budget_mono. lia.
  - intros h h2 hd hd2 tid Hh Hh2 Ht Ht2.
    assert (Hsome : forall h hd, sy_handlers sy !! h = Some hd -> triggering (h_prog hd) = Some tid -> sy_triggers sy !! tid <> None).
    { intros h' hd' Hh' Ht'. pose proof (Hbud h' hd' Hh') as Hb. destruct (h_prog hd'); try done. injection Ht' as ->.
      destruct Hb as (r & m & Hr & _). by rewrite Hr. }
    destruct (Hold h hd Hh tid Ht) as [(hd1 & Hh1 & Ht1)|[Hn Ho]], (Hold h2 hd2 Hh2 tid Ht2) as [(hd1' & Hh1' & Ht1')|[Hn' Ho']].
    + by apply (Hown h h2 hd1 hd1' tid).
    + by destruct (Hsome h hd1 Hh1 Ht1).
    + by destruct (Hsome h2 hd1' Hh1' Ht1').
    + destruct ev; simpl in Ho, Ho'; try done. case_decide; [|done]. case_decide; [|done]. congruence.
Qed.

(** ** The next step *)

Lemma step_enabled engine store n p (sy : system W) :
  budget engine store n p sy -> engine = has_engine (sy_server sy) -> finished p = false ->
  exists tid, is_Some (handler_step tid p sy).
Proof.
  intros Hb He Hf.
  assert (Hview : engine = true -> exists st, engine_view sy = Some st /\ en_threads st = sy_triggers sy).
  { intros Ht. rewrite Ht in He. unfold has_engine, engine_view in *. destruct (sv_bidderEngine _); [|done]. by eexists. }
  destruct p as [| |k|q k|q k|t k|pl k|pl k|k|f k|en k|b k|pl id rev k|k|k]; try done; cbn [handler_step];
    try (exists 0%nat; by eexists).
  - destruct Hb as [Ht _]. destruct (Hview Ht) as (st & Hv & _). exists 0%nat. unfold do_engine. rewrite Hv. by eexists.
  - destruct Hb as [Ht _]. destruct (Hview Ht) as (st & Hv & Hts). exists (fresh (dom (sy_triggers sy))).
    assert (Hfr : sy_triggers sy !! fresh (dom (sy_triggers sy)) = None) by (apply not_elem_of_dom, is_fresh).
    unfold do_engine. rewrite Hv. simpl. rewrite Hts, Hfr. case_test; by eexists.
  - destruct Hb as (r & m & Hr & Hpos & _ & Ht & _). destruct (Hview Ht) as (st & Hv & Hts). exists 0%nat.
    unfold do_engine. rewrite Hv. simpl. unfold thread_does. rewrite Hts, Hr. unfold trigger_step.
    destruct (rf_phase r); simpl in Hpos; try lia; [case_decide|case_test|]; by eexists.
  - exists 0%nat. destruct (BidCache_Get _ _ _). by eexists.
  - exists (fresh (dom (sy_refreshes sy))).
    assert (Hfr : sy_refreshes sy !! fresh (dom (sy_refreshes sy)) = None) by (apply not_elem_of_dom, is_fresh).
    unfold do_cache. simpl. rewrite Hfr. destruct (RefreshAsync _ _). by eexists.
  - exists 0%nat. destruct (Record_entry _ _). by eexists.
Qed.

(** What a step outside the registry endpoints leaves alone. *)
Lemma step_local engine n tid p p2 (sy sy2 : system W) :
  budget engine false n p sy -> handler_step tid p sy = Some (p2, sy2) ->
  sv_store (sy_server sy2) = sv_store (sy_server sy)
  /\ bc_entries (sv_cache (sy_server sy2)) = bc_entries (sv_cache (sy_server sy)).
Proof.
  intros Hb Hs.
  assert (Heng : forall ev sy', do_engine ev sy = Some sy' -> sv_store (sy_server sy') = sv_store (sy_server sy)
    /\ bc_entries (sv_cache (sy_server sy')) = bc_entries (sv_cache (sy_server sy))).
  { intros ev sy'. unfold do_engine. destruct (engine_view sy); [|done]. destruct (engine_exec _ _); [|done]. by intros [= <-]. }
  destruct p as [| |k|q k|q k|t k|pl k|pl k|k|f k|en k|b k|pl id rev k|k|k]; cbn [handler_step] in Hs; try done;
    try (by destruct Hb); try (injection Hs as _ <-; done).
  - destruct (engine_view sy); [|done]. destruct (do_engine _ sy) eqn:Ed; [|done]. injection Hs as _ <-. by eapply Heng.
  - destruct (do_engine _ sy) eqn:Ed; [|done]. injection Hs as _ <-. by eapply Heng.
  - destruct (do_engine _ sy) eqn:Ed; [|done]. injection Hs as _ <-. by eapply Heng.
  - destruct (BidCache_Get _ _ _). by injection Hs as _ <-.
  - unfold do_cache in Hs. simpl in Hs. destruct (sy_refreshes sy !! tid); [done|]. unfold RefreshAsync in Hs.
    destruct (String.eqb pl ""); [|case_decide]; by injection Hs as _ <-.
  - destruct (Record_entry _ _). by injection Hs as _ <-.
Qed.

Definition own_steps (h : nat) (evs : list sys_event) : nat := sum_list (own h <$> evs).

Lemma own_steps_bound evs (sy sy2 : system W) h hd n :
  live_inv sy -> Forall sys_event_ok evs -> sys_exec_all evs sy = Some sy2 -> sy_handlers sy !! h = Some hd ->
  budget (has_engine s0) (needs_store hd) n (h_prog hd) sy -> (own_steps h evs <= n)%nat.
Proof.
  revert sy hd n. induction evs as [|ev evs IH]; intros sy hd n Hi Hev Hx Hh Hb; [unfold own_steps; simpl; lia|].
  simpl in Hx. destruct (sys_exec ev sy) as [sy1|] eqn:Ex; [|done]. apply Forall_cons in Hev as [Hev Hevs].
  destruct (step_budget ev sy sy1 h hd n Hi Ex Hh Hb) as (hd2 & m & Hh2 & Hreq & _ & Hb2 & Hm & _).
  assert (Hle : (own_steps h evs <= m)%nat).
  { apply (IH sy1 hd2 m); [by eapply live_step|done|done|done|]. unfold needs_store in *. by rewrite Hreq. }
  change (own_steps h (ev :: evs)) with (own h ev + own_steps h evs)%nat. lia.
Qed.

Lemma live_reachable now (sy : system W) : bootable s0 now -> rtc sys_step (boot s0 now) sy -> live_inv sy.
Proof.
  intros Hb Hr. apply (rtc_invariant sys_step live_inv) with (boot s0 now); [|done|].
  - intros a b Hi (ev & Hev & Hx). by eapply live_step.
  - split; [exists ∅; by apply boot_inv|by intros h hd; simpl; rewrite lookup_empty|by intros h h2 hd hd2 tid; simpl; rewrite lookup_empty].
Qed.
End live.

(** C14: no handler waits for another. In every reachable state of the process, a
    handler that has not finished has a next step that can be taken now, whatever the
    other handlers, the refreshes, the log's writer and the DSPs are doing; it takes
    at most seventeen steps in all, however the others are interleaved; and a handler
    of any endpoint other than the registry's and the readiness check, so every
    auction, neither calls the store nor changes a snapshot: an auction does no I/O. *)
Theorem handlers_wait_free {W} `{HL : BidStoreLaws W} (s : Server W) now sy h hd :
  auctioneer_ok (sv_auctioneer s) -> bootable s now -> rtc sys_step (boot s now) sy -> sy_handlers sy !! h = Some hd ->
  (finished (h_prog hd) = true \/ exists tid sy2, sys_exec (YHandler h tid) sy = Some sy2)
  /\ (forall evs sy2, Forall sys_event_ok evs -> sys_exec_all evs sy = Some sy2 -> (own_steps h evs <= 17)%nat)
  /\ (uses_store (route (rq_method (h_request hd)) (rq_path (h_request hd))) = false ->
      forall tid sy2, sys_exec (YHandler h tid) sy = Some sy2 ->
        sv_store (sy_server sy2) = sv_store (sy_server sy)
        /\ bc_entries (sv_cache (sy_server sy2)) = bc_entries (sv_cache (sy_server sy))).
Proof.
  intros Ha Hb Hr Hh. pose proof (live_reachable s Ha now sy Hb Hr) as Hi.
  pose proof (lv_budget _ _ Hi h hd Hh) as Hbud. destruct (lv_sys _ _ Hi) as [gs Hs]. split_and!.
  - destruct (finished (h_prog hd)) eqn:Ef; [by left|right].
    destruct (step_enabled _ _ _ _ sy Hbud) as (tid & [[p sy'] Hst]); [|done|].
    { symmetry. apply settings_engine, Hs. }
    exists tid. simpl. rewrite Hh, Hst. by eexists.
  - intros evs sy2 Hev Hx. by eapply (own_steps_bound s Ha evs sy sy2 h hd).
  - intros Hno tid sy2 Hx. simpl in Hx. rewrite Hh in Hx. unfold needs_store in Hbud. rewrite Hno in Hbud.
    destruct (handler_step tid (h_prog hd) sy) as [[p sy']|] eqn:Est; [|done]. injection Hx as <-. exact (step_local _ _ _ _ _ _ _ Hbud Est).
Qed.
