(* ===== verification/SystemSeq.v ===== *)
(** * The sequential handlers as executions

    [Server.Handler] runs a request in one go. Here it is shown to be what the running
    process does when the handler's goroutine is not interrupted: the same server
    afterwards, the same response, and the background work it reports started. So the
    theorems about [Handler] are about executions of the process. *)

From S2P Require Import Prelude GoInt Utf8 Json JsonCodec.
From S2P Require Import Prelude GoInt GoTime GoString GoParse Types Ranking DynamicBids Store BidStore Samples Cache CacheRun.
From S2P Require Import CacheProps Auction AuctionProps Engine EngineInv EngineProps DecisionLog Metrics Config Server ServerProps.
From S2P Require Import Handlers HandlerSpec System SystemInv SystemProps.
Open Scope string_scope.
Open Scope list_scope.
Open Scope Z_scope.

(** The readings of the clock, in order, from [now] on and before 2262. *)
Definition clock_from (now : Time) (c : auction_clock) : Prop :=
  now <= ck_started c /\ ck_started c <= ck_selection_started c /\ ck_selection_started c <= ck_lookup c
  /\ ck_lookup c <= ck_trigger c /\ ck_trigger c <= ck_cache c /\ ck_cache c <= ck_auction c
  /\ ck_auction c <= ck_selected c /\ ck_selected c <= ck_finished c /\ is_int64 now /\ is_int64 (ck_finished c).

Section uninterrupted.
Context {W : Type} `{HL : BidStoreLaws W}.
Context (h : nat) (r : Request) (t0 : Time) (hs : gmap nat handler).

(** A step of handler [h], or the passing of time. *)
Definition hstep (sy sy2 : system W) : Prop :=
  exists ev, (match ev with YHandler h' _ => h' = h | YTime now => is_int64 now | _ => False end)
    /\ sys_exec ev sy = Some sy2.

(** The process while handler [h] is at [p]. *)
Definition at_prog (s : Server W) (now : Time) (rs : gmap nat thread) (ts : gmap nat refresher) (p : prog) : system W :=
  mkSystem s now rs ts (<[h := mkHandler r t0 p]> hs).

Lemma step_time s now rs ts p t : now <= t -> is_int64 t -> rtc hstep (at_prog s now rs ts p) (at_prog s t rs ts p).
Proof.
  intros Hle Ht. apply rtc_once. exists (YTime t). split; [done|]. simpl. by rewrite (proj2 (Z.leb_le _ _) Hle).
Qed.

Lemma step_handler s now rs ts p tid p2 s2 rs2 ts2 :
  handler_step tid p (at_prog s now rs ts p) = Some (p2, mkSystem s2 now rs2 ts2 (<[h := mkHandler r t0 p]> hs)) ->
  rtc hstep (at_prog s now rs ts p) (at_prog s2 now rs2 ts2 p2).
Proof.
  intros Hs. apply rtc_once. exists (YHandler h tid). split; [done|]. simpl. rewrite lookup_insert_eq. simpl.
  fold (at_prog s now rs ts p). rewrite Hs. simpl. by rewrite insert_insert_eq.
Qed.

(** The goroutines that were there stay, and new ones have unused names. *)
Lemma step_refresh s now rs ts pl k c go :
  RefreshAsync pl (sv_cache s) = (c, go) ->
  exists rs2, rtc hstep (at_prog s now rs ts (DoRefreshAsync pl k)) (at_prog {| s with sv_cache := c |} now rs2 ts k)
  /\ rs ⊆ rs2 /\ (go = true -> exists tid, rs2 !! tid = Some (TAsync pl Begin)).
Proof.
  intros Hr. set (tid := fresh (dom rs)).
  assert (Hfr : rs !! tid = None) by (apply not_elem_of_dom, is_fresh).
  exists (set_thread tid (if go then Some (TAsync pl Begin) else None) rs). split_and!.
  - apply (step_handler _ _ _ _ _ tid). simpl. unfold do_cache. simpl. by rewrite Hfr, Hr.
  - apply map_subseteq_spec. intros j x Hj. rewrite set_thread_lookup. case_decide; [congruence|done].
  - intros ->. exists tid. by rewrite set_thread_lookup, decide_True.
Qed.

Lemma step_mark s now rs ts tid k e rf o e2 :
  sv_bidderEngine s = Some e -> ts !! tid = Some rf -> trigger_step rf e = Some (o, e2) ->
  rtc hstep (at_prog s now rs ts (InTrigger tid k))
    (at_prog {| s with sv_bidderEngine := Some e2 |} now rs (partial_alter (fun _ => o) tid ts)
       (if still_triggering o then InTrigger tid k else k)).
Proof.
  intros He Hr Hs. apply (step_handler _ _ _ _ _ 0). simpl. unfold do_engine, engine_view. simpl. rewrite He. simpl.
  unfold thread_does. simpl. rewrite Hr, Hs. simpl. unfold in_trigger. simpl. by rewrite lookup_partial_alter_eq.
Qed.

Lemma step_path n o e o2 e2 s now rs ts tid k : trigger_path n o e o2 e2 -> sv_bidderEngine s = Some e -> ts !! tid = o ->
  exists ts2, rtc hstep (at_prog s now rs ts (if still_triggering o then InTrigger tid k else k))
    (at_prog {| s with sv_bidderEngine := Some e2 |} now rs ts2 k)
  /\ ts2 !! tid = o2 /\ forall j, j <> tid -> ts2 !! j = ts !! j.
Proof.
  intros Hp. revert s ts. induction Hp as [o e Ho|n r' e o e2 o3 e3 Hr Hs _ IH]; intros s ts He Ht.
  - exists ts. rewrite Ho. split; [|done]. destruct s. simpl in *. by subst.
  - destruct (IH {| s with sv_bidderEngine := Some e2 |} (partial_alter (fun _ => o) tid ts) eq_refl) as (ts2 & Hx & Hl & Hne);
      [apply lookup_partial_alter_eq|].
    exists ts2. rewrite Hr. split_and!; [|done|].
    + etrans; [by apply (step_mark s now rs ts tid k e r' o e2)|exact Hx].
    + intros j Hj. by rewrite Hne, lookup_partial_alter_ne.
Qed.

(** A call of [Trigger] that is not interrupted. *)
Lemma step_trigger s now rs ts request k e e2 go :
  sv_bidderEngine s = Some e -> Trigger request now e = (e2, go) ->
  exists ts2, rtc hstep (at_prog s now rs ts (DoTrigger request k)) (at_prog {| s with sv_bidderEngine := Some e2 |} now rs ts2 k)
  /\ ts ⊆ ts2 /\ (go = true -> exists tid, ts2 !! tid = Some {| (new_refresher request) with rf_phase := Starting |}).
Proof.
  intros He Ht. set (tid := fresh (dom ts)). assert (Hfr : ts !! tid = None) by (apply not_elem_of_dom, is_fresh).
  assert (Hsame : {| s with sv_bidderEngine := Some e |} = s) by (destruct s; simpl in *; by subst).
  assert (Hfirst : rtc hstep (at_prog s now rs ts (DoTrigger request k))
    (if trigger_misses request now e then at_prog s now rs (<[tid:=new_refresher request]> ts) (InTrigger tid k)
     else at_prog s now rs ts k)).
  { destruct (trigger_misses request now e) eqn:Em; apply (step_handler _ _ _ _ _ tid); simpl; unfold do_engine, engine_view;
      simpl; rewrite He; simpl; rewrite Hfr, Em; simpl; unfold in_trigger; simpl.
    - rewrite lookup_insert_eq. unfold put_engine. simpl. by rewrite Hsame.
    - rewrite Hfr. unfold put_engine. simpl. by rewrite Hsame. }
  destruct (trigger_misses request now e) eqn:Em.
  - destruct (trigger_misses_path _ _ _ Em) as (n & _ & Hp). rewrite Ht in Hp. cbn [fst snd] in Hp.
    destruct (step_path _ _ _ _ _ s now rs (<[tid := new_refresher request]> ts) tid k Hp He (lookup_insert_eq _ _ _)) as (ts2 & Hx & Hl & Hne).
    exists ts2. split_and!; [by etrans| |by intros ->; exists tid].
    apply map_subseteq_spec. intros j x Hj. rewrite Hne, lookup_insert_ne by congruence. done.
  - rewrite (trigger_hits _ _ _ Em) in Ht. injection Ht as <- <-. exists ts. rewrite Hsame. by split_and!.
Qed.

(** ** Uninterrupted executions *)

(** The goroutine of a piece of background work is there. *)
Definition present (rs : gmap nat thread) (ts : gmap nat refresher) (w : started) : Prop :=
  match w with
  | RefreshSnapshot p => exists tid, rs !! tid = Some (TAsync p Begin)
  | RefreshDynamic request => exists tid, ts !! tid = Some {| (new_refresher request) with rf_phase := Starting |}
  end.

(** From server [s] at [now], the handler goes alone from [p] to [p2], which changes
    the server to [s2] and starts [work]. *)
Definition leads (s : Server W) (now : Time) (p : prog) (s2 : Server W) (now2 : Time) (p2 : prog) (work : list started) : Prop :=
  forall rs ts, exists rs2 ts2, rtc hstep (at_prog s now rs ts p) (at_prog s2 now2 rs2 ts2 p2)
  /\ rs ⊆ rs2 /\ ts ⊆ ts2 /\ Forall (present rs2 ts2) work.

Lemma present_mono rs ts rs2 ts2 w : rs ⊆ rs2 -> ts ⊆ ts2 -> present rs ts w -> present rs2 ts2 w.
Proof.
  intros H1 H2. destruct w; simpl; intros [tid Ht]; exists tid; by eapply lookup_weaken.
Qed.

Lemma leads_trans s now p s1 now1 p1 w1 s2 now2 p2 w2 :
  leads s now p s1 now1 p1 w1 -> leads s1 now1 p1 s2 now2 p2 w2 -> leads s now p s2 now2 p2 (w1 ++ w2).
Proof.
  intros Ha Hb rs ts. destruct (Ha rs ts) as (rs1 & ts1 & H1 & Hr1 & Ht1 & Hw1).
  destruct (Hb rs1 ts1) as (rs2 & ts2 & H2 & Hr2 & Ht2 & Hw2). exists rs2, ts2. split_and!; [by etrans..|].
  apply Forall_app. split; [|done]. eapply Forall_impl; [exact Hw1|]. intros w. by apply present_mono.
Qed.

(** The same when the first part starts nothing. *)
Lemma leads_then s now p s1 now1 p1 s2 now2 p2 w :
  leads s now p s1 now1 p1 [] -> leads s1 now1 p1 s2 now2 p2 w -> leads s now p s2 now2 p2 w.
Proof. apply (leads_trans _ _ _ _ _ _ []). Qed.

Lemma leads_refl s now p : leads s now p s now p [].
Proof. intros rs ts. exists rs, ts. by split_and!. Qed.

Lemma leads_time s now p t : now <= t -> is_int64 t -> leads s now p s t p [].
Proof. intros Hle Ht rs ts. exists rs, ts. split_and!; [by apply step_time|done..]. Qed.

(** A step that starts no goroutine. *)
Lemma leads_step s now p s2 p2 :
  (forall rs ts, handler_step 0 p (at_prog s now rs ts p) = Some (p2, mkSystem s2 now rs ts (<[h := mkHandler r t0 p]> hs))) ->
  leads s now p s2 now p2 [].
Proof. intros Hs rs ts. exists rs, ts. split_and!; [by apply (step_handler _ _ _ _ _ 0), Hs|done..]. Qed.

Lemma leads_now s now k t : now <= t -> is_int64 t -> leads s now (Now k) s t (k t) [].
Proof. intros Hle Ht. eapply leads_then; [by apply leads_time|]. by apply leads_step. Qed.

Lemma leads_count s now f k : leads s now (Count f k) (count_metric f s) now k [].
Proof. by apply leads_step. Qed.

Lemma leads_refreshAsync s now pl k c go :
  RefreshAsync pl (sv_cache s) = (c, go) ->
  leads s now (DoRefreshAsync pl k) {| s with sv_cache := c |} now k (if go then [RefreshSnapshot pl] else []).
Proof.
  intros Hr rs ts. destruct (step_refresh s now rs ts pl k c go Hr) as (rs2 & Hs & Hsub & Hgo). exists rs2, ts.
  split_and!; [done|done|done|]. destruct go; constructor; [by apply Hgo|constructor].
Qed.

Lemma leads_run s now request dynamic k t u c2 go d :
  now <= t -> t <= u -> is_int64 now -> is_int64 u ->
  run (sv_auctioneer s) request dynamic t u (sv_cache s) = (c2, go, d) ->
  leads s now (run_prog (sv_auctioneer s) request dynamic k) {| s with sv_cache := c2 |} u (k d)
    (if go then [RefreshSnapshot (req_PlacementID request)] else []).
Proof.
  intros Hnt Htu Hn Hu Hr. assert (Ht : is_int64 t) by (unfold_int; lia).
  unfold run in Hr. destruct (BidCache_Get (req_PlacementID request) t (sv_cache s)) as [bids snapshot] eqn:Eg.
  assert (Hkeep : {| s with sv_cache := sv_cache s |} = s) by (by destruct s).
  unfold run_prog. eapply leads_then; [by apply (leads_time _ _ _ t)|].
  eapply leads_then; [apply (leads_step _ _ _ s _); intros rs ts; simpl; rewrite Eg; reflexivity|].
  set (rest := if ss_Stale snapshot && ss_RejectStale snapshot then _ else _).
  assert (Hrest : forall s1, leads s1 t rest s1 u (k (if ss_Stale snapshot && ss_RejectStale snapshot
    then stale_snapshot snapshot else decide_bids (sv_auctioneer s) request dynamic bids snapshot u)) []).
  { intros s1. unfold rest. destruct (_ && _); [by apply leads_time|by apply leads_now]. }
  destruct (ss_Found snapshot); cbn [negb] in *; cbv iota in *.
  - destruct (ss_Stale snapshot) eqn:Es.
    + destruct (RefreshAsync _ _) as [c go'] eqn:Er. rewrite <- (app_nil_r (if go then _ else _)).
      destruct (true && ss_RejectStale snapshot); injection Hr as -> -> <-;
        (eapply leads_trans; [by apply leads_refreshAsync|apply Hrest]).
    + simpl in Hr, Hrest. injection Hr as <- <- <-. rewrite Hkeep. apply Hrest.
  - destruct (RefreshAsync _ _) as [c go'] eqn:Er. injection Hr as <- <- <-. rewrite <- (app_nil_r (if go' then _ else _)).
    eapply leads_trans; [by apply leads_refreshAsync|by apply leads_time].
Qed.

Lemma leads_dynamic s now request clock k s2 dynamic work :
  now <= ck_lookup clock -> ck_lookup clock <= ck_trigger clock -> is_int64 now -> is_int64 (ck_trigger clock) ->
  dynamic_bids request clock s = (s2, dynamic, work) ->
  leads s now (dynamic_prog s request k) s2 (ck_trigger clock) (k dynamic) work.
Proof.
  intros H1 H2 Hn Ht Hd. assert (Hl : is_int64 (ck_lookup clock)) by (unfold_int; lia).
  unfold dynamic_bids, dynamic_prog in *. destruct (sv_bidderEngine s) as [e|] eqn:Ee.
  - destruct (Lookup request (ck_lookup clock) e) as [e1 found] eqn:El.
    destruct (Trigger request (ck_trigger clock) e1) as [e2 go] eqn:Et. injection Hd as <- <- <-.
    eapply leads_then; [by apply (leads_time _ _ _ (ck_lookup clock))|].
    eapply leads_then; [apply (leads_step _ _ _ {| s with sv_bidderEngine := Some e1 |} (DoTrigger request (k (default [] found))))|].
    { intros rs ts. simpl. unfold do_engine, engine_view. simpl. rewrite Ee. simpl. rewrite El. reflexivity. }
    eapply leads_then; [by apply (leads_time _ _ _ (ck_trigger clock))|]. intros rs ts.
    destruct (step_trigger {| s with sv_bidderEngine := Some e1 |} (ck_trigger clock) rs ts request (k (default [] found)) e1 e2 go eq_refl Et)
      as (ts2 & Hs & Hsub & Hgo). exists rs, ts2. split_and!; [exact Hs|done|done|].
    destruct go; constructor; [by apply Hgo|constructor].
  - injection Hd as <- <- <-. apply leads_time; [lia|done].
Qed.

Lemma leads_requestID s now k id s2 :
  requestID r s = (id, s2) -> leads s now (requestID_prog r k) s2 now (k id) [].
Proof.
  unfold requestID, requestID_prog. destruct (negb _); intros [= <- <-]; [apply leads_refl|by apply leads_step].
Qed.

Lemma leads_record (s0 s : Server W) now id placement d k :
  sv_auctioneer s0 = sv_auctioneer s -> (is_Some (sv_decisionLogger s0) <-> is_Some (sv_decisionLogger s)) ->
  match recordDecision id placement d s with
  | Some s2 => leads s now (recordDecision_prog s0 id placement d k) s2 now (k true) []
  | None => leads s now (recordDecision_prog s0 id placement d k) s now (k false) []
  end.
Proof.
  intros Ha Hl. unfold recordDecision, recordDecision_prog. rewrite Ha.
  destruct (sv_decisionLogger s) as [l|] eqn:El.
  - destruct (sv_decisionLogger s0); [|by destruct (proj2 Hl ltac:(by eexists))].
    set (entry := log_entry _ _ _ _).
    assert (Hstep : forall o result, Record_entry entry (Some l) = (o, result) -> forall k',
      leads s now (DoRecord entry k') {| s with sv_decisionLogger := o |} now (k' result) []).
    { intros o result Hr k'. apply leads_step. intros rs ts. unfold at_prog. cbn [handler_step sy_server]. by rewrite El, Hr. }
    destruct (Record_entry entry (Some l)) as [o [[]|]] eqn:Er.
    + by apply (Hstep _ _ eq_refl).
    + eapply leads_then; [by apply (Hstep _ _ eq_refl)|]. apply leads_count.
    + assert (Hs : {| s with sv_decisionLogger := o |} = s).
      { simpl in Er. destruct (dl_closed l); [|by destruct (_ <? _)]. injection Er as <-. destruct s. simpl in *. by subst. }
      pose proof (Hstep _ _ eq_refl (fun result => match result with SendOnClosedChannel => k false | Recorded true => k true
        | Recorded false => Count log_dropped (k true) end)) as Hx. by rewrite Hs in Hx.
  - destruct (sv_decisionLogger s0); [by destruct (proj1 Hl ltac:(by eexists))|]. apply leads_refl.
Qed.

(** ** The handlers *)

Definition ended (o : option Response) : prog := match o with Some resp => Return resp | None => Panic end.

Lemma leads_auction s now clock s2 work resp :
  clock_from now clock -> auction r clock s = (s2, work, resp) ->
  leads s now (auction_prog s r) s2 (ck_finished clock) (ended (securityHeaders <$> resp)) work.
Proof.
  intros (H1 & H2 & H3 & H4 & H5 & H6 & H7 & H8 & Hn & Hf) Hr. unfold auction, auction_prog in *.
  eapply leads_then; [apply (leads_now _ _ _ (ck_started clock)); [done|unfold_int; lia]|].
  assert (Hinvalid : leads s (ck_started clock)
    (Count bad_request (reply (error_response StatusBadRequest "invalid auction request")))
    (count_metric bad_request s) (ck_finished clock)
    (ended (securityHeaders <$> Some (error_response StatusBadRequest "invalid auction request"))) []).
  { eapply leads_then; [apply leads_count|]. apply leads_time; [lia|done]. }
  destruct (decodeJSON Decode_AuctionRequest r) as [request|]; [|injection Hr as <- <- <-; exact Hinvalid].
  destruct (AuctionRequest_Validate request); [injection Hr as <- <- <-; exact Hinvalid|]. clear Hinvalid.
  eapply leads_then; [apply (leads_now _ _ _ (ck_selection_started clock)); [done|unfold_int; lia]|].
  destruct (dynamic_bids request clock s) as [[s1 dynamic] work1] eqn:Ed.
  destruct (dynamic_bids_spec _ _ _ _ _ _ Ed) as (_ & _ & _ & Hlog1 & _ & _ & _ & Hau1).
  destruct (RunWithDynamic _ _ _ _ _ (sv_cache s1)) as [[cache go] decision] eqn:Erun.
  match type of Hr with context [requestID r ?x] => destruct (requestID r x) as [id s3] eqn:Eid end.
  destruct (requestID_spec _ _ _ _ Eid) as (_ & _ & Hlog3 & _ & (_ & _ & Hau3) & _). simpl in Hlog3, Hau3.
  assert (Hwork : exists s4 resp4, (s4, work1 ++ (if go then [RefreshSnapshot (req_PlacementID request)] else []), resp4) = (s2, work, resp)) by
    (destruct (recordDecision _ _ _ _); eexists _, _; exact Hr).
  destruct Hwork as (_ & _ & [= _ <- _]).
  eapply leads_trans; [apply (leads_dynamic s _ request clock _ s1 dynamic work1); [lia..|unfold_int; lia|unfold_int; lia|done]|].
  rewrite <- (app_nil_r (if go then _ else _)).
  eapply leads_trans.
  { rewrite <- Hau1. apply (leads_run s1 _ request dynamic _ (ck_cache clock) (ck_auction clock)); [lia..|unfold_int; lia|unfold_int; lia|exact Erun]. }
  eapply leads_then; [apply (leads_now _ _ _ (ck_selected clock)); [lia|unfold_int; lia]|].
  cbv beta zeta. eapply leads_then; [eapply leads_requestID; exact Eid|]. cbv beta. eapply leads_then; [apply leads_count|].
  pose proof (leads_record s (count_metric (count_decision decision) s3) (ck_selected clock) id (req_PlacementID request) decision) as Hrec.
  set (latency := Microseconds (time_Sub (ck_selected clock) (ck_selection_started clock))) in *.
  rewrite Hau3 in Hr.
  destruct (recordDecision id (req_PlacementID request) decision (count_metric (count_decision decision) s3)) as [s4|] eqn:Erec;
    injection Hr as <- <-;
    (eapply leads_then; [apply Hrec; simpl; [by rewrite Hau3, Hau1|by rewrite Hlog3, Hlog1]|]);
    (eapply leads_then; [apply (leads_now _ _ _ (ck_finished clock)); [lia|done]|]); apply leads_count.
Qed.

Lemma leads_upsertBid q s now later s2 work resp :
  now <= later -> is_int64 later -> upsertBid q s = (s2, work, resp) ->
  leads s now (upsertBid_prog s q) s2 later (ended (Some (securityHeaders resp))) work.
Proof.
  intros Hle Hl Hr. unfold upsertBid, upsertBid_prog in *.
  assert (Hdone : forall s resp, leads s now (reply resp) s later (ended (Some (securityHeaders resp))) [])
    by (intros; by apply leads_time).
  destruct (authorized s q); cbn [negb] in *; [|injection Hr as <- <- <-; apply Hdone].
  assert (Hinvalid : leads s now (Count bad_request (reply (error_response StatusBadRequest "invalid bid or bid id")))
    (count_metric bad_request s) later
    (ended (Some (securityHeaders (error_response StatusBadRequest "invalid bid or bid id")))) []).
  { eapply leads_then; [apply leads_count|apply Hdone]. }
  destruct (decodeJSON Decode_Bid q) as [b|]; [|injection Hr as <- <- <-; exact Hinvalid].
  case_test; [injection Hr as <- <- <-; exact Hinvalid|].
  eapply leads_then; [apply leads_count|]. simpl in Hr.
  destruct (store_Upsert (Bid_Normalize b) (sv_store s)) as [w e] eqn:Eu.
  eapply leads_then; [apply (leads_step _ _ _ {| (count_metric bid_mutation s) with sv_store := w |} _);
    intros rs ts; simpl; rewrite Eu; reflexivity|]. cbv beta.
  destruct e as [e|].
  - eapply leads_then; [apply leads_count|]. destruct (is_stale_error e); injection Hr as <- <- <-; apply Hdone.
  - destruct (RefreshAsync _ _) as [cache go] eqn:Er. injection Hr as <- <- <-. rewrite <- (app_nil_r (if go then _ else _)).
    eapply leads_trans; [by apply leads_refreshAsync|apply Hdone].
Qed.

Lemma leads_deleteBid q s now later s2 work resp :
  now <= later -> is_int64 later -> deleteBid q s = (s2, work, resp) ->
  leads s now (deleteBid_prog s q) s2 later (ended (Some (securityHeaders resp))) work.
Proof.
  intros Hle Hl Hr. unfold deleteBid, deleteBid_prog in *.
  assert (Hdone : forall s resp, leads s now (reply resp) s later (ended (Some (securityHeaders resp))) [])
    by (intros; by apply leads_time).
  destruct (authorized s q); cbn [negb] in *; [|injection Hr as <- <- <-; apply Hdone].
  destruct (ParseUint _) as [rev|]; [|injection Hr as <- <- <-; apply Hdone].
  eapply leads_then; [apply leads_count|]. simpl in Hr.
  destruct (store_Delete _ _ rev (sv_store s)) as [w e] eqn:Eu.
  eapply leads_then; [apply (leads_step _ _ _ {| (count_metric bid_mutation s) with sv_store := w |} _);
    intros rs ts; simpl; rewrite Eu; reflexivity|]. cbv beta.
  destruct e as [e|].
  - eapply leads_then; [apply leads_count|]. destruct (is_stale_error e); injection Hr as <- <- <-; apply Hdone.
  - destruct (RefreshAsync _ _) as [cache go] eqn:Er. injection Hr as <- <- <-. rewrite <- (app_nil_r (if go then _ else _)).
    eapply leads_trans; [by apply leads_refreshAsync|apply Hdone].
Qed.

Lemma leads_ready s now later s2 resp :
  now <= later -> is_int64 later -> ready s = (s2, resp) ->
  leads s now ready_prog s2 later (ended (Some (securityHeaders resp))) [].
Proof.
  intros Hle Hl Hr. unfold ready, ready_prog in *.
  assert (Hdone : forall s resp, leads s now (reply resp) s later (ended (Some (securityHeaders resp))) [])
    by (intros; by apply leads_time).
  eapply leads_then; [apply leads_count|]. simpl in Hr. destruct (store_Ping (sv_store s)) as [w e] eqn:Ep.
  eapply leads_then; [apply (leads_step _ _ _ {| (count_metric readiness_check s) with sv_store := w |} _);
    intros rs ts; simpl; rewrite Ep; reflexivity|]. cbv beta.
  destruct e; injection Hr as <- <-; [|apply Hdone]. eapply leads_then; [apply leads_count|apply Hdone].
Qed.

Lemma leads_Handler s now clock s2 work resp :
  clock_from now clock -> Handler r clock s = (s2, work, resp) ->
  leads s now (Handler_prog s r) s2 (ck_finished clock) (ended resp) work.
Proof.
  intros Hck. pose proof Hck as (H1 & H2 & H3 & H4 & H5 & H6 & H7 & H8 & Hn & Hf).
  assert (Hle : now <= ck_finished clock) by lia.
  assert (Hdone : forall s resp, leads s now (reply resp) s (ck_finished clock) (ended (Some (securityHeaders resp))) [])
    by (intros; by apply leads_time).
  unfold Handler, serve, Handler_prog. destruct (route (rq_method r) (rq_path r)) as [|id|id| | | |allow|].
  - destruct (auction r clock s) as [[s1 w] o] eqn:Ea. intros [= <- <- <-]. by apply leads_auction.
  - destruct (upsertBid _ s) as [[s1 w] o] eqn:Ea. intros [= <- <- <-]. by apply leads_upsertBid.
  - destruct (deleteBid _ s) as [[s1 w] o] eqn:Ea. intros [= <- <- <-]. by apply leads_deleteBid.
  - intros [= <- <- <-]. apply Hdone.
  - destruct (ready s) as [s1 o] eqn:Ea. intros [= <- <- <-]. by apply leads_ready.
  - intros [= <- <- <-]. eapply leads_then; [apply (leads_step _ _ _ s (reply (metricsEndpoint s))); done|apply Hdone].
  - intros [= <- <- <-]. apply Hdone.
  - intros [= <- <- <-]. apply Hdone.
Qed.
End uninterrupted.

(** C15: an uninterrupted handler does what the sequential handler says. In any state
    of the process and for any clock readings in order from there on, there is an
    execution in which a new request is served with nothing in between but the
    passing of time; it leaves the server exactly as [Handler] computes, ends with
    exactly its response, or its panic, and every goroutine it reports started is
    there, about to take its first step, next to the ones that were. *)
Theorem Handler_is_execution {W} `{BidStore W} (sy : system W) h r clock s2 work resp :
  sy_handlers sy !! h = None -> clock_from (sy_now sy) clock -> Handler r clock (sy_server sy) = (s2, work, resp) ->
  exists sy1 sy2, sys_exec (YArrive h r) sy = Some sy1 /\ rtc (hstep h) sy1 sy2
  /\ sy_server sy2 = s2 /\ sy_now sy2 = ck_finished clock
  /\ sy_handlers sy2 = <[h := mkHandler r (sy_now sy) (ended resp)]> (sy_handlers sy)
  /\ Forall (present (sy_refreshes sy2) (sy_triggers sy2)) work
  /\ sy_refreshes sy ⊆ sy_refreshes sy2 /\ sy_triggers sy ⊆ sy_triggers sy2.
Proof.
  intros Hh Hck Hr. destruct sy as [s now rs ts hs]. simpl in *.
  destruct (leads_Handler h r now hs s now clock s2 work resp Hck Hr rs ts) as (rs2 & ts2 & Hs & H1 & H2 & H3).
  eexists _, _. rewrite Hh. split; [reflexivity|]. split; [exact Hs|]. by split_and!.
Qed.
