(* ===== verification/Background.v ===== *)
(** * The running server with the loops of its cache (cmd/adserver/main.go)

    [main] starts the cache's loops before it serves. [System] allows what they do, the
    ticks, the failed subscriptions and the invalidations, at any moment; here they do it,
    in one process with the handlers and everything else. An execution of that process is
    an execution of [System] and one of [Loops], so what is proved of each holds of it;
    and what the loops can do by themselves they can do in the process. *)

From S2P Require Import Prelude GoInt GoTime GoString GoParse Types Ranking DynamicBids Store BidStore Cache CacheRun.
From S2P Require Import Redis StoreProps CacheProps CacheFresh Loops LoopsProps LoopsFresh.
From S2P Require Import Auction Engine EngineInv DecisionLog Metrics Config Server ServerProps Handlers System SystemInv.
Open Scope string_scope.
Open Scope list_scope.
Open Scope Z_scope.

(** The process: the server and the state of the loops, as in [loops]. *)
Record node (W : Type) := mkNode {
  nd_system : system W;
  nd_cancelled : bool;
  nd_subscriber : subscriber;
  nd_refresher : Loops.refresher;
  nd_next : Time;
  nd_tick : bool
}.
Arguments mkNode {W} _ _ _ _ _ _.
Arguments nd_system {W} _.
Arguments nd_cancelled {W} _.
Arguments nd_subscriber {W} _.
Arguments nd_refresher {W} _.
Arguments nd_next {W} _.
Arguments nd_tick {W} _.

Inductive node_event := NServer (ev : sys_event) | NLoop (ev : loop_event).

Section node.
Context {W : Type} `{BidStore W}.

Definition loops_view (n : node W) : loops W :=
  mkLoops (cache_view (nd_system n)) (nd_cancelled n) (nd_subscriber n) (nd_refresher n) (nd_next n) (nd_tick n).

(** The loops [l] in the process of [sy]. *)
Definition with_loops (l : loops W) (sy : system W) : node W :=
  mkNode (put_cache (lp_run l) sy) (lp_cancelled l) (lp_subscriber l) (lp_refresher l) (lp_next l) (lp_tick l).

(** [cache.Start(ctx)] in a server that has not served anything. *)
Definition node_start (s : Server W) (now : Time) : node W := with_loops (Start (cache_view (boot s now))) (boot s now).

(** The steps of the server that are not those of the loops. The name of a new goroutine
    is not that of the reconciliation [refreshLoop] is in. *)
Definition server_event (ev : sys_event) (n : node W) : bool :=
  match ev with
  | YCache (ETick _ | EUnsubscribed | EInvalidate _ _) => false
  | YHandler _ tid => negb (reserved tid (loops_view n))
  | _ => true
  end.

Definition node_exec (ev : node_event) (n : node W) : option (node W) :=
  match ev with
  | NServer ev => if server_event ev n then sy ← sys_exec ev (nd_system n); Some {| n with nd_system := sy |} else None
  | NLoop (LRun _) => None
  | NLoop ev => l ← loop_exec ev (loops_view n); Some (with_loops l (nd_system n))
  end.

Fixpoint node_exec_all (evs : list node_event) (n : node W) : option (node W) :=
  match evs with
  | [] => Some n
  | ev :: evs => n ← node_exec ev n; node_exec_all evs n
  end.

Definition loops_of (evs : list node_event) : list loop_event :=
  omap (fun ev => match ev with NLoop ev => Some ev | NServer _ => None end) evs.
End node.

(** The events of the loops themselves. *)
Definition own (evs : list loop_event) : list loop_event :=
  omap (fun ev => match ev with LRun _ => None | _ => Some ev end) evs.

Definition node_event_ok (ev : node_event) : Prop := match ev with NServer ev => sys_event_ok ev | NLoop _ => True end.

Section facts.
Context {W : Type} `{HL : BidStoreLaws W}.

Lemma put_cache_same (sy : system W) : put_cache (cache_view sy) sy = sy.
Proof. by destruct sy as [[] ? ? ? ?]. Qed.

Lemma cache_view_put st (sy : system W) : st_now st = sy_now sy -> cache_view (put_cache st sy) = st.
Proof. destruct st. simpl. by intros ->. Qed.

(** What a step of the server is to the cache. *)
Definition seen_by_cache (ev : sys_event) (e : CacheRun.event) : Prop :=
  match e with
  | ETick _ | EUnsubscribed => ev = YCache e
  | EInvalidate tid _ => ev = YCache e \/ exists h, ev = YHandler h tid
  | _ => True
  end.

Definition cache_does (ev : sys_event) (sy sy2 : system W) : Prop :=
  cache_view sy2 = cache_view sy \/ exists e, CacheRun.exec e (cache_view sy) = Some (cache_view sy2) /\ seen_by_cache ev e.

Lemma do_cache_does ev e (sy sy2 : system W) : timed e = false -> seen_by_cache ev e -> do_cache e sy = Some sy2 -> cache_does ev sy sy2.
Proof. intros Ht He Hd. right. exists e. split; [by apply do_cache_exec|done]. Qed.

Lemma do_engine_cache ev (sy sy2 : system W) : do_engine ev sy = Some sy2 -> cache_view sy2 = cache_view sy.
Proof.
  unfold do_engine. destruct (engine_view sy) as [st|]; [|done]. destruct (engine_exec ev st); [|done]. by intros [= <-].
Qed.

Lemma handler_step_cache h tid p p2 (sy sy2 : system W) :
  handler_step tid p sy = Some (p2, sy2) -> cache_does (YHandler h tid) sy sy2.
Proof.
  intros Hs. destruct p; cbn [handler_step] in Hs; try done; try (injection Hs as <- <-; by left).
  - destruct (engine_view sy); [|done]. destruct (do_engine _ sy) eqn:Hd; [|done]. injection Hs as _ <-. left. by eapply do_engine_cache.
  - destruct (do_engine _ sy) eqn:Hd; [|done]. injection Hs as _ <-. left. by eapply do_engine_cache.
  - destruct (do_engine _ sy) eqn:Hd; [|done]. injection Hs as _ <-. left. by eapply do_engine_cache.
  - destruct (BidCache_Get _ _ _). injection Hs as _ <-. by left.
  - destruct (do_cache _ sy) eqn:Hd; [|done]. injection Hs as _ <-. eapply do_cache_does; [| |exact Hd]; [done|]. right. by exists h.
  - destruct (Record_entry _ _). injection Hs as _ <-. by left.
  - destruct (do_cache _ sy) eqn:Hd; [|done]. injection Hs as _ <-. by (eapply do_cache_does; [| |exact Hd]).
  - destruct (do_cache _ sy) eqn:Hd; [|done]. injection Hs as _ <-. by (eapply do_cache_does; [| |exact Hd]).
  - destruct (do_cache _ sy) eqn:Hd; [|done]. injection Hs as _ <-. by (eapply do_cache_does; [| |exact Hd]).
Qed.

Lemma sys_exec_cache ev (sy sy2 : system W) : sys_exec ev sy = Some sy2 -> cache_does ev sy sy2.
Proof.
  intros Hx. destruct ev as [h r|h tid|ev|ev| | |now]; simpl in Hx.
  - destruct (sy_handlers sy !! h); [done|]. injection Hx as <-. by left.
  - destruct (sy_handlers sy !! h) as [hd|]; [|done]. destruct (handler_step tid (h_prog hd) sy) as [[p sy1]|] eqn:Hs; [|done].
    injection Hx as <-. apply (handler_step_cache h) in Hs as [Hs|Hs]; [by left|by right].
  - assert (Ht : timed ev = false) by (by destruct ev). assert (Hd : do_cache ev sy = Some sy2) by (by destruct ev).
    eapply do_cache_does; [exact Ht| |exact Hd]. destruct ev; (done || by left).
  - destruct (background ev); [|done]. left. by eapply do_engine_cache.
  - left. unfold do_log in Hx. destruct (sv_decisionLogger _); [|done]. destruct (run_step _); [|done]. by injection Hx as <-.
  - left. unfold do_log in Hx. destruct (sv_decisionLogger _); [|done]. by injection Hx as <-.
  - destruct (Z.leb_spec (sy_now sy) now) as [Hle|]; [|done]. injection Hx as <-. right. exists (ETime now). split; [|done].
    simpl. by rewrite (proj2 (Z.leb_le _ _) Hle).
Qed.

(** A step of the server is at most one step of the rest of the cache to the loops. *)
Lemma server_step_loops ev (n : node W) sy : server_event ev n = true -> sys_exec ev (nd_system n) = Some sy ->
  let n2 := {| n with nd_system := sy |} in
  loops_view n2 = loops_view n \/ exists e, loop_exec (LRun e) (loops_view n) = Some (loops_view n2).
Proof.
  intros Hev Hx n2. destruct (sys_exec_cache _ _ _ Hx) as [Hc|(e & He & Hs)].
  - left. unfold loops_view. simpl. by rewrite Hc.
  - right. exists e. assert (Hel : elsewhere e (loops_view n) = true).
    { destruct e as [| | |tid p| | | |]; try done; simpl in Hs; [|by subst ev..]. destruct Hs as [->|(h & ->)]; [done|exact Hev]. }
    unfold loop_exec. rewrite Hel. unfold running, loops_view. simpl. by rewrite He.
Qed.

Lemma own_step_now ev (l l2 : loops W) : (forall e, ev <> LRun e) -> loop_exec ev l = Some l2 ->
  st_now (lp_run l2) = st_now (lp_run l)
  /\ (lp_run l2 = lp_run l \/ exists e, timed e = false /\ event_ok e /\ CacheRun.exec e (lp_run l) = Some (lp_run l2)).
Proof.
  intros Hne Hx. apply loop_exec_cache in Hx. destruct (cache_event ev l) as [e|] eqn:He; [|by rewrite Hx; split; [|left]].
  assert (Ht : timed e = false /\ event_ok e).
  { unfold cache_event in He. destruct ev as [e'| | [] | | | | | | tid| | | | | |]; try done; try (by injection He as <-); [by destruct (Hne e')|].
    destruct (lp_subscriber l) as [| | |s|]; try done. by destruct (sb_out s); simplify_eq/=. }
  destruct Ht as [Ht Hok]. split; [by eapply exec_now|]. right. by exists e.
Qed.

Lemma own_step ev (n : node W) l : (forall e, ev <> LRun e) -> loop_exec ev (loops_view n) = Some l ->
  loops_view (with_loops l (nd_system n)) = l /\ rtc sys_step (nd_system n) (put_cache (lp_run l) (nd_system n)).
Proof.
  intros Hne Hx. destruct (own_step_now _ _ _ Hne Hx) as [Hnow Hrun]. split.
  - unfold loops_view, with_loops. simpl. rewrite cache_view_put by exact Hnow. by destruct l.
  - destruct Hrun as [->|(e & Ht & Hok & He)]; [simpl; by rewrite put_cache_same|]. apply rtc_once. exists (YCache e). split; [done|].
    assert (Hd : do_cache e (nd_system n) = Some (put_cache (lp_run l) (nd_system n))) by (unfold do_cache; change (cache_view (nd_system n)) with (lp_run (loops_view n)); by rewrite He).
    by destruct e.
Qed.

Lemma own_app evs evs2 : own (evs ++ evs2) = own evs ++ own evs2.
Proof. apply omap_app. Qed.

(** One step of the process. *)
Lemma node_step ev (n n2 : node W) : node_event_ok ev -> node_exec ev n = Some n2 ->
  rtc sys_step (nd_system n) (nd_system n2)
  /\ exists levs, loop_exec_all levs (loops_view n) = Some (loops_view n2) /\ own levs = loops_of [ev].
Proof.
  intros Hok Hx. destruct ev as [ev|ev]; simpl in Hx.
  - destruct (server_event ev n) eqn:Hev; [|done]. apply bind_Some in Hx as (sy & Hs & [= <-]). simpl. split; [apply rtc_once; by exists ev|].
    destruct (server_step_loops ev n sy Hev Hs) as [Heq|(e & He)]; [exists []; split; [by rewrite Heq|done]|].
    exists [LRun e]. simpl in He |- *. by rewrite He.
  - assert (Hne : forall e, ev <> LRun e) by (intros e ->; done).
    assert (Hl : exists l, loop_exec ev (loops_view n) = Some l /\ n2 = with_loops l (nd_system n)).
    { destruct ev; try (apply bind_Some in Hx as (l & Hl & [= <-]); by exists l); done. }
    destruct Hl as (l & Hl & ->). destruct (own_step ev n l Hne Hl) as [Hv Hr]. split; [exact Hr|]. exists [ev]. rewrite Hv.
    cbn [loop_exec_all]. rewrite Hl. split; [done|]. by destruct ev.
Qed.

Lemma node_steps evs (n n2 : node W) : Forall node_event_ok evs -> node_exec_all evs n = Some n2 ->
  rtc sys_step (nd_system n) (nd_system n2)
  /\ exists levs, loop_exec_all levs (loops_view n) = Some (loops_view n2) /\ own levs = loops_of evs.
Proof.
  intros Hok. revert n. induction Hok as [|ev evs Hev _ IH]; intros n Hx; [injection Hx as <-; split; [done|by exists []]|].
  simpl in Hx. apply bind_Some in Hx as (n1 & H1 & Hx). destruct (node_step _ _ _ Hev H1) as (Hr1 & l1 & E1 & O1).
  destruct (IH _ Hx) as (Hr & l2 & E2 & O2). split; [by etrans|]. exists (l1 ++ l2). rewrite loop_exec_all_app, E1, own_app, O1, O2.
  split; [exact E2|]. unfold loops_of. by destruct ev.
Qed.

(** The process of the server and the loops of its cache, however its steps are
    interleaved, is at every moment a state the running server can be in by itself, and
    one the loops can be in with the server's steps as those of their surroundings: their
    own steps are the same, in the same order. *)
Theorem node_refines (s : Server W) now evs n :
  Forall node_event_ok evs -> node_exec_all evs (node_start s now) = Some n ->
  rtc sys_step (boot s now) (nd_system n)
  /\ exists levs, loop_exec_all levs (Start (cache_view (boot s now))) = Some (loops_view n) /\ own levs = loops_of evs.
Proof. intros Hok Hx. apply (node_steps _ _ _ Hok) in Hx. unfold node_start in Hx. by destruct s. Qed.

(** ** The loops at work *)

(** A step of the loops, or of a refresh of the cache. *)
Definition background_work (ev : node_event) : bool :=
  match ev with
  | NServer (YCache (ERun _)) | NLoop (LForward | LReceive _ | LFire | LTick _ | LReconciled) => true
  | _ => false
  end.

Definition in_node (ev : loop_event) : node_event := match ev with LRun e => NServer (YCache e) | ev => NLoop ev end.

Lemma working_step ev (n : node W) l : working ev = true -> loop_exec ev (loops_view n) = Some l ->
  node_exec (in_node ev) n = Some (with_loops l (nd_system n)) /\ loops_view (with_loops l (nd_system n)) = l.
Proof.
  intros Hw Hx. destruct ev as [e| | | | | | | | | | | | | |]; try done; cycle 1.
  1-5: (split; [unfold node_exec, in_node; by rewrite Hx|refine (proj1 (own_step _ n l _ Hx)); by intros e]).
  destruct e as [| | | | | |tid|]; try done. unfold loop_exec, elsewhere in Hx. apply running_spec in Hx as (st & Hx & ->).
  change (lp_run (loops_view n)) with (cache_view (nd_system n)) in Hx. split.
  - cbn [node_exec in_node server_event sys_exec]. unfold do_cache. by rewrite Hx.
  - unfold loops_view, with_loops. cbn [nd_system lp_run lp_cancelled lp_subscriber lp_refresher lp_next lp_tick nd_cancelled nd_subscriber nd_refresher nd_next nd_tick].
    rewrite cache_view_put; [done|]. exact (exec_now (ERun tid) (cache_view (nd_system n)) st eq_refl Hx).
Qed.

Lemma working_steps evs (n : node W) l : forallb working evs = true -> loop_exec_all evs (loops_view n) = Some l ->
  node_exec_all (in_node <$> evs) n = Some (with_loops l (nd_system n)).
Proof.
  revert n. induction evs as [|ev evs IH]; intros n Hw Hx.
  - injection Hx as <-. unfold with_loops, loops_view. simpl. rewrite put_cache_same. by destruct n.
  - apply andb_true_iff in Hw as [Hw1 Hw]. cbn [loop_exec_all] in Hx. apply bind_Some in Hx as (l1 & H1 & Hx).
    destruct (working_step ev n l1 Hw1 H1) as [Hn Hv]. cbn [fmap list_fmap node_exec_all]. rewrite Hn. cbn [mbind option_bind].
    rewrite (IH _ Hw) by (by rewrite Hv). done.
Qed.

Lemma background_in_node evs : forallb working evs = true -> forallb background_work (in_node <$> evs) = true.
Proof.
  induction evs as [|ev evs IH]; [done|]. cbn [forallb fmap list_fmap]. intros [Hw H1]%andb_true_iff. fold (in_node <$> evs).
  rewrite IH by done. rewrite andb_true_r. destruct ev as [[]| | | | | | | | | | | | | |]; done.
Qed.
End facts.
