(* ===== verification/Service.v ===== *)
(** * The service, end to end

    A server that [main] has started, over Redis, meets what the theorems about the
    running system ask for; so every execution of the program from its environment on
    answers auctions soundly, keeps the registry consistent, and keeps its cache up with
    it. *)

From S2P Require Import Prelude GoInt Utf8 Json JsonCodec.
From S2P Require Import Prelude GoInt GoTime GoString GoParse Types Ranking DynamicBids Redis Store BidStore Samples.
From S2P Require Import Cache CacheRun Auction StoreProps CacheProps CacheFresh AuctionProps Engine EngineInv EngineProps DecisionLog.
From S2P Require Import Metrics Config Server ServerProps HttpBidder Main Handlers HandlerSpec System SystemInv SystemProps.
From S2P Require Import Loops LoopsProps LoopsFresh Background.
Open Scope string_scope.
Open Scope list_scope.
Open Scope Z_scope.

Section service.
Context `{Redis} `{URLParser}.
Context (range : gmap string string -> list (string * string)) (connect : redis_client -> World) (clock : nat -> Time).
Context (Hrange : any_order range).

Lemma Reconcile_policy {W} `{BidStoreLaws W} c w c2 w2 e :
  store_ok w -> Reconcile clock c w = (c2, w2, e) -> bc_policy c2 = bc_policy c.
Proof.
  intros Hw Hr. unfold Reconcile in Hr. destruct (store_Placements w) as [w1 [err|ps]] eqn:Ep;
    destruct (Placements_ok _ _ _ Hw Ep) as [Hw1 _]; [by injection Hr as <- _ _|].
  by destruct (refresh_each_spec _ _ _ _ _ _ _ _ Hw1 Hr) as (_ & ? & _).
Qed.

(** The snapshots a reconciliation leaves are from its own readings of the clock. *)
Lemma Reconcile_past {W} `{BidStoreLaws W} c w c2 w2 e now :
  store_ok w -> (forall n, is_int64 (clock n) /\ clock n <= now) ->
  (forall p l, bc_entries c !! p = Some (Some l) -> bl_refreshedAtNS l <= now) ->
  Reconcile clock c w = (c2, w2, e) ->
  bc_inflight c2 = bc_inflight c /\ forall p l, bc_entries c2 !! p = Some (Some l) -> bl_refreshedAtNS l <= now.
Proof.
  intros Hw Hck Hp Hr. unfold Reconcile in Hr. destruct (store_Placements w) as [w1 [err|ps]] eqn:Ep;
    destruct (Placements_ok _ _ _ Hw Ep) as [Hw1 _]; [by injection Hr as <- _ _|].
  destruct (refresh_each_spec _ _ _ _ _ _ _ _ Hw1 Hr) as (_ & _ & Hi & _ & dn & rest & _ & Hout & Hin & _).
  split; [done|]. intros p l Hl. destruct (decide (p ∈ dn)) as [Hd|Hd]; [|rewrite (Hout p Hd) in Hl; by apply (Hp p)].
  destruct (Hin p Hd) as (l' & k & _ & Hl' & (? & ? & bids & _ & _ & ->)). rewrite Hl in Hl'. injection Hl' as ->.
  destruct (Hck k) as [Hk Hle]. simpl. unfold UnixNano. by rewrite int64_id.
Qed.

Lemma new_cache_empty policy : cache_ok (NewBidCacheWithPolicy policy).
Proof.
  split; [apply NewBidCacheWithPolicy_valid| |]; unfold NewBidCacheWithPolicy; simpl.
  - by intros p l; rewrite lookup_empty.
  - done.
Qed.

(** A new server over a cache and a store in order. *)
Lemma new_server_bootable {W} `{BidStoreLaws W} c (w : W) cache now :
  config_sane c -> store_ok w -> is_int64 now -> cache_ok cache -> bc_inflight cache = ∅ ->
  (forall p l, bc_entries cache !! p = Some (Some l) -> bl_refreshedAtNS l <= now) ->
  bootable (NewServer c w cache) now /\ auctioneer_ok (sv_auctioneer (NewServer c w cache)).
Proof.
  intros Hs Hw Hn Hc Hi Hp. split.
  - split; simpl; try done. intros d Hd. split; [by eapply new_logger_ok|].
    unfold NewDecisionLogger in Hd. destruct (c_DecisionLogging c); [|done]. by injection Hd as <-.
  - apply NewAuctioneerWithPolicy_ok. pose proof (cs_increment _ Hs). unfold_int. lia.
Qed.

Lemma with_engine_bootable {W} `{BidStoreLaws W} (s : Server W) now config cs e :
  NewBidderEngine true config cs = inr e -> bootable s now -> bootable (SetBidderEngine e s) now.
Proof. intros He []. split; simpl; try done. intros e' [= <-]. by eapply new_engine_inv. Qed.

(** What [main] starts. *)
Lemma main_bootable env client rs rs' s now :
  NewRedisStoreWithOptions (store_options (ConfigFromEnv env)) = (client, rs) -> Consistent rs (w_db (connect client)) ->
  is_int64 now -> (forall n, is_int64 (clock n) /\ clock n <= now) -> main range connect clock env = Serving rs' s ->
  rs' = rs /\ let HB := redis_bid_store rs range in let HL := redis_bid_store_laws rs range Hrange in
  @bootable World HB HL s now /\ auctioneer_ok (sv_auctioneer s)
  /\ sv_config s = ConfigFromEnv env /\ bc_policy (sv_cache s) = cache_policy (ConfigFromEnv env) /\ incl (configured_ids s) (ep_ID <$> c_DSPBidderEndpoints (ConfigFromEnv env)).
Proof.
  intros Hst Hcons Hnow Hck. unfold main. pose proof (ConfigFromEnv_sane env) as Hsane. set (c := ConfigFromEnv env) in *.
  destruct (Config_Validate c) as [msg|] eqn:Hv; [done|].
  rewrite Hst. set (HB := redis_bid_store rs range). set (HL := redis_bid_store_laws rs range Hrange).
  destruct (store_Ping (connect client)) as [w err] eqn:Ep.
  assert (Hw : store_ok w) by (by eapply Ping_ok; [exact Hcons|]).
  destruct err; [done|]. destruct (Warm clock _ w) as [[cache w2] err] eqn:Ew. destruct err; [done|].
  pose proof (new_cache_empty (cache_policy c)) as Hc0.
  destruct (Reconcile_ok _ _ _ _ _ _ Hw Hc0 Ew) as [Hw2 Hc].
  destruct (Reconcile_past (NewBidCacheWithPolicy (cache_policy c)) _ _ _ _ now Hw Hck ltac:(by intros p l) Ew) as [Hi Hp].
  assert (Hpol : bc_policy cache = cache_policy c).
  { rewrite <- (cache_policy_kept c Hsane Hv). by apply (Reconcile_policy _ _ _ _ _ Hw Ew). }
  destruct (new_server_bootable c w2 cache now Hsane Hw2 Hnow Hc Hi Hp) as [Hb Ha].
  destruct (0 <? _).
  - pose proof (bidder_configs_spec c (c_DSPBidderEndpoints c)) as Hbc.
    destruct (bidder_configs c (c_DSPBidderEndpoints c)) as [|cs]; [done|]. destruct Hbc as [Hcs _].
    pose proof (configured_engine c cs Hv Hcs) as He.
    destruct (NewBidderEngine true (c_BidderEngineConfig c) cs) as [|e] eqn:Ee; [done|]. intros [= <- <-].
    split_and!; [done|by eapply with_engine_bootable|done|done|done|]. destruct He as [(_ & _ & Hids) _]. 
    change (incl (bidder_ids e) (ep_ID <$> c_DSPBidderEndpoints c)). rewrite Hids. apply incl_refl.
  - intros [= <- <-]. split_and!; [done..|]. by intros ? ?.
Qed.

(** ** What a client can rely on *)

(** The winner [w], sold at time [u] on the snapshot of [past], under the
    configuration [c]. *)
Definition fair_fill (c : Config) (request : AuctionRequest) (past : system World) (u : Time) (w : Bid) (bidder : string) : Prop :=
  eligible_for request (time_Unix u) (w, bidder)
  /\ exists l, bc_entries (sv_cache (sy_server past)) !! req_PlacementID request = Some (Some l)
    /\ (c_StaleSnapshotAction c = NoBidOnStale ->
         time_Sub (sy_now past) (Unix_ns (bl_refreshedAtNS l)) <= c_MaxSnapshotAge c)
    /\ sold (ep_ID <$> c_DSPBidderEndpoints c) request (bl_bids l) w bidder.

Lemma served_snapshot c (cache : BidCache) p t bids snapshot :
  bc_policy cache = cache_policy c -> BidCache_Get p t cache = (bids, snapshot) ->
  ss_Found snapshot = true -> ss_Stale snapshot && ss_RejectStale snapshot = false ->
  exists l, bc_entries cache !! p = Some (Some l) /\ bids = bl_bids l
    /\ (c_StaleSnapshotAction c = NoBidOnStale -> time_Sub t (Unix_ns (bl_refreshedAtNS l)) <= c_MaxSnapshotAge c).
Proof.
  intros Hp Hg Hf Hs. unfold BidCache_Get in Hg. destruct (bc_entries cache !! p) as [[l|]|]; injection Hg as <- <-; try done.
  exists l. split_and!; [done..|]. intros Hact. rewrite Hp in Hs. cbn in Hs. rewrite Hact in Hs.
  destruct (Z.ltb_spec (c_MaxSnapshotAge c) (time_Sub t (Unix_ns (bl_refreshedAtNS l)))); [done|done].
Qed.

Lemma sold_incl ids ids2 request bids w bidder : incl ids ids2 -> sold ids request bids w bidder -> sold ids2 request bids w bidder.
Proof. intros Hi [?|[Hid ?]]; [by left|right]. split; [|done]. apply list_elem_of_In, Hi. by apply list_elem_of_In. Qed.
End service.

(** C1: the service, end to end. Take any environment, any consistent registry behind
    any network faults, and the server [main] starts; let it run, every handler,
    refresh, reconciliation and call of a bidder interleaved with the writes of other
    servers in any way. At every moment the registry is consistent, and every filled
    auction that was answered sold an eligible bid, which the snapshot of the
    request's placement held, a snapshot no older than allowed if stale ones are to be
    refused, or which a configured bidder offered, at a price that is at least both
    floors and at most the bid's effective price. *)
Theorem service_sound `{Redis} `{URLParser} range connect clock (Hrange : any_order range)
    env client rs rs' s now sy :
  NewRedisStoreWithOptions (store_options (ConfigFromEnv env)) = (client, rs) -> Consistent rs (w_db (connect client)) ->
  is_int64 now -> (forall n, is_int64 (clock n) /\ clock n <= now) -> main range connect clock env = Serving rs' s ->
  let HB := redis_bid_store rs range in let HL := redis_bid_store_laws rs range Hrange in
  rtc sys_step (boot s now) sy ->
  Consistent rs (w_db (sv_store (sy_server sy)))
  /\ forall h hd resp a w, sy_handlers sy !! h = Some hd -> h_prog hd = Return resp -> answer_of resp = Some a ->
       rsp_Bid a = Some w ->
       exists request past u, auction_input (h_request hd) = Some request
         /\ passes (boot s now) past sy /\ h_arrived hd <= sy_now past <= u /\ u <= sy_now sy
         /\ fair_fill (ConfigFromEnv env) request past u w (rsp_DynamicBidderID a)
         /\ req_FloorMicros request <= rsp_ClearingPriceMicros a
         /\ bid_FloorMicros w <= rsp_ClearingPriceMicros a <= effectivePrice w.
Proof.
  intros Hst Hcons Hnow Hck Hmain HB HL Hr.
  destruct (main_bootable range connect clock Hrange env client rs rs' s now Hst Hcons Hnow Hck Hmain) as (_ & Hb & Ha & _ & Hpol & Hids).
  split.
  - destruct (sys_reachable_inv s Ha now sy Hb Hr) as (gs & Hi & _). exact (run_store _ (si_cache _ _ _ Hi)).
  - intros h hd resp a w Hh Hp Hans Hbid.
    destruct (answer_explained s now sy h hd resp a Ha Hb Hr Hh Hp Hans) as (request & looking & past & u & Hin & _ & Hpass & Ht & Hu & Hok).
    destruct (BidCache_Get _ _ _) as [bids snapshot] eqn:Eg. destruct Hok as [Hok Hsold].
    destruct (Hsold w Hbid) as (Hf & Hs & Hw). unfold answer_ok in Hok. rewrite Hbid in Hok.
    destruct Hok as (_ & _ & _ & Hel & Heff & Hfl & Hcl). rewrite Heff in Hcl.
    assert (Hpol2 : bc_policy (sv_cache (sy_server past)) = cache_policy (ConfigFromEnv env)).
    { destruct (sys_reachable_inv s Ha now past Hb (proj1 Hpass)) as (_ & _ & [Hc _ _] & _).
      rewrite <- Hpol. exact (steps_policy _ _ Hc). }
    destruct (served_snapshot _ _ _ _ _ _ Hpol2 Eg Hf Hs) as (l & Hl & -> & Hage).
    exists request, past, u. split_and!; try done; try lia. split; [done|]. exists l. split_and!; [done..|]. by apply (sold_incl (configured_ids s)).
Qed.

(** C3: writes become visible, end to end. Take any state of the server that [main]
    has started in which no refresh of a placement is between its reading of the
    registry and its storing. After one refresh of the placement that stores, or one
    reconciliation that started since and succeeds, whatever is interleaved, the cache
    serves the placement's bids in ranking order, and for good shows every one of them
    at least as new as the registry held it in the first state and no newer than it
    holds it now: what was written before is visible, what was deleted is gone. *)
Theorem writes_become_visible `{Redis} `{URLParser} range connect clock (Hrange : any_order range)
    env client rs rs' s now sy0 sy1 sy2 p :
  NewRedisStoreWithOptions (store_options (ConfigFromEnv env)) = (client, rs) -> Consistent rs (w_db (connect client)) ->
  is_int64 now -> (forall n, is_int64 (clock n) /\ clock n <= now) -> main range connect clock env = Serving rs' s ->
  let HB := redis_bid_store rs range in let HL := redis_bid_store_laws rs range Hrange in
  rtc sys_step (boot s now) sy0 ->
  (forall tid t bids, sy_refreshes sy0 !! tid = Some t -> ~ read_by t p bids) ->
  (exists sy tid t bids, rtc sys_step sy0 sy /\ sy_refreshes sy !! tid = Some t
     /\ thread_refresh t = Some (p, Slotted bids) /\ sys_exec (YCache (ERun tid)) sy = Some sy1)
  \/ (exists tid q, rtc sys_step sy0 sy1 /\ p ∈ members (w_db (sv_store (sy_server sy0))) (placementsKey rs)
     /\ match sy_refreshes sy0 !! tid with Some (TReconcile _ _ _) => False | _ => True end
     /\ sy_refreshes sy1 !! tid = Some (TReconcile q (Returned None) [])) ->
  rtc sys_step sy1 sy2 ->
  shows_since rs p (w_db (sv_store (sy_server sy0))) (w_db (sv_store (sy_server sy2))) (sv_cache (sy_server sy2)).
Proof.
  intros Hst Hcons Hnow Hck Hmain HB HL Hr Hunread Href Hr2.
  destruct (main_bootable range connect clock Hrange env client rs rs' s now Hst Hcons Hnow Hck Hmain) as (_ & Hb & Ha & _).
  destruct (sys_reachable_inv s Ha now sy0 Hb Hr) as (gs & Hi & _).
  assert (Hsim : forall a b, rtc sys_step sy0 a -> rtc sys_step a b -> rtc CacheRun.step (cache_view a) (cache_view b)).
  { intros a b Hra Hab. apply (sys_steps_simulate s Ha now a b Hb); [by etrans|done]. }
  assert (Hcase : rtc sys_step sy0 sy1 /\ refreshed rs range (cache_view sy0) p (cache_view sy1)).
  { destruct Href as [(sy & tid & t & bids & Hra & Ht & Hp & Hx)|(tid & q & Hr1 & Hp & Hn & Ht)].
    - split; [eapply rtc_r; [exact Hra|]; by exists (YCache (ERun tid))|].
      eapply (refreshed_once rs range _ p (cache_view sy) (cache_view sy1) tid t bids); [by apply Hsim|done|done|by apply do_cache_exec].
    - split; [done|]. apply (refreshed_all rs range _ p (cache_view sy1) tid q); [done| |by apply Hsim|done].
      unfold reconciling. simpl. by destruct (sy_refreshes sy0 !! tid) as [[]|]. }
  destruct Hcase as [Hr1 Hcase].
  apply (refresh_shows_writes rs range Hrange (cache_view sy0) (cache_view sy1) (cache_view sy2) p); [apply (si_cache _ _ _ Hi)|exact Hunread|exact Hcase|by apply Hsim].
Qed.
(** ** The loops keep the cache up with the registry *)

(** A reader of the cache gets what the registry [d] holds for [p], as fresh. *)
Definition up_to_date `{Redis} (rs : RedisStore) (d : db) (n : node World) (p : string) : Prop :=
  exists bids, fetched rs d p bids
    /\ BidCache_Get p (sy_now (nd_system n)) (sv_cache (sy_server (nd_system n))) = (bids, mkSnapshotState true false false 0).

(** From [n], within [bound] steps of the loops and of refreshes alone, the process gets
    to a state [P] in which the registry is the same. *)
Definition soon `{Redis} {HB : BidStore World} (bound : nat) (n : node World) (P : node World -> Prop) : Prop :=
  exists evs n2, (length evs <= bound)%nat /\ forallb background_work evs = true /\ node_exec_all evs n = Some n2
    /\ sv_store (sy_server (nd_system n2)) = sv_store (sy_server (nd_system n)) /\ P n2.

