(* ===== verification/SystemSamples.v ===== *)
(** * Executions of the running server

    Concrete interleavings of the whole process, evaluated, and the theorems about the
    running system applied to them. *)

From S2P Require Import Prelude GoInt Utf8 Json JsonCodec.
From S2P Require Import Prelude GoInt GoTime GoString GoParse Types Ranking DynamicBids Redis Store BidStore Samples Cache.
From S2P Require Import CacheRun CacheProps CacheFresh Auction AuctionProps Engine EngineInv EngineProps DecisionLog Metrics Config Server.
From S2P Require Import ServerProps HttpBidder Main Handlers HandlerSpec System SystemInv SystemProps SystemLive SystemSeq Service Shutdown.
From S2P Require Import Loops LoopsProps LoopsFresh Background.
Open Scope string_scope.
Open Scope list_scope.
Open Scope Z_scope.

(** ** Two auctions, a write and a refresh of the engine, interleaved *)

Definition busy_server : Server World := SetBidderEngine sample_engine sample_server.
Definition busy_boot : system World := boot busy_server 0.

(** The handlers [hs] take a step each, [n] times; the goroutines they start get
    fresh names from [from] on. *)
Fixpoint rounds (hs : list nat) (n from : nat) : list sys_event :=
  match n with
  | O => []
  | S n => imap (fun i h => YHandler h (from + i)) hs ++ rounds hs n (from + length hs)
  end.

Definition opening_events : list sys_event :=
  [YTime 5; YArrive 0 auction_http; YArrive 1 auction_http; YArrive 2 upsert_http] ++ rounds [0; 1; 2]%nat 2 0.

Definition sys_after (evs : list sys_event) (sy : system World) : system World := default sy (sys_exec_all evs sy).
Definition opened : system World := sys_after opening_events busy_boot.

Definition closing_events : list sys_event := rounds [0; 1]%nat 11 10 ++ rounds [0]%nat 2 60 ++ rounds [2]%nat 1 100 ++ [YLogWrite].
Definition closed : system World := sys_after closing_events opened.

Definition statuses (sy : system World) : list (option Z) :=
  (fun x => rs_status <$> response x.2) <$> map_to_list (sy_handlers sy).
Definition answer_in (h : nat) (sy : system World) : option AuctionResponse :=
  match sy_handlers sy !! h with Some hd => match response hd with Some resp => answer_of resp | None => None end | None => None end.

Example opened_statuses : statuses opened = [None; None; None].
Proof. by_compute. Qed.
Example closed_statuses : statuses closed = [Some 200; Some 200; Some 200].
Proof. by_compute. Qed.

Definition sys_event_okb (ev : sys_event) : bool :=
  match ev with
  | YCache ev => event_okb ev
  | YEngine _ => false
  | YTime now => bool_decide (is_int64 now)
  | _ => true
  end.

Lemma sys_event_okb_ok (ev : sys_event) : sys_event_okb ev = true -> sys_event_ok ev.
Proof. destruct ev; simpl; try done; [by apply event_okb_ok|]. by intros ?%bool_decide_eq_true. Qed.

Lemma sys_exec_all_steps evs (sy sy2 : system World) :
  forallb sys_event_okb evs = true -> sys_exec_all evs sy = Some sy2 -> rtc sys_step sy sy2.
Proof.
  revert sy. induction evs as [|ev evs IH]; simpl; intros sy He Hx; [simplify_eq; constructor|].
  apply andb_true_iff in He as [Hev He]. destruct (sys_exec ev sy) as [sy1|] eqn:E; [|done].
  eapply rtc_l; [|by apply IH]. exists ev. split; [by apply sys_event_okb_ok|done].
Qed.

Lemma sys_after_steps evs (sy : system World) :
  forallb sys_event_okb evs = true -> is_Someb (sys_exec_all evs sy) = true -> rtc sys_step sy (sys_after evs sy).
Proof.
  intros He Hs%is_Someb_ok. apply (sys_exec_all_steps evs); [done|]. unfold sys_after. by destruct Hs as [? ->].
Qed.

Lemma busy_bootable : bootable busy_server 0.
Proof.
  apply (with_engine_bootable _ _ zero_engine_config [alpha_config; beta_config] _ sample_engine_new).
  destruct (new_server_bootable sample_config (mkWorld db_two []) (cache_with [bid2; bid1]) 0) as [Hb _]; [| | | | | |exact Hb].
  - split; vm_compute; intuition discriminate.
  - exact db_two_Consistent.
  - exact zero_int64.
  - by apply cache_with_ok, two_bids_ok.
  - done.
  - intros p l. unfold cache_with. rewrite store_list_lookup. case_decide; [by intros [= <-]|done].
Qed.

Lemma opened_reachable : rtc sys_step busy_boot opened.
Proof. apply sys_after_steps; by_compute. Qed.
Lemma closing_exec : sys_exec_all closing_events opened = Some closed.
Proof.
  assert (Hx : is_Someb (sys_exec_all closing_events opened) = true) by by_compute. apply is_Someb_ok in Hx as [sy2 Hx].
  unfold closed, sys_after. rewrite Hx. reflexivity.
Qed.

Lemma closed_reachable : rtc sys_step busy_boot closed.
Proof. etrans; [apply opened_reachable|]. apply sys_after_steps; by_compute. Qed.

#[local] Opaque opened closed.

(** ** The theorems, applied *)

Abbreviation busy_ok := (sample_auctioneer : auctioneer_ok (sv_auctioneer busy_server)).

Lemma system_refines_components_witness :
  statuses closed = [Some 200; Some 200; Some 200]
  /\ bc_entries (st_cache (cache_view closed)) !! "top" = Some (Some (mkBidList [bid2; bid1] 0))
  /\ rtc CacheRun.step (cache_view busy_boot) (cache_view closed) /\ run_ok (cache_view closed).
Proof.
  split; [by_compute|]. split; [by_compute|].
  destruct (system_refines_components busy_server 0 closed busy_ok busy_bootable closed_reachable)
    as (Hc & _ & _ & Hok & _). exact (conj Hc Hok).
Defined.

Lemma answer_in_spec h (sy : system World) a :
  answer_in h sy = Some a ->
  exists hd resp, sy_handlers sy !! h = Some hd /\ h_prog hd = Return resp /\ answer_of resp = Some a.
Proof.
  unfold answer_in, response. destruct (sy_handlers sy !! h) as [hd|]; [|done]. destruct (h_prog hd) eqn:E; try done.
  intros Ha. by exists hd, resp.
Qed.

(** A property of the answer of handler [h], by evaluation. *)
Lemma answer_in_check h (sy : system World) (P : AuctionResponse -> bool) :
  match answer_in h sy with Some a => P a | None => false end = true -> exists a, answer_in h sy = Some a /\ P a = true.
Proof. destruct (answer_in h sy) as [a|]; [|done]. by exists a. Qed.

Definition sells (b : Bid) (a : AuctionResponse) : bool := bool_decide (rsp_Bid a = Some b).

Lemma answers_sound_witness :
  exists a looking past, answer_in 0 closed = Some a /\ rsp_Bid a = Some bid2
    /\ passes busy_boot looking closed /\ passes busy_boot past closed /\ sy_now looking <= sy_now past
    /\ bid2 ∈ (BidCache_Get "top" (sy_now past) (sv_cache (sy_server past))).1.
Proof.
  destruct (answer_in_check 0 closed (sells bid2) ltac:(by_compute)) as (a & Ha & Hb%bool_decide_eq_true).
  destruct (answer_in_spec _ _ _ Ha) as (hd & resp & Hh & Hp & Hr).
  destruct (answers_sound busy_server 0 closed 0 hd resp a busy_ok busy_bootable closed_reachable Hh Hp Hr)
    as (request & looking & past & u & Hin & Hl & Hpast & [_ Ht] & _ & Hok).
  assert (Hreq : request = sample_request).
  { assert (Hhd : (h_request <$> (sy_handlers closed !! 0%nat)) = Some auction_http) by by_compute. rewrite Hh in Hhd.
    injection Hhd as Hhd. rewrite Hhd in Hin. assert (Hs : auction_input auction_http = Some sample_request) by by_compute. congruence. }
  subst request. destruct (BidCache_Get _ _ _) as [bids snapshot] eqn:Eg. destruct Hok as [_ Hsold].
  destruct (Hsold bid2 Hb) as (_ & _ & [(_ & Hin2 & _)|[_ (request' & _ & Hs)]]).
  - exists a, looking, past. change (req_PlacementID sample_request) with "top" in Eg. rewrite Eg. by split_and!.
  - destruct (san_id _ _ _ Hs) as [id Hid]. revert Hid. simpl. destruct (rsp_DynamicBidderID a); simpl; [done|].
    intros [= _ Hid]. destruct s; simpl in Hid; [|destruct s; simpl in Hid; destruct id; discriminate Hid]. discriminate Hid.
Defined.

Lemma all_handlers P (sy : system World) h hd :
  forallb P (map_to_list (sy_handlers sy)) = true -> sy_handlers sy !! h = Some hd -> P (h, hd) = true.
Proof. rewrite forallb_forall. intros Hall Hh. apply Hall. by apply list_elem_of_In, elem_of_map_to_list. Qed.

Lemma closed_concluded : concluded closed.
Proof.
  assert (Hall : forallb (fun x => finished (h_prog x.2)) (map_to_list (sy_handlers closed)) = true) by by_compute.
  split.
  - intros h hd Hh. exact (all_handlers _ _ _ _ Hall Hh).
  - assert (Ho : dl_closed <$> sv_decisionLogger (sy_server closed) = Some false) by by_compute.
    intros d Hd. rewrite Hd in Ho. by injection Ho.
  - by vm_compute.
Qed.

Lemma counters_concurrent_witness :
  tally (sv_metrics (sy_server closed)) = [2; 2; 0; 0; 1; 0; 0; 0; 0; 0; 0]
  /\ (fun i => map_sum (worth i) (sy_handlers closed)) <$> seq 0 11 = [2; 2; 0; 0; 1; 0; 0; 0; 0; 0; 0]
  /\ me_decisionLogDropped (sv_metrics (sy_server closed)) = 1 /\ Dropped (sv_decisionLogger (sy_server closed)) = 1.
Proof.
  assert (Ht : tally (sv_metrics (sy_server closed)) = [2; 2; 0; 0; 1; 0; 0; 0; 0; 0; 0]) by by_compute.
  assert (Hm : me_decisionLogDropped (sv_metrics (sy_server closed)) = 1) by by_compute.
  destruct (counters_concurrent busy_server 0 closed busy_ok busy_bootable closed_reachable closed_concluded)
    as (_ & Hsum & Hdrop & _).
  split; [exact Ht|]. split; [rewrite <- Hsum; exact Ht|]. split; [exact Hm|]. rewrite <- Hdrop. exact Hm.
Defined.

Definition log_of (sy : system World) : DecisionLogger := default (mkDecisionLogger [] 1 true true 0 []) (sv_decisionLogger (sy_server sy)).

Lemma log_concurrent_witness :
  length (dl_written (log_of closed)) = 1%nat /\ dl_dropped (log_of closed) = 1
  /\ map_sum (worth 0) (sy_handlers closed) = 2
  /\ exists entry, entry ∈ dl_written (log_of closed)
       /\ exists h hd resp a, sy_handlers closed !! h = Some hd /\ response hd = Some resp /\ answer_of resp = Some a
          /\ logs "top" a entry.
Proof.
  assert (Hl : sv_decisionLogger (sy_server closed) = Some (log_of closed)).
  { assert (Hs : is_Someb (sv_decisionLogger (sy_server closed)) = true) by by_compute. apply is_Someb_ok in Hs as [d Hd].
    unfold log_of. rewrite Hd. reflexivity. }
  destruct (log_concurrent busy_server 0 closed (log_of closed) busy_ok busy_bootable closed_reachable
    closed_concluded Hl) as [Hlines Hsum].
  assert (Hone : length (dl_written (log_of closed)) = 1%nat) by by_compute.
  assert (Hdrop : dl_dropped (log_of closed) = 1) by by_compute.
  split; [exact Hone|]. split; [exact Hdrop|]. split.
  { rewrite <- Hsum, Hdrop. assert (Hlen : length (dl_written (log_of closed) ++ dl_entries (log_of closed)) = 1%nat) by by_compute.
    rewrite Hlen. reflexivity. }
  destruct (dl_written (log_of closed)) as [|entry rest] eqn:Ew; [discriminate Hone|]. exists entry. split; [left|].
  destruct (Hlines entry) as (h & hd & resp & a & request & Hh & Hr & Ha & Hin & Hlogs); [left|].
  exists h, hd, resp, a. refine (conj Hh (conj Hr (conj Ha _))).
  assert (Hall : forallb (fun x => match response x.2 with
      | Some resp => match answer_of resp, auction_input (h_request x.2) with
                     | Some _, Some request => String.eqb (req_PlacementID request) "top" | _, _ => true end
      | None => true end) (map_to_list (sy_handlers closed)) = true) by by_compute.
  pose proof (all_handlers _ _ _ _ Hall Hh) as Hx. simpl in Hx.
  rewrite Hr, Ha, Hin in Hx. apply String.eqb_eq in Hx. rewrite <- Hx. exact Hlogs.
Defined.

Lemma handlers_wait_free_witness :
  (exists hd, sy_handlers opened !! 0%nat = Some hd /\ finished (h_prog hd) = false
     /\ exists tid sy2, sys_exec (YHandler 0 tid) opened = Some sy2)
  /\ own_steps 0 closing_events = 13%nat /\ (own_steps 0 closing_events <= 17)%nat.
Proof.
  assert (Hs : match sy_handlers opened !! 0%nat with Some hd => negb (finished (h_prog hd)) | None => false end = true) by by_compute.
  destruct (sy_handlers opened !! 0%nat) as [hd|] eqn:Hh; [|discriminate Hs]. apply negb_true_iff in Hs.
  destruct (handlers_wait_free busy_server 0 opened 0 hd busy_ok busy_bootable opened_reachable Hh) as (Hgo & Hbound & _).
  split.
  - exists hd. split; [reflexivity|]. split; [exact Hs|]. destruct Hgo as [Hf|Hgo]; [|exact Hgo]. rewrite Hf in Hs. discriminate Hs.
  - split; [by_compute|]. apply (Hbound closing_events closed).
    + apply Forall_forall. intros ev Hev. apply sys_event_okb_ok.
      assert (Hall : forallb sys_event_okb closing_events = true) by by_compute.
      rewrite forallb_forall in Hall. apply Hall. by apply list_elem_of_In.
    + exact closing_exec.
Defined.

Lemma Handler_is_execution_witness :
  rs_status <$> (Handler auction_http sample_ck busy_server).2 = Some 200
  /\ exists sy1 sy2, sys_exec (YArrive 7 auction_http) busy_boot = Some sy1 /\ rtc (hstep 7) sy1 sy2
       /\ sy_server sy2 = (Handler auction_http sample_ck busy_server).1.1 /\ sy_now sy2 = 9 * Microsecond.
Proof.
  split; [by_compute|].
  destruct (Handler_is_execution busy_boot 7 auction_http sample_ck _ _ _ ltac:(reflexivity)
    ltac:(vm_compute; intuition discriminate) (triple_eta (Handler auction_http sample_ck busy_server)))
    as (sy1 & sy2 & H1 & H2 & H3 & H4 & _).
  exists sy1, sy2. split; [exact H1|]. split; [exact H2|]. split; [exact H3|exact H4].
Defined.

(** ** From the environment to an answer *)

Abbreviation started_main := (main map_to_list sample_connect (fun _ => 1000) sample_env).
Definition started_server : Server World := match started_main with Serving _ s => s | Exited _ => sample_server end.
Definition started_events : list sys_event := [YTime 1005; YArrive 0 auction_http] ++ rounds [0]%nat 14 0.
Definition served : system World := sys_after started_events (boot started_server 1000).

Lemma started : started_main = Serving sample_store started_server.
Proof.
  assert (Hs : serving started_main = Some ["alpha"; "beta"]) by by_compute.
  assert (Hst : NewRedisStoreWithOptions (store_options (ConfigFromEnv sample_env))
    = (mkRedisClient ["127.0.0.1:6379"] "" 0 true, sample_store)) by by_compute.
  unfold started_server. destruct started_main as [code|rs s] eqn:Em; [discriminate Hs|].
  destruct (main_bootable map_to_list sample_connect (fun _ => 1000) map_to_list_any_order sample_env _ _ rs s 1000 Hst
    db_two_Consistent ltac:(vm_compute; intuition discriminate) ltac:(intros ?; vm_compute; intuition discriminate) Em) as [Hrs _].
  rewrite Hrs. reflexivity.
Qed.

Lemma served_reachable : rtc sys_step (boot started_server 1000) served.
Proof. apply sys_after_steps; by_compute. Qed.

Lemma service_sound_witness :
  Consistent sample_store (w_db (sv_store (sy_server served)))
  /\ exists a past u, answer_in 0 served = Some a /\ rsp_Bid a = Some bid2 /\ passes (boot started_server 1000) past served
       /\ fair_fill (ConfigFromEnv sample_env) sample_request past u bid2 (rsp_DynamicBidderID a).
Proof.
  assert (Hst : NewRedisStoreWithOptions (store_options (ConfigFromEnv sample_env))
    = (mkRedisClient ["127.0.0.1:6379"] "" 0 true, sample_store)) by by_compute.
  destruct (service_sound map_to_list sample_connect (fun _ => 1000) map_to_list_any_order sample_env _ sample_store sample_store
    started_server 1000 served Hst db_two_Consistent ltac:(vm_compute; intuition discriminate)
    ltac:(intros ?; vm_compute; intuition discriminate) started served_reachable) as [Hc Hsound].
  split; [exact Hc|].
  destruct (answer_in_check 0 served (sells bid2) ltac:(by_compute)) as (a & Ha & Hb%bool_decide_eq_true).
  destruct (answer_in_spec _ _ _ Ha) as (hd & resp & Hh & Hp & Hr).
  destruct (Hsound 0%nat hd resp a bid2 Hh Hp Hr Hb) as (request & past & u & Hin & Hpass & _ & _ & Hfair & _).
  assert (Hreq : request = sample_request).
  { assert (Hhd : (h_request <$> (sy_handlers served !! 0%nat)) = Some auction_http) by by_compute. rewrite Hh in Hhd.
    injection Hhd as Hhd. rewrite Hhd in Hin. assert (Hs : auction_input auction_http = Some sample_request) by by_compute. congruence. }
  subst request. exists a, past, u. exact (conj Ha (conj Hb (conj Hpass Hfair))).
Defined.

(** Another server's write, then a reconciliation up to its last refresh, and an auction. *)
Definition written_system : system World := sys_after [YCache (EUpsert bid1_new)] (boot started_server 1000).
Definition reconciled_system : system World :=
  sys_after [YCache (ETick 5); YCache (ERun 5); YCache (ERun 5); YCache (ERun 5); YCache (ERun 5)] written_system.
Definition later_system : system World := sys_after ([YCache (ERun 5)] ++ started_events) reconciled_system.

Lemma writes_become_visible_witness :
  snapshot_of (sv_cache (sy_server written_system)) "top" = Some [bid2; bid1]
  /\ snapshot_of (sv_cache (sy_server later_system)) "top" = Some [bid2; bid1_new]
  /\ shows_since sample_store "top" (w_db (sv_store (sy_server written_system))) (w_db (sv_store (sy_server later_system)))
       (sv_cache (sy_server later_system)).
Proof.
  split; [by_compute|]. split; [by_compute|].
  assert (Hst : NewRedisStoreWithOptions (store_options (ConfigFromEnv sample_env))
    = (mkRedisClient ["127.0.0.1:6379"] "" 0 true, sample_store)) by by_compute.
  apply (writes_become_visible map_to_list sample_connect (fun _ => 1000) map_to_list_any_order sample_env _ sample_store sample_store
    started_server 1000 written_system reconciled_system later_system "top" Hst db_two_Consistent ltac:(vm_compute; intuition discriminate)
    ltac:(intros ?; vm_compute; intuition discriminate) started).
  - apply sys_after_steps; by_compute.
  - intros tid t bids Ht. assert (He : sy_refreshes written_system = ∅) by by_compute. by rewrite He in Ht.
  - right. exists 5%nat, "top". split; [apply sys_after_steps; by_compute|]. split; [by_compute|]. split; [|by_compute].
    assert (He : sy_refreshes written_system = ∅) by by_compute. by rewrite He.
  - apply sys_after_steps; by_compute.
Defined.

(** The loops of that server: a message about the write, and a tick at the interval. *)
Definition node_events : list node_event :=
  [NLoop LCheck; NLoop (LSubscribed true); NServer (YCache (EUpsert bid1_new)); NLoop (LDeliver "top"); NLoop LForward; NLoop LForward;
   NLoop (LReceive 3)] ++ (NServer <$> [YCache (ERun 3); YCache (ERun 3); YCache (ERun 3); YCache (ERun 3); YTime (40 * Second)])
  ++ [NLoop LFire; NLoop (LTick 4); NServer (YArrive 0 auction_http); NServer (YHandler 0 9); NServer (YCache (ERun 4))].

Definition node_event_okb (ev : node_event) : bool := match ev with NServer ev => sys_event_okb ev | NLoop _ => true end.
Definition node_end : node World := default (node_start started_server 1000) (node_exec_all node_events (node_start started_server 1000)).

Lemma node_refines_witness :
  rtc sys_step (boot started_server 1000) (nd_system node_end)
  /\ snapshot_of (sv_cache (sy_server (nd_system node_end))) "top" = Some [bid2; bid1_new]
  /\ nd_refresher node_end = RReconcile 4
  /\ exists levs, loop_exec_all levs (Start (cache_view (boot started_server 1000))) = Some (loops_view node_end)
       /\ own levs = [LCheck; LSubscribed true; LDeliver "top"; LForward; LForward; LReceive 3; LFire; LTick 4].
Proof.
  assert (Hok : Forall node_event_ok node_events).
  { assert (Hb : forallb node_event_okb node_events = true) by by_compute. apply Forall_forall. intros ev Hev.
    rewrite forallb_forall in Hb. apply list_elem_of_In, Hb in Hev. destruct ev as [ev|ev]; [by apply sys_event_okb_ok|done]. }
  assert (Hx : node_exec_all node_events (node_start started_server 1000) = Some node_end).
  { assert (Hs : is_Someb (node_exec_all node_events (node_start started_server 1000)) = true) by by_compute.
    unfold node_end. by destruct (node_exec_all _ _). }
  destruct (node_refines started_server 1000 node_events node_end Hok Hx) as [Hr Hl].
  split; [exact Hr|]. split; [by_compute|]. split; [by_compute|exact Hl].
Defined.

(** A message about a write waits behind a refresh that has read the registry before the
    write, and a tick is due. *)
Definition waiting_events : list node_event :=
  [NLoop LCheck; NLoop (LSubscribed true); NLoop (LDeliver "top"); NLoop LForward; NLoop LForward; NLoop (LReceive 3);
   NServer (YCache (ERun 3)); NServer (YCache (EUpsert bid1_new)); NLoop (LDeliver "top"); NLoop LForward; NServer (YTime (40 * Second))].
Definition waiting_node : node World := default (node_start started_server 1000) (node_exec_all waiting_events (node_start started_server 1000)).
Definition waiting_subscription : subscription := mkSubscription [] false (FSend "top") [].


(** ** A shutdown *)

Abbreviation process_run := (process_exec sample_config).

Abbreviation process_all := (process_exec_all sample_config).

Definition process_event_okb (ev : process_event) : bool := match ev with PSystem ev => sys_event_okb ev | _ => true end.

Lemma process_all_steps evs p p2 :
  forallb process_event_okb evs = true -> process_all evs p = Some p2 -> rtc (process_step sample_config) p p2.
Proof.
  revert p. induction evs as [|ev evs IH]; simpl; intros p Hok Hx; [by injection Hx as <-|].
  apply andb_true_iff in Hok as [Hev Hok]. apply bind_Some in Hx as (p1 & H1 & Hx). eapply rtc_l; [|by apply IH].
  exists ev. split; [|done]. destruct ev; simpl in *; try done. by apply sys_event_okb_ok.
Qed.

(** The two auctions and the write are under way when the signal comes. *)
Definition signal_events : list process_event := (PSystem <$> opening_events) ++ [PCancel; PShutdown].
Definition exit_events : list process_event :=
  (PSystem <$> closing_events) ++ [PIdle; PStoreClose; PServerClose; PSystem YLogWrite; PExit].

Definition signalled : process World := default (listening busy_server 0) (process_all signal_events (listening busy_server 0)).
Definition exited : process World := default signalled (process_all exit_events signalled).

Lemma process_default evs (p q : process World) : is_Someb (process_all evs p) = true -> process_all evs p = Some (default q (process_all evs p)).
Proof. by destruct (process_all evs p). Qed.

Lemma signalled_reachable : rtc (process_step sample_config) (listening busy_server 0) signalled.
Proof. unfold signalled. apply (process_all_steps signal_events); [by_compute|]. apply process_default. by_compute. Qed.

Lemma exit_exec : process_all exit_events signalled = Some exited.
Proof. unfold exited. apply process_default. by_compute. Qed.

#[local] Opaque signalled exited.

Lemma exited_reachable : rtc (process_step sample_config) (listening busy_server 0) exited.
Proof.
  etrans; [apply signalled_reachable|]. apply (process_all_steps exit_events); [by_compute|apply exit_exec].
Qed.

Lemma busy_log_open : log_open (boot busy_server 0).
Proof. apply log_open_closed. vm_compute. discriminate. Qed.

Lemma shutdown_loses_nothing_witness :
  pr_phase exited = Gone true /\ statuses (pr_system exited) = [Some 200; Some 200; Some 200]
  /\ exists d, sv_decisionLogger (sy_server (pr_system exited)) = Some d /\ Z.of_nat (length (dl_written d)) = 1 /\ dl_entries d = [].
Proof.
  assert (Hp : pr_phase exited = Gone true) by by_compute.
  destruct (shutdown_loses_nothing sample_config busy_server 0 exited busy_ok busy_bootable busy_log_open exited_reachable Hp
    ltac:(by vm_compute)) as (_ & Hlog).
  split; [exact Hp|]. split; [by_compute|].
  assert (Hl : match sv_decisionLogger (sy_server (pr_system exited)) with Some d => Z.of_nat (length (dl_written d)) =? 1 | None => false end = true) by by_compute.
  destruct (sv_decisionLogger (sy_server (pr_system exited))) as [d|]; [|discriminate Hl]. exists d. split; [reflexivity|].
  split; [by apply Z.eqb_eq|]. exact (proj1 (Hlog d eq_refl)).
Defined.

(** The state in which the signal has come, and the shutdown has not begun. *)
Definition told : process World :=
  default (listening busy_server 0) (process_all ((PSystem <$> opening_events) ++ [PCancel]) (listening busy_server 0)).

Lemma told_reachable : rtc (process_step sample_config) (listening busy_server 0) told.
Proof. unfold told. apply (process_all_steps ((PSystem <$> opening_events) ++ [PCancel])); [by_compute|]. apply process_default. by_compute. Qed.

#[local] Opaque told.

(** Five seconds later the handlers are still running, and the process ends all the same. *)
Definition five_seconds : list process_event := [PSystem (YTime (5 + 5 * Second))].


(** With a debug server, [main] waits for its active connections until the deadline. *)
Definition debug_config : Config := {| sample_config with c_DebugAddr := "localhost:6060" |}.
Definition profiled_events : list process_event :=
  [PProfile true; PCancel; PShutdown; PIdle].
Definition profiled : option (process World) := process_exec_all debug_config profiled_events (listening busy_server 0).

Example debug_server_waits :
  (p ← profiled; Some (pr_phase p)) = Some (DebugDraining (5 * Second) true)
  /\ is_Someb (p ← profiled; process_exec debug_config PDebugDown p) = false
  /\ is_Someb (p ← profiled; process_exec debug_config PDebugTimeout p) = false
  /\ is_Someb (p ← profiled; process_exec_all debug_config [PSystem (YTime (5 * Second)); PDebugTimeout; PStoreClose] p) = true.
Proof. split_and!; by_compute. Qed.
